(** * obsidian-task-manager: the task-line grammar and the document transforms

    A shallow embedding of the text core of [src/main.ts]: the line grammar
    ([TaskUtils]), the ID assigner ([TaskIdManager]), the chronological sorter
    ([TaskSorter]), the archiver ([TaskArchiver]) and the scheduler
    ([TaskScheduler]).

    JavaScript strings are sequences of UTF-16 code units; a string is a
    [list N] here and every character class is a predicate on code units.
    The regular expressions of the source are transcribed atom by atom into
    a small regex type and run by a backtracking matcher that follows the
    greedy, leftmost discipline of the JavaScript engine. *)

From Stdlib Require Import String Ascii.
From Stdlib Require Import List NArith Arith Bool Lia.
From Stdlib Require Import Sorting.Sorted Permutation.
Import ListNotations.
Local Open Scope list_scope.

Set Implicit Arguments.

(* ================================================================== *)
(** * JavaScript strings *)
(* ================================================================== *)

Definition char := N.
Definition jsstring := list char.

(** An ASCII literal of the source, as code units. *)
Definition L (s : string) : jsstring :=
  map N_of_ascii (list_ascii_of_string s).

Definition ch (a : ascii) : char := N_of_ascii a.

Fixpoint str_eqb (a b : jsstring) : bool :=
  match a, b with
  | [], [] => true
  | x :: a', y :: b' => N.eqb x y && str_eqb a' b'
  | _, _ => false
  end.

(** [s.startsWith(l)] *)
Fixpoint starts_with (l s : jsstring) : bool :=
  match l, s with
  | [], _ => true
  | x :: l', y :: s' => N.eqb x y && starts_with l' s'
  | _ :: _, [] => false
  end.

(** [s.includes(sub)] *)
Fixpoint includes (sub s : jsstring) : bool :=
  starts_with sub s ||
  match s with
  | [] => false
  | _ :: s' => includes sub s'
  end.

(** ** Character classes *)

Definition in_range (lo hi c : N) : bool := (N.leb lo c && N.leb c hi)%bool.

(** [\s], which is also the set stripped by [trim], [trimEnd]:
    WhiteSpace and LineTerminator of ECMAScript. *)
Definition is_ws (c : char) : bool :=
  (in_range 9 13 c || N.eqb c 32 || N.eqb c 160 || N.eqb c 5760 ||
   in_range 8192 8202 c || N.eqb c 8232 || N.eqb c 8233 || N.eqb c 8239 ||
   N.eqb c 8287 || N.eqb c 12288 || N.eqb c 65279)%bool.

(** [\d] *)
Definition is_digit (c : char) : bool := in_range 48 57 c.

Definition is_line_terminator (c : char) : bool :=
  (N.eqb c 10 || N.eqb c 13 || N.eqb c 8232 || N.eqb c 8233)%bool.

(** [.] without the [s] flag: anything but a line terminator. *)
Definition is_dot (c : char) : bool := negb (is_line_terminator c).

(** [\S] *)
Definition not_ws (c : char) : bool := negb (is_ws c).

(** [\w] *)
Definition is_word (c : char) : bool :=
  (in_range 97 122 c || in_range 65 90 c || in_range 48 57 c || N.eqb c 95)%bool.

Definition is_tab (c : char) : bool := N.eqb c 9.
Definition is_nl (c : char) : bool := N.eqb c 10.

(** [[^\]]] *)
Definition not_rbracket (c : char) : bool := negb (N.eqb c 93).

(** a single given character *)
Definition is_char (a : ascii) (c : char) : bool := N.eqb c (N_of_ascii a).

(** one of the characters of [set] *)
Definition one_of (set : string) (c : char) : bool :=
  existsb (N.eqb c) (L set).

(** ** trimEnd, trim *)

Fixpoint trimEnd (s : jsstring) : jsstring :=
  match s with
  | [] => []
  | c :: s' =>
      match trimEnd s' with
      | [] => if is_ws c then [] else [c]
      | t => c :: t
      end
  end.

Fixpoint trimStart (s : jsstring) : jsstring :=
  match s with
  | [] => []
  | c :: s' => if is_ws c then trimStart s' else s
  end.

Definition trim (s : jsstring) : jsstring := trimEnd (trimStart s).

(** ** split('\n'), join('\n') *)

Fixpoint split_lines (s : jsstring) : list jsstring :=
  match s with
  | [] => [[]]
  | c :: s' =>
      if is_nl c then [] :: split_lines s'
      else match split_lines s' with
           | l :: ls => (c :: l) :: ls
           | [] => [[c]]
           end
  end.

Fixpoint join (sep : jsstring) (parts : list jsstring) : jsstring :=
  match parts with
  | [] => []
  | [p] => p
  | p :: ps => p ++ sep ++ join sep ps
  end.

Definition join_lines (ls : list jsstring) : jsstring := join [10%N] ls.

(** [s.substring(n)] for [n] within the string, [s.slice(n)] alike. *)
Definition substring_from (n : nat) (s : jsstring) : jsstring := skipn n s.

(* ================================================================== *)
(** * Regular expressions *)
(* ================================================================== *)

(** The regexes of the source are sequences of literals and quantified
    character classes.  [x+] is [One x; Star x], [x{4}] is four [One x],
    [x{1,2}] is [One x; Opt x], [x{3,}] is three [One x] and [Star x]. *)
Inductive atom :=
| Lit (l : jsstring)          (* literal text *)
| One (p : char -> bool)      (* one character of a class *)
| Opt (p : char -> bool)      (* class?, greedy *)
| Star (p : char -> bool)     (* class*, greedy *)
| Eos                         (* $ without the m flag *)
| Eol.                        (* $ with the m flag *)

Definition regex := list atom.

Definition cons_len (n : nat) (r : option (list nat)) : option (list nat) :=
  match r with
  | Some ls => Some (n :: ls)
  | None => None
  end.

(** Greedy star with backtracking: take one more character when the rest
    of the match then succeeds, otherwise stop here. *)
Fixpoint star (p : char -> bool) (k : jsstring -> option (list nat))
  (s : jsstring) : option (list nat) :=
  match s with
  | c :: s' =>
      if p c then
        match star p k s' with
        | Some (n :: ls) => Some (S n :: ls)
        | _ => cons_len 0 (k s)
        end
      else cons_len 0 (k s)
  | [] => cons_len 0 (k [])
  end.

(** [exec re s]: match [re] at the start of [s]; the result lists how many
    characters each atom consumed. *)
Fixpoint exec (re : regex) (s : jsstring) {struct re} : option (list nat) :=
  match re with
  | [] => Some []
  | Lit l :: re' =>
      if starts_with l s
      then cons_len (length l) (exec re' (skipn (length l) s))
      else None
  | One p :: re' =>
      match s with
      | c :: s' => if p c then cons_len 1 (exec re' s') else None
      | [] => None
      end
  | Opt p :: re' =>
      match s with
      | c :: s' =>
          if p c then
            match exec re' s' with
            | Some ls => Some (1 :: ls)
            | None => cons_len 0 (exec re' s)
            end
          else cons_len 0 (exec re' s)
      | [] => cons_len 0 (exec re' s)
      end
  | Star p :: re' => star p (exec re') s
  | Eos :: re' =>
      match s with
      | [] => cons_len 0 (exec re' s)
      | _ :: _ => None
      end
  | Eol :: re' =>
      match s with
      | [] => cons_len 0 (exec re' s)
      | c :: _ => if is_line_terminator c then cons_len 0 (exec re' s) else None
      end
  end.

Definition total (ls : list nat) : nat := fold_right Nat.add 0 ls.

(** Length of the match of [re] at the start of [s]. *)
Definition match_len (re : regex) (s : jsstring) : option nat :=
  option_map total (exec re s).

(** [re.test(s)] for a regex that starts with [^]. *)
Definition test_at (re : regex) (s : jsstring) : bool :=
  match exec re s with Some _ => true | None => false end.

(** Leftmost match of an unanchored regex: offset and atom lengths. *)
Fixpoint search (re : regex) (s : jsstring) : option (nat * list nat) :=
  match exec re s with
  | Some ls => Some (0, ls)
  | None =>
      match s with
      | [] => None
      | _ :: s' =>
          match search re s' with
          | Some (i, ls) => Some (S i, ls)
          | None => None
          end
      end
  end.

Definition test (re : regex) (s : jsstring) : bool :=
  match search re s with Some _ => true | None => false end.

(** The text matched by atoms [i], ..., [i + n - 1] of a match at offset
    [off]: a capture group. *)
Definition group (off : nat) (ls : list nat) (i n : nat) (s : jsstring)
  : jsstring :=
  firstn (total (firstn n (skipn i ls))) (skipn (off + total (firstn i ls)) s).

(** [s.replace(re, rep)] with the [g] flag, for a regex that never matches
    the empty string; [rep] computes the replacement from the match.
    [skip] counts the characters of the current match still to drop. *)
Fixpoint replace_all_from (re : regex)
  (rep : list nat -> jsstring -> jsstring) (skip : nat)
  (s : jsstring) : jsstring :=
  match s with
  | [] => []
  | c :: s' =>
      match skip with
      | S k => replace_all_from re rep k s'
      | O =>
          match exec re s with
          | Some ls =>
              match total ls with
              | S k => rep ls s ++ replace_all_from re rep k s'
              | O => c :: replace_all_from re rep 0 s'
              end
          | None => c :: replace_all_from re rep 0 s'
          end
      end
  end.

(** The replacement is a fixed string without [$]. *)
Definition replace_all (re : regex) (rep : jsstring) (s : jsstring) : jsstring :=
  replace_all_from re (fun _ _ => rep) 0 s.

(** [s.replace(re, '')] without the [g] flag: the leftmost match only. *)
Definition remove_first (re : regex) (s : jsstring) : jsstring :=
  match search re s with
  | Some (i, ls) => firstn i s ++ skipn (i + total ls) s
  | None => s
  end.

(** Search with the [m] flag for a regex that starts with [^]: a match
    starts at the start of the input or right after a line terminator. *)
Fixpoint search_m_from (re : regex) (at_bol : bool) (s : jsstring)
  : option (nat * list nat) :=
  match (if at_bol then exec re s else None) with
  | Some ls => Some (0, ls)
  | None =>
      match s with
      | [] => None
      | c :: s' =>
          match search_m_from re (is_line_terminator c) s' with
          | Some (i, ls) => Some (S i, ls)
          | None => None
          end
      end
  end.

Definition search_m (re : regex) (s : jsstring) : option (nat * list nat) :=
  search_m_from re true s.

(** Match at the start of the input only: a regex with [^] and no [m]. *)
Definition search_start (re : regex) (s : jsstring) : option (nat * list nat) :=
  match exec re s with
  | Some ls => Some (0, ls)
  | None => None
  end.

(** ** Replacement templates: GetSubstitution *)

Definition digit_of (c : char) : option nat :=
  if is_digit c then Some (N.to_nat (c - 48)) else None.

(** [$n] when group [n] exists, the reference itself otherwise. *)
Definition capture_ref (captures : list jsstring) (index : nat)
  (ref : jsstring) : jsstring :=
  if (1 <=? index) && (index <=? length captures)
  then nth (index - 1) captures []
  else ref.

Fixpoint get_substitution (matched before after : jsstring)
  (captures : list jsstring) (t : jsstring) : jsstring :=
  let rec := get_substitution matched before after captures in
  match t with
  | [] => []
  | c :: t1 =>
      if negb (N.eqb c 36) then c :: rec t1
      else
        match t1 with
        | [] => [c]
        | d :: t2 =>
            if N.eqb d 36 then d :: rec t2
            else if N.eqb d 38 then matched ++ rec t2
            else if N.eqb d 96 then before ++ rec t2
            else if N.eqb d 39 then after ++ rec t2
            else
              match digit_of d with
              | Some n1 =>
                  match t2 with
                  | e :: t3 =>
                      match digit_of e with
                      | Some n2 =>
                          if 10 * n1 + n2 <=? length captures
                          then capture_ref captures (10 * n1 + n2) [c; d; e]
                               ++ rec t3
                          else capture_ref captures n1 [c; d] ++ rec t2
                      | None => capture_ref captures n1 [c; d] ++ rec t2
                      end
                  | [] => capture_ref captures n1 [c; d] ++ rec t2
                  end
              | None => c :: rec t1
              end
        end
  end.

(** [s.replace(re, template)] without the [g] flag, the match [found]
    being given; [groups] lists the capture groups as atom ranges. *)
Definition replace_found (found : option (nat * list nat))
  (groups : list (nat * nat)) (template s : jsstring) : jsstring :=
  match found with
  | None => s
  | Some (off, ls) =>
      let n := total ls in
      let captures := map (fun g => group off ls (fst g) (snd g) s) groups in
      firstn off s
      ++ get_substitution (firstn n (skipn off s)) (firstn off s)
           (skipn (off + n) s) captures template
      ++ skipn (off + n) s
  end.

(* ================================================================== *)
(** * Settings *)
(* ================================================================== *)

Record Settings := {
  targetFolders : list jsstring;
  idPrefix : jsstring;
  idLength : nat;
  taskNotesFolder : jsstring
}.

Definition DEFAULT_SETTINGS : Settings := {|
  targetFolders := [L "00 - Daily/"];
  idPrefix := L "t-";
  idLength := 8;
  taskNotesFolder := L "Task Notes"
|}.

(* ================================================================== *)
(** * TaskUtils: the line grammar *)
(* ================================================================== *)

Module TaskUtils.

(** [/^[\t]*- \[.\]/] *)
Definition TASK_PATTERN : regex :=
  [Star is_tab; Lit (L "- ["); One is_dot; Lit (L "]")].
(** [/^- \[.\]/] *)
Definition PARENT_TASK_PATTERN : regex :=
  [Lit (L "- ["); One is_dot; Lit (L "]")].
(** [/^\t+- \[.\]/] *)
Definition SUBTASK_PATTERN : regex :=
  [One is_tab; Star is_tab; Lit (L "- ["); One is_dot; Lit (L "]")].
(** [/\[id::([^\]]+)\]/] *)
Definition ID_PATTERN : regex :=
  [Lit (L "[id::"); One not_rbracket; Star not_rbracket; Lit (L "]")].
(** [/\[parent::([^\]]+)\]/] *)
Definition PARENT_ID_PATTERN : regex :=
  [Lit (L "[parent::"); One not_rbracket; Star not_rbracket; Lit (L "]")].
(** [/^[\t]*- \[[xX\->]\]/] *)
Definition COMPLETED_PATTERN : regex :=
  [Star is_tab; Lit (L "- ["); One (one_of "xX->"); Lit (L "]")].
(** [/^- \[.\]\s*(\d{2}):(\d{2}) - (\d{2}):(\d{2})/] *)
Definition TIMEBLOCK_PATTERN : regex :=
  [Lit (L "- ["); One is_dot; Lit (L "]"); Star is_ws;
   One is_digit; One is_digit; Lit (L ":"); One is_digit; One is_digit;
   Lit (L " - ");
   One is_digit; One is_digit; Lit (L ":"); One is_digit; One is_digit].
(** [/^[\t]*- \[c\]/] *)
Definition CALENDAR_EVENT_PATTERN : regex :=
  [Star is_tab; Lit (L "- [c]")].

(** The capture group of [ID_PATTERN] and its like: atoms 1 and 2. *)
Definition capture1 (re : regex) (line : jsstring) : option jsstring :=
  match search re line with
  | Some (off, ls) => Some (group off ls 1 2 line)
  | None => None
  end.

(** [match ? match[1].trim() : null] *)
Definition extractId (line : jsstring) : option jsstring :=
  option_map trim (capture1 ID_PATTERN line).

Definition extractParentId (line : jsstring) : option jsstring :=
  option_map trim (capture1 PARENT_ID_PATTERN line).

(** Truthiness of a [string | null]: [null] and [''] are falsy. *)
Definition truthy (o : option jsstring) : bool :=
  match o with
  | Some (_ :: _) => true
  | _ => false
  end.

Definition isTask (line : jsstring) : bool := test_at TASK_PATTERN line.
Definition isCalendarEvent (line : jsstring) : bool :=
  test_at CALENDAR_EVENT_PATTERN line.
Definition isParentTask (line : jsstring) : bool :=
  test_at PARENT_TASK_PATTERN line.
Definition isSubtask (line : jsstring) : bool := test_at SUBTASK_PATTERN line.
Definition isCompleted (line : jsstring) : bool :=
  test_at COMPLETED_PATTERN line.

(** ['abcdefghijklmnopqrstuvwxyz0123456789'] *)
Definition chars : jsstring := L "abcdefghijklmnopqrstuvwxyz0123456789".

(** [chars.charAt(i)]: the empty string out of range. *)
Definition charAt (s : jsstring) (i : nat) : jsstring :=
  match nth_error s i with
  | Some c => [c]
  | None => []
  end.

(** [Math.floor(Math.random() * chars.length)] is some index below
    [chars.length]; [rnd k] stands for the k-th call of [Math.random],
    reduced to an index. *)
Definition random_index (rnd : nat -> nat) (k : nat) : nat :=
  rnd k mod length chars.

(** The loop of [generateId]: [n] more characters, [k] calls of
    [Math.random] made so far. *)
Fixpoint generateId_loop (rnd : nat -> nat) (n k : nat) (id : jsstring)
  : jsstring * nat :=
  match n with
  | O => (id, k)
  | S n' =>
      generateId_loop rnd n' (S k) (id ++ charAt chars (random_index rnd k))
  end.

Definition generateId (settings : Settings) (rnd : nat -> nat) (k : nat)
  : jsstring * nat :=
  generateId_loop rnd (idLength settings) k (idPrefix settings).

Definition addId (line id : jsstring) : jsstring :=
  if truthy (extractId line) then line
  else trimEnd line ++ L " [id::" ++ id ++ L "]".

(** [line.replace(/\s*\[parent::[^\]]+\]/, '')] *)
Definition removeParentId (line : jsstring) : jsstring :=
  remove_first
    [Star is_ws; Lit (L "[parent::"); One not_rbracket; Star not_rbracket;
     Lit (L "]")] line.

(** *** normalizeMetadataOrder *)

(** [TASK_PATTERN] followed by [\s*], the whole in one capture group. *)
Definition PREFIX_PATTERN : regex :=
  [Star is_tab; Lit (L "- ["); One is_dot; Lit (L "]"); Star is_ws].

(** [/\[uid::([^\]]+)\]/] *)
Definition UID_PATTERN : regex :=
  [Lit (L "[uid::"); One not_rbracket; Star not_rbracket; Lit (L "]")].

Definition DATE : regex :=
  [One is_digit; One is_digit; One is_digit; One is_digit; Lit (L "-");
   One is_digit; One is_digit; Lit (L "-"); One is_digit; One is_digit].

(** [/\[>\s*(\d{4}-\d{2}-\d{2})\]/] *)
Definition SCHEDULE_TO_PATTERN : regex :=
  [Lit (L "[>"); Star is_ws] ++ DATE ++ [Lit (L "]")].
(** [/\[<\s*(\d{4}-\d{2}-\d{2})\]/] *)
Definition SCHEDULE_FROM_PATTERN : regex :=
  [Lit (L "[<"); Star is_ws] ++ DATE ++ [Lit (L "]")].

(** The date captured by the two patterns above: atoms 2 to 11. *)
Definition captureDate (re : regex) (s : jsstring) : option jsstring :=
  match search re s with
  | Some (off, ls) => Some (group off ls 2 10 s)
  | None => None
  end.

(** The chain of [replace(..., '')] that removes every metadata field. *)
Definition stripMetadata (content : jsstring) : jsstring :=
  let c1 := replace_all (Star is_ws :: ID_PATTERN) [] content in
  let c2 := replace_all (Star is_ws :: PARENT_ID_PATTERN) [] c1 in
  let c3 := replace_all (Star is_ws :: UID_PATTERN) [] c2 in
  let c4 := replace_all (Star is_ws :: SCHEDULE_TO_PATTERN) [] c3 in
  let c5 := replace_all (Star is_ws :: SCHEDULE_FROM_PATTERN) [] c4 in
  trimEnd c5.

(** [if (m) parts.push(open + m[1] + ']')] *)
Definition push_tag (m : option jsstring) (open : string)
  (parts : list jsstring) : list jsstring :=
  match m with
  | Some v => parts ++ [L open ++ v ++ L "]"]
  | None => parts
  end.

Definition normalizeMetadataOrder (line : jsstring) : jsstring :=
  if negb (isTask line) then line
  else
    match match_len PREFIX_PATTERN line with
    | None => line
    | Some n =>
        let prefix := firstn n line in
        let content := skipn n line in
        let idMatch := capture1 ID_PATTERN content in
        let parentMatch := capture1 PARENT_ID_PATTERN content in
        let uidMatch := capture1 UID_PATTERN content in
        let scheduleToMatch := captureDate SCHEDULE_TO_PATTERN content in
        let scheduleFromMatch := captureDate SCHEDULE_FROM_PATTERN content in
        let content := stripMetadata content in
        let parts := [prefix ++ content] in
        let parts := push_tag idMatch "[id::" parts in
        let parts := push_tag parentMatch "[parent::" parts in
        let parts := push_tag uidMatch "[uid::" parts in
        let parts := push_tag scheduleFromMatch "[< " parts in
        let parts := push_tag scheduleToMatch "[> " parts in
        join (L " ") parts
    end.

(** *** getTaskSortKey *)

(** [parseInt] of two decimal digits. *)
Definition digit_val (c : char) : nat := N.to_nat (c - 48).
Definition parseInt2 (s : jsstring) : nat :=
  match s with
  | [a; b] => 10 * digit_val a + digit_val b
  | _ => 0
  end.

(** [{hasTime, start, end}]; [None] stands for [Infinity]. *)
Record SortKey := {
  hasTime : bool;
  start : option nat;
  end_ : option nat
}.

Definition getTaskSortKey (taskLine : jsstring) : SortKey :=
  match exec TIMEBLOCK_PATTERN taskLine with
  | Some ls =>
      let m1 := group 0 ls 4 2 taskLine in
      let m2 := group 0 ls 7 2 taskLine in
      let m3 := group 0 ls 10 2 taskLine in
      let m4 := group 0 ls 13 2 taskLine in
      {| hasTime := true;
         start := Some (parseInt2 m1 * 60 + parseInt2 m2);
         end_ := Some (parseInt2 m3 * 60 + parseInt2 m4) |}
  | None => {| hasTime := false; start := None; end_ := None |}
  end.

End TaskUtils.

(* ================================================================== *)
(** * TaskIdManager *)
(* ================================================================== *)

Module TaskIdManager.
Import TaskUtils.

(** One turn of the loop of [processContent]: the line pushed to [result]
    and the number of [Math.random] calls made so far. *)
Definition processLine (settings : Settings) (rnd : nat -> nat)
  (line : jsstring) (k : nat) : jsstring * nat :=
  if isCalendarEvent line then (line, k)
  else if isTask line then
    if negb (truthy (extractId line)) then
      let (id, k') := generateId settings rnd k in
      (addId line id, k')
    else (line, k)
  else (line, k).

Fixpoint processLines (settings : Settings) (rnd : nat -> nat)
  (lines : list jsstring) (k : nat) : list jsstring :=
  match lines with
  | [] => []
  | line :: rest =>
      let (line', k') := processLine settings rnd line k in
      line' :: processLines settings rnd rest k'
  end.

Definition processContent (settings : Settings) (rnd : nat -> nat)
  (content : jsstring) : jsstring :=
  join_lines (processLines settings rnd (split_lines content) 0).

End TaskIdManager.

(* ================================================================== *)
(** * Array.prototype.sort *)
(* ================================================================== *)

(** The sign of the number a comparator returns; [NaN] counts as [+0]. *)
Inductive sign := Neg | Zero | Pos.

(** [a - b] on numbers that are a natural or [Infinity] ([None]), as the
    sign of the difference: [Infinity - Infinity] is [NaN]. *)
Definition sub_sign (a b : option nat) : sign :=
  match a, b with
  | Some x, Some y =>
      if x <? y then Neg else if y <? x then Pos else Zero
  | Some _, None => Neg
  | None, Some _ => Pos
  | None, None => Zero
  end.

(** [a !== b] on the same numbers. *)
Definition num_neq (a b : option nat) : bool :=
  match a, b with
  | Some x, Some y => negb (x =? y)
  | None, None => false
  | _, _ => true
  end.

Section Sort.
Variable A : Type.
Variable cmp : A -> A -> sign.

(** [x] comes from the left of [l]: it stays before the elements it
    ties with. *)
Fixpoint insert_sorted (x : A) (l : list A) : list A :=
  match l with
  | [] => [x]
  | y :: l' =>
      match cmp x y with
      | Pos => y :: insert_sorted x l'
      | _ => x :: l
      end
  end.

(** The sort of the engine is stable (ECMAScript 2019); for a
    comparator that is a consistent order every stable sort returns
    this list. *)
Fixpoint js_sort (l : list A) : list A :=
  match l with
  | [] => []
  | x :: l' => insert_sorted x (js_sort l')
  end.
End Sort.

(* ================================================================== *)
(** * TaskSorter *)
(* ================================================================== *)

Module TaskSorter.
Import TaskUtils.

(** [/^##\s*Completed\s*$/i] *)
Definition COMPLETED_HEADING : regex :=
  [Lit (L "##"); Star is_ws;
   One (one_of "cC"); One (one_of "oO"); One (one_of "mM");
   One (one_of "pP"); One (one_of "lL"); One (one_of "eE");
   One (one_of "tT"); One (one_of "eE"); One (one_of "dD");
   Star is_ws; Eos].
(** [/^#/] *)
Definition HEADING : regex := [Lit (L "#")].

Record CompletedTask := {
  ct_id : option jsstring;
  ct_parent : jsstring;
  ct_subtasks : list jsstring
}.
Record ParentTask := {
  pt_id : option jsstring;
  pt_line : jsstring;
  pt_index : nat
}.
Record Subtask := {
  st_parentId : option jsstring;
  st_line : jsstring;
  st_index : nat
}.
Record OtherLine := {
  ol_line : jsstring;
  ol_index : nat;
  ol_isTaskArea : bool
}.
Record TaskGroup := {
  parent : jsstring;
  subtasks : list jsstring;
  sortKey : SortKey
}.

(** The variables of the first loop of [sortContent]. *)
Record Scan := {
  completedTasks : list CompletedTask;
  inCompletedSection : bool;
  allParentTasks : list ParentTask;
  allSubtasks : list Subtask;
  otherLines : list OtherLine;
  inTaskArea : bool
}.

Definition scan0 : Scan := {|
  completedTasks := []; inCompletedSection := false; allParentTasks := [];
  allSubtasks := []; otherLines := []; inTaskArea := false |}.

(** [a === b] for two values that are a string or [null]. *)
Definition id_eqb (a b : option jsstring) : bool :=
  match a, b with
  | Some x, Some y => str_eqb x y
  | None, None => true
  | _, _ => false
  end.

Definition push_subtask (line : jsstring) (t : CompletedTask) : CompletedTask :=
  {| ct_id := ct_id t; ct_parent := ct_parent t;
     ct_subtasks := ct_subtasks t ++ [line] |}.

(** [completedTasks.find(t => t.id === parentId).subtasks.push(line)];
    [None] when [find] finds nothing. *)
Fixpoint push_to_found (parentId : option jsstring) (line : jsstring)
  (ts : list CompletedTask) : option (list CompletedTask) :=
  match ts with
  | [] => None
  | t :: ts' =>
      if id_eqb (ct_id t) parentId then Some (push_subtask line t :: ts')
      else option_map (cons t) (push_to_found parentId line ts')
  end.

(** [completedTasks[completedTasks.length - 1].subtasks.push(line)] *)
Fixpoint push_to_last (line : jsstring) (ts : list CompletedTask)
  : list CompletedTask :=
  match ts with
  | [] => []
  | [t] => [push_subtask line t]
  | t :: ts' => t :: push_to_last line ts'
  end.

(** One turn of the first loop, on line [i]. *)
Definition scan_line (i : nat) (line : jsstring) (s : Scan) : Scan :=
  if test_at COMPLETED_HEADING line then
    {| completedTasks := completedTasks s; inCompletedSection := true;
       allParentTasks := allParentTasks s; allSubtasks := allSubtasks s;
       otherLines := otherLines s; inTaskArea := inTaskArea s |}
  else
    let isParent := isParentTask line in
    let isSub := isSubtask line in
    if inCompletedSection s then
      if isParent then
        {| completedTasks := completedTasks s ++
             [{| ct_id := extractId line; ct_parent := line; ct_subtasks := [] |}];
           inCompletedSection := true;
           allParentTasks := allParentTasks s; allSubtasks := allSubtasks s;
           otherLines := otherLines s; inTaskArea := inTaskArea s |}
      else if isSub && negb (Nat.eqb (length (completedTasks s)) 0) then
        let parentId := extractParentId line in
        let completed' :=
          if truthy parentId then
            match push_to_found parentId line (completedTasks s) with
            | Some ts => ts
            | None => push_to_last line (completedTasks s)
            end
          else push_to_last line (completedTasks s) in
        {| completedTasks := completed'; inCompletedSection := true;
           allParentTasks := allParentTasks s; allSubtasks := allSubtasks s;
           otherLines := otherLines s; inTaskArea := inTaskArea s |}
      else if test_at HEADING line then
        {| completedTasks := completedTasks s; inCompletedSection := false;
           allParentTasks := allParentTasks s; allSubtasks := allSubtasks s;
           otherLines := otherLines s ++
             [{| ol_line := line; ol_index := i; ol_isTaskArea := false |}];
           inTaskArea := inTaskArea s |}
      else s
    else if isParent then
      {| completedTasks := completedTasks s; inCompletedSection := false;
         allParentTasks := allParentTasks s ++
           [{| pt_id := extractId line; pt_line := line; pt_index := i |}];
         allSubtasks := allSubtasks s; otherLines := otherLines s;
         inTaskArea := true |}
    else if isSub then
      {| completedTasks := completedTasks s; inCompletedSection := false;
         allParentTasks := allParentTasks s;
         allSubtasks := allSubtasks s ++
           [{| st_parentId := extractParentId line; st_line := line;
               st_index := i |}];
         otherLines := otherLines s; inTaskArea := inTaskArea s |}
    else
      let area := if inTaskArea s && test_at HEADING line then false
                  else inTaskArea s in
      {| completedTasks := completedTasks s; inCompletedSection := false;
         allParentTasks := allParentTasks s; allSubtasks := allSubtasks s;
         otherLines := otherLines s ++
           [{| ol_line := line; ol_index := i; ol_isTaskArea := area |}];
         inTaskArea := area |}.

Fixpoint scan_lines (i : nat) (lines : list jsstring) (s : Scan) : Scan :=
  match lines with
  | [] => s
  | line :: rest => scan_lines (S i) rest (scan_line i line s)
  end.

(** [group.subtasks.includes(line)] *)
Definition mem_line (line : jsstring) (ls : list jsstring) : bool :=
  existsb (str_eqb line) ls.

(** The subtasks whose [parentId] is the id of the parent. *)
Definition linked_subtasks (p : ParentTask) (subs : list Subtask)
  : list jsstring :=
  if truthy (pt_id p)
  then map st_line (filter (fun st => id_eqb (st_parentId st) (pt_id p)) subs)
  else [].

(** [allParentTasks.filter(p => p.index < subtask.index)
       .sort((a, b) => b.index - a.index)[0]] *)
Definition closestParent (parents : list ParentTask) (st : Subtask)
  : option ParentTask :=
  hd_error
    (js_sort (fun a b => sub_sign (Some (pt_index b)) (Some (pt_index a)))
       (filter (fun p => pt_index p <? st_index st) parents)).

(** The legacy loop: subtasks without a [parentId] that directly follow
    the parent. *)
Fixpoint legacy_subtasks (parents : list ParentTask) (p : ParentTask)
  (subs : list Subtask) (acc : list jsstring) : list jsstring :=
  match subs with
  | [] => acc
  | st :: subs' =>
      let acc' :=
        if negb (truthy (st_parentId st)) then
          let isDirectChild :=
            negb (existsb (fun o => (pt_index p <? pt_index o) &&
                                    (pt_index o <? st_index st)) parents) in
          match closestParent parents st with
          | Some c =>
              if (pt_index c =? pt_index p) && isDirectChild then
                if negb (mem_line (st_line st) acc)
                then acc ++ [st_line st] else acc
              else acc
          | None => acc
          end
        else acc in
      legacy_subtasks parents p subs' acc'
  end.

Definition build_group (parents : list ParentTask) (subs : list Subtask)
  (p : ParentTask) : TaskGroup :=
  {| parent := pt_line p;
     subtasks := legacy_subtasks parents p subs (linked_subtasks p subs);
     sortKey := getTaskSortKey (pt_line p) |}.

(** The comparator of the three sorts. *)
Definition compare_keys (a b : SortKey) : sign :=
  if hasTime a && negb (hasTime b) then Neg
  else if negb (hasTime a) && hasTime b then Pos
  else if num_neq (start a) (start b) then sub_sign (start a) (start b)
  else sub_sign (end_ a) (end_ b).

Definition compare_groups (a b : TaskGroup) : sign :=
  compare_keys (sortKey a) (sortKey b).

(** An entry of [allCompleted]: its [parent] and [subtasks]. *)
Definition Entry : Type := jsstring * list jsstring.
Definition of_group (g : TaskGroup) : Entry := (parent g, subtasks g).
Definition of_completed (t : CompletedTask) : Entry :=
  (ct_parent t, ct_subtasks t).
Definition compare_entries (a b : Entry) : sign :=
  compare_keys (getTaskSortKey (fst a)) (getTaskSortKey (fst b)).

Definition emit (e : Entry) : list jsstring := fst e :: snd e.

(** [Math.max(...parents.map(index), ...subtasks.map(index))] *)
Definition max_index (parents : list ParentTask) (subs : list Subtask) : nat :=
  fold_right Nat.max 0 (map pt_index parents ++ map st_index subs).

(** [while (result.length > 0 && result[result.length - 1].trim() === '')
      result.pop()] *)
Fixpoint pop_blank_trimmed (result : list jsstring) : list jsstring :=
  match result with
  | [] => []
  | x :: r =>
      match pop_blank_trimmed r with
      | [] => match trim x with [] => [] | _ => [x] end
      | r' => x :: r'
      end
  end.

(** What the second half of [sortContent] is built from. *)
Record Parts := {
  before : list jsstring;            (* lines before the first task *)
  incompleteGroups : list TaskGroup; (* after the sort *)
  after : list jsstring;             (* lines after the last task *)
  allCompleted : list Entry          (* after the sort *)
}.

Definition sortParts (lines : list jsstring) : Parts :=
  let s := scan_lines 0 lines scan0 in
  let taskGroups :=
    map (build_group (allParentTasks s) (allSubtasks s)) (allParentTasks s) in
  let incomplete :=
    js_sort compare_groups
      (filter (fun g => negb (isCompleted (parent g))) taskGroups) in
  let completed :=
    js_sort compare_groups
      (filter (fun g => isCompleted (parent g)) taskGroups) in
  let firstTaskIndex :=
    match allParentTasks s with p :: _ => pt_index p | [] => 0 end in
  let lastTaskIndex :=
    match allParentTasks s with
    | _ :: _ => max_index (allParentTasks s) (allSubtasks s)
    | [] => 0
    end in
  {| before := map ol_line
       (filter (fun o => ol_index o <? firstTaskIndex) (otherLines s));
     incompleteGroups := incomplete;
     after := map ol_line
       (filter (fun o => lastTaskIndex <? ol_index o) (otherLines s));
     allCompleted :=
       js_sort compare_entries
         (map of_group completed ++ map of_completed (completedTasks s)) |}.

Definition rebuild (p : Parts) : list jsstring :=
  let result :=
    before p ++ flat_map (fun g => emit (of_group g)) (incompleteGroups p)
    ++ after p in
  match allCompleted p with
  | [] => result
  | _ :: _ =>
      pop_blank_trimmed result ++ [[]; L "## Completed"]
      ++ flat_map emit (allCompleted p)
  end.

Definition sortContent (content : jsstring) : jsstring :=
  join_lines (rebuild (sortParts (split_lines content))).

End TaskSorter.

(* ================================================================== *)
(** * TaskArchiver *)
(* ================================================================== *)

Module TaskArchiver.
Import TaskUtils.

(** [/^[\t]*- \[[xX>\-]\]/] *)
Definition ARCHIVE_STATES : regex :=
  [Star is_tab; Lit (L "- ["); One (one_of "xX>-"); Lit (L "]")].
(** [/^[\t]*- \[[ \/c]\]/] *)
Definition ACTIVE_STATES : regex :=
  [Star is_tab; Lit (L "- ["); One (one_of " /c"); Lit (L "]")].
(** [/^> \[!archived\]-?\s*Archived\s*$/] *)
Definition ARCHIVE_CALLOUT_START : regex :=
  [Lit (L "> [!archived]"); Opt (is_char "-"); Star is_ws;
   Lit (L "Archived"); Star is_ws; Eos].
(** [/^> /] *)
Definition ARCHIVE_LINE : regex := [Lit (L "> ")].

(** The four arrays of the first pass. *)
Record Bins := {
  calendarEvents : list jsstring;
  activeTasks : list jsstring;
  archivedTasks : list jsstring;
  existingArchiveContent : list jsstring
}.

Definition bins0 : Bins := {|
  calendarEvents := []; activeTasks := []; archivedTasks := [];
  existingArchiveContent := [] |}.

(** The inner loop [while (i < lines.length && SUBTASK_PATTERN.test(lines[i]))]:
    the subtasks collected and the lines left. *)
Fixpoint collect_subtasks (lines : list jsstring)
  : list jsstring * list jsstring :=
  match lines with
  | [] => ([], [])
  | l :: rest =>
      if test_at SUBTASK_PATTERN l then
        let (subs, rest') := collect_subtasks rest in (l :: subs, rest')
      else ([], lines)
  end.

(** The first pass.  Every turn consumes a line, so [length lines] turns
    are enough: [fuel] counts them. *)
Fixpoint categorize (fuel : nat) (lines : list jsstring)
  (inArchiveSection : bool) (b : Bins) : Bins :=
  match fuel, lines with
  | O, _ => b
  | _, [] => b
  | S fuel', line :: rest =>
      if test_at ARCHIVE_CALLOUT_START line then
        categorize fuel' rest true b
      else if inArchiveSection && test_at ARCHIVE_LINE line then
        categorize fuel' rest true
          {| calendarEvents := calendarEvents b; activeTasks := activeTasks b;
             archivedTasks := archivedTasks b;
             existingArchiveContent :=
               existingArchiveContent b ++ [substring_from 2 line] |}
      else if test_at CALENDAR_EVENT_PATTERN line then
        categorize fuel' rest false
          {| calendarEvents := calendarEvents b ++ [line];
             activeTasks := activeTasks b; archivedTasks := archivedTasks b;
             existingArchiveContent := existingArchiveContent b |}
      else if test_at ARCHIVE_STATES line then
        let (subs, rest') := collect_subtasks rest in
        categorize fuel' rest' false
          {| calendarEvents := calendarEvents b; activeTasks := activeTasks b;
             archivedTasks := archivedTasks b ++ line :: subs;
             existingArchiveContent := existingArchiveContent b |}
      else if test_at ACTIVE_STATES line then
        let (subs, rest') := collect_subtasks rest in
        categorize fuel' rest' false
          {| calendarEvents := calendarEvents b;
             activeTasks := activeTasks b ++ line :: subs;
             archivedTasks := archivedTasks b;
             existingArchiveContent := existingArchiveContent b |}
      else
        categorize fuel' rest false
          (match trim line, activeTasks b with
           | [], [] => b
           | _, _ =>
               {| calendarEvents := calendarEvents b;
                  activeTasks := activeTasks b ++ [line];
                  archivedTasks := archivedTasks b;
                  existingArchiveContent := existingArchiveContent b |}
           end)
  end.

(** [while (result.length > 0 && result[result.length - 1] === '')
      result.pop()] *)
Fixpoint pop_empty (result : list jsstring) : list jsstring :=
  match result with
  | [] => []
  | x :: r =>
      match pop_empty r with
      | [] => match x with [] => [] | _ => [x] end
      | r' => x :: r'
      end
  end.

Definition ARCHIVE_HEADER : jsstring := L "> [!archived]- Archived".

Definition build (b : Bins) : list jsstring :=
  let allArchived := archivedTasks b ++ existingArchiveContent b in
  let result := calendarEvents b ++ activeTasks b in
  match allArchived with
  | [] => result
  | _ :: _ =>
      (match result with
       | [] => []
       | _ :: _ => pop_empty result ++ repeat [] 7
       end)
      ++ ARCHIVE_HEADER :: map (fun l => L "> " ++ l) allArchived
  end.

Definition archiveLines (lines : list jsstring) : list jsstring :=
  build (categorize (length lines) lines false bins0).

Definition archiveContent (content : jsstring) : jsstring :=
  join_lines (archiveLines (split_lines content)).

End TaskArchiver.

(* ================================================================== *)
(** * The vault and the editor *)
(* ================================================================== *)

(** What [app.vault.getAbstractFileByPath] returns: a file with its
    content, or a folder. *)
Inductive AbstractFile :=
| TFile (content : jsstring)
| TFolder.

Definition Vault := list (jsstring * AbstractFile).

Fixpoint getAbstractFileByPath (v : Vault) (path : jsstring)
  : option AbstractFile :=
  match v with
  | [] => None
  | (p, f) :: v' =>
      if str_eqb p path then Some f else getAbstractFileByPath v' path
  end.

(** [app.vault.modify(file, content)] for the file at [path]. *)
Fixpoint modify (path content : jsstring) (v : Vault) : Vault :=
  match v with
  | [] => []
  | (p, f) :: v' =>
      if str_eqb p path then (p, TFile content) :: v'
      else (p, f) :: modify path content v'
  end.

Definition create (path content : jsstring) (v : Vault) : Vault :=
  v ++ [(path, TFile content)].
Definition createFolder (path : jsstring) (v : Vault) : Vault :=
  v ++ [(path, TFolder)].

(** [app.workspace.getActiveFile()] *)
Record ActiveFile := {
  path : jsstring;
  basename : jsstring
}.

(** The state the scheduler works on: the vault, the lines of the editor
    of the active file, the active file, the calendar date of
    [getCurrentDate], and the notices shown so far. *)
Record World := {
  vault : Vault;
  editor : list jsstring;
  activeFile : option ActiveFile;
  today : jsstring;
  notices : list jsstring
}.

Definition set_vault (v : Vault) (w : World) : World :=
  {| vault := v; editor := editor w; activeFile := activeFile w;
     today := today w; notices := notices w |}.
Definition set_editor (e : list jsstring) (w : World) : World :=
  {| vault := vault w; editor := e; activeFile := activeFile w;
     today := today w; notices := notices w |}.
(** [new obsidian.Notice(msg)] *)
Definition Notice (msg : jsstring) (w : World) : World :=
  {| vault := vault w; editor := editor w; activeFile := activeFile w;
     today := today w; notices := notices w ++ [msg] |}.

(** [editor.setLine(n, text)], for a [text] of one line. *)
Fixpoint setLine (n : nat) (text : jsstring) (lines : list jsstring)
  : list jsstring :=
  match n, lines with
  | _, [] => []
  | O, _ :: rest => text :: rest
  | S n', l :: rest => l :: setLine n' text rest
  end.

(* ================================================================== *)
(** * TaskNoteManager: the satellite note of a task *)
(* ================================================================== *)

Module TaskNoteManager.

(** The calendar and link icons, as the code units the source file holds. *)
Definition CAL_ICON : jsstring := [240; 376; 8220; 8230]%N.
Definition LINK_ICON : jsstring := [240; 376; 8221; 8212]%N.
Definition NOTE_ICON : jsstring := [240; 376; 8220]%N.

(** The character class of the task metadata icons. *)
Definition is_meta_icon (c : char) : bool :=
  existsb (N.eqb c)
    [171; 172; 179; 184; 186; 188; 189; 226; 239; 240; 338; 339; 376; 382;
     8212; 8220; 8221; 8224; 8226; 8230; 8250]%N.

(** [[^\]|]] *)
Definition not_rbracket_bar (c : char) : bool :=
  negb (N.eqb c 93 || N.eqb c 124).

Definition D2 : regex := [One is_digit; One is_digit].
Definition D12 : regex := [One is_digit; Opt is_digit].

Definition cleanTaskText (text : jsstring) : jsstring :=
  (* /\d{1,2}:\d{2}\s*-\s*\d{1,2}:\d{2}\s*/g *)
  let text := replace_all
    (D12 ++ [Lit (L ":")] ++ D2 ++ [Star is_ws; Lit (L "-"); Star is_ws]
     ++ D12 ++ [Lit (L ":")] ++ D2 ++ [Star is_ws]) [] text in
  let text := replace_all
    [Lit CAL_ICON; Star is_ws; Lit (L "[["); One not_rbracket;
     Star not_rbracket; Lit (L "]]")] [] text in
  let text := replace_all
    ([Lit CAL_ICON; Star is_ws] ++ TaskUtils.DATE) [] text in
  (* /#\w+/g *)
  let text := replace_all [Lit (L "#"); One is_word; Star is_word] [] text in
  let text := replace_all
    [Lit LINK_ICON; Lit (L "[["); One not_rbracket; Star not_rbracket;
     Lit (L "]]")] [] text in
  (* a wiki link, with its target and its optional display text in two
     capture groups: (m, link, display) => display || link *)
  let text := replace_all_from
    [Lit (L "[["); One not_rbracket_bar; Star not_rbracket_bar;
     Opt (is_char "|"); Star not_rbracket; Lit (L "]]")]
    (fun ls s =>
       match group 0 ls 4 1 s with
       | [] => group 0 ls 1 2 s
       | display => display
       end) 0 text in
  let text := replace_all [One is_meta_icon; Star not_ws] [] text in
  let text := replace_all [Lit NOTE_ICON] [] text in
  let text := replace_all [Lit LINK_ICON] [] text in
  (* /\s*\[[^\]]+::[^\]]*\]/g *)
  let text := replace_all
    [Star is_ws; Lit (L "["); One not_rbracket; Star not_rbracket;
     Lit (L "::"); Star not_rbracket; Lit (L "]")] [] text in
  (* /\s*\[[<>]\s*\d{4}-\d{2}-\d{2}\]/g *)
  let text := replace_all
    ([Star is_ws; Lit (L "["); One (one_of "<>"); Star is_ws]
     ++ TaskUtils.DATE ++ [Lit (L "]")]) [] text in
  (* /\s+/g *)
  let text := replace_all [One is_ws; Star is_ws] (L " ") text in
  trim text.

(** The class of the characters a file name cannot hold: backslash, slash,
    colon, star, question mark, double quote, angle brackets, bar, hash
    and square brackets. *)
Definition is_forbidden (c : char) : bool :=
  existsb (N.eqb c) [92; 47; 58; 42; 63; 34; 60; 62; 124; 35; 91; 93]%N.

Definition sanitizeFilename (text : jsstring) : jsstring :=
  let t := replace_all [One is_forbidden] (L "-") text in
  let t := replace_all [One (is_char "-"); Star (is_char "-")] (L "-") t in
  let t := replace_all [One is_ws; Star is_ws] (L " ") t in
  firstn 100 (trim t).

(** [/^- \[.\]\s*(.+)$/] *)
Definition TASK_TEXT_PATTERN : regex :=
  [Lit (L "- ["); One is_dot; Lit (L "]"); Star is_ws;
   One is_dot; Star is_dot; Eos].

Definition extractTaskTextFromLine (line : jsstring) : option jsstring :=
  match exec TASK_TEXT_PATTERN line with
  | Some ls => Some (cleanTaskText (group 0 ls 4 2 line))
  | None => None
  end.

(** [/^[\t]*- \[(.)\]/], [match ? match[1] : null] *)
Definition extractCheckboxMarker (line : jsstring) : option jsstring :=
  match exec TaskUtils.TASK_PATTERN line with
  | Some ls => Some (group 0 ls 2 1 line)
  | None => None
  end.

Definition QUOTE : jsstring := [34%N].
Definition not_quote (c : char) : bool := negb (N.eqb c 34).

(** The front-matter line [sourceFile:], white space, and a value between
    double quotes up to the end of the line ([m] flag); three capture
    groups: the field with the opening quote, the value, the closing
    quote. *)
Definition SOURCE_FILE_FIELD : regex :=
  [Lit (L "sourceFile:"); Star is_ws; Lit QUOTE; Star not_quote; Lit QUOTE;
   Eol].
(** The line [scheduled:], white space and [\S+] up to the end of the
    line ([m] flag); two capture groups: the field, the value. *)
Definition SCHEDULED_FIELD : regex :=
  [Lit (L "scheduled:"); Star is_ws; One not_ws; Star not_ws; Eol].
(** [/^(---)$/m] *)
Definition FENCE : regex := [Lit (L "---"); Eol].
(** A line that starts with the bold [Source:] label, in a capture group
    with the white space after it, and a wiki link ([m] flag). *)
Definition SOURCE_LINK : regex :=
  [Lit (L "**Source:**"); Star is_ws; Lit (L "[["); One not_rbracket;
   Star not_rbracket; Lit (L "]]")].

(** [`[[${path.replace(/\.md$/, '')}]]`] *)
Definition sourceLink (path : jsstring) : jsstring :=
  L "[[" ++ remove_first [Lit (L ".md"); Eos] path ++ L "]]".

(** The rewriting of the note's text by [updateTaskNoteSourceFile]: the new
    text and the [modified] flag. *)
Definition rewriteForSchedule (content newSourcePath scheduledDate : jsstring)
  : jsstring * bool :=
  let c1 := replace_found (search_m SOURCE_FILE_FIELD content)
              [(0, 3); (3, 1); (4, 1)]
              (L "$1" ++ newSourcePath ++ L "$3") content in
  let m1 := negb (str_eqb c1 content) in
  let '(c2, m2) :=
    match search_m SCHEDULED_FIELD c1 with
    | Some found =>
        let c := replace_found (Some found) [(0, 2); (2, 2)]
                   (L "$1" ++ scheduledDate) c1 in
        (c, if str_eqb c c1 then m1 else true)
    | None =>
        let ins := replace_found (search_m SOURCE_FILE_FIELD c1) [(0, 5)]
                     (L "$1" ++ [10%N] ++ L "scheduled: " ++ scheduledDate)
                     c1 in
        if negb (str_eqb ins c1) then (ins, true)
        else (replace_found (search_m FENCE c1) [(0, 1)]
                (L "scheduled: " ++ scheduledDate ++ [10%N] ++ L "$1") c1,
              true)
    end in
  let c3 := replace_found (search_m SOURCE_LINK c2) [(0, 2)]
              (L "$1" ++ sourceLink newSourcePath) c2 in
  (c3, if str_eqb c3 c2 then m2 else true).

(** The same by [TaskScheduler.updateTaskNoteForUnschedule]. *)
Definition rewriteForUnschedule (content currentFilePath currentDate : jsstring)
  : jsstring * bool :=
  let c1 := replace_found (search_m SOURCE_FILE_FIELD content)
              [(0, 3); (3, 1); (4, 1)]
              (L "$1" ++ currentFilePath ++ L "$3") content in
  let m1 := negb (str_eqb c1 content) in
  let '(c2, m2) :=
    match search_m SCHEDULED_FIELD c1 with
    | Some found =>
        let c := replace_found (Some found) [(0, 2); (2, 2)]
                   (L "$1" ++ currentDate) c1 in
        (c, if str_eqb c c1 then m1 else true)
    | None => (c1, m1)
    end in
  let c3 := replace_found (search_m SOURCE_LINK c2) [(0, 2)]
              (L "$1" ++ sourceLink currentFilePath) c2 in
  (c3, if str_eqb c3 c2 then m2 else true).

(** The path of the note of a task, [None] when the sanitized name is
    empty. *)
Definition notePath (settings : Settings) (taskText : jsstring)
  : option jsstring :=
  match sanitizeFilename taskText with
  | [] => None
  | name => Some (taskNotesFolder settings ++ L "/" ++ name ++ L ".md")
  end.

(** The common shape of [updateTaskNoteSourceFile] and
    [updateTaskNoteForUnschedule]: find the note, rewrite its text, and
    write it when it changed. *)
Definition updateNote (rewrite : jsstring -> jsstring * bool)
  (settings : Settings) (taskText : jsstring) (v : Vault) : Vault :=
  match notePath settings taskText with
  | None => v
  | Some filePath =>
      match getAbstractFileByPath v filePath with
      | Some (TFile content) =>
          let (content', modified) := rewrite content in
          if modified then modify filePath content' v else v
      | _ => v
      end
  end.

Definition updateTaskNoteSourceFile (settings : Settings)
  (taskText newSourcePath scheduledDate : jsstring) (v : Vault) : Vault :=
  updateNote (fun c => rewriteForSchedule c newSourcePath scheduledDate)
    settings taskText v.

End TaskNoteManager.

(* ================================================================== *)
(** * TaskScheduler *)
(* ================================================================== *)

Module TaskScheduler.
Import TaskUtils.

Definition CAL_ICON := TaskNoteManager.CAL_ICON.

Definition removeSchedulingTags (line : jsstring) : jsstring :=
  let l := replace_all (Star is_ws :: SCHEDULE_FROM_PATTERN) [] line in
  let l := replace_all (Star is_ws :: SCHEDULE_TO_PATTERN) [] l in
  (* legacy format cleanup *)
  let l := replace_all
    [Star is_ws; Lit (L "[sch_from::"); One not_rbracket; Star not_rbracket;
     Lit (L "]")] [] l in
  let l := replace_all
    [Star is_ws; Lit (L "[sch_to::"); One not_rbracket; Star not_rbracket;
     Lit (L "]")] [] l in
  let l := replace_all
    [Star is_ws; Lit CAL_ICON; Star is_ws; Lit (L "[["); One not_rbracket;
     Star not_rbracket; Lit (L "]]")] [] l in
  replace_all ([Star is_ws; Lit CAL_ICON; Star is_ws] ++ DATE) [] l.

(** [new Date().toISOString().split('T')[0]] *)
Definition getCurrentDate (w : World) : jsstring := today w.

Definition getDailyNotePath (date : jsstring) (settings : Settings) : jsstring :=
  let dailyFolder :=
    match targetFolders settings with
    | (_ :: _) as f :: _ => f
    | _ => L "00 - Daily/"
    end in
  let folder := remove_first [Lit (L "/"); Eos] dailyFolder in
  folder ++ L "/" ++ date ++ L ".md".

(** [/^([\t]*- \[)[^\]](\])/], and its two capture groups. *)
Definition MARKER : regex :=
  [Star is_tab; Lit (L "- ["); One not_rbracket; Lit (L "]")].
Definition MARKER_GROUPS : list (nat * nat) := [(0, 2); (3, 1)].

(** [line.replace(MARKER, '$1' + m + '$2')] *)
Definition setMarker (m : string) (line : jsstring) : jsstring :=
  replace_found (search_start MARKER line) MARKER_GROUPS
    (L "$1" ++ L m ++ L "$2") line.

Definition createScheduledTaskCopy (line fromDate : jsstring) : jsstring :=
  let taskCopy := setMarker " " line in
  let taskCopy := removeSchedulingTags taskCopy in
  (* /\s*\[parent::\s*[^\]]+\]/g *)
  let taskCopy := replace_all
    [Star is_ws; Lit (L "[parent::"); Star is_ws; One not_rbracket;
     Star not_rbracket; Lit (L "]")] [] taskCopy in
  trimEnd taskCopy ++ L " [< " ++ fromDate ++ L "]".

(** The checkbox with the white space after it, in a capture group, then
    the time block [\d{1,2}:\d{2}\s*-\s*\d{1,2}:\d{2}\s*]. *)
Definition TIMEBLOCK_PREFIX : regex :=
  [Star is_tab; Lit (L "- ["); One is_dot; Lit (L "]"); Star is_ws;
   One is_digit; Opt is_digit; Lit (L ":"); One is_digit; One is_digit;
   Star is_ws; Lit (L "-"); Star is_ws;
   One is_digit; Opt is_digit; Lit (L ":"); One is_digit; One is_digit;
   Star is_ws].

Definition removeTimeBlock (line : jsstring) : jsstring :=
  replace_found (search_start TIMEBLOCK_PREFIX line) [(0, 5)] (L "$1") line.

Definition markTaskAsScheduled (line toDate : jsstring) : jsstring :=
  let newLine := setMarker ">" line in
  let newLine := removeTimeBlock newLine in
  let newLine := removeSchedulingTags newLine in
  trimEnd newLine ++ L " [> " ++ toDate ++ L "]".

Definition extractScheduledToDate (line : jsstring) : option jsstring :=
  captureDate SCHEDULE_TO_PATTERN line.

(** [/^[\t]*- \[>\]/] *)
Definition isScheduledAway (line : jsstring) : bool :=
  test_at [Star is_tab; Lit (L "- [>]")] line.

(** [/^([\t]*- \[)>(\])/], replaced by ['$1 $2']. *)
Definition SCHEDULED_MARKER : regex :=
  [Star is_tab; Lit (L "- ["); Lit (L ">"); Lit (L "]")].

Definition resetMarker (line : jsstring) : jsstring :=
  replace_found (search_start SCHEDULED_MARKER line) MARKER_GROUPS
    (L "$1 $2") line.

Definition resetScheduledTask (line : jsstring) : jsstring :=
  removeSchedulingTags (resetMarker line).

(** ** The pattern built from a task id *)

(** The characters with a meaning in a pattern. *)
Definition is_syntax_char (c : char) : bool :=
  existsb (N.eqb c) [94; 36; 92; 46; 42; 43; 63; 40; 41; 91; 93; 123; 125; 124]%N.

Definition quantifier (c : char) : option (( char -> bool) -> list atom) :=
  if N.eqb c 42 then Some (fun p => [Star p])
  else if N.eqb c 43 then Some (fun p => [One p; Star p])
  else if N.eqb c 63 then Some (fun p => [Opt p])
  else None.

(** [new RegExp(src)] for the part of the pattern language an id can
    fall into here: ordinary characters and [.], each with at most one of
    the quantifiers [*], [+], [?].  Any other use of a syntax character
    (a group, a class, an escape, an assertion, a lazy or doubled
    quantifier) is outside this fragment: [None]. *)
Fixpoint parsePattern (src : jsstring) : option regex :=
  match src with
  | [] => Some []
  | c :: rest =>
      let class :=
        if N.eqb c 46 then Some is_dot
        else if is_syntax_char c then None
        else Some (N.eqb c) in
      match class with
      | None => None
      | Some p =>
          match rest with
          | q :: rest' =>
              match quantifier q with
              | Some mk =>
                  match rest' with
                  | q' :: _ =>
                      match quantifier q' with
                      | Some _ => None
                      | None => option_map (app (mk p)) (parsePattern rest')
                      end
                  | [] => Some (mk p)
                  end
              | None => option_map (cons (One p)) (parsePattern rest)
              end
          | [] => Some [One p]
          end
      end
  end.

(** [new RegExp(`\\[id::\\s*${taskId}\\]`)] *)
Definition idPattern (taskId : jsstring) : option regex :=
  option_map (fun re => [Lit (L "[id::"); Star is_ws] ++ re ++ [Lit (L "]")])
    (parsePattern taskId).

(** The same with [taskId.replace(/[.*+?^${}()|[\]\\]/g, '\\$&')]: every
    character of the id stands for itself. *)
Definition idPatternEscaped (taskId : jsstring) : regex :=
  [Lit (L "[id::"); Star is_ws; Lit taskId; Lit (L "]")].

(** ** scheduleTask *)

(** The first line that matches gets its marker reset and a fresh
    [[< fromDate]]; then [break]. *)
Fixpoint updateExisting (re : regex) (fromDate : jsstring)
  (lines : list jsstring) : list jsstring :=
  match lines with
  | [] => []
  | l :: rest =>
      if test re l then
        (trimEnd (removeSchedulingTags (setMarker " " l))
           ++ L " [< " ++ fromDate ++ L "]") :: rest
      else l :: updateExisting re fromDate rest
  end.

(** The loop over the lines after [lineNum]: every subtask gets the
    marker [>], up to the first line that is not a subtask. *)
Fixpoint markSubtasks (lines : list jsstring) : list jsstring :=
  match lines with
  | [] => []
  | l :: rest =>
      if isSubtask l then setMarker ">" l :: markSubtasks rest
      else lines
  end.

(** [s.lastIndexOf('/')], [None] for -1. *)
Fixpoint lastIndexOf (c : char) (s : jsstring) : option nat :=
  match s with
  | [] => None
  | x :: s' =>
      match lastIndexOf c s' with
      | Some i => Some (S i)
      | None => if N.eqb x c then Some 0 else None
      end
  end.

(** Get or create the target daily note. *)
Definition getOrCreate (targetPath targetDate : jsstring) (w : World)
  : World * AbstractFile :=
  match getAbstractFileByPath (vault w) targetPath with
  | Some f => (w, f)
  | None =>
      let folder :=
        match lastIndexOf (ch "/") targetPath with
        | Some i => firstn i targetPath
        | None => []
        end in
      let v :=
        match getAbstractFileByPath (vault w) folder with
        | Some _ => vault w
        | None => createFolder folder (vault w)
        end in
      (Notice (L "Created daily note: " ++ targetDate)
         (set_vault (create targetPath [] v) w),
       TFile [])
  end.

(** [scheduleTask(app, settings, editor, lineNum, targetDate)]: the value
    returned and the world after.  [None]: the model gives no result,
    for a line number out of range, and for an id whose pattern is outside
    the fragment of [parsePattern]; there the code runs on, with a pattern
    that this model does not express, and nothing is stated about it. *)
Definition scheduleTask (settings : Settings) (w : World) (lineNum : nat)
  (targetDate : jsstring) : option (bool * World) :=
  match nth_error (editor w) lineNum with
  | None => None
  | Some line =>
      if negb (isTask line) then Some (false, Notice (L "Not a task line") w)
      else if includes (L "[> " ++ targetDate ++ L "]") line then
        Some (false, Notice (L "Task already scheduled to this date") w)
      else
        let fromDate :=
          match activeFile w with
          | Some f => basename f
          | None => getCurrentDate w
          end in
        let targetPath := getDailyNotePath targetDate settings in
        let (w1, targetFile) := getOrCreate targetPath targetDate w in
        match targetFile with
        | TFolder => Some (false, Notice (L "Target is not a file") w1)
        | TFile targetContent =>
            let taskId := extractId line in
            let existing :=
              match taskId with
              | Some ((_ :: _) as id) =>
                  match idPattern id with
                  | Some re => Some (if test re targetContent then Some re else None)
                  | None => None
                  end
              | _ => Some None
              end in
            match existing with
            | None => None
            | Some found =>
                let targetContent' :=
                  match found with
                  | Some re =>
                      join_lines
                        (updateExisting re fromDate (split_lines targetContent))
                  | None =>
                      trimEnd targetContent ++ [10%N]
                        ++ createScheduledTaskCopy line fromDate
                  end in
                let w2 := set_vault (modify targetPath targetContent' (vault w1)) w1 in
                let w3 :=
                  set_editor
                    (firstn lineNum (editor w2)
                     ++ markTaskAsScheduled line targetDate
                     :: markSubtasks (skipn (S lineNum) (editor w2))) w2 in
                let w4 :=
                  match TaskNoteManager.extractTaskTextFromLine line with
                  | Some ((_ :: _) as taskText) =>
                      set_vault
                        (TaskNoteManager.updateTaskNoteSourceFile settings
                           taskText targetPath targetDate (vault w3)) w3
                  | _ => w3
                  end in
                Some (true, Notice (L "Task scheduled to " ++ targetDate) w4)
            end
        end
  end.

(** ** unscheduleTask *)

(** The loop over the lines after [lineNum]: every subtask with the
    marker [>] gets it reset, up to the first line that is not a
    subtask. *)
Fixpoint resetSubtasks (lines : list jsstring) : list jsstring :=
  match lines with
  | [] => []
  | l :: rest =>
      if isSubtask l then resetMarker l :: resetSubtasks rest
      else lines
  end.

(** [lines.splice(taskLineIndex, linesToRemove)] for the first line that
    matches and the run of subtasks below it; [None] when no line
    matches. *)
Fixpoint dropSubtasks (lines : list jsstring) : list jsstring :=
  match lines with
  | [] => []
  | l :: rest => if isSubtask l then dropSubtasks rest else lines
  end.

Fixpoint removeTaskRun (re : regex) (lines : list jsstring)
  : option (list jsstring) :=
  match lines with
  | [] => None
  | l :: rest =>
      if test re l then Some (dropSubtasks rest)
      else option_map (cons l) (removeTaskRun re rest)
  end.

(** [.replace(/\n{3,}/g, '\n\n').trimEnd()] *)
Definition collapseBlankLines (content : jsstring) : jsstring :=
  trimEnd
    (replace_all [One is_nl; One is_nl; One is_nl; Star is_nl] [10; 10]%N
       content).

Definition updateTaskNoteForUnschedule (settings : Settings)
  (taskText currentFilePath currentDate : jsstring) (v : Vault) : Vault :=
  TaskNoteManager.updateNote
    (fun c => TaskNoteManager.rewriteForUnschedule c currentFilePath currentDate)
    settings taskText v.

Definition unscheduleTask (settings : Settings) (w : World) (lineNum : nat)
  : option (bool * World) :=
  match nth_error (editor w) lineNum with
  | None => None
  | Some line =>
      if negb (isTask line) then Some (false, Notice (L "Not a task line") w)
      else
        let targetDate := extractScheduledToDate line in
        let hasScheduledMarker := isScheduledAway line in
        if negb (truthy targetDate) && negb hasScheduledMarker then
          Some (false, Notice (L "Task is not scheduled") w)
        else
          let taskId := extractId line in
          let currentDate :=
            match activeFile w with
            | Some f => basename f
            | None => getCurrentDate w
            end in
          (* steps 1 and 2: the current task and its subtasks *)
          let w1 :=
            set_editor
              (firstn lineNum (editor w)
               ++ resetScheduledTask line
               :: resetSubtasks (skipn (S lineNum) (editor w))) w in
          (* step 3: the copy in the target file *)
          let w2 :=
            match targetDate, taskId with
            | Some ((_ :: _) as date), Some ((_ :: _) as id) =>
                let targetPath := getDailyNotePath date settings in
                match getAbstractFileByPath (vault w1) targetPath with
                | Some (TFile targetContent) =>
                    match removeTaskRun (idPatternEscaped id)
                            (split_lines targetContent) with
                    | Some lines =>
                        set_vault
                          (modify targetPath
                             (collapseBlankLines (join_lines lines))
                             (vault w1)) w1
                    | None => w1
                    end
                | _ => w1
                end
            | _, _ => w1
            end in
          (* step 4: the task note *)
          let w3 :=
            match TaskNoteManager.extractTaskTextFromLine line, activeFile w with
            | Some ((_ :: _) as taskText), Some f =>
                match path f with
                | _ :: _ =>
                    set_vault
                      (updateTaskNoteForUnschedule settings taskText (path f)
                         currentDate (vault w2)) w2
                | [] => w2
                end
            | _, _ => w2
            end in
          Some (true, Notice (L "Task unscheduled") w3)
  end.

End TaskScheduler.

(* ================================================================== *)
(** * The host editor, for scenarios that span several documents *)
(* ================================================================== *)

(** Leaving the active file writes the lines of its editor to the vault;
    opening [f] reads the editor from the vault.  This is the host's part
    (the core only sees one editor and the vault); it serves to state the
    scenarios in which a task is scheduled from one daily note, then from
    the next. *)
Definition saveActive (w : World) : World :=
  match activeFile w with
  | Some f => set_vault (modify (path f) (join_lines (editor w)) (vault w)) w
  | None => w
  end.

Definition openFile (f : ActiveFile) (w : World) : option World :=
  let w' := saveActive w in
  match getAbstractFileByPath (vault w') (path f) with
  | Some (TFile content) =>
      Some {| vault := vault w'; editor := split_lines content;
              activeFile := Some f; today := today w';
              notices := notices w' |}
  | _ => None
  end.

(** The daily note of a date, as an active file. *)
Definition dailyNote (settings : Settings) (date : jsstring) : ActiveFile :=
  {| path := TaskScheduler.getDailyNotePath date settings; basename := date |}.

(** The text of the document at [p], the editor counting for the active
    file. *)
Definition documentAt (p : jsstring) (w : World) : option jsstring :=
  match getAbstractFileByPath (vault (saveActive w)) p with
  | Some (TFile c) => Some c
  | _ => None
  end.

(** [/^[\t]*- \[ \]/], the incomplete task of [BulkScheduler]. *)
Definition INCOMPLETE_TASK_PATTERN : regex :=
  [Star is_tab; Lit (L "- [ ]")].

Definition NL : jsstring := [10%N].
Definition TAB : jsstring := [9%N].

(* ================================================================== *)
(** * TimeblockUtils *)
(* ================================================================== *)

(** [n.toString()] for a non-negative integer: its decimal digits. *)
Fixpoint to_digits (fuel n : nat) (acc : jsstring) : jsstring :=
  match fuel with
  | O => acc
  | S fuel' =>
      let acc' := (48 + N.of_nat (n mod 10))%N :: acc in
      if n / 10 =? 0 then acc' else to_digits fuel' (n / 10) acc'
  end.

Definition Number_toString (n : nat) : jsstring := to_digits (S n) n [].

(** [s.padStart(n, '0')] *)
Definition padStart0 (n : nat) (s : jsstring) : jsstring :=
  repeat 48%N (n - length s) ++ s.

(** [s.indexOf(sub)], [None] for -1. *)
Fixpoint indexOf (sub s : jsstring) : option nat :=
  if starts_with sub s then Some 0
  else
    match s with
    | [] => None
    | _ :: s' =>
        match indexOf sub s' with
        | Some i => Some (S i)
        | None => None
        end
    end.

(** [s.replace(pattern, replacement)] for a string [pattern]: the first
    occurrence; the replacement is a template without capture groups. *)
Definition replace_string (pattern replacement s : jsstring) : jsstring :=
  match indexOf pattern s with
  | Some i =>
      let before := firstn i s in
      let after := skipn (i + length pattern) s in
      before ++ get_substitution pattern before after [] replacement ++ after
  | None => s
  end.

Module TimeblockUtils.

(** The checkbox with the white space after it (group 1), then
    [(\d{2}):(\d{2})\s*-\s*(\d{2}):(\d{2})] and white space. *)
Definition TIMEBLOCK : regex :=
  [Star is_tab; Lit (L "- ["); One is_dot; Lit (L "]"); Star is_ws;
   One is_digit; One is_digit; Lit (L ":"); One is_digit; One is_digit;
   Star is_ws; Lit (L "-"); Star is_ws;
   One is_digit; One is_digit; Lit (L ":"); One is_digit; One is_digit;
   Star is_ws].

Record Timeblock := {
  prefix : jsstring;
  startHour : nat;
  startMinute : nat;
  endHour : nat;
  endMinute : nat;
  fullMatch : jsstring
}.

Definition extractTimeblock (line : jsstring) : option Timeblock :=
  match exec TIMEBLOCK line with
  | Some ls =>
      Some {| prefix := group 0 ls 0 5 line;
              startHour := TaskUtils.parseInt2 (group 0 ls 5 2 line);
              startMinute := TaskUtils.parseInt2 (group 0 ls 8 2 line);
              endHour := TaskUtils.parseInt2 (group 0 ls 13 2 line);
              endMinute := TaskUtils.parseInt2 (group 0 ls 16 2 line);
              fullMatch := firstn (total ls) line |}
  | None => None
  end.

(** Hours and minutes are non-negative integers. *)
Definition formatTime (hour minute : nat) : jsstring :=
  padStart0 2 (Number_toString hour) ++ L ":"
  ++ padStart0 2 (Number_toString minute).

Definition formatDisplayTime (hour : nat) : jsstring :=
  if hour =? 0 then L "12 AM"
  else if hour =? 12 then L "12 PM"
  else if hour <? 12 then padStart0 2 (Number_toString hour) ++ L " AM"
  else padStart0 2 (Number_toString (hour - 12)) ++ L " PM".

Definition addTimeblock (line : jsstring)
  (startHour startMinute endHour endMinute : nat) : jsstring :=
  let existing := extractTimeblock line in
  let timeblock :=
    formatTime startHour startMinute ++ L " - "
    ++ formatTime endHour endMinute ++ L " " in
  match existing with
  | Some existing =>
      replace_string (fullMatch existing) (prefix existing ++ timeblock) line
  | None =>
      replace_found (search_start TaskUtils.PREFIX_PATTERN line) [(0, 5)]
        (L "$1" ++ timeblock) line
  end.

Definition removeTimeblock (line : jsstring) : jsstring :=
  replace_found (search_start TIMEBLOCK line) [(0, 5)] (L "$1") line.

(** [{ hour, minute }] *)
Definition getDefaultEndTime (startHour startMinute : nat) : nat * nat :=
  let endMinute := startMinute + 30 in
  if 60 <=? endMinute
  then ((startHour + 1) mod 24, endMinute - 60)
  else (startHour, endMinute).

End TimeblockUtils.

(* ================================================================== *)
(** * ScheduleDateUtils *)
(* ================================================================== *)

Module ScheduleDateUtils.

Definition D8 : regex :=
  [One is_digit; One is_digit; One is_digit; One is_digit;
   One is_digit; One is_digit; One is_digit; One is_digit; Eos].

(** [input.slice(a, b)] for [a <= b] within the string. *)
Definition slice (a b : nat) (s : jsstring) : jsstring :=
  firstn (b - a) (skipn a s).

(** [null] and the empty string are falsy: [None] stands for [null]. *)
Definition parseCustomDate (input : option jsstring) : option jsstring :=
  match input with
  | None | Some [] => None
  | Some input =>
      let cleaned := trim input in
      if test_at (TaskUtils.DATE ++ [Eos]) cleaned then Some cleaned
      else if test_at D8 cleaned then
        Some (slice 0 4 cleaned ++ L "-" ++ slice 4 6 cleaned ++ L "-"
              ++ slice 6 8 cleaned)
      else None
  end.

End ScheduleDateUtils.

(* ================================================================== *)
(** * BulkScheduler: the line test *)
(* ================================================================== *)

Module BulkScheduler.

(** [/^[\t]*- \[ \]/] *)
Definition isIncompleteTask (line : jsstring) : bool :=
  test_at INCOMPLETE_TASK_PATTERN line.

End BulkScheduler.

(* ================================================================== *)
(** * EventNoteManager: the file name of an event note *)
(* ================================================================== *)

(** [s.replace(re, '')] for a regex that starts with [^], without the
    [g] flag. *)
Definition remove_start (re : regex) (s : jsstring) : jsstring :=
  match exec re s with
  | Some ls => skipn (total ls) s
  | None => s
  end.

Module EventNoteManager.

(** The class of the characters removed from an event title: angle
    brackets, colon, double quote, slash, backslash, bar, question mark
    and star. *)
Definition is_special (c : char) : bool :=
  existsb (N.eqb c) [60; 62; 58; 34; 47; 92; 124; 63; 42]%N.

(** [/^\d{2}:\d{2}\s*-\s*\d{2}:\d{2}\s*/] *)
Definition TIME_RANGE_START : regex :=
  [One is_digit; One is_digit; Lit (L ":"); One is_digit; One is_digit;
   Star is_ws; Lit (L "-"); Star is_ws;
   One is_digit; One is_digit; Lit (L ":"); One is_digit; One is_digit;
   Star is_ws].

(** [/https?:\/\/[^\s]+/g] *)
Definition URL : regex :=
  [Lit (L "http"); Opt (is_char "s"); Lit (L "://"); One not_ws; Star not_ws].

(** [null] and the empty string are falsy: [None] stands for [null]. *)
Definition sanitizeFilename (text : option jsstring) : option jsstring :=
  match text with
  | None | Some [] => None
  | Some text =>
      let cleaned := remove_start TIME_RANGE_START text in
      let cleaned := replace_all URL [] cleaned in
      let cleaned := replace_all [One is_special] [] cleaned in
      let cleaned := firstn 100 (trim cleaned) in
      match cleaned with
      | [] => None
      | _ => Some cleaned
      end
  end.

(** The title of a calendar event line: the line without its checkbox,
    its time range, its [[uid::..]] and [[calendar::..]] tags and its
    URLs, trimmed.  The three patterns of the tags and of the URLs start
    with [\s*] and have the [g] flag. *)
Definition extractEventTitle (line : jsstring) : jsstring :=
  let text :=
    remove_start [Star is_tab; Lit (L "- [c]"); Star is_ws] line in
  let text := remove_start TIME_RANGE_START text in
  let text :=
    replace_all
      [Star is_ws; Lit (L "[uid::"); One not_rbracket; Star not_rbracket;
       Lit (L "]")] [] text in
  let text :=
    replace_all
      [Star is_ws; Lit (L "[calendar::"); One not_rbracket;
       Star not_rbracket; Lit (L "]")] [] text in
  let text := replace_all (Star is_ws :: URL) [] text in
  trim text.

(** [/(\d{2}:\d{2})\s*-\s*(\d{2}:\d{2})/], anywhere in the line. *)
Definition TIME_RANGE : regex :=
  [One is_digit; One is_digit; Lit (L ":"); One is_digit; One is_digit;
   Star is_ws; Lit (L "-"); Star is_ws;
   One is_digit; One is_digit; Lit (L ":"); One is_digit; One is_digit].

(** [{ start, end }], or [None] for [null]. *)
Definition extractTimeRange (line : jsstring) : option (jsstring * jsstring) :=
  match search TIME_RANGE line with
  | Some (off, ls) => Some (group off ls 0 5 line, group off ls 8 5 line)
  | None => None
  end.

End EventNoteManager.

(* ================================================================== *)
(** * TaskNoteManager: checkbox markers and status names *)
(* ================================================================== *)

(** These functions of [TaskNoteManager] come after the scheduler here
    because [updateTaskCheckbox] builds the same pattern from a task id as
    [scheduleTask]. *)
Module TaskNoteStatus.

(** [settings.statusMappings], as [Object.entries] lists it: markers and
    status names. *)
Definition StatusMappings := list (jsstring * jsstring).

(** The property of an object literal: its own entry, [None] for
    [undefined]. *)
Fixpoint own (key : jsstring) (m : StatusMappings) : option jsstring :=
  match m with
  | [] => None
  | (k, v) :: m' => if str_eqb k key then Some v else own key m'
  end.

(** The names every object inherits from [Object.prototype]; they hold
    functions and accessors, not strings. *)
Definition PROTOTYPE_KEYS : list jsstring :=
  [L "constructor"; L "toString"; L "toLocaleString"; L "valueOf";
   L "hasOwnProperty"; L "isPrototypeOf"; L "propertyIsEnumerable";
   L "__proto__"; L "__defineGetter__"; L "__defineSetter__";
   L "__lookupGetter__"; L "__lookupSetter__"].

(** [settings.statusMappings[marker] || 'incomplete']; [None] when the
    value is an inherited one, which is not a string. *)
Definition checkboxToStatus (marker : jsstring) (m : StatusMappings)
  : option jsstring :=
  match own marker m with
  | Some ((_ :: _) as name) => Some name
  | Some [] => Some (L "incomplete")
  | None =>
      if existsb (str_eqb marker) PROTOTYPE_KEYS then None
      else Some (L "incomplete")
  end.

(** The first marker whose name is [status], a space when there is
    none. *)
Fixpoint statusToCheckbox (status : jsstring) (m : StatusMappings)
  : jsstring :=
  match m with
  | [] => L " "
  | (marker, name) :: m' =>
      if str_eqb name status then marker else statusToCheckbox status m'
  end.

Definition DEFAULT_STATUS_MAPPINGS : StatusMappings :=
  [(L " ", L "incomplete"); (L "x", L "complete"); (L "X", L "complete");
   (L "/", L "in-progress"); (L "-", L "cancelled"); (L ">", L "scheduled")].

(** The first line that matches gets the marker; then [break].  The
    pattern of the replacement, tabs, [- [], any character and a closing
    bracket, with the first two and the last in a capture group each, has
    the atoms of [TASK_PATTERN] and the groups of [MARKER_GROUPS]. *)
Fixpoint updateCheckboxLine (re : regex) (newMarker : jsstring)
  (lines : list jsstring) : list jsstring :=
  match lines with
  | [] => []
  | l :: rest =>
      if test re l then
        replace_found (search_start TaskUtils.TASK_PATTERN l)
          TaskScheduler.MARKER_GROUPS (L "$1" ++ newMarker ++ L "$2") l
        :: rest
      else l :: updateCheckboxLine re newMarker rest
  end.

(** [None]: the pattern of the id is outside the fragment of
    [parsePattern]; the code runs on with a pattern that this model does
    not express, and nothing is stated about it. *)
Definition updateTaskCheckbox (content taskId newMarker : jsstring)
  : option jsstring :=
  match TaskScheduler.idPattern taskId with
  | Some re =>
      Some (join_lines (updateCheckboxLine re newMarker (split_lines content)))
  | None => None
  end.

End TaskNoteStatus.

(* ================================================================== *)
(** * ParentChildLinker *)
(* ================================================================== *)

Module ParentChildLinker.
Import TaskUtils.

(** [TaskUtils.addParentId]: a line that has a parent other than
    [parentId] gets its first parent tag replaced, the text
    [[parent::<parentId>]] being the replacement template; a line without
    a parent gets the tag appended. *)
Definition addParentId (line parentId : jsstring) : jsstring :=
  match extractParentId line with
  | Some ((_ :: _) as existingParent) =>
      if negb (str_eqb existingParent parentId) then
        replace_found (search PARENT_ID_PATTERN line) [(1, 2)]
          (L "[parent::" ++ parentId ++ L "]") line
      else line
  | _ => trimEnd line ++ L " [parent::" ++ parentId ++ L "]"
  end.

(** [/^#/] *)
Definition HEADING_LINE : regex := [Lit (L "#")].

(** One turn of the loop of [linkContent]: the line pushed to [result] and
    the new [currentParentId]. *)
Definition linkLine (line : jsstring) (currentParentId : option jsstring)
  : jsstring * option jsstring :=
  if isParentTask line then
    (if truthy (extractParentId line) then removeParentId line else line,
     extractId line)
  else if isSubtask line then
    (if negb (truthy (extractParentId line)) then
       match currentParentId with
       | Some ((_ :: _) as parentId) => addParentId line parentId
       | _ => line
       end
     else line,
     currentParentId)
  else
    (line, if test_at HEADING_LINE line then None else currentParentId).

Fixpoint linkLines (lines : list jsstring) (currentParentId : option jsstring)
  : list jsstring :=
  match lines with
  | [] => []
  | line :: rest =>
      let (line', currentParentId') := linkLine line currentParentId in
      line' :: linkLines rest currentParentId'
  end.

Definition linkContent (content : jsstring) : jsstring :=
  join_lines (linkLines (split_lines content) None).

End ParentChildLinker.

(* ================================================================== *)
(** * TaskSorter.sortByTimeBlock *)
(* ================================================================== *)

Module TimeBlockSorter.
Import TaskUtils.

(** The pattern [TIME_PATTERN]: the checkbox after tabs, white space, one
    or two digits, a colon and two digits, then a dash between white space
    and the same again. *)
Definition TIME_PATTERN : regex :=
  [Star is_tab; Lit (L "- ["); One is_dot; Lit (L "]"); Star is_ws;
   One is_digit; Opt is_digit; Lit (L ":"); One is_digit; One is_digit;
   Star is_ws; Lit (L "-"); Star is_ws;
   One is_digit; Opt is_digit; Lit (L ":"); One is_digit; One is_digit].

(** [ARCHIVE_CALLOUT_START] and [ARCHIVE_LINE] are the patterns of
    [TaskArchiver], written out again in [sortByTimeBlock]. *)

(** [parseInt] of a string of decimal digits. *)
Definition parseInt (s : jsstring) : nat :=
  fold_left (fun n c => 10 * n + digit_val c) s 0.

(** [{ line, subtasks, isEvent }], and with [startMinutes] and
    [endMinutes] the items that have a time block. *)
Record Item := {
  line : jsstring;
  subtasks : list jsstring;
  isEvent : bool
}.

Record Scheduled := {
  item : Item;
  startMinutes : nat;
  endMinutes : nat
}.

(** The three arrays of the loop. *)
Record Arrays := {
  scheduledItems : list Scheduled;
  unscheduledItems : list Item;
  archivedSection : list jsstring
}.

Definition arrays0 : Arrays := {|
  scheduledItems := []; unscheduledItems := []; archivedSection := [] |}.

(** The inner loop [while (j < lines.length && isSubtask(lines[j]))]: the
    subtasks pushed and the lines left.  A subtask with the parent id of
    another task is skipped. *)
Fixpoint collect (parentId : option jsstring) (lines : list jsstring)
  : list jsstring * list jsstring :=
  match lines with
  | [] => ([], [])
  | l :: rest =>
      if isSubtask l then
        let (subs, rest') := collect parentId rest in
        let subtaskParentId := extractParentId l in
        if negb (truthy subtaskParentId)
           || TaskSorter.id_eqb subtaskParentId parentId
        then (l :: subs, rest')
        else (subs, rest')
      else ([], lines)
  end.

Definition push_archived (l : jsstring) (s : Arrays) : Arrays :=
  {| scheduledItems := scheduledItems s;
     unscheduledItems := unscheduledItems s;
     archivedSection := archivedSection s ++ [l] |}.

(** The item of line [l], pushed to [scheduledItems] when the line has a
    time block and to [unscheduledItems] when it has none. *)
Definition push_item (l : jsstring) (subs : list jsstring) (s : Arrays)
  : Arrays :=
  let it := {| line := l; subtasks := subs; isEvent := isCalendarEvent l |} in
  match exec TIME_PATTERN l with
  | Some ls =>
      {| scheduledItems :=
           scheduledItems s
           ++ [{| item := it;
                  startMinutes :=
                    parseInt (group 0 ls 5 2 l) * 60
                    + parseInt (group 0 ls 8 2 l);
                  endMinutes :=
                    parseInt (group 0 ls 13 2 l) * 60
                    + parseInt (group 0 ls 16 2 l) |}];
         unscheduledItems := unscheduledItems s;
         archivedSection := archivedSection s |}
  | None =>
      {| scheduledItems := scheduledItems s;
         unscheduledItems := unscheduledItems s ++ [it];
         archivedSection := archivedSection s |}
  end.

(** The loop.  Every turn consumes a line, so [length lines] turns are
    enough: [fuel] counts them. *)
Fixpoint scan (fuel : nat) (lines : list jsstring)
  (inArchiveSection : bool) (s : Arrays) : Arrays :=
  match fuel, lines with
  | O, _ => s
  | _, [] => s
  | S fuel', l :: rest =>
      if test_at TaskArchiver.ARCHIVE_CALLOUT_START l then
        scan fuel' rest true (push_archived l s)
      else if inArchiveSection
              && (test_at TaskArchiver.ARCHIVE_LINE l
                  || str_eqb (trim l) []) then
        scan fuel' rest true (push_archived l s)
      else if isParentTask l || isCalendarEvent l then
        let (subs, rest') :=
          if isParentTask l then collect (extractId l) rest else ([], rest) in
        scan fuel' rest' false (push_item l subs s)
      else scan fuel' rest false s
  end.

(** The comparator of [scheduledItems.sort]. *)
Definition compare_items (a b : Scheduled) : sign :=
  if negb (startMinutes a =? startMinutes b)
  then sub_sign (Some (startMinutes a)) (Some (startMinutes b))
  else sub_sign (Some (endMinutes a)) (Some (endMinutes b)).

Definition emitItem (it : Item) : list jsstring := line it :: subtasks it.

Definition buildResult (s : Arrays) : list jsstring :=
  let sorted := js_sort compare_items (scheduledItems s) in
  flat_map (fun x => emitItem (item x)) sorted
  ++ (match unscheduledItems s, sorted with
      | _ :: _, _ :: _ => [[]]
      | _, _ => []
      end)
  ++ flat_map emitItem (unscheduledItems s)
  ++ (match archivedSection s with
      | [] => []
      | _ :: _ => [] :: archivedSection s
      end).

Definition sortLines (lines : list jsstring) : list jsstring :=
  buildResult (scan (length lines) lines false arrays0).

Definition sortByTimeBlock (content : jsstring) : jsstring :=
  join_lines (sortLines (split_lines content)).

End TimeBlockSorter.

(* ================================================================== *)
(** * IcsEventSync: the line of a calendar event *)
(* ================================================================== *)

Module IcsEventSync.
Import TaskUtils.

(** [/\[calendar::([^\]]+)\]/] *)
Definition CALENDAR_PATTERN : regex :=
  [Lit (L "[calendar::"); One not_rbracket; Star not_rbracket; Lit (L "]")].

Definition extractUid (line : jsstring) : option jsstring :=
  option_map trim (capture1 UID_PATTERN line).

Definition extractCalendar (line : jsstring) : option jsstring :=
  option_map trim (capture1 CALENDAR_PATTERN line).

(** The fields of an event of the ICS plugin that [buildEventLine] reads;
    [None] stands for a field that is missing.  [utime] is the text the
    template string prints for [event.utime]. *)
Record IcsEvent := {
  uid : option jsstring;
  time : option jsstring;
  endTime : option jsstring;
  summary : option jsstring;
  location : option jsstring;
  callUrl : option jsstring;
  utime : jsstring;
  icsName : option jsstring
}.

(** [a || b] for a string or [undefined] on the left. *)
Definition or_else (a : option jsstring) (b : jsstring) : jsstring :=
  match a with
  | Some ((_ :: _) as s) => s
  | _ => b
  end.

(** [if (field) text += ` ${field}`] *)
Definition add_field (field : option jsstring) (text : jsstring) : jsstring :=
  match field with
  | Some ((_ :: _) as s) => text ++ L " " ++ s
  | _ => text
  end.

Definition buildEventLine (event : IcsEvent) : jsstring :=
  let startTime := or_else (time event) (L "00:00") in
  let endTime := or_else (endTime event) startTime in
  let text := or_else (summary event) (L "Untitled Event") in
  let text := add_field (location event) text in
  let text := add_field (callUrl event) text in
  let uid := or_else (uid event) (L "fallback-" ++ utime event) in
  let calendarName := or_else (icsName event) [] in
  let line :=
    L "- [c] " ++ startTime ++ L " - " ++ endTime ++ L " " ++ text
    ++ L " [uid::" ++ uid ++ L "]" in
  match calendarName with
  | _ :: _ => line ++ L " [calendar::" ++ calendarName ++ L "]"
  | [] => line
  end.

End IcsEventSync.

(** ** Scenarios *)

Definition bind {A B : Type} (o : option A) (f : A -> option B) : option B :=
  match o with
  | Some a => f a
  | None => None
  end.

(** A vault with the daily note of [d1], which holds the one line [line],
    open in the editor. *)
Definition oneTaskWorld (settings : Settings) (d1 line : jsstring) : World := {|
  vault := [(L "00 - Daily", TFolder);
            (TaskScheduler.getDailyNotePath d1 settings, TFile line)];
  editor := [line];
  activeFile := Some (dailyNote settings d1);
  today := d1;
  notices := [] |}.

(** The task of [oneTaskWorld] is scheduled from [d1] to [d2], there from
    [d2] to [d3], and there from [d3] back to [d1]; the vault at the
    end. *)
Definition cycle (settings : Settings) (d1 d2 d3 line : jsstring)
  : option Vault :=
  bind (TaskScheduler.scheduleTask settings (oneTaskWorld settings d1 line) 0 d2)
    (fun r1 =>
  bind (openFile (dailyNote settings d2) (snd r1)) (fun w2 =>
  bind (TaskScheduler.scheduleTask settings w2 1 d3) (fun r3 =>
  bind (openFile (dailyNote settings d3) (snd r3)) (fun w4 =>
  bind (TaskScheduler.scheduleTask settings w4 1 d1) (fun r5 =>
  Some (vault (saveActive (snd r5)))))))).

(** [scheduleTask] on line [lineNum], then [unscheduleTask] on the same
    line. *)
Definition roundTrip (settings : Settings) (w : World) (lineNum : nat)
  (targetDate : jsstring) : option (bool * World) :=
  bind (TaskScheduler.scheduleTask settings w lineNum targetDate)
    (fun r => TaskScheduler.unscheduleTask settings (snd r) lineNum).

(* ================================================================== *)
(** * Properties *)
(* ================================================================== *)

Unset Implicit Arguments.

(** Sanity checks of the grammar on lines of the README. *)
Example isTask_example :
  TaskUtils.isTask (L "- [ ] Buy milk") = true /\
  TaskUtils.isSubtask (ch "009" :: L "- [x] Buy milk") = true /\
  TaskUtils.isTask (L "Buy milk") = false /\
  TaskUtils.extractId (L "- [ ] Buy milk [id::t-ab12cd34] x") = Some (L "t-ab12cd34").
Proof. vm_compute. repeat split. Qed.

Example normalize_example :
  TaskUtils.normalizeMetadataOrder
    (L "- [ ] Call [parent::p1] dentist [> 2025-01-12] [id::t-xy]  ")
  = L "- [ ] Call dentist [id::t-xy] [parent::p1] [> 2025-01-12]".
Proof. vm_compute. reflexivity. Qed.


Example sort_example :
  TaskSorter.sortContent
    (L "# Today" ++ NL ++ L "- [ ] write" ++ NL ++
     L "- [x] 08:00 - 09:00 run" ++ NL ++ L "- [ ] 10:00 - 11:00 call" ++ NL ++
     TAB ++ L "- [ ] dial")
  = L "# Today" ++ NL ++ L "- [ ] 10:00 - 11:00 call" ++ NL ++
    TAB ++ L "- [ ] dial" ++ NL ++ L "- [ ] write" ++ NL ++ NL ++
    L "## Completed" ++ NL ++ L "- [x] 08:00 - 09:00 run".
Proof. vm_compute. reflexivity. Qed.

Example archive_example :
  TaskArchiver.archiveContent
    (L "- [c] 09:00 - 10:00 standup" ++ NL ++ L "- [x] done" ++ NL ++
     TAB ++ L "- [ ] child" ++ NL ++ L "- [ ] open" ++ NL ++ L "note")
  = L "- [c] 09:00 - 10:00 standup" ++ NL ++ L "- [ ] open" ++ NL ++ L "note"
    ++ NL ++ NL ++ NL ++ NL ++ NL ++ NL ++ NL ++ NL ++
    L "> [!archived]- Archived" ++ NL ++ L "> - [x] done" ++ NL ++
    L "> " ++ TAB ++ L "- [ ] child".
Proof. vm_compute. reflexivity. Qed.

(* ------------------------------------------------------------------ *)
(** ** Strings *)
(* ------------------------------------------------------------------ *)

Lemma str_eqb_eq a b : str_eqb a b = true <-> a = b.
Proof.
  revert b; induction a as [|x a IH]; intros [|y b]; simpl; split;
    try congruence; try reflexivity.
  - intros H. apply andb_true_iff in H as [H1 H2].
    apply N.eqb_eq in H1. apply IH in H2. congruence.
  - intros H. inversion H; subst. rewrite N.eqb_refl. simpl. now apply IH.
Qed.

Lemma str_eqb_refl a : str_eqb a a = true.
Proof. now apply str_eqb_eq. Qed.

Lemma str_eqb_neq a b : str_eqb a b = false <-> a <> b.
Proof.
  split.
  - intros H E. apply str_eqb_eq in E. congruence.
  - intros H. destruct (str_eqb a b) eqn:E; [|reflexivity].
    apply str_eqb_eq in E. contradiction.
Qed.

Lemma starts_with_app l s : starts_with l (l ++ s) = true.
Proof. induction l; simpl; [reflexivity|]. now rewrite N.eqb_refl. Qed.

Lemma starts_with_split l s :
  starts_with l s = true -> s = l ++ skipn (length l) s.
Proof.
  revert s; induction l as [|x l IH]; intros s H; simpl in *.
  - reflexivity.
  - destruct s as [|y s]; [discriminate|].
    apply andb_true_iff in H as [H1 H2]. apply N.eqb_eq in H1. subst.
    simpl. f_equal. now apply IH.
Qed.

(* ------------------------------------------------------------------ *)
(** ** The vault *)
(* ------------------------------------------------------------------ *)

Lemma get_modify_same v p c f :
  getAbstractFileByPath v p = Some f ->
  getAbstractFileByPath (modify p c v) p = Some (TFile c).
Proof.
  induction v as [|[q g] v IH]; simpl; [discriminate|].
  destruct (str_eqb q p) eqn:E; simpl; rewrite E; auto.
Qed.

Lemma get_modify_other v p q c :
  p <> q ->
  getAbstractFileByPath (modify p c v) q = getAbstractFileByPath v q.
Proof.
  intros N. induction v as [|[r g] v IH]; simpl; [reflexivity|].
  destruct (str_eqb r p) eqn:E; simpl.
  - apply str_eqb_eq in E. subst r.
    destruct (str_eqb p q) eqn:E'; [apply str_eqb_eq in E'; contradiction|].
    reflexivity.
  - destruct (str_eqb r q); auto.
Qed.

Lemma get_modify_none v p c :
  getAbstractFileByPath v p = None -> modify p c v = v.
Proof.
  induction v as [|[q g] v IH]; simpl; [reflexivity|].
  destruct (str_eqb q p); [discriminate|]. intros H. now rewrite IH.
Qed.

Lemma get_app_some v v' p f :
  getAbstractFileByPath v p = Some f ->
  getAbstractFileByPath (v ++ v') p = Some f.
Proof.
  induction v as [|[q g] v IH]; simpl; [discriminate|].
  destruct (str_eqb q p); auto.
Qed.

Lemma get_app_none v v' p :
  getAbstractFileByPath v p = None ->
  getAbstractFileByPath (v ++ v') p = getAbstractFileByPath v' p.
Proof.
  induction v as [|[q g] v IH]; simpl; [reflexivity|].
  destruct (str_eqb q p); [discriminate|auto].
Qed.

(* ------------------------------------------------------------------ *)
(** ** C8: a request for the date the line already points to is refused *)
(* ------------------------------------------------------------------ *)

(** C8.  When the source line holds the tag [[> D]] for the requested
    date [D], [scheduleTask] returns [false] and leaves the vault (the
    target document and the task note with it) and the editor (the source
    document) as they were; only a notice is shown. *)
Theorem scheduleTask_rejects_duplicate :
  forall settings w lineNum targetDate line,
    nth_error (editor w) lineNum = Some line ->
    includes (L "[> " ++ targetDate ++ L "]") line = true ->
    exists w',
      TaskScheduler.scheduleTask settings w lineNum targetDate = Some (false, w')
      /\ vault w' = vault w /\ editor w' = editor w
      /\ activeFile w' = activeFile w.
Proof.
  intros settings w lineNum targetDate line Hline Hinc.
  unfold TaskScheduler.scheduleTask. rewrite Hline.
  destruct (TaskUtils.isTask line); cbn [negb].
  - rewrite Hinc. eexists; split; [reflexivity|]. now cbn.
  - eexists; split; [reflexivity|]. now cbn.
Qed.

Definition world_c8 : World := {|
  vault := [(L "00 - Daily", TFolder);
            (L "00 - Daily/2025-01-12.md",
             TFile (L "- [ ] Call dentist [id::t-xy] [< 2025-01-10]"))];
  editor := [L "- [>] Call dentist [id::t-xy] [> 2025-01-12]"];
  activeFile := Some {| path := L "00 - Daily/2025-01-10.md";
                        basename := L "2025-01-10" |};
  today := L "2025-01-10";
  notices := [] |}.

Lemma scheduleTask_rejects_duplicate_witness :
  exists w',
    TaskScheduler.scheduleTask DEFAULT_SETTINGS world_c8 0 (L "2025-01-12")
      = Some (false, w')
    /\ vault w' = vault world_c8 /\ editor w' = editor world_c8
    /\ activeFile w' = activeFile world_c8.
Proof.
  apply (@scheduleTask_rejects_duplicate DEFAULT_SETTINGS world_c8 0
           (L "2025-01-12") (L "- [>] Call dentist [id::t-xy] [> 2025-01-12]")).
  - reflexivity.
  - vm_compute. reflexivity.
Defined.

(* ------------------------------------------------------------------ *)
(** ** C9: the ID assigner touches only task lines without an id *)
(* ------------------------------------------------------------------ *)

Section IdAssigner.
Import TaskUtils TaskIdManager.

Lemma charAt_chars (x : nat) :
  exists c, charAt chars (x mod length chars) = [c] /\ In c chars.
Proof.
  assert (H : x mod length chars < length chars).
  { apply Nat.mod_upper_bound. discriminate. }
  unfold charAt. destruct (nth_error chars (x mod length chars)) eqn:E.
  - exists c. split; [reflexivity|]. eapply nth_error_In; eauto.
  - apply nth_error_None in E. lia.
Qed.

Lemma generateId_loop_spec rnd n : forall k id,
  exists tail,
    generateId_loop rnd n k id = (id ++ tail, k + n) /\
    length tail = n /\ Forall (fun c => In c chars) tail.
Proof.
  induction n as [|n IH]; intros k id; simpl.
  - exists []. rewrite app_nil_r, Nat.add_0_r. repeat split. constructor.
  - destruct (charAt_chars (rnd k)) as [c [Hc Hin]].
    unfold random_index. rewrite Hc.
    destruct (IH (S k) (id ++ [c])) as [tail [E [Hl Hf]]].
    exists (c :: tail). rewrite E. rewrite <- app_assoc. simpl.
    repeat split; [f_equal; lia|lia|now constructor].
Qed.

(** What [processLine] does to one line. *)
Lemma processLine_spec settings rnd line k :
  let line' := fst (processLine settings rnd line k) in
  (isCalendarEvent line = true -> line' = line) /\
  (isTask line = false -> line' = line) /\
  (truthy (extractId line) = true -> line' = line) /\
  (isTask line = true -> isCalendarEvent line = false ->
   truthy (extractId line) = false ->
   exists tail,
     length tail = idLength settings /\
     Forall (fun c => In c chars) tail /\
     line' = trimEnd line ++ L " [id::" ++ idPrefix settings ++ tail ++ L "]").
Proof.
  unfold processLine.
  destruct (isCalendarEvent line) eqn:Hc; cbn [fst].
  { repeat split; auto; discriminate. }
  destruct (isTask line) eqn:Ht; cbn [fst].
  2:{ repeat split; auto; discriminate. }
  destruct (truthy (extractId line)) eqn:Hid; cbn [negb fst].
  { repeat split; auto; discriminate. }
  unfold generateId.
  destruct (generateId_loop_spec rnd (idLength settings) k (idPrefix settings))
    as [tail [E [Hl Hf]]].
  rewrite E. cbn [fst].
  repeat split; try discriminate.
  intros _ _ _. exists tail. repeat split; auto.
  unfold addId. rewrite Hid. now rewrite <- !app_assoc.
Qed.

Lemma processLines_length settings rnd lines : forall k,
  length (processLines settings rnd lines k) = length lines.
Proof.
  induction lines as [|l ls IH]; intros k; simpl; [reflexivity|].
  destruct (processLine settings rnd l k). simpl. now rewrite IH.
Qed.

Lemma processLines_nth settings rnd lines : forall k i line,
  nth_error lines i = Some line ->
  exists k', nth_error (processLines settings rnd lines k) i
             = Some (fst (processLine settings rnd line k')).
Proof.
  induction lines as [|l ls IH]; intros k i line H.
  - destruct i; discriminate.
  - simpl. destruct (processLine settings rnd l k) as [l' k1] eqn:E.
    destruct i as [|i]; simpl in *.
    + inversion H; subst. exists k. now rewrite E.
    + eapply IH; eauto.
Qed.

End IdAssigner.

(* ------------------------------------------------------------------ *)
(** ** Lines *)
(* ------------------------------------------------------------------ *)

Definition no_nl (s : jsstring) : Prop := Forall (fun c => is_nl c = false) s.

Lemma split_lines_nonempty s : split_lines s <> [].
Proof.
  destruct s as [|c s]; simpl; [discriminate|].
  destruct (is_nl c); [discriminate|]. destruct (split_lines s); discriminate.
Qed.

Lemma split_lines_no_nl s : Forall no_nl (split_lines s).
Proof.
  induction s as [|c s IH]; simpl.
  - repeat constructor.
  - destruct (is_nl c) eqn:E.
    + constructor; [constructor|assumption].
    + destruct (split_lines s) as [|l ls]; [repeat constructor; assumption|].
      inversion IH; subst. constructor; [constructor|]; assumption.
Qed.

Lemma join_lines_cons l ls :
  ls <> [] -> join_lines (l :: ls) = l ++ NL ++ join_lines ls.
Proof. destruct ls; [congruence|reflexivity]. Qed.

Lemma split_lines_app_no_nl l s :
  no_nl l ->
  split_lines (l ++ s) =
  match split_lines s with
  | x :: xs => (l ++ x) :: xs
  | [] => [l]
  end.
Proof.
  induction 1 as [|c l Hc Hl IH]; simpl.
  - destruct (split_lines s) eqn:E; [now apply split_lines_nonempty in E|reflexivity].
  - rewrite Hc, IH. destruct (split_lines s); reflexivity.
Qed.

(** Splitting what was joined gives the lines back. *)
Lemma split_join_lines ls :
  ls <> [] -> Forall no_nl ls -> split_lines (join_lines ls) = ls.
Proof.
  induction ls as [|l ls IH]; intros Hne Hf; [congruence|].
  inversion Hf as [|? ? Hl Hls]; subst.
  destruct ls as [|l' ls'].
  - change (join_lines [l]) with l.
    replace (split_lines l) with (split_lines (l ++ [])) by now rewrite app_nil_r.
    rewrite split_lines_app_no_nl by assumption. simpl. now rewrite app_nil_r.
  - rewrite join_lines_cons by discriminate.
    rewrite split_lines_app_no_nl by assumption.
    change (NL ++ join_lines (l' :: ls')) with (10%N :: join_lines (l' :: ls')).
    cbn [split_lines is_nl N.eqb Pos.eqb]. rewrite IH by (assumption || discriminate).
    now rewrite app_nil_r.
Qed.

(** Joining what was split gives the text back. *)
Lemma join_split_lines s : join_lines (split_lines s) = s.
Proof.
  induction s as [|c s IH]; [reflexivity|]. simpl.
  destruct (is_nl c) eqn:E.
  - apply N.eqb_eq in E. subst c.
    rewrite join_lines_cons by apply split_lines_nonempty. simpl. now rewrite IH.
  - destruct (split_lines s) as [|l ls] eqn:Es; [now apply split_lines_nonempty in Es|].
    destruct ls as [|l' ls'].
    + change (c :: l = c :: s). f_equal. exact IH.
    + rewrite join_lines_cons in IH by discriminate.
      rewrite join_lines_cons by discriminate. simpl. now rewrite <- IH.
Qed.

Lemma trimEnd_prefix s : exists w, s = trimEnd s ++ w /\ Forall (fun c => is_ws c = true) w.
Proof.
  induction s as [|c s [w [E Hw]]]; simpl.
  - exists []. split; [reflexivity|constructor].
  - destruct (trimEnd s) as [|t ts] eqn:Et.
    + destruct (is_ws c) eqn:Ec.
      * exists (c :: w). simpl in E. subst s. split; [reflexivity|now constructor].
      * exists w. simpl in *. now subst.
    + exists w. split; [|assumption]. simpl. f_equal. exact E.
Qed.

Lemma trimEnd_Forall (P : char -> Prop) s : Forall P s -> Forall P (trimEnd s).
Proof.
  intros H. destruct (trimEnd_prefix s) as [w [E _]]. rewrite E in H.
  now apply Forall_app in H as [H _].
Qed.

Section IdAssignerFrame.
Import TaskUtils TaskIdManager.

Lemma chars_no_nl c : In c chars -> is_nl c = false.
Proof.
  intros H. destruct (is_nl c) eqn:E; [|reflexivity].
  apply N.eqb_eq in E. subst c. vm_compute in H.
  repeat (destruct H as [H|H]; [discriminate|]). contradiction.
Qed.

Lemma processLine_no_nl settings rnd line k :
  no_nl (idPrefix settings) -> no_nl line ->
  no_nl (fst (processLine settings rnd line k)).
Proof.
  intros Hp Hl.
  destruct (processLine_spec settings rnd line k) as [H1 [H2 [H3 H4]]].
  destruct (isCalendarEvent line) eqn:Hc; [now rewrite H1|].
  destruct (isTask line) eqn:Ht; [|now rewrite H2].
  destruct (truthy (extractId line)) eqn:Hid; [now rewrite H3|].
  destruct (H4 eq_refl eq_refl eq_refl) as [tail [_ [Hf E]]].
  rewrite E. unfold no_nl. rewrite !Forall_app. repeat split.
  - now apply trimEnd_Forall.
  - repeat constructor.
  - assumption.
  - eapply Forall_impl; [|exact Hf]. apply chars_no_nl.
  - repeat constructor.
Qed.

Lemma processLines_no_nl settings rnd lines : forall k,
  no_nl (idPrefix settings) -> Forall no_nl lines ->
  Forall no_nl (processLines settings rnd lines k).
Proof.
  induction lines as [|l ls IH]; intros k Hp Hf; simpl; [constructor|].
  inversion Hf; subst.
  pose proof (processLine_no_nl settings rnd l k Hp H1) as Hl.
  destruct (processLine settings rnd l k) as [l' k']. constructor; auto.
Qed.

(** C9, amended.  [processContent] keeps the number of lines; it leaves
    every calendar-event line, every line that is not a task and every
    task line whose [[id::..]] tag holds a non-blank token as they are; a
    task line without such an id is only trimmed at the end and given one
    tag [ [id::<prefix><N characters of the alphabet>]].  For a prefix
    without a line break the output text has these very lines. *)
Theorem processContent_frame :
  forall settings rnd content,
    let lines := split_lines content in
    let out := processLines settings rnd lines 0 in
    processContent settings rnd content = join_lines out /\
    length out = length lines /\
    (forall i line, nth_error lines i = Some line ->
       exists line', nth_error out i = Some line' /\
         (isCalendarEvent line = true -> line' = line) /\
         (isTask line = false -> line' = line) /\
         (truthy (extractId line) = true -> line' = line) /\
         (isTask line = true -> isCalendarEvent line = false ->
          truthy (extractId line) = false ->
          exists tail,
            length tail = idLength settings /\
            Forall (fun c => In c chars) tail /\
            line' = trimEnd line ++ L " [id::" ++ idPrefix settings
                      ++ tail ++ L "]")) /\
    (no_nl (idPrefix settings) ->
     split_lines (processContent settings rnd content) = out).
Proof.
  intros settings rnd content lines out.
  split; [reflexivity|]. split; [apply processLines_length|]. split.
  - intros i line H.
    destruct (processLines_nth settings rnd lines 0 i line H) as [k' E].
    eexists. split; [exact E|]. apply processLine_spec.
  - intros Hp. unfold processContent. apply split_join_lines.
    + intros E. apply (f_equal (@length _)) in E. subst out lines.
      rewrite processLines_length in E.
      destruct (split_lines content) eqn:El;
        [now apply split_lines_nonempty in El|discriminate].
    + apply processLines_no_nl; [assumption|apply split_lines_no_nl].
Qed.

End IdAssignerFrame.

(** A line whose id tag holds only a blank: [extractId] trims the token to
    the empty string, which counts as no id, and a second tag is added. *)
Lemma processContent_blank_id :
  test TaskUtils.ID_PATTERN (L "- [ ] a [id:: ]") = true /\
  TaskUtils.isTask (L "- [ ] a [id:: ]") = true /\
  TaskIdManager.processContent DEFAULT_SETTINGS (fun _ => 0)
    (L "- [ ] a [id:: ]") = L "- [ ] a [id:: ] [id::t-aaaaaaaa]".
Proof. vm_compute. repeat split. Qed.

Lemma processContent_frame_witness :
  exists line',
    nth_error (TaskIdManager.processLines DEFAULT_SETTINGS (fun n => n)
                 (split_lines (L "# Day" ++ NL ++ L "- [ ] Buy milk  ")) 0) 1
      = Some line' /\
    exists tail,
      length tail = 8 /\
      line' = L "- [ ] Buy milk" ++ L " [id::" ++ L "t-" ++ tail ++ L "]".
Proof.
  destruct (processContent_frame DEFAULT_SETTINGS (fun n => n)
              (L "# Day" ++ NL ++ L "- [ ] Buy milk  "))
    as [_ [_ [H _]]].
  destruct (H 1 (L "- [ ] Buy milk  ") eq_refl) as [line' [E [_ [_ [_ H4]]]]].
  exists line'. split; [exact E|].
  destruct (H4 eq_refl eq_refl eq_refl) as [tail [Hl [_ Ht]]].
  exists tail. split; [exact Hl|exact Ht].
Defined.

(* ------------------------------------------------------------------ *)
(** ** C3: lines between tasks *)
(* ------------------------------------------------------------------ *)

(** C3.  The sorter collects every line that is not a task in
    [otherLines] but writes back only those before the first task and
    after the last one: a note between two tasks is missing from the
    output, and so is the first line of a document without tasks. *)
Theorem sortContent_drops_line_between_tasks :
  TaskSorter.sortContent (L "- [ ] a" ++ NL ++ L "note" ++ NL ++ L "- [ ] b")
    = L "- [ ] a" ++ NL ++ L "- [ ] b" /\
  TaskSorter.sortContent (L "hello" ++ NL ++ L "world") = L "world".
Proof. vm_compute. split; reflexivity. Qed.

(* ------------------------------------------------------------------ *)
(** ** C7: the order of the sorted groups *)
(* ------------------------------------------------------------------ *)

Section SortSorted.
Variable A : Type.
Variable cmp : A -> A -> sign.
Variable P : A -> Prop.

Definition before_eq (x y : A) : Prop := cmp x y <> Pos.

Hypothesis cmp_total :
  forall x y, P x -> P y -> cmp x y = Pos -> before_eq y x.
Hypothesis cmp_trans :
  forall x y z, P x -> P y -> P z ->
    before_eq x y -> before_eq y z -> before_eq x z.

Lemma insert_sorted_Forall (Q : A -> Prop) x l :
  Q x -> Forall Q l -> Forall Q (insert_sorted cmp x l).
Proof.
  intros Hx Hl. induction Hl as [|y l Hy Hl IH]; simpl.
  - now constructor.
  - destruct (cmp x y); repeat constructor; auto.
Qed.

Lemma js_sort_Forall (Q : A -> Prop) l :
  Forall Q l -> Forall Q (js_sort cmp l).
Proof.
  induction 1; simpl; [constructor|]. now apply insert_sorted_Forall.
Qed.

Lemma insert_sorted_sorted x l :
  P x -> Forall P l -> StronglySorted before_eq l ->
  StronglySorted before_eq (insert_sorted cmp x l).
Proof.
  intros Hx Hl Hs. induction Hs as [|y l Hs IH Hy]; simpl.
  - repeat constructor.
  - inversion Hl as [|? ? HPy HPl]; subst.
    assert (Hle : before_eq x y -> StronglySorted before_eq (x :: y :: l)).
    { intros Hxy. constructor; [now constructor|].
      constructor; [exact Hxy|].
      rewrite Forall_forall in *. intros z Hz.
      apply (cmp_trans x y z); auto. }
    destruct (cmp x y) eqn:E.
    + apply Hle. unfold before_eq. congruence.
    + apply Hle. unfold before_eq. congruence.
    + constructor; [now apply IH|].
      apply insert_sorted_Forall; [|exact Hy].
      now apply cmp_total.
Qed.

Lemma js_sort_sorted l :
  Forall P l -> StronglySorted before_eq (js_sort cmp l).
Proof.
  induction 1 as [|x l Hx Hl IH]; simpl; [constructor|].
  apply insert_sorted_sorted; auto. now apply js_sort_Forall.
Qed.
End SortSorted.

Lemma StronglySorted_nth (A : Type) (R : A -> A -> Prop) l :
  StronglySorted R l ->
  forall i j a b, i < j -> nth_error l i = Some a -> nth_error l j = Some b ->
    R a b.
Proof.
  induction 1 as [|x l Hs IH Hx]; intros i j a b Hij Ha Hb.
  - destruct i; discriminate.
  - destruct j as [|j]; [lia|]. simpl in Hb.
    destruct i as [|i]; simpl in Ha.
    + inversion Ha; subst. rewrite Forall_forall in Hx. apply Hx.
      eapply nth_error_In; eauto.
    + apply (IH i j a b); [lia|assumption|assumption].
Qed.

Section SorterOrder.
Import TaskUtils TaskSorter.

(** The keys [getTaskSortKey] builds: both times, or both [Infinity]. *)
Definition wf_key (k : SortKey) : Prop :=
  (hasTime k = true /\ exists s e, start k = Some s /\ end_ k = Some e) \/
  (hasTime k = false /\ start k = None /\ end_ k = None).

Lemma getTaskSortKey_wf line : wf_key (getTaskSortKey line).
Proof.
  unfold getTaskSortKey. destruct (exec TIMEBLOCK_PATTERN line).
  - left. simpl. eauto.
  - right. simpl. auto.
Qed.

Ltac key_cases :=
  repeat match goal with
  | H : wf_key ?k |- _ =>
      destruct H as [[? [? [? [? ?]]]]|[? [? ?]]]
  end.

Lemma compare_keys_total x y :
  wf_key x -> wf_key y -> compare_keys x y = Pos -> compare_keys y x <> Pos.
Proof.
  intros Hx Hy. key_cases; unfold compare_keys, num_neq, sub_sign;
    repeat match goal with H : _ = _ |- _ => rewrite H end; simpl;
    try congruence.
  repeat match goal with
  | |- context [?a =? ?b] => destruct (Nat.eqb_spec a b)
  | |- context [?a <? ?b] => destruct (Nat.ltb_spec a b)
  end; simpl; try congruence; lia.
Qed.

Lemma compare_keys_trans x y z :
  wf_key x -> wf_key y -> wf_key z ->
  compare_keys x y <> Pos -> compare_keys y z <> Pos ->
  compare_keys x z <> Pos.
Proof.
  intros Hx Hy Hz. key_cases; unfold compare_keys, num_neq, sub_sign;
    repeat match goal with H : _ = _ |- _ => rewrite H end; simpl;
    try congruence.
  repeat match goal with
  | |- context [?a =? ?b] => destruct (Nat.eqb_spec a b)
  | |- context [?a <? ?b] => destruct (Nat.ltb_spec a b)
  end; simpl; try congruence; lia.
Qed.

(** [(a.start, a.end) <= (b.start, b.end)], lexicographically. *)
Definition lex_le (a b : nat * nat) : Prop :=
  fst a < fst b \/ (fst a = fst b /\ snd a <= snd b).

(** The order the spec asks of a list of groups, on their keys: timed
    groups by start and end, and no group without a time block before a
    group with one. *)
Definition chronological (ks : list SortKey) : Prop :=
  forall i j a b, i < j ->
    nth_error ks i = Some a -> nth_error ks j = Some b ->
    (hasTime a = true -> hasTime b = true ->
     exists sa ea sb eb,
       start a = Some sa /\ end_ a = Some ea /\
       start b = Some sb /\ end_ b = Some eb /\
       lex_le (sa, ea) (sb, eb)) /\
    (hasTime a = false -> hasTime b = false).

Lemma before_eq_chronological a b :
  wf_key a -> wf_key b -> compare_keys a b <> Pos ->
  (hasTime a = true -> hasTime b = true ->
   exists sa ea sb eb,
     start a = Some sa /\ end_ a = Some ea /\
     start b = Some sb /\ end_ b = Some eb /\
     lex_le (sa, ea) (sb, eb)) /\
  (hasTime a = false -> hasTime b = false).
Proof.
  intros Ha Hb. key_cases; unfold compare_keys, num_neq, sub_sign;
    repeat match goal with H : _ = _ |- _ => rewrite H end; simpl;
    intros Hc; split; intros; try congruence.
  do 4 eexists. repeat split; try reflexivity.
  unfold lex_le; simpl.
  revert Hc.
  repeat match goal with
  | |- context [?a =? ?b] => destruct (Nat.eqb_spec a b)
  | |- context [?a <? ?b] => destruct (Nat.ltb_spec a b)
  end; simpl; try congruence; intros; lia.
Qed.

Lemma sorted_keys_chronological (A : Type) (key : A -> SortKey) (l : list A) :
  Forall (fun x => wf_key (key x)) l ->
  chronological
    (map key (js_sort (fun a b => compare_keys (key a) (key b)) l)).
Proof.
  intros Hwf i j a b Hij Ha Hb.
  rewrite nth_error_map in Ha, Hb.
  destruct (nth_error _ i) as [x|] eqn:Ex; [|discriminate].
  destruct (nth_error _ j) as [y|] eqn:Ey; [|discriminate].
  simpl in Ha, Hb. inversion Ha; inversion Hb; subst.
  pose proof (js_sort_Forall A (fun a b => compare_keys (key a) (key b))
                (fun x => wf_key (key x)) l Hwf) as Hall.
  rewrite Forall_forall in Hall.
  apply before_eq_chronological.
  - apply Hall. eapply nth_error_In; eauto.
  - apply Hall. eapply nth_error_In; eauto.
  - refine (StronglySorted_nth A _ _
              (js_sort_sorted A (fun a b => compare_keys (key a) (key b))
                 (fun x => wf_key (key x)) _ _ l Hwf)
              i j x y Hij Ex Ey).
    + intros u v ? ? ?. now apply compare_keys_total.
    + intros u v w' ? ? ?. now apply compare_keys_trans.
Qed.

(** The keys of the groups of the output, in the order the output lists
    them: the incomplete block, then the Completed section. *)
Definition incompleteKeys (p : Parts) : list SortKey :=
  map sortKey (incompleteGroups p).
Definition completedKeys (p : Parts) : list SortKey :=
  map (fun e => getTaskSortKey (fst e)) (allCompleted p).
Definition outputKeys (p : Parts) : list SortKey :=
  incompleteKeys p ++ completedKeys p.

End SorterOrder.

(** Over the whole output the order fails: a completed group with a time
    block stands, in its section, below the incomplete group without
    one. *)
Lemma sortContent_not_chronological_across_blocks :
  TaskSorter.sortContent (L "- [x] 09:00 - 10:00 run" ++ NL ++ L "- [ ] write")
    = L "- [ ] write" ++ NL ++ NL ++ L "## Completed" ++ NL
      ++ L "- [x] 09:00 - 10:00 run" /\
  exists a b,
    nth_error
      (outputKeys
         (TaskSorter.sortParts
            (split_lines (L "- [x] 09:00 - 10:00 run" ++ NL ++ L "- [ ] write"))))
      0 = Some a /\
    nth_error
      (outputKeys
         (TaskSorter.sortParts
            (split_lines (L "- [x] 09:00 - 10:00 run" ++ NL ++ L "- [ ] write"))))
      1 = Some b /\
    TaskUtils.hasTime a = false /\ TaskUtils.hasTime b = true.
Proof.
  split; [vm_compute; reflexivity|].
  do 2 eexists. repeat split; vm_compute; reflexivity.
Qed.

(* ------------------------------------------------------------------ *)
(** ** The matcher *)
(* ------------------------------------------------------------------ *)

(** The number of leading characters of a class. *)
Fixpoint run (p : char -> bool) (s : jsstring) : nat :=
  match s with
  | c :: s' => if p c then S (run p s') else 0
  | [] => 0
  end.

Lemma cons_len_none n r : cons_len n r = None <-> r = None.
Proof. destruct r; simpl; split; congruence. Qed.

(** When what follows a star cannot start with a character of its class,
    the star takes the whole run and never gives a character back. *)
Lemma star_possessive p k s :
  (forall c s', p c = true -> k (c :: s') = None) ->
  star p k s = cons_len (run p s) (k (skipn (run p s) s)).
Proof.
  intros Hk. induction s as [|c s IH]; simpl; [reflexivity|].
  destruct (p c) eqn:Pc; [|reflexivity].
  rewrite IH. simpl.
  destruct (k (skipn (run p s) s)); simpl; [reflexivity|].
  now rewrite Hk.
Qed.

Lemma star_some p k s :
  (forall s', k s' <> None) -> star p k s <> None.
Proof.
  intros Hk. induction s as [|c s IH]; simpl.
  - rewrite cons_len_none. apply Hk.
  - destruct (p c).
    + destruct (star p k s) as [[|n ls]|]; try discriminate;
        rewrite cons_len_none; apply Hk.
    + rewrite cons_len_none. apply Hk.
Qed.

Lemma star_not_nil p k s : star p k s <> Some [].
Proof.
  induction s as [|c s IH]; simpl.
  - destruct (k []); discriminate.
  - destruct (p c).
    + destruct (star p k s) as [[|n ls]|]; try discriminate;
        destruct (k (c :: s)); discriminate.
    + destruct (k (c :: s)); discriminate.
Qed.

Lemma star_mono p (k k' : jsstring -> option (list nat)) s :
  (forall s', k s' <> None -> k' s' <> None) ->
  star p k s <> None -> star p k' s <> None.
Proof.
  intros Hk. induction s as [|c s IH]; simpl.
  - rewrite !cons_len_none. apply Hk.
  - destruct (p c); [|rewrite !cons_len_none; apply Hk].
    pose proof (star_not_nil p k' s) as Hn'.
    destruct (star p k' s) as [[|n' ls']|] eqn:E'.
    + congruence.
    + discriminate.
    + rewrite cons_len_none.
      destruct (star p k s) as [[|n ls]|] eqn:E.
      * rewrite cons_len_none. apply Hk.
      * intros _. exfalso. apply IH; [discriminate|reflexivity].
      * rewrite cons_len_none. apply Hk.
Qed.

(** A star at the end of a regex never makes a match fail. *)
Lemma exec_app_star p re : forall s,
  exec re s <> None -> exec (re ++ [Star p]) s <> None.
Proof.
  induction re as [|a re IH]; intros s H.
  - simpl. apply star_some. discriminate.
  - destruct a; simpl in *.
    + destruct (starts_with l s); [|assumption].
      rewrite cons_len_none in *. now apply IH.
    + destruct s as [|c s]; [assumption|].
      destruct (p0 c); [|assumption]. rewrite cons_len_none in *. now apply IH.
    + destruct s as [|c s].
      * rewrite cons_len_none in *. now apply IH.
      * destruct (p0 c).
        -- destruct (exec re s) eqn:E.
           ++ destruct (exec (re ++ [Star p]) s) eqn:E'; [discriminate|].
              exfalso. apply (IH s); [congruence|assumption].
           ++ destruct (exec (re ++ [Star p]) s); [discriminate|].
              rewrite cons_len_none in *. now apply IH.
        -- rewrite cons_len_none in *. now apply IH.
    + revert H. apply star_mono. intros s'. apply IH.
    + destruct s; [|assumption]. rewrite cons_len_none in *. now apply IH.
    + destruct s as [|c s].
      * rewrite cons_len_none in *. now apply IH.
      * destruct (is_line_terminator c); [|assumption].
        rewrite cons_len_none in *. now apply IH.
Qed.

Lemma join_cons sep x ts :
  join sep (x :: ts) = x ++ flat_map (fun t => sep ++ t) ts.
Proof.
  revert x; induction ts as [|t ts IH]; intros x.
  - simpl. now rewrite app_nil_r.
  - change (join sep (x :: t :: ts)) with (x ++ sep ++ join sep (t :: ts)).
    rewrite IH. simpl. now rewrite <- !app_assoc.
Qed.

(** Character tests compute on given characters and stay folded on
    variables. *)
Arguments N.eqb !n !m.
Arguments N.leb !x !y.
Arguments is_ws !c.
Arguments is_dot !c.
Arguments is_tab !c.
Arguments is_nl !c.
Arguments is_digit !c.
Arguments is_line_terminator !c.
Arguments not_rbracket !c.
Arguments not_ws !c.
Arguments one_of set !c.
Arguments is_char a !c.

(* ------------------------------------------------------------------ *)
(** ** C4: the partition made by the archiver *)
(* ------------------------------------------------------------------ *)

Section Archiver.
Import TaskUtils TaskArchiver.

(** The output read back: the lines before the callout header and the
    lines after it. *)
Fixpoint callout_split (out : list jsstring)
  : list jsstring * list jsstring :=
  match out with
  | [] => ([], [])
  | l :: rest =>
      if test_at ARCHIVE_CALLOUT_START l then ([], rest)
      else let (a, b) := callout_split rest in (l :: a, b)
  end.

(** [line] is one of the lines of the callout, under its [> ] prefix. *)
Definition inside_callout (out : list jsstring) (line : jsstring) : Prop :=
  In (L "> " ++ line) (snd (callout_split out)).

(** [line] is one of the lines before the callout. *)
Definition outside_callout (out : list jsstring) (line : jsstring) : Prop :=
  In line (fst (callout_split out)).

Definition is_archive_marker (m : char) : bool := one_of "xX>-" m.
Definition is_active_marker (m : char) : bool := one_of " /" m.

Ltac char_tests H :=
  repeat match type of H with
  | context [N.eqb ?a ?b] =>
      destruct (N.eqb_spec a b); simpl in H; try discriminate
  end.

(** A top-level task line is [- [m]] and the rest. *)
Lemma isParentTask_inv line :
  isParentTask line = true ->
  exists m rest, line = L "- [" ++ m :: L "]" ++ rest /\ is_dot m = true.
Proof.
  unfold isParentTask, test_at, PARENT_TASK_PATTERN. intros H.
  destruct line as [|c1 [|c2 [|c3 [|m [|c5 r]]]]]; try discriminate;
    simpl in H; char_tests H;
    try (destruct (is_dot m) eqn:E; simpl in H; try discriminate).
  char_tests H. subst.
  exists m, r. split; [reflexivity|exact E].
Qed.

(** How the tests of the first pass answer on a top-level task line. *)
Lemma parent_tests m rest :
  is_dot m = true ->
  let line := L "- [" ++ m :: L "]" ++ rest in
  test_at ARCHIVE_CALLOUT_START line = false /\
  test_at ARCHIVE_LINE line = false /\
  test_at SUBTASK_PATTERN line = false /\
  test_at CALENDAR_EVENT_PATTERN line = N.eqb 99 m /\
  test_at ARCHIVE_STATES line = is_archive_marker m /\
  test_at ACTIVE_STATES line = one_of " /c" m /\
  TaskNoteManager.extractCheckboxMarker line = Some [m].
Proof.
  intros Hm line. subst line.
  unfold test_at, TaskNoteManager.extractCheckboxMarker, is_archive_marker.
  simpl. rewrite Hm. simpl.
  repeat split.
  - destruct (N.eqb 99 m); reflexivity.
  - destruct (one_of "xX>-" m); reflexivity.
  - destruct (one_of " /c" m); reflexivity.
Qed.

Lemma markers_disjoint m :
  is_archive_marker m = true -> is_active_marker m = true -> False.
Proof.
  unfold is_archive_marker, is_active_marker, one_of. simpl.
  repeat match goal with
  | |- context [N.eqb ?a ?b] => destruct (N.eqb_spec a b); subst; simpl
  end; discriminate.
Qed.

Lemma active_marker_active m :
  is_active_marker m = true -> one_of " /c" m = true /\ N.eqb 99 m = false.
Proof.
  unfold is_active_marker, one_of. simpl.
  repeat match goal with
  | |- context [N.eqb ?a ?b] => destruct (N.eqb_spec a b); subst; simpl
  end; try discriminate; intros; split; reflexivity.
Qed.

Lemma archive_marker_not_calendar m :
  is_archive_marker m = true -> N.eqb 99 m = false.
Proof.
  unfold is_archive_marker, one_of. simpl.
  repeat match goal with
  | |- context [N.eqb ?a ?b] => destruct (N.eqb_spec a b); subst; simpl
  end; try discriminate; reflexivity.
Qed.

Definition is_subtask_line (l : jsstring) : Prop :=
  test_at SUBTASK_PATTERN l = true.

Lemma subtask_not_callout l :
  is_subtask_line l -> test_at ARCHIVE_CALLOUT_START l = false.
Proof.
  unfold is_subtask_line, test_at. destruct l as [|c l]; [discriminate|].
  simpl. destruct (is_tab c) eqn:E; [|discriminate].
  apply N.eqb_eq in E. subst c. reflexivity.
Qed.

Lemma collect_subtasks_spec lines :
  lines = fst (collect_subtasks lines) ++ snd (collect_subtasks lines) /\
  Forall is_subtask_line (fst (collect_subtasks lines)).
Proof.
  induction lines as [|l ls [IH1 IH2]]; simpl.
  - split; [reflexivity|constructor].
  - destruct (test_at SUBTASK_PATTERN l) eqn:E.
    + destruct (collect_subtasks ls) as [subs rest']. simpl in *.
      split; [now f_equal|now constructor].
    + split; [reflexivity|constructor].
Qed.

(** The inner loop takes the whole run of subtasks. *)
Lemma collect_subtasks_run subs post :
  Forall is_subtask_line subs ->
  collect_subtasks (subs ++ post) =
  (subs ++ fst (collect_subtasks post), snd (collect_subtasks post)).
Proof.
  induction 1 as [|l subs Hl Hs IH]; simpl.
  - now destruct (collect_subtasks post).
  - rewrite Hl, IH. reflexivity.
Qed.

(** The inner loop stops at a line that is not a subtask, or before. *)
Lemma collect_subtasks_stop pre pl tail :
  test_at SUBTASK_PATTERN pl = false ->
  exists pre', snd (collect_subtasks (pre ++ pl :: tail)) = pre' ++ pl :: tail.
Proof.
  intros Hpl. induction pre as [|x pre [pre' IH]]; simpl.
  - rewrite Hpl. now exists [].
  - destruct (test_at SUBTASK_PATTERN x).
    + destruct (collect_subtasks (pre ++ pl :: tail)). simpl in *. now exists pre'.
    + now exists (x :: pre).
Qed.

Lemma collect_subtasks_length lines :
  length (snd (collect_subtasks lines)) <= length lines.
Proof.
  induction lines as [|l ls IH]; simpl; [lia|].
  destruct (test_at SUBTASK_PATTERN l); simpl; [|lia].
  destruct (collect_subtasks ls). simpl in *. lia.
Qed.

(** No line before the callout reads as a callout header. *)
Definition clean (b : Bins) : Prop :=
  Forall (fun l => test_at ARCHIVE_CALLOUT_START l = false)
    (calendarEvents b ++ activeTasks b).

(** A top-level task line. *)
Definition PL (m : char) (rest : jsstring) : jsstring :=
  L "- [" ++ m :: L "]" ++ rest.

(** Every top-level task of [lines], with the run [subs] of subtasks
    below it, is in the bin its marker selects. *)
Definition placed (lines : list jsstring) (b' : Bins) : Prop :=
  forall pre m rest subs post,
    is_dot m = true ->
    lines = pre ++ PL m rest :: subs ++ post ->
    Forall is_subtask_line subs ->
    (is_archive_marker m = true -> incl (PL m rest :: subs) (archivedTasks b')) /\
    (is_active_marker m = true -> incl (PL m rest :: subs) (activeTasks b')).

Definition head_placed (line : jsstring) (tl : list jsstring) (b1 : Bins)
  : Prop :=
  forall m rest subs post,
    is_dot m = true -> line = PL m rest -> tl = subs ++ post ->
    Forall is_subtask_line subs ->
    (is_archive_marker m = true -> incl (PL m rest :: subs) (archivedTasks b1)) /\
    (is_active_marker m = true -> incl (PL m rest :: subs) (activeTasks b1)).

Definition tail_kept (tl tl' : list jsstring) : Prop :=
  forall pre m rest subs post,
    is_dot m = true ->
    tl = pre ++ PL m rest :: subs ++ post ->
    exists pre', tl' = pre' ++ PL m rest :: subs ++ post.

Definition pass_ok (b : Bins) (lines : list jsstring) (b' : Bins) : Prop :=
  clean b' /\
  incl (activeTasks b) (activeTasks b') /\
  incl (archivedTasks b) (archivedTasks b') /\
  placed lines b'.

Lemma pass_step line tl tl' b b1 b' :
  incl (activeTasks b) (activeTasks b1) ->
  incl (archivedTasks b) (archivedTasks b1) ->
  head_placed line tl b1 -> tail_kept tl tl' ->
  pass_ok b1 tl' b' ->
  pass_ok b (line :: tl) b'.
Proof.
  intros Ia Ir Hh Ht [C [Ia' [Ir' Hp]]].
  split; [exact C|]. split; [eapply incl_tran; eauto|].
  split; [eapply incl_tran; eauto|].
  intros pre m rest subs post Hm E Hs.
  destruct pre as [|x pre]; simpl in E; inversion E; subst.
  - destruct (Hh m rest subs post Hm eq_refl eq_refl Hs) as [H1 H2].
    split; intros Hk; eapply incl_tran; eauto.
  - destruct (Ht pre m rest subs post Hm eq_refl) as [pre' E'].
    exact (Hp pre' m rest subs post Hm E' Hs).
Qed.

Lemma tail_kept_refl tl : tail_kept tl tl.
Proof. intros pre m rest subs post _ E. now exists pre. Qed.

Lemma tail_kept_collect tl : tail_kept tl (snd (collect_subtasks tl)).
Proof.
  intros pre m rest subs post Hm E. subst tl.
  apply collect_subtasks_stop.
  destruct (parent_tests m rest Hm) as [_ [_ [F _]]]. exact F.
Qed.

Lemma clean_app_active b ls :
  clean b ->
  Forall (fun l => test_at ARCHIVE_CALLOUT_START l = false) ls ->
  Forall (fun l => test_at ARCHIVE_CALLOUT_START l = false)
    (calendarEvents b ++ activeTasks b ++ ls).
Proof.
  unfold clean. intros H1 H2. rewrite app_assoc. apply Forall_app. now split.
Qed.

(** The first pass puts every top-level task, with the subtasks right
    below it, in the bin its marker selects. *)
Lemma categorize_run fuel : forall lines inArch b,
  length lines <= fuel -> clean b ->
  pass_ok b lines (categorize fuel lines inArch b).
Proof.
  induction fuel as [|fuel IH]; intros lines inArch b Hlen Hclean.
  { destruct lines; [|simpl in Hlen; lia]. simpl.
    split; [exact Hclean|]. split; [apply incl_refl|]. split; [apply incl_refl|].
    intros pre m rest subs post _ E. destruct pre; discriminate. }
  destruct lines as [|line tl].
  { simpl. split; [exact Hclean|]. split; [apply incl_refl|].
    split; [apply incl_refl|].
    intros pre m rest subs post _ E. destruct pre; discriminate. }
  simpl in Hlen. assert (Htl : length tl <= fuel) by lia.
  cbn [categorize].
  destruct (test_at ARCHIVE_CALLOUT_START line) eqn:Ecall.
  { eapply pass_step; [apply incl_refl|apply incl_refl| |apply tail_kept_refl|
                       apply IH; assumption].
    intros m rest subs post Hm -> _ _.
    destruct (parent_tests m rest Hm) as [F _]. unfold PL in Ecall. congruence. }
  destruct (inArch && test_at ARCHIVE_LINE line) eqn:Earch.
  { eapply pass_step; [| | |apply tail_kept_refl|apply IH; [assumption|exact Hclean]];
      [apply incl_refl|apply incl_refl|].
    intros m rest subs post Hm -> _ _.
    destruct (parent_tests m rest Hm) as [_ [F _]]. unfold PL in Earch.
    rewrite F, andb_false_r in Earch. discriminate. }
  destruct (test_at CALENDAR_EVENT_PATTERN line) eqn:Ecal.
  { eapply pass_step; [| | |apply tail_kept_refl|apply IH; [assumption|]];
      [apply incl_refl|apply incl_refl| |].
    - intros m rest subs post Hm -> _ _.
      destruct (parent_tests m rest Hm) as [_ [_ [_ [F _]]]]. unfold PL in Ecal.
      rewrite F in Ecal. split; intros Hk.
      + apply archive_marker_not_calendar in Hk. congruence.
      + apply active_marker_active in Hk as [_ Hk]. congruence.
    - unfold clean in *. cbn [calendarEvents activeTasks].
      rewrite <- app_assoc. apply Forall_app in Hclean as [H1 H2].
      apply Forall_app. split; [exact H1|]. now constructor. }
  destruct (test_at ARCHIVE_STATES line) eqn:Est.
  { destruct (collect_subtasks tl) as [subs0 tl'] eqn:Ecol.
    pose proof (collect_subtasks_length tl) as Hl. rewrite Ecol in Hl. simpl in Hl.
    eapply pass_step; [| | | |apply IH; [lia|exact Hclean]].
    - apply incl_refl.
    - cbn [archivedTasks]. apply incl_appl, incl_refl.
    - intros m rest subs post Hm -> -> Hs.
      rewrite (collect_subtasks_run subs post Hs) in Ecol. inversion Ecol; subst.
      destruct (parent_tests m rest Hm) as [_ [_ [_ [_ [F _]]]]]. unfold PL in Est.
      rewrite F in Est. split; intros Hk.
      + cbn [archivedTasks]. apply incl_appr.
        intros x [<-|Hx]; [now left|right]. apply in_or_app. now left.
      + exfalso. eapply markers_disjoint; eauto.
    - pose proof (tail_kept_collect tl) as Hk. now rewrite Ecol in Hk. }
  destruct (test_at ACTIVE_STATES line) eqn:Eact.
  { destruct (collect_subtasks tl) as [subs0 tl'] eqn:Ecol.
    pose proof (collect_subtasks_length tl) as Hl. rewrite Ecol in Hl. simpl in Hl.
    pose proof (collect_subtasks_spec tl) as [_ Hsub]. rewrite Ecol in Hsub.
    simpl in Hsub.
    eapply pass_step; [| | | |apply IH; [lia|]].
    - cbn [activeTasks]. apply incl_appl, incl_refl.
    - apply incl_refl.
    - intros m rest subs post Hm -> -> Hs.
      rewrite (collect_subtasks_run subs post Hs) in Ecol. inversion Ecol; subst.
      destruct (parent_tests m rest Hm) as [_ [_ [_ [_ [F _]]]]]. unfold PL in Est.
      rewrite F in Est. split; intros Hk.
      + congruence.
      + cbn [activeTasks]. apply incl_appr.
        intros x [<-|Hx]; [now left|right]. apply in_or_app. now left.
    - pose proof (tail_kept_collect tl) as Hk. now rewrite Ecol in Hk.
    - unfold clean. cbn [calendarEvents activeTasks].
      apply clean_app_active; [exact Hclean|].
      constructor; [exact Ecall|].
      eapply Forall_impl; [|exact Hsub]. apply subtask_not_callout. }
  set (pushed := {| calendarEvents := calendarEvents b;
                    activeTasks := activeTasks b ++ [line];
                    archivedTasks := archivedTasks b;
                    existingArchiveContent := existingArchiveContent b |}).
  assert (Hb1 : match trim line, activeTasks b with
                | [], [] => b
                | _, _ => pushed
                end = b \/
                match trim line, activeTasks b with
                | [], [] => b
                | _, _ => pushed
                end = pushed).
  { destruct (trim line), (activeTasks b); auto. }
  assert (Hhead : forall b1, head_placed line tl b1).
  { intros b1 m rest subs post Hm -> _ _.
    destruct (parent_tests m rest Hm) as [_ [_ [_ [_ [F1 [F2 _]]]]]].
    unfold PL in Est, Eact. rewrite F1 in Est. rewrite F2 in Eact.
    split; intros Hk; [congruence|].
    apply active_marker_active in Hk as [Hk _]. congruence. }
  destruct Hb1 as [-> | ->].
  - eapply pass_step; [apply incl_refl|apply incl_refl|apply Hhead|
                       apply tail_kept_refl|apply IH; assumption].
  - eapply pass_step; [| |apply Hhead|apply tail_kept_refl|apply IH; [assumption|]].
    + cbn [activeTasks pushed]. apply incl_appl, incl_refl.
    + apply incl_refl.
    + unfold clean. cbn [calendarEvents activeTasks pushed].
      apply clean_app_active; [exact Hclean|now constructor].
Qed.

(** *** The output *)

Definition not_callout (l : jsstring) : Prop :=
  test_at ARCHIVE_CALLOUT_START l = false.

Lemma callout_split_at R h T :
  Forall not_callout R -> test_at ARCHIVE_CALLOUT_START h = true ->
  callout_split (R ++ h :: T) = (R, T).
Proof.
  intros HR Hh. induction HR as [|x R Hx HR IH]; simpl.
  - now rewrite Hh.
  - rewrite Hx, IH. reflexivity.
Qed.

Lemma callout_split_none R :
  Forall not_callout R -> callout_split R = (R, []).
Proof.
  induction 1 as [|x R Hx HR IH]; simpl; [reflexivity|].
  rewrite Hx, IH. reflexivity.
Qed.

Lemma pop_empty_In x l : In x l -> x <> [] -> In x (pop_empty l).
Proof.
  intros Hin Hx. induction l as [|y r IH]; [contradiction|].
  simpl. destruct Hin as [->|Hin].
  - destruct (pop_empty r); [destruct x; [congruence|now left]|now left].
  - specialize (IH Hin). destruct (pop_empty r); [contradiction|now right].
Qed.

Lemma pop_empty_Forall (P : jsstring -> Prop) l :
  Forall P l -> Forall P (pop_empty l).
Proof.
  induction 1 as [|y r Hy Hr IH]; simpl; [constructor|].
  destruct (pop_empty r).
  - destruct y; repeat constructor; assumption.
  - now constructor.
Qed.

Lemma repeat_Forall (P : jsstring -> Prop) x n :
  P x -> Forall P (repeat x n).
Proof. intros Hx. induction n; simpl; now constructor. Qed.

(** What is before the header in the output of [build], and what is after. *)
Lemma build_split b :
  clean b ->
  archivedTasks b ++ existingArchiveContent b <> [] ->
  exists R,
    build b = R ++ ARCHIVE_HEADER
                :: map (fun l => L "> " ++ l)
                     (archivedTasks b ++ existingArchiveContent b) /\
    callout_split (build b) =
      (R, map (fun l => L "> " ++ l)
            (archivedTasks b ++ existingArchiveContent b)) /\
    (forall x, In x (calendarEvents b ++ activeTasks b) -> x <> [] -> In x R).
Proof.
  intros Hc Hne. unfold build.
  destruct (archivedTasks b ++ existingArchiveContent b) as [|a0 al] eqn:Ea;
    [congruence|].
  set (result := calendarEvents b ++ activeTasks b) in *.
  exists (match result with
          | [] => []
          | _ :: _ => pop_empty result ++ repeat [] 7
          end).
  split; [reflexivity|]. split.
  - apply callout_split_at; [|reflexivity].
    destruct result eqn:Er; [constructor|]. rewrite <- Er.
    apply Forall_app. split.
    + apply pop_empty_Forall. exact Hc.
    + apply repeat_Forall. reflexivity.
  - intros x Hin Hx. destruct result eqn:Er; [contradiction|]. rewrite <- Er.
    apply in_or_app. left. rewrite <- Er in Hin. now apply pop_empty_In.
Qed.

Lemma PL_not_empty m rest : PL m rest <> [].
Proof. discriminate. Qed.

Lemma subtask_not_empty l : is_subtask_line l -> l <> [].
Proof. intros H ->. discriminate. Qed.

(** The partition, on the lines of the output. *)
Lemma archiveLines_partition lines pre m rest subs post :
  is_dot m = true ->
  lines = pre ++ PL m rest :: subs ++ post ->
  Forall is_subtask_line subs ->
  (is_archive_marker m = true ->
   forall l, In l (PL m rest :: subs) -> inside_callout (archiveLines lines) l) /\
  (is_active_marker m = true ->
   forall l, In l (PL m rest :: subs) -> outside_callout (archiveLines lines) l).
Proof.
  intros Hm E Hs. unfold archiveLines.
  assert (Hc0 : clean bins0) by constructor.
  destruct (categorize_run (length lines) lines false bins0 (le_n _) Hc0)
    as [Hc [_ [_ Hp]]].
  set (b := categorize (length lines) lines false bins0) in *.
  destruct (Hp pre m rest subs post Hm E Hs) as [Har Hac].
  assert (Hne : forall l, In l (PL m rest :: subs) -> l <> []).
  { intros l [<-|Hl]; [apply PL_not_empty|].
    rewrite Forall_forall in Hs. now apply subtask_not_empty, Hs. }
  split; intros Hk l Hl.
  - specialize (Har Hk l Hl).
    assert (Hnn : archivedTasks b ++ existingArchiveContent b <> []).
    { intros En. apply app_eq_nil in En as [En _]. rewrite En in Har.
      contradiction. }
    destruct (build_split b Hc Hnn) as [R [_ [Hsplit _]]].
    unfold inside_callout. rewrite Hsplit. cbn [snd].
    apply in_map. apply in_or_app. now left.
  - specialize (Hac Hk l Hl). unfold outside_callout.
    destruct (archivedTasks b ++ existingArchiveContent b) eqn:Ea.
    + unfold build. rewrite Ea.
      rewrite callout_split_none by exact Hc. cbn [fst].
      apply in_or_app. now right.
    + assert (Hnn : archivedTasks b ++ existingArchiveContent b <> [])
        by (rewrite Ea; discriminate).
      destruct (build_split b Hc Hnn) as [R [_ [Hsplit HR]]].
      rewrite Hsplit. cbn [fst]. apply HR; [|now apply Hne].
      apply in_or_app. now right.
Qed.

(** *** From the lines to the text *)

Definition bins_all (P : jsstring -> Prop) (b : Bins) : Prop :=
  Forall P (calendarEvents b) /\ Forall P (activeTasks b) /\
  Forall P (archivedTasks b) /\ Forall P (existingArchiveContent b).

Lemma categorize_all (P : jsstring -> Prop) :
  (forall l, P l -> P (substring_from 2 l)) ->
  forall fuel lines inArch b,
    Forall P lines -> bins_all P b ->
    bins_all P (categorize fuel lines inArch b).
Proof.
  intros Hsub. induction fuel as [|fuel IH]; intros lines inArch b Hl Hb.
  { destruct lines; exact Hb. }
  destruct lines as [|line tl]; [exact Hb|].
  inversion Hl as [|? ? Hline Htl]; subst.
  destruct Hb as [B1 [B2 [B3 B4]]].
  assert (Hcol : Forall P (fst (collect_subtasks tl)) /\
                 Forall P (snd (collect_subtasks tl))).
  { destruct (collect_subtasks_spec tl) as [E _]. rewrite E in Htl.
    now apply Forall_app in Htl. }
  cbn [categorize].
  destruct (test_at ARCHIVE_CALLOUT_START line); [apply IH; [assumption|repeat split; assumption]|].
  destruct (inArch && test_at ARCHIVE_LINE line).
  { apply IH; [assumption|]. repeat split; cbn; try assumption.
    apply Forall_app. split; [assumption|]. constructor; [now apply Hsub|constructor]. }
  destruct (test_at CALENDAR_EVENT_PATTERN line).
  { apply IH; [assumption|]. repeat split; cbn; try assumption.
    apply Forall_app. split; [assumption|]. now repeat constructor. }
  destruct (test_at ARCHIVE_STATES line).
  { destruct (collect_subtasks tl) as [subs0 tl']. cbn [fst snd] in Hcol.
    destruct Hcol as [H1 H2].
    apply IH; [assumption|]. repeat split; cbn; try assumption.
    apply Forall_app. split; [assumption|]. now constructor. }
  destruct (test_at ACTIVE_STATES line).
  { destruct (collect_subtasks tl) as [subs0 tl']. cbn [fst snd] in Hcol.
    destruct Hcol as [H1 H2].
    apply IH; [assumption|]. repeat split; cbn; try assumption.
    apply Forall_app. split; [assumption|]. now constructor. }
  apply IH; [assumption|].
  set (pushed := {| calendarEvents := calendarEvents b;
                    activeTasks := activeTasks b ++ [line];
                    archivedTasks := archivedTasks b;
                    existingArchiveContent := existingArchiveContent b |}).
  assert (Hp : bins_all P pushed).
  { repeat split; cbn; try assumption.
    apply Forall_app. split; [assumption|]. now repeat constructor. }
  assert (Hb : bins_all P b) by (repeat split; assumption).
  destruct (trim line), (activeTasks b); try exact Hp; exact Hb.
Qed.

Lemma no_nl_substring n l : no_nl l -> no_nl (substring_from n l).
Proof.
  unfold no_nl, substring_from. intros H.
  rewrite <- (firstn_skipn n l) in H. now apply Forall_app in H as [_ H].
Qed.

Lemma build_no_nl b : bins_all no_nl b -> Forall no_nl (build b).
Proof.
  intros [B1 [B2 [B3 B4]]]. unfold build.
  assert (Hr : Forall no_nl (calendarEvents b ++ activeTasks b))
    by (apply Forall_app; now split).
  destruct (archivedTasks b ++ existingArchiveContent b) eqn:Ea; [exact Hr|].
  rewrite <- Ea. apply Forall_app. split.
  - destruct (calendarEvents b ++ activeTasks b) eqn:Er; [constructor|].
    apply Forall_app. split.
    + now apply pop_empty_Forall.
    + apply repeat_Forall. constructor.
  - constructor.
    { unfold no_nl. rewrite Forall_forall. intros c Hc. vm_compute in Hc.
      repeat (destruct Hc as [<-|Hc]; [reflexivity|]). contradiction. }
    rewrite Forall_map.
    assert (Ha : Forall no_nl (archivedTasks b ++ existingArchiveContent b))
      by (apply Forall_app; now split).
    eapply Forall_impl; [|exact Ha].
    intros x Hx. unfold no_nl. simpl. repeat constructor. exact Hx.
Qed.

(** The lines of the output text are the lines [archiveLines] builds. *)
Lemma archiveContent_lines content :
  archiveLines (split_lines content) <> [] ->
  split_lines (archiveContent content) = archiveLines (split_lines content).
Proof.
  intros Hne. unfold archiveContent. apply split_join_lines; [exact Hne|].
  unfold archiveLines. apply build_no_nl.
  apply categorize_all.
  - intros l. apply no_nl_substring.
  - apply split_lines_no_nl.
  - repeat split; constructor.
Qed.

End Archiver.

(** A subtask under a completed task is archived with it, whatever its
    own marker: the line [\t- [ ] child] is a task line with the marker
    of an incomplete task, and it is inside the callout. *)
Lemma archiveContent_subtask_follows_parent :
  TaskUtils.isTask (TAB ++ L "- [ ] child") = true /\
  TaskNoteManager.extractCheckboxMarker (TAB ++ L "- [ ] child") = Some (L " ") /\
  TaskArchiver.archiveContent (L "- [x] done" ++ NL ++ TAB ++ L "- [ ] child")
    = L "> [!archived]- Archived" ++ NL ++ L "> - [x] done" ++ NL
      ++ L "> " ++ TAB ++ L "- [ ] child" /\
  inside_callout
    (split_lines
       (TaskArchiver.archiveContent
          (L "- [x] done" ++ NL ++ TAB ++ L "- [ ] child")))
    (TAB ++ L "- [ ] child") /\
  ~ outside_callout
    (split_lines
       (TaskArchiver.archiveContent
          (L "- [x] done" ++ NL ++ TAB ++ L "- [ ] child")))
    (TAB ++ L "- [ ] child").
Proof.
  split; [vm_compute; reflexivity|]. split; [vm_compute; reflexivity|].
  split; [vm_compute; reflexivity|]. split.
  - unfold inside_callout. vm_compute. right. left. reflexivity.
  - unfold outside_callout. vm_compute. intros H. exact H.
Qed.

(* ------------------------------------------------------------------ *)
(** ** The scheduler, step by step *)
(* ------------------------------------------------------------------ *)

Section SchedulerSteps.
Import TaskUtils TaskScheduler.

(** The path of the note of the task on [line], when it has one. *)
Definition notePathOf (settings : Settings) (line : jsstring)
  : option jsstring :=
  match TaskNoteManager.extractTaskTextFromLine line with
  | Some ((_ :: _) as taskText) => TaskNoteManager.notePath settings taskText
  | _ => None
  end.

(** The date a schedule starts from. *)
Definition fromDateOf (w : World) : jsstring :=
  match activeFile w with
  | Some f => basename f
  | None => getCurrentDate w
  end.

(** Updating a note touches the file of the note only. *)
Lemma updateNote_other rewrite settings taskText v p :
  TaskNoteManager.notePath settings taskText <> Some p ->
  getAbstractFileByPath (TaskNoteManager.updateNote rewrite settings taskText v) p
  = getAbstractFileByPath v p.
Proof.
  intros Hp. unfold TaskNoteManager.updateNote.
  destruct (TaskNoteManager.notePath settings taskText) as [np|]; [|reflexivity].
  destruct (getAbstractFileByPath v np) as [[c|]|]; try reflexivity.
  destruct (rewrite c) as [c' [|]]; [|reflexivity].
  apply get_modify_other. congruence.
Qed.

(** The vault after the note of the task on [line] followed it to
    [targetPath]. *)
Definition noteFollows (settings : Settings) (line targetPath targetDate : jsstring)
  (v : Vault) : Vault :=
  match TaskNoteManager.extractTaskTextFromLine line with
  | Some ((_ :: _) as taskText) =>
      TaskNoteManager.updateTaskNoteSourceFile settings taskText targetPath
        targetDate v
  | _ => v
  end.

Lemma noteFollows_other settings line tp td v p :
  notePathOf settings line <> Some p ->
  getAbstractFileByPath (noteFollows settings line tp td v) p
  = getAbstractFileByPath v p.
Proof.
  unfold notePathOf, noteFollows. intros Hp.
  destruct (TaskNoteManager.extractTaskTextFromLine line) as [[|c t]|];
    try reflexivity.
  now apply updateNote_other.
Qed.

(** The document of the target date, where there is none yet: the empty
    text of a new file. *)
Definition targetText (v : Vault) (tp : jsstring) : option jsstring :=
  match getAbstractFileByPath v tp with
  | Some (TFile c) => Some c
  | Some TFolder => None
  | None => Some []
  end.

Lemma lastIndexOf_lt c s i : lastIndexOf c s = Some i -> i < length s.
Proof.
  revert i; induction s as [|x s IH]; intros i; simpl; [discriminate|].
  destruct (lastIndexOf c s) as [j|].
  - intros E. inversion E; subst. specialize (IH j eq_refl). lia.
  - destruct (N.eqb x c); [|discriminate]. intros E. inversion E. lia.
Qed.

Lemma folder_not_file tp :
  match lastIndexOf (ch "/") tp with
  | Some i => firstn i tp
  | None => []
  end = tp -> tp = [].
Proof.
  destruct (lastIndexOf (ch "/") tp) as [i|] eqn:E; [|congruence].
  apply lastIndexOf_lt in E. intros H.
  apply (f_equal (@length _)) in H. rewrite length_firstn in H. lia.
Qed.

(** Getting or creating the target: afterwards the file is there, with
    the text [targetText] gave, and the other files are as before. *)
Lemma getOrCreate_spec tp td w c :
  tp <> [] ->
  targetText (vault w) tp = Some c ->
  exists w1,
    getOrCreate tp td w = (w1, TFile c) /\
    getAbstractFileByPath (vault w1) tp = Some (TFile c) /\
    editor w1 = editor w /\ activeFile w1 = activeFile w /\
    today w1 = today w /\
    (forall p f, getAbstractFileByPath (vault w) p = Some f ->
                 getAbstractFileByPath (vault w1) p = Some f).
Proof.
  intros Hne. unfold targetText, getOrCreate.
  destruct (getAbstractFileByPath (vault w) tp) as [[c'|]|] eqn:E;
    intros H; inversion H; subst.
  - exists w. repeat split; auto.
  - set (folder := match lastIndexOf (ch "/") tp with
                   | Some i => firstn i tp
                   | None => []
                   end).
    assert (Hf : folder <> tp).
    { intros Hf. apply folder_not_file in Hf. contradiction. }
    eexists. split; [reflexivity|]. cbn [vault set_vault Notice editor
                                         activeFile today].
    assert (Hget : forall v', (v' = vault w \/ v' = createFolder folder (vault w)) ->
                   getAbstractFileByPath (create tp [] v') tp = Some (TFile [])).
    { intros v' [->| ->]; unfold create, createFolder.
      - rewrite get_app_none by exact E. simpl. now rewrite str_eqb_refl.
      - rewrite get_app_none.
        + simpl. now rewrite str_eqb_refl.
        + rewrite get_app_none by exact E. simpl.
          apply str_eqb_neq in Hf. now rewrite Hf. }
    repeat split; auto.
    + destruct (getAbstractFileByPath (vault w) folder); apply Hget; auto.
    + intros p f Hp.
      destruct (getAbstractFileByPath (vault w) folder); unfold create, createFolder;
        repeat apply get_app_some; exact Hp.
Qed.

Lemma nth_error_split_at (A : Type) (l : list A) n x :
  nth_error l n = Some x ->
  l = firstn n l ++ x :: skipn (S n) l /\ length (firstn n l) = n.
Proof.
  revert n; induction l as [|y l IH]; intros [|n] H; simpl in *; try discriminate.
  - inversion H. auto.
  - destruct (IH n H) as [E L']. split; [now f_equal|now f_equal].
Qed.

Lemma nth_error_middle (A : Type) (a : list A) x b n :
  length a = n -> nth_error (a ++ x :: b) n = Some x.
Proof. intros <-. rewrite nth_error_app2 by lia. now rewrite Nat.sub_diag. Qed.

(** [scheduleTask] on a task line that does not yet point to the target
    date, when the target holds no line with the id of the task: the
    copy is appended to the target, the source line and its subtasks
    are marked, and the note follows. *)
Lemma scheduleTask_appends settings w n targetDate line c re id :
  nth_error (editor w) n = Some line ->
  isTask line = true ->
  includes (L "[> " ++ targetDate ++ L "]") line = false ->
  targetText (vault w) (getDailyNotePath targetDate settings) = Some c ->
  extractId line = Some id -> id <> [] ->
  idPattern id = Some re -> test re c = false ->
  exists w',
    scheduleTask settings w n targetDate = Some (true, w') /\
    editor w' = firstn n (editor w)
                ++ markTaskAsScheduled line targetDate
                :: markSubtasks (skipn (S n) (editor w)) /\
    activeFile w' = activeFile w /\ today w' = today w /\
    (forall p, notePathOf settings line <> Some p ->
               p <> getDailyNotePath targetDate settings ->
               forall f, getAbstractFileByPath (vault w) p = Some f ->
                         getAbstractFileByPath (vault w') p = Some f) /\
    (notePathOf settings line <> Some (getDailyNotePath targetDate settings) ->
     getAbstractFileByPath (vault w') (getDailyNotePath targetDate settings)
     = Some (TFile (trimEnd c ++ NL
                    ++ createScheduledTaskCopy line (fromDateOf w)))).
Proof.
  intros Hline Htask Hinc Htarget Hid Hne Hre Htest.
  set (tp := getDailyNotePath targetDate settings) in *.
  assert (Htp : tp <> []).
  { unfold tp, getDailyNotePath. intros E. apply app_eq_nil in E as [_ E].
    discriminate. }
  destruct (getOrCreate_spec tp targetDate w c Htp Htarget)
    as [w1 [Hgc [Hget [He [Ha [Ht Hkeep]]]]]].
  set (v2 := modify tp (trimEnd c ++ NL
                        ++ createScheduledTaskCopy line (fromDateOf w))
               (vault w1)).
  set (e3 := firstn n (editor w)
             ++ markTaskAsScheduled line targetDate
             :: markSubtasks (skipn (S n) (editor w))).
  exists (Notice (L "Task scheduled to " ++ targetDate)
            (set_vault (noteFollows settings line tp targetDate v2)
               (set_editor e3 (set_vault v2 w1)))).
  split.
  { unfold scheduleTask. rewrite Hline, Htask. cbn [negb]. rewrite Hinc.
    fold tp. rewrite Hgc. rewrite Hid.
    destruct id as [|i0 id']; [congruence|].
    rewrite Hre, Htest. cbn [set_vault set_editor editor vault].
    rewrite He. fold (fromDateOf w). unfold noteFollows.
    destruct (TaskNoteManager.extractTaskTextFromLine line) as [[|t0 t]|];
      reflexivity. }
  cbn [editor vault activeFile today Notice set_vault set_editor].
  split; [reflexivity|]. split; [exact Ha|]. split; [exact Ht|]. split.
  - intros p Hnp Hp f Hf.
    rewrite noteFollows_other by exact Hnp. unfold v2.
    rewrite get_modify_other by congruence. now apply Hkeep.
  - intros Hnp.
    rewrite noteFollows_other by exact Hnp. unfold v2.
    erewrite get_modify_same by exact Hget. reflexivity.
Qed.

End SchedulerSteps.

(* ------------------------------------------------------------------ *)
(** ** C5: the example of the spec *)
(* ------------------------------------------------------------------ *)

Section ScheduleExample.
Import TaskUtils TaskScheduler.

(** The text [c] holds a match of the pattern made from [id]. *)
Definition holdsId (id c : jsstring) : bool :=
  match idPattern id with
  | Some re => test re c
  | None => false
  end.

Lemma paths_differ (x y : jsstring) k :
  firstn k (rev x) <> firstn k (rev y) -> x <> y.
Proof. intros H E. apply H. now rewrite E. Qed.

(** C5.  Scheduling the line [- [ ] Call dentist [id::t-xy] ] of the
    document of 2025-01-10 to 2025-01-12, into a target document (or none
    yet) that holds no line with this id: the call succeeds, the source
    line becomes [- [>] Call dentist [id::t-xy] [> 2025-01-12]], and the
    target document is its text, trimmed at the end, with the new line
    [- [ ] Call dentist [id::t-xy] [< 2025-01-10]] appended. *)
Theorem scheduleTask_call_dentist :
  forall settings w n f c,
    nth_error (editor w) n = Some (L "- [ ] Call dentist [id::t-xy] ") ->
    activeFile w = Some f -> basename f = L "2025-01-10" ->
    targetText (vault w) (getDailyNotePath (L "2025-01-12") settings) = Some c ->
    holdsId (L "t-xy") c = false ->
    exists w',
      scheduleTask settings w n (L "2025-01-12") = Some (true, w') /\
      nth_error (editor w') n
        = Some (L "- [>] Call dentist [id::t-xy] [> 2025-01-12]") /\
      getAbstractFileByPath (vault w') (getDailyNotePath (L "2025-01-12") settings)
        = Some (TFile (trimEnd c ++ NL
                       ++ L "- [ ] Call dentist [id::t-xy] [< 2025-01-10]")).
Proof.
  intros settings w n f c Hline Hf Hb Ht Hno.
  destruct (scheduleTask_appends settings w n (L "2025-01-12")
              (L "- [ ] Call dentist [id::t-xy] ") c
              [Lit (L "[id::"); Star is_ws; One (N.eqb 116); One (N.eqb 45);
               One (N.eqb 120); One (N.eqb 121); Lit (L "]")]
              (L "t-xy") Hline eq_refl eq_refl Ht eq_refl
              ltac:(discriminate) eq_refl Hno)
    as [w' [Hrun [He [_ [_ [_ Htarget]]]]]].
  exists w'. split; [exact Hrun|]. split.
  - rewrite He. apply nth_error_middle.
    now destruct (nth_error_split_at _ _ _ _ Hline).
  - rewrite Htarget.
    + unfold fromDateOf. rewrite Hf, Hb. reflexivity.
    + intros E. inversion E as [E']. revert E'.
      apply (paths_differ _ _ 4).
      unfold getDailyNotePath. rewrite !rev_app_distr. simpl. discriminate.
Qed.

End ScheduleExample.

Definition world_c5 : World := {|
  vault := [(L "00 - Daily", TFolder)];
  editor := [L "# Friday"; L "- [ ] Call dentist [id::t-xy] "];
  activeFile := Some {| path := L "00 - Daily/2025-01-10.md";
                        basename := L "2025-01-10" |};
  today := L "2025-01-10";
  notices := [] |}.

Lemma scheduleTask_call_dentist_witness :
  exists w',
    TaskScheduler.scheduleTask DEFAULT_SETTINGS world_c5 1 (L "2025-01-12")
      = Some (true, w') /\
    nth_error (editor w') 1
      = Some (L "- [>] Call dentist [id::t-xy] [> 2025-01-12]") /\
    getAbstractFileByPath (vault w')
      (TaskScheduler.getDailyNotePath (L "2025-01-12") DEFAULT_SETTINGS)
      = Some (TFile (trimEnd [] ++ NL
                     ++ L "- [ ] Call dentist [id::t-xy] [< 2025-01-10]")).
Proof.
  apply (scheduleTask_call_dentist DEFAULT_SETTINGS world_c5 1
           {| path := L "00 - Daily/2025-01-10.md"; basename := L "2025-01-10" |}
           []); reflexivity.
Defined.

(* ------------------------------------------------------------------ *)
(** ** Checkbox prefixes and global replacement *)
(* ------------------------------------------------------------------ *)

Section Prefixes.
Import TaskUtils TaskScheduler.

Definition all_tabs (t : jsstring) : Prop := Forall (fun c => is_tab c = true) t.

Lemma is_tab_ws c : is_tab c = true -> is_ws c = true.
Proof. intros H. apply N.eqb_eq in H. now subst. Qed.

Lemma firstn_app_len (A : Type) (a b : list A) n :
  firstn (length a + n) (a ++ b) = a ++ firstn n b.
Proof. induction a; simpl; [reflexivity|]. now f_equal. Qed.

Lemma skipn_app_len (A : Type) (a b : list A) n :
  skipn (length a + n) (a ++ b) = skipn n b.
Proof. induction a; simpl; auto. Qed.

Lemma run_split p s :
  s = firstn (run p s) s ++ skipn (run p s) s /\
  Forall (fun c => p c = true) (firstn (run p s) s).
Proof.
  induction s as [|c s [IH1 IH2]]; simpl.
  - split; [reflexivity|constructor].
  - destruct (p c) eqn:E; simpl.
    + split; [now f_equal|now constructor].
    + split; [reflexivity|constructor].
Qed.

Lemma run_app p a b :
  Forall (fun c => p c = true) a -> run p (a ++ b) = length a + run p b.
Proof.
  induction 1 as [|c a Hc Ha IH]; simpl; [reflexivity|]. now rewrite Hc, IH.
Qed.

(** A regex [^[\t]*] followed by something that cannot start with a tab,
    on tabs followed by something that does not start with a tab. *)
Lemma exec_tabs re tabs x :
  all_tabs tabs ->
  (forall c s', is_tab c = true -> exec re (c :: s') = None) ->
  run is_tab x = 0 ->
  exec (Star is_tab :: re) (tabs ++ x) = cons_len (length tabs) (exec re x).
Proof.
  intros Ht Hre Hx. cbn [exec]. rewrite star_possessive by exact Hre.
  rewrite run_app by exact Ht. rewrite Hx, Nat.add_0_r.
  rewrite <- (Nat.add_0_r (length tabs)) at 2.
  rewrite skipn_app_len. reflexivity.
Qed.

(** The same regex on any string: the tabs are its leading tabs. *)
Lemma exec_tabs_inv re s :
  (forall c s', is_tab c = true -> exec re (c :: s') = None) ->
  exec (Star is_tab :: re) s <> None ->
  exists tabs x,
    s = tabs ++ x /\ all_tabs tabs /\ run is_tab x = 0 /\ exec re x <> None.
Proof.
  intros Hre H. cbn [exec] in H. rewrite star_possessive in H by exact Hre.
  rewrite cons_len_none in H.
  destruct (run_split is_tab s) as [E F].
  exists (firstn (run is_tab s) s), (skipn (run is_tab s) s).
  repeat split; auto.
  destruct (skipn (run is_tab s) s) as [|c r] eqn:Es; [reflexivity|].
  simpl. destruct (is_tab c) eqn:Ec; [|reflexivity].
  exfalso. apply H. now apply Hre.
Qed.

Lemma lit_rejects_tab l re c s' :
  starts_with [9%N] l = false -> l <> [] ->
  is_tab c = true -> exec (Lit l :: re) (c :: s') = None.
Proof.
  intros Hl Hne Hc. apply N.eqb_eq in Hc. subst c.
  destruct l as [|x l]; [congruence|]. simpl in *.
  rewrite N.eqb_sym. destruct (N.eqb 9 x); [discriminate|reflexivity].
Qed.


Lemma checkbox_is_task tabs m rest :
  all_tabs tabs -> is_dot m = true ->
  isTask (tabs ++ L "- [" ++ m :: L "]" ++ rest) = true.
Proof.
  intros Ht Hm. unfold isTask, test_at, TASK_PATTERN.
  rewrite exec_tabs; [|exact Ht| |reflexivity].
  - simpl. rewrite Hm. reflexivity.
  - intros c s'. now apply lit_rejects_tab.
Qed.

(** Replacing the marker of a checkbox by [>] or by a space. *)
Lemma replace_marker tabs m rest (mk : string) re :
  (mk = ">" \/ mk = " ")%string ->
  exec re (tabs ++ L "- [" ++ m :: L "]" ++ rest)
    = Some [length tabs; 3; 1; 1] ->
  replace_found (search_start re (tabs ++ L "- [" ++ m :: L "]" ++ rest))
    MARKER_GROUPS (L "$1" ++ L mk ++ L "$2")
    (tabs ++ L "- [" ++ m :: L "]" ++ rest)
  = tabs ++ L "- [" ++ L mk ++ L "]" ++ rest.
Proof.
  intros Hmk Hex. unfold search_start. rewrite Hex.
  unfold replace_found, MARKER_GROUPS, group. cbn [map fst snd total fold_right
    firstn skipn Nat.add].
  rewrite !firstn_app_len, !skipn_app_len.
  destruct Hmk as [-> | ->]; simpl;
    change (Pos.to_nat 1) with 1; change (Pos.to_nat 2) with 2;
    unfold capture_ref; simpl; rewrite <- !app_assoc; reflexivity.
Qed.

Lemma exec_marker tabs m rest :
  all_tabs tabs -> not_rbracket m = true ->
  exec MARKER (tabs ++ L "- [" ++ m :: L "]" ++ rest)
  = Some [length tabs; 3; 1; 1].
Proof.
  intros Ht Hm. unfold MARKER.
  rewrite exec_tabs; [|exact Ht| |reflexivity].
  - simpl. rewrite Hm. reflexivity.
  - intros c s'. now apply lit_rejects_tab.
Qed.

Lemma setMarker_checkbox (mk : string) tabs m rest :
  (mk = ">" \/ mk = " ")%string ->
  all_tabs tabs -> not_rbracket m = true ->
  setMarker mk (tabs ++ L "- [" ++ m :: L "]" ++ rest)
  = tabs ++ L "- [" ++ L mk ++ L "]" ++ rest.
Proof.
  intros Hmk Ht Hm. unfold setMarker.
  apply replace_marker; [exact Hmk|now apply exec_marker].
Qed.

Lemma resetMarker_checkbox tabs rest :
  all_tabs tabs ->
  resetMarker (tabs ++ L "- [>]" ++ rest) = tabs ++ L "- [ ]" ++ rest.
Proof.
  intros Ht. unfold resetMarker.
  assert (Hex : exec SCHEDULED_MARKER (tabs ++ L "- [" ++ 62%N :: L "]" ++ rest)
                = Some [length tabs; 3; 1; 1]).
  { unfold SCHEDULED_MARKER.
    rewrite exec_tabs; [reflexivity|exact Ht| |reflexivity].
    intros c s'. now apply lit_rejects_tab. }
  exact (replace_marker tabs 62%N rest " " SCHEDULED_MARKER
           (or_intror eq_refl) Hex).
Qed.

End Prefixes.

Section GlobalReplace.
Import TaskUtils TaskScheduler.

(** No match of [re] starts within the prefix [p] of [p ++ s]. *)
Fixpoint clear (re : regex) (p s : jsstring) : Prop :=
  match p with
  | [] => True
  | c :: p' => exec re (c :: p' ++ s) = None /\ clear re p' s
  end.

Lemma replace_all_from_prefix re rep p s :
  clear re p s ->
  replace_all_from re rep 0 (p ++ s) = p ++ replace_all_from re rep 0 s.
Proof.
  induction p as [|c p IH]; simpl; [reflexivity|].
  intros [H1 H2]. rewrite H1. now rewrite IH.
Qed.

Lemma replace_all_prefix re rep p s :
  clear re p s -> replace_all re rep (p ++ s) = p ++ replace_all re rep s.
Proof. apply replace_all_from_prefix. Qed.

(** Where the regex finds nothing, the replacement changes nothing. *)
Lemma replace_all_none re rep s :
  test re s = false -> replace_all re rep s = s.
Proof.
  unfold test, replace_all. induction s as [|c s IH]; simpl; [reflexivity|].
  destruct (exec re (c :: s)); [discriminate|].
  destruct (search re s) as [[i ls]|]; [discriminate|].
  intros _. now rewrite IH.
Qed.

Lemma star_tabs_none (k : jsstring -> option (list nat)) tabs x :
  all_tabs tabs ->
  (forall c s', is_tab c = true -> k (c :: s') = None) ->
  star is_ws k x = None -> star is_ws k (tabs ++ x) = None.
Proof.
  intros Ht Hk Hx. induction Ht as [|t tabs Hc Ht IH]; simpl; [exact Hx|].
  rewrite (is_tab_ws t Hc), IH. rewrite cons_len_none. now apply Hk.
Qed.

(** The regexes that open with [\s*] and a literal that is not a tab:
    tabs before a clear prefix are clear too. *)
Lemma clear_tabs op tail tabs q s :
  all_tabs tabs -> starts_with [9%N] op = false -> op <> [] ->
  q <> [] ->
  clear (Star is_ws :: Lit op :: tail) q s ->
  clear (Star is_ws :: Lit op :: tail) (tabs ++ q) s.
Proof.
  intros Ht Hop Hne Hq Hc.
  assert (Hx : star is_ws (exec (Lit op :: tail)) (q ++ s) = None).
  { destruct q as [|c q]; [congruence|]. destruct Hc as [Hc _]. exact Hc. }
  induction Ht as [|t tabs Hct Ht IH]; [exact Hc|].
  split; [|exact IH].
  rewrite <- app_assoc.
  change (star is_ws (exec (Lit op :: tail)) ((t :: tabs) ++ q ++ s) = None).
  apply star_tabs_none; [now constructor| |exact Hx].
  intros c s'. now apply lit_rejects_tab.
Qed.

(** The six regexes of [removeSchedulingTags], in order. *)
Definition SCHEDULING_TAGS : list regex :=
  [Star is_ws :: SCHEDULE_FROM_PATTERN;
   Star is_ws :: SCHEDULE_TO_PATTERN;
   [Star is_ws; Lit (L "[sch_from::"); One not_rbracket; Star not_rbracket;
    Lit (L "]")];
   [Star is_ws; Lit (L "[sch_to::"); One not_rbracket; Star not_rbracket;
    Lit (L "]")];
   [Star is_ws; Lit CAL_ICON; Star is_ws; Lit (L "[["); One not_rbracket;
    Star not_rbracket; Lit (L "]]")];
   [Star is_ws; Lit CAL_ICON; Star is_ws] ++ DATE].

Lemma removeSchedulingTags_fold line :
  removeSchedulingTags line
  = fold_left (fun l re => replace_all re [] l) SCHEDULING_TAGS line.
Proof. reflexivity. Qed.

(** The line carries no scheduling tag: none of the six regexes matches
    anywhere in it. *)
Definition noSchedulingTags (line : jsstring) : bool :=
  forallb (fun re => negb (test re line)) SCHEDULING_TAGS.

Lemma removeSchedulingTags_none line :
  noSchedulingTags line = true -> removeSchedulingTags line = line.
Proof.
  unfold noSchedulingTags. rewrite removeSchedulingTags_fold.
  generalize SCHEDULING_TAGS. intros res.
  induction res as [|re res IH]; simpl; [reflexivity|].
  intros H. apply andb_true_iff in H as [H1 H2].
  apply negb_true_iff in H1. rewrite replace_all_none by exact H1. auto.
Qed.

(** The checkbox [- [ ]] or [- [>]] after tabs holds no scheduling tag and
    is the start of none. *)
Lemma checkbox_clear re tabs m s :
  In re SCHEDULING_TAGS -> all_tabs tabs -> (m = 32 \/ m = 62)%N ->
  clear re (tabs ++ [45; 32; 91; m; 93]%N) s.
Proof.
  intros Hre Ht Hm.
  assert (Hq : clear re [45; 32; 91; m; 93]%N s).
  { simpl in Hre.
    repeat (destruct Hre as [<-|Hre]; [destruct Hm as [-> | ->]; simpl; tauto|]).
    contradiction. }
  simpl in Hre.
  repeat (destruct Hre as [<-|Hre];
          [apply clear_tabs; [exact Ht|reflexivity|discriminate|discriminate|exact Hq]|]).
  contradiction.
Qed.

Lemma removeSchedulingTags_checkbox tabs m rest :
  all_tabs tabs -> (m = 32 \/ m = 62)%N ->
  removeSchedulingTags (tabs ++ L "- [" ++ m :: L "]" ++ rest)
  = tabs ++ L "- [" ++ m :: L "]" ++ removeSchedulingTags rest.
Proof.
  intros Ht Hm.
  change (tabs ++ L "- [" ++ m :: L "]" ++ removeSchedulingTags rest)
    with (tabs ++ [45; 32; 91; m; 93]%N ++ removeSchedulingTags rest).
  change (tabs ++ L "- [" ++ m :: L "]" ++ rest)
    with (tabs ++ [45; 32; 91; m; 93]%N ++ rest).
  rewrite !app_assoc. rewrite !removeSchedulingTags_fold.
  assert (H : forall res, incl res SCHEDULING_TAGS -> forall r,
            fold_left (fun l re => replace_all re [] l) res
              ((tabs ++ [45; 32; 91; m; 93]%N) ++ r)
            = (tabs ++ [45; 32; 91; m; 93]%N)
              ++ fold_left (fun l re => replace_all re [] l) res r).
  { induction res as [|re res IH]; intros Hincl r; simpl; [reflexivity|].
    rewrite replace_all_prefix.
    - apply IH. intros x Hx. apply Hincl. now right.
    - apply checkbox_clear; auto. apply Hincl. now left. }
  apply H. apply incl_refl.
Qed.

End GlobalReplace.

(* ------------------------------------------------------------------ *)
(** ** C10: unscheduling without a forward copy to remove *)
(* ------------------------------------------------------------------ *)

Section UnscheduleDegraded.
Import TaskUtils TaskScheduler.


(** The vault after the note of the task on [line] came back to the
    active file. *)
Definition noteReturns (settings : Settings) (w : World) (line : jsstring)
  (v : Vault) : Vault :=
  match TaskNoteManager.extractTaskTextFromLine line, activeFile w with
  | Some ((_ :: _) as taskText), Some f =>
      match path f with
      | _ :: _ =>
          updateTaskNoteForUnschedule settings taskText (path f)
            (fromDateOf w) v
      | [] => v
      end
  | _, _ => v
  end.

Lemma noteReturns_other settings w line v p :
  notePathOf settings line <> Some p ->
  getAbstractFileByPath (noteReturns settings w line v) p
  = getAbstractFileByPath v p.
Proof.
  unfold notePathOf, noteReturns. intros Hp.
  destruct (TaskNoteManager.extractTaskTextFromLine line) as [[|c t]|];
    try reflexivity.
  destruct (activeFile w) as [f|]; [|reflexivity].
  destruct (path f); [reflexivity|].
  now apply updateNote_other.
Qed.


End UnscheduleDegraded.

Definition world_c10 : World := {|
  vault := [(L "00 - Daily", TFolder)];
  editor := [L "- [>] Pay rent"; TAB ++ L "- [x] find the bill";
             TAB ++ L "- [>] transfer [> 2025-01-12]"; L "- [ ] other"];
  activeFile := Some {| path := L "00 - Daily/2025-01-10.md";
                        basename := L "2025-01-10" |};
  today := L "2025-01-10";
  notices := [] |}.


(* ------------------------------------------------------------------ *)
(** ** Matches and the text around them *)
(* ------------------------------------------------------------------ *)

Section Extension.

(** A regex without [$]. *)
Definition no_eos (re : regex) : bool :=
  forallb (fun a => match a with Eos | Eol => false | _ => true end) re.

Lemma starts_with_extend l s x :
  starts_with l s = true ->
  starts_with l (s ++ x) = true /\
  skipn (length l) (s ++ x) = skipn (length l) s ++ x.
Proof.
  revert s. induction l as [|a l IH]; intros s H; simpl.
  - split; reflexivity.
  - destruct s as [|c s]; simpl in *; [discriminate|].
    apply andb_true_iff in H. destruct H as [H1 H2].
    rewrite H1. simpl. now apply IH.
Qed.

Lemma star_zero p (k : jsstring -> option (list nat)) s :
  k s <> None -> star p k s <> None.
Proof.
  intros H. destruct s as [|c s]; simpl.
  - now rewrite cons_len_none.
  - destruct (p c); [|now rewrite cons_len_none].
    destruct (star p k s) as [[|n ls]|]; try discriminate;
      now rewrite cons_len_none.
Qed.

Lemma star_extend p (k k' : jsstring -> option (list nat)) x s :
  (forall s', k s' <> None -> k' (s' ++ x) <> None) ->
  star p k s <> None -> star p k' (s ++ x) <> None.
Proof.
  intros Hk. induction s as [|c s IH]; intros H.
  - simpl in H. rewrite cons_len_none in H. apply star_zero.
    exact (Hk [] H).
  - simpl in *. destruct (p c).
    + destruct (star p k s) as [[|n ls]|] eqn:E.
      * exfalso. exact (star_not_nil p k s E).
      * destruct (star p k' (s ++ x)) as [[|n' ls']|] eqn:E'.
        -- exfalso. exact (star_not_nil p k' (s ++ x) E').
        -- discriminate.
        -- exfalso. apply IH; [discriminate|reflexivity].
      * rewrite cons_len_none in H.
        destruct (star p k' (s ++ x)) as [[|n' ls']|];
          try discriminate; rewrite cons_len_none; exact (Hk (c :: s) H).
    + rewrite cons_len_none in *. exact (Hk (c :: s) H).
Qed.

(** A match at the start of [s] is not lost when text is added after
    [s]. *)
Lemma exec_extend re x :
  no_eos re = true -> forall s, exec re s <> None -> exec re (s ++ x) <> None.
Proof.
  induction re as [|a re IH]; intros Hre s H; [discriminate|].
  simpl in Hre. apply andb_true_iff in Hre. destruct Hre as [Ha Hre].
  specialize (IH Hre).
  destruct a as [l|p|p|p| |]; try discriminate; cbn [exec] in *.
  - destruct (starts_with l s) eqn:E; [|congruence].
    destruct (starts_with_extend l s x E) as [E1 E2]. rewrite E1, E2.
    rewrite cons_len_none in *. now apply IH.
  - destruct s as [|c s]; [congruence|]. simpl.
    destruct (p c); [|congruence]. rewrite cons_len_none in *. now apply IH.
  - assert (Hz : exec re s <> None -> cons_len 0 (exec re (s ++ x)) <> None).
    { intros Hs. rewrite cons_len_none. now apply IH. }
    destruct s as [|c s].
    + rewrite cons_len_none in H. specialize (Hz H). simpl in *.
      destruct x as [|d x]; [exact Hz|].
      destruct (p d); [|exact Hz].
      destruct (exec re x); [discriminate|exact Hz].
    + simpl. destruct (p c).
      * destruct (exec re s) eqn:E.
        -- destruct (exec re (s ++ x)) eqn:E'; [discriminate|].
           exfalso. apply (IH s); [congruence|exact E'].
        -- rewrite cons_len_none in H.
           destruct (exec re (s ++ x)); [discriminate|].
           exact (Hz H).
      * rewrite cons_len_none in H. exact (Hz H).
  - revert H. apply star_extend. exact IH.
Qed.

Lemma search_some re s : search re s <> None <-> test re s = true.
Proof.
  unfold test. destruct (search re s); split; congruence.
Qed.

Lemma test_extend re s x :
  no_eos re = true -> test re s = true -> test re (s ++ x) = true.
Proof.
  intros Hre. rewrite <- !search_some. induction s as [|c s IH]; intros H.
  - simpl in H. destruct (exec re []) eqn:E; [|congruence].
    assert (E' : exec re ([] ++ x) <> None)
      by (apply exec_extend; [exact Hre|congruence]).
    simpl in E'. destruct x as [|d x]; simpl.
    + rewrite E. discriminate.
    + destruct (exec re (d :: x)); [discriminate|congruence].
  - simpl in *. destruct (exec re (c :: s)) eqn:E.
    + assert (E' : exec re ((c :: s) ++ x) <> None)
        by (apply exec_extend; [exact Hre|congruence]).
      simpl in E'. destruct (exec re (c :: s ++ x)); congruence.
    + destruct (exec re (c :: s ++ x)); [discriminate|].
      destruct (search re s) as [[i ls]|] eqn:Es; [|congruence].
      destruct (search re (s ++ x)) as [[i' ls']|]; [discriminate|].
      apply IH; congruence.
Qed.

Lemma test_skip re p s : test re s = true -> test re (p ++ s) = true.
Proof.
  rewrite <- !search_some. intros H. induction p as [|c p IH]; [exact H|].
  simpl. destruct (exec re (c :: p ++ s)); [discriminate|].
  destruct (search re (p ++ s)) as [[i ls]|]; [discriminate|exact IH].
Qed.

Lemma test_within re pre s post :
  no_eos re = true -> test re s = true -> test re (pre ++ s ++ post) = true.
Proof. intros Hre H. apply test_skip. now apply test_extend. Qed.

Lemma test_within_false re pre s post :
  no_eos re = true -> test re (pre ++ s ++ post) = false -> test re s = false.
Proof.
  intros Hre H. destruct (test re s) eqn:E; [|reflexivity].
  now rewrite (test_within re pre s post Hre E) in H.
Qed.

(** No match starts at any place of [s]. *)
Lemma test_false_exec re s :
  test re s = false -> exec re s = None.
Proof.
  unfold test. destruct s; simpl; destruct (exec re _); congruence.
Qed.

Lemma test_false_tail re c s :
  test re (c :: s) = false -> test re s = false.
Proof.
  intros H. destruct (test re s) eqn:E; [|reflexivity].
  pose proof (test_skip re [c] s E) as E'. simpl in E'. congruence.
Qed.

Lemma test_false_cons re c s :
  exec re (c :: s) = None -> test re s = false -> test re (c :: s) = false.
Proof.
  unfold test. simpl. intros -> H.
  destruct (search re s) as [[i ls]|]; [discriminate|reflexivity].
Qed.

(** A match is made of characters of the string. *)
Lemma star_bound p (k : jsstring -> option (list nat)) :
  (forall s ls, k s = Some ls -> total ls <= length s) ->
  forall s ls, star p k s = Some ls -> total ls <= length s.
Proof.
  intros Hk. induction s as [|c s IH]; intros ls H; simpl in H.
  - destruct (k []) eqn:E; [|discriminate]. injection H as <-.
    exact (Hk [] l E).
  - assert (Hz : cons_len 0 (k (c :: s)) = Some ls ->
                 total ls <= length (c :: s)).
    { destruct (k (c :: s)) eqn:E; [|discriminate]. intros [= <-].
      exact (Hk (c :: s) l E). }
    destruct (p c); [|now apply Hz].
    destruct (star p k s) as [[|n l]|] eqn:E; try now apply Hz.
    injection H as <-. specialize (IH (n :: l) eq_refl).
    unfold total in *. simpl in *. lia.
Qed.

Lemma exec_bound re : forall s ls, exec re s = Some ls -> total ls <= length s.
Proof.
  induction re as [|a re IH]; intros s ls H.
  - injection H as <-. unfold total. simpl. lia.
  - destruct a as [l|p|p|p| |]; cbn [exec] in H.
    + destruct (starts_with l s) eqn:E; [|discriminate].
      destruct (exec re (skipn (length l) s)) eqn:E'; [|discriminate].
      injection H as <-. specialize (IH _ _ E').
      rewrite length_skipn in IH. apply starts_with_split in E.
      rewrite E, length_app. unfold total in *. simpl.
      rewrite E, length_app in IH. lia.
    + destruct s as [|c s]; [discriminate|]. destruct (p c); [|discriminate].
      destruct (exec re s) eqn:E'; [|discriminate]. injection H as <-.
      specialize (IH _ _ E'). unfold total in *. simpl. lia.
    + assert (Hz : cons_len 0 (exec re s) = Some ls -> total ls <= length s).
      { destruct (exec re s) eqn:E'; [|discriminate]. intros [= <-].
        exact (IH _ _ E'). }
      destruct s as [|c s]; [now apply Hz|].
      destruct (p c); [|now apply Hz].
      destruct (exec re s) eqn:E'; [|now apply Hz].
      injection H as <-. specialize (IH _ _ E'). unfold total in *. simpl. lia.
    + exact (star_bound p (exec re) IH s ls H).
    + destruct s; [|discriminate].
      destruct (exec re []) eqn:E'; [|discriminate]. injection H as <-.
      exact (IH _ _ E').
    + assert (Hz : cons_len 0 (exec re s) = Some ls -> total ls <= length s).
      { destruct (exec re s) eqn:E'; [|discriminate]. intros [= <-].
        exact (IH _ _ E'). }
      destruct s as [|c s]; [now apply Hz|].
      destruct (is_line_terminator c); [now apply Hz|discriminate].
Qed.

Lemma search_bound re : forall s i ls,
  search re s = Some (i, ls) -> i + total ls <= length s.
Proof.
  induction s as [|c s IH]; intros i ls H; simpl in H.
  - destruct (exec re []) eqn:E; [|discriminate]. injection H as <- <-.
    exact (exec_bound re _ _ E).
  - destruct (exec re (c :: s)) eqn:E.
    + injection H as <- <-. exact (exec_bound re _ _ E).
    + destruct (search re s) as [[j l]|] eqn:Es; [|discriminate].
      injection H as <- <-. specialize (IH _ _ eq_refl). simpl. lia.
Qed.

(** Search below a prefix in which no match starts. *)
Lemma search_clear re p s :
  clear re p s ->
  search re (p ++ s)
  = match search re s with
    | Some (i, ls) => Some (length p + i, ls)
    | None => None
    end.
Proof.
  induction p as [|c p IH]; intros H.
  - simpl. destruct (search re s) as [[i ls]|]; reflexivity.
  - destruct H as [H1 H2]. simpl. simpl in H1. rewrite H1, (IH H2).
    destruct (search re s) as [[i ls]|]; reflexivity.
Qed.

End Extension.

(* ------------------------------------------------------------------ *)
(** ** Checkboxes, dates and tags *)
(* ------------------------------------------------------------------ *)

Section Tags.
Import TaskUtils TaskScheduler.

(** An incomplete task line is tabs, [- [ ]], and the rest. *)
Lemma incomplete_inv line :
  test_at INCOMPLETE_TASK_PATTERN line = true ->
  exists tabs rest, line = tabs ++ L "- [ ]" ++ rest /\ all_tabs tabs.
Proof.
  unfold INCOMPLETE_TASK_PATTERN, test_at. intros H.
  destruct (exec_tabs_inv [Lit (L "- [ ]")] line) as [tabs [x [E [Ht [_ Hx]]]]].
  - intros c s'. now apply lit_rejects_tab.
  - destruct (exec _ line); [discriminate|discriminate].
  - exists tabs, (skipn 5 x). split; [|exact Ht].
    rewrite E. f_equal. cbn [exec] in Hx.
    destruct (starts_with (L "- [ ]") x) eqn:Es; [|congruence].
    now apply starts_with_split in Es.
Qed.

(** [s] has no white space at its end. *)
Definition tight (s : jsstring) : Prop := trimEnd s = s.

Lemma tight_cons c s :
  tight (c :: s) -> (s = [] /\ is_ws c = false) \/ (s <> [] /\ tight s).
Proof.
  unfold tight. simpl. destruct (trimEnd s) as [|t ts] eqn:E.
  - destruct (is_ws c); [discriminate|]. intros [= <-]. now left.
  - intros [= <-]. right. split; [discriminate|reflexivity].
Qed.

Lemma trimEnd_tight s : tight (trimEnd s).
Proof.
  unfold tight. induction s as [|c s IH]; simpl; [reflexivity|].
  destruct (trimEnd s) as [|t ts] eqn:E.
  - destruct (is_ws c) eqn:Ec; simpl; [reflexivity|now rewrite Ec].
  - change (trimEnd (c :: t :: ts)) with
      (match trimEnd (t :: ts) with
       | [] => if is_ws c then [] else [c]
       | x => c :: x
       end).
    rewrite IH. reflexivity.
Qed.

Lemma trimEnd_app_tight a b :
  tight b -> b <> [] -> trimEnd (a ++ b) = a ++ b.
Proof.
  intros Hb Hne. induction a as [|c a IH]; simpl; [exact Hb|].
  rewrite IH. destruct (a ++ b) eqn:E; [|reflexivity].
  apply app_eq_nil in E. destruct E as [_ E]. congruence.
Qed.

(** A date [dddd-dd-dd]. *)
Definition isDate (d : jsstring) : bool := test_at (DATE ++ [Eos]) d.

Inductive date_shape : jsstring -> Prop :=
| Date_shape d1 d2 d3 d4 d5 d6 d7 d8 :
    is_digit d1 = true -> is_digit d2 = true -> is_digit d3 = true ->
    is_digit d4 = true -> is_digit d5 = true -> is_digit d6 = true ->
    is_digit d7 = true -> is_digit d8 = true ->
    date_shape [d1; d2; d3; d4; 45; d5; d6; 45; d7; d8]%N.

Lemma isDate_inv d : isDate d = true -> date_shape d.
Proof.
  unfold isDate, test_at, DATE. intros H.
  destruct (exec _ d) as [ls|] eqn:E; [clear H|discriminate].
  destruct d as [|d1 [|d2 [|d3 [|d4 [|h1 [|d5 [|d6 [|h2 [|d7 [|d8 [|x d]]]]]]]]]]];
    simpl in E; try discriminate;
    repeat match type of E with
      | context [is_digit ?c] =>
          destruct (is_digit c) eqn:?; simpl in E; try discriminate
      | context [N.eqb 45 ?c] =>
          destruct (N.eqb_spec 45 c); simpl in E; try discriminate
      end.
  subst. now constructor.
Qed.

Lemma digit_not_ws c : is_digit c = true -> is_ws c = false.
Proof.
  unfold is_digit. intros H. apply andb_true_iff in H. destruct H as [H1 H2].
  apply N.leb_le in H1. apply N.leb_le in H2.
  unfold is_ws, in_range.
  repeat match goal with
    | |- context [N.eqb c ?k] =>
        let E := fresh in destruct (N.eqb_spec c k) as [E|E]; [lia|]
    | |- context [N.leb ?a ?b] =>
        let E := fresh in destruct (N.leb_spec a b) as [E|E]; try lia
    end.
  all: reflexivity.
Qed.

End Tags.

(** White-space facts for the digits in the context. *)
Ltac digits :=
  repeat match goal with
    | H : is_digit ?c = true |- _ =>
        lazymatch goal with
        | _ : is_ws c = false |- _ => fail
        | _ => pose proof (digit_not_ws c H)
        end
    end.

(* ------------------------------------------------------------------ *)
(** ** A tag appended to a line *)
(* ------------------------------------------------------------------ *)

Section Straddle.
Import TaskUtils TaskScheduler.

(** A regex of single characters none of which is white space. *)
Fixpoint fixed_nows (re : regex) : Prop :=
  match re with
  | [] => True
  | One p :: r => (forall c, is_ws c = true -> p c = false) /\ fixed_nows r
  | Lit [x] :: r => is_ws x = false /\ fixed_nows r
  | _ => False
  end.

(** Such a regex does not match across white space. *)
Lemma fixed_straddle re w0 X :
  is_ws w0 = true -> fixed_nows re -> re <> [] ->
  forall a, exec re a = None -> exec re (a ++ w0 :: X) = None.
Proof.
  intros Hw. induction re as [|at0 re IH]; intros Hf Hne a H; [congruence|].
  assert (Hre : exec re a = None -> re <> []).
  { intros E ->. discriminate. }
  destruct at0 as [l|p|p|p| |]; simpl in Hf; try contradiction.
  - destruct l as [|x [|y l]]; try contradiction. destruct Hf as [Hx Hf].
    destruct a as [|c a]; cbn [exec starts_with app] in *.
    + destruct (N.eqb_spec x w0) as [->|_]; [congruence|reflexivity].
    + destruct (N.eqb x c); [|reflexivity]. cbn [andb length skipn] in *.
      rewrite cons_len_none in *. apply IH; [exact Hf| |exact H].
      intros ->. discriminate.
  - destruct Hf as [Hp Hf].
    destruct a as [|c a]; cbn [exec app] in *.
    + now rewrite (Hp w0 Hw).
    + destruct (p c); [|reflexivity].
      rewrite cons_len_none in *. apply IH; [exact Hf| |exact H].
      intros ->. discriminate.
Qed.

Lemma date_close_fixed : fixed_nows (DATE ++ [Lit (L "]")]).
Proof.
  assert (Hd : forall c, is_ws c = true -> is_digit c = false).
  { intros c Hc. destruct (is_digit c) eqn:E; [|reflexivity].
    apply digit_not_ws in E. congruence. }
  simpl. repeat split; try exact Hd; reflexivity.
Qed.

(** A regex that fails on every tight string fails on it when white
    space and more follow; [\s*] before the regex keeps that. *)
Lemma star_straddle (k : jsstring -> option (list nat)) w0 X :
  (forall a, a <> [] -> tight a -> k a = None -> k (a ++ w0 :: X) = None) ->
  forall a, a <> [] -> tight a ->
    star is_ws k a = None -> star is_ws k (a ++ w0 :: X) = None.
Proof.
  intros Hk. induction a as [|c t IH]; intros Hne Ht H; [congruence|].
  assert (Hc : k (c :: t) = None -> k ((c :: t) ++ w0 :: X) = None)
    by (now apply Hk).
  destruct (tight_cons c t Ht) as [[-> Hws] | [Hne' Htt]].
  - simpl in *. rewrite Hws in *. rewrite cons_len_none in *. now apply Hc.
  - simpl in *. destruct (is_ws c).
    + destruct (star is_ws k t) as [[|n ls]|] eqn:E; try discriminate.
      * exfalso. exact (star_not_nil is_ws k t E).
      * rewrite (IH Hne' Htt eq_refl). rewrite cons_len_none in *.
        now apply Hc.
    + rewrite cons_len_none in *. now apply Hc.
Qed.

Definition DATE_TAGS : list regex :=
  [SCHEDULE_FROM_PATTERN; SCHEDULE_TO_PATTERN;
   Star is_ws :: SCHEDULE_FROM_PATTERN; Star is_ws :: SCHEDULE_TO_PATTERN].

Lemma date_tag_core o2 X :
  (o2 = 60 \/ o2 = 62)%N ->
  forall a, a <> [] -> tight a ->
    exec ([Lit [91%N; o2]; Star is_ws] ++ DATE ++ [Lit (L "]")]) a = None ->
    exec ([Lit [91%N; o2]; Star is_ws] ++ DATE ++ [Lit (L "]")])
      (a ++ 32%N :: 91%N :: X) = None.
Proof.
  intros Ho a Hne Ht H.
  destruct a as [|c1 [|c2 a]]; [congruence| |].
  - cbn [app exec starts_with]. destruct (N.eqb 91 c1); [|reflexivity].
    destruct Ho as [-> | ->]; reflexivity.
  - cbn [app exec starts_with length skipn] in *.
    destruct (N.eqb 91 c1); [|reflexivity].
    destruct (N.eqb o2 c2); [|reflexivity]. cbn [andb] in *.
    rewrite cons_len_none in *.
    assert (Hta : tight a).
    { destruct (tight_cons c1 (c2 :: a) Ht) as [[E _] | [_ Ht2]];
        [discriminate|].
      destruct (tight_cons c2 a Ht2) as [[-> _] | [_ Ht3]];
        [reflexivity|exact Ht3]. }
    destruct a as [|c3 a]; [reflexivity|].
    apply star_straddle; [|discriminate|exact Hta|exact H].
    intros b _ _. apply fixed_straddle;
      [reflexivity|exact date_close_fixed|discriminate].
Qed.

Lemma date_tag_straddle re X :
  In re DATE_TAGS ->
  forall a, a <> [] -> tight a ->
    exec re a = None -> exec re (a ++ 32%N :: 91%N :: X) = None.
Proof.
  intros Hre.
  assert (Hf := date_tag_core 60 X (or_introl eq_refl)).
  assert (Ht := date_tag_core 62 X (or_intror eq_refl)).
  destruct Hre as [<- | [<- | [<- | [<- | []]]]].
  - exact Hf.
  - exact Ht.
  - intros a Hne Ha. cbn [exec]. now apply star_straddle.
  - intros a Hne Ha. cbn [exec]. now apply star_straddle.
Qed.

Lemma clear_tight re R X :
  (forall a, a <> [] -> tight a -> exec re a = None -> exec re (a ++ X) = None) ->
  tight R -> test re R = false -> clear re R X.
Proof.
  intros Hre. induction R as [|c t IH]; intros Ht H; [exact I|].
  split.
  - apply (Hre (c :: t)); [discriminate|exact Ht|now apply test_false_exec].
  - destruct (tight_cons c t Ht) as [[-> _] | [_ Htt]]; [exact I|].
    apply IH; [exact Htt|]. now apply test_false_tail in H.
Qed.

(** [\s*] and a literal: the literal is in the string. *)
Lemma star_reaches p (k : jsstring -> option (list nat)) s :
  star p k s <> None -> exists a b, s = a ++ b /\ k b <> None.
Proof.
  induction s as [|c s IH]; simpl; intros H.
  - exists [], []. split; [reflexivity|now rewrite cons_len_none in H].
  - assert (Hz : cons_len 0 (k (c :: s)) <> None ->
                 exists a b, c :: s = a ++ b /\ k b <> None).
    { intros Hk. exists [], (c :: s). split; [reflexivity|].
      now rewrite cons_len_none in Hk. }
    destruct (p c); [|now apply Hz].
    destruct (star p k s) as [[|n ls]|] eqn:E; try now apply Hz.
    destruct IH as [a [b [-> Hb]]]; [discriminate|].
    exists (c :: a), b. split; [reflexivity|exact Hb].
Qed.

Lemma search_reaches re s :
  test re s = true -> exists a b, s = a ++ b /\ exec re b <> None.
Proof.
  rewrite <- search_some. induction s as [|c s IH]; simpl; intros H.
  - exists [], []. split; [reflexivity|]. destruct (exec re []); congruence.
  - destruct (exec re (c :: s)) eqn:E.
    + exists [], (c :: s). split; [reflexivity|congruence].
    + destruct IH as [a [b [-> Hb]]].
      * destruct (search re s) as [[i ls]|]; congruence.
      * exists (c :: a), b. split; [reflexivity|exact Hb].
Qed.

Lemma test_needs op tl s x :
  test (Star is_ws :: Lit op :: tl) s = true -> In x op -> In x s.
Proof.
  intros H Hx. apply search_reaches in H. destruct H as [a [b [-> Hb]]].
  cbn [exec] in Hb. apply star_reaches in Hb.
  destruct Hb as [a' [b' [-> Hb]]]. cbn [exec] in Hb.
  destruct (starts_with op b') eqn:E; [|congruence].
  apply starts_with_split in E. rewrite E.
  apply in_or_app. right. apply in_or_app. right. apply in_or_app. now left.
Qed.

(** The tags of the scheduler. *)
Definition tagTo (d : jsstring) : jsstring := L " [> " ++ d ++ L "]".
Definition tagFrom (d : jsstring) : jsstring := L " [< " ++ d ++ L "]".

Lemma tagTo_no_from d :
  date_shape d -> test (Star is_ws :: SCHEDULE_FROM_PATTERN) (tagTo d) = false.
Proof.
  intros Hd. destruct (test _ (tagTo d)) eqn:E; [|reflexivity]. exfalso.
  apply (test_needs (L "[<") _ (tagTo d) 60%N) in E; [|simpl; auto].
  destruct Hd. unfold tagTo in E. simpl in E.
  repeat destruct E as [E|E]; try discriminate; try contradiction;
    subst; discriminate.
Qed.

Lemma exec_tagTo d s :
  date_shape d ->
  exec (Star is_ws :: SCHEDULE_TO_PATTERN) (tagTo d ++ s)
  = Some [1; 2; 1; 1; 1; 1; 1; 1; 1; 1; 1; 1; 1; 1].
Proof.
  intros Hd. destruct Hd. digits. unfold tagTo. simpl.
  repeat match goal with
    | H : _ = _ |- _ => rewrite H; simpl
    end.
  reflexivity.
Qed.

Lemma search_tagTo d s :
  date_shape d ->
  search SCHEDULE_TO_PATTERN (tagTo d ++ s)
  = Some (1, [2; 1; 1; 1; 1; 1; 1; 1; 1; 1; 1; 1; 1]).
Proof.
  intros Hd. destruct Hd. digits. unfold tagTo. simpl.
  repeat match goal with
    | H : _ = _ |- _ => rewrite H; simpl
    end.
  reflexivity.
Qed.

Lemma replace_skip_all re rep s :
  replace_all_from re rep (length s) s = [].
Proof. induction s as [|c s IH]; simpl; [reflexivity|exact IH]. Qed.

Lemma replace_all_whole re rep s ls :
  exec re s = Some ls -> total ls = length s -> s <> [] ->
  replace_all re rep s = rep.
Proof.
  intros He Ht Hne. destruct s as [|c s]; [congruence|].
  unfold replace_all. simpl. rewrite He, Ht. simpl.
  rewrite replace_skip_all. apply app_nil_r.
Qed.

(** Removing the scheduling tags from a tight text with no such tag,
    followed by the tag of [markTaskAsScheduled]: the text. *)
Lemma removeSchedulingTags_tagTo R d :
  tight R -> noSchedulingTags R = true -> date_shape d ->
  removeSchedulingTags (R ++ tagTo d) = R.
Proof.
  intros HR Hno Hd.
  unfold noSchedulingTags, SCHEDULING_TAGS in Hno. cbn [forallb] in Hno.
  repeat (apply andb_true_iff in Hno; destruct Hno as [?H Hno]).
  repeat match goal with
    | H : negb _ = true |- _ => apply negb_true_iff in H
    end.
  unfold removeSchedulingTags.
  rewrite (replace_all_prefix (Star is_ws :: SCHEDULE_FROM_PATTERN) [] R (tagTo d)).
  2:{ apply clear_tight; [|exact HR|assumption].
      apply date_tag_straddle. simpl. auto. }
  rewrite (replace_all_none _ [] (tagTo d)) by now apply tagTo_no_from.
  rewrite (replace_all_prefix (Star is_ws :: SCHEDULE_TO_PATTERN) [] R (tagTo d)).
  2:{ apply clear_tight; [|exact HR|assumption].
      apply date_tag_straddle. simpl. auto. }
  rewrite (replace_all_whole (Star is_ws :: SCHEDULE_TO_PATTERN) [] (tagTo d)
             [1; 2; 1; 1; 1; 1; 1; 1; 1; 1; 1; 1; 1; 1]).
  2:{ rewrite <- (app_nil_r (tagTo d)). now apply exec_tagTo. }
  2:{ destruct Hd. reflexivity. }
  2:{ discriminate. }
  rewrite app_nil_r.
  repeat match goal with
    | H : test ?re R = false |- context [replace_all ?re [] R] =>
        rewrite (replace_all_none re [] R H)
    end.
  reflexivity.
Qed.

End Straddle.

(* ------------------------------------------------------------------ *)
(** ** Marking a line as scheduled, and back *)
(* ------------------------------------------------------------------ *)

Section MarkAndReset.
Import TaskUtils TaskScheduler.

Lemma trimEnd_app_nows a x b :
  is_ws x = false -> trimEnd (a ++ x :: b) = a ++ x :: trimEnd b.
Proof.
  intros Hx. induction a as [|c a IH]; simpl.
  - rewrite Hx. destruct (trimEnd b); reflexivity.
  - rewrite IH. destruct a; reflexivity.
Qed.

(** The checkbox, then the rest trimmed. *)
Lemma trimEnd_checkbox tabs m rest :
  trimEnd (tabs ++ L "- [" ++ m :: L "]" ++ rest)
  = tabs ++ L "- [" ++ m :: L "]" ++ trimEnd rest.
Proof.
  change (tabs ++ L "- [" ++ m :: L "]" ++ rest)
    with (tabs ++ [45; 32; 91; m]%N ++ 93%N :: rest).
  rewrite app_assoc, trimEnd_app_nows by reflexivity.
  rewrite <- app_assoc. reflexivity.
Qed.

Lemma noSchedulingTags_mono s s' :
  (forall re, In re SCHEDULING_TAGS -> test re s' = true -> test re s = true) ->
  noSchedulingTags s = true -> noSchedulingTags s' = true.
Proof.
  unfold noSchedulingTags. rewrite !forallb_forall. intros Hm H re Hin.
  specialize (H re Hin). apply negb_true_iff in H. apply negb_true_iff.
  destruct (test re s') eqn:E; [|reflexivity].
  rewrite (Hm re Hin E) in H. discriminate.
Qed.

Lemma noSchedulingTags_skip p s :
  noSchedulingTags (p ++ s) = true -> noSchedulingTags s = true.
Proof. apply noSchedulingTags_mono. intros re _. apply test_skip. Qed.

Lemma scheduling_tags_no_eos re : In re SCHEDULING_TAGS -> no_eos re = true.
Proof.
  intros H. repeat (destruct H as [<- | H]; [reflexivity|]). destruct H.
Qed.

Lemma noSchedulingTags_trim p rest :
  noSchedulingTags (p ++ rest) = true ->
  noSchedulingTags (p ++ trimEnd rest) = true.
Proof.
  apply noSchedulingTags_mono. intros re Hre H.
  destruct (trimEnd_prefix rest) as [w [E _]].
  rewrite E, app_assoc.
  apply test_extend; [now apply scheduling_tags_no_eos|exact H].
Qed.

(** The time block pattern looks at the marker only to see a character. *)
Lemma timeblock_marker tabs m m' rest :
  all_tabs tabs -> is_dot m = true -> is_dot m' = true ->
  exec TIMEBLOCK_PREFIX (tabs ++ L "- [" ++ m :: L "]" ++ rest) = None ->
  exec TIMEBLOCK_PREFIX (tabs ++ L "- [" ++ m' :: L "]" ++ rest) = None.
Proof.
  intros Ht Hm Hm'. unfold TIMEBLOCK_PREFIX.
  rewrite !exec_tabs; try exact Ht; try reflexivity;
    try (intros c s'; now apply lit_rejects_tab).
  simpl. rewrite Hm, Hm'. rewrite !cons_len_none. trivial.
Qed.

Lemma markTaskAsScheduled_checkbox tabs rest d :
  all_tabs tabs ->
  exec TIMEBLOCK_PREFIX (tabs ++ L "- [ ]" ++ rest) = None ->
  noSchedulingTags (tabs ++ L "- [ ]" ++ rest) = true ->
  markTaskAsScheduled (tabs ++ L "- [ ]" ++ rest) d
  = tabs ++ L "- [>]" ++ trimEnd rest ++ tagTo d.
Proof.
  intros Ht Htb Hno. unfold markTaskAsScheduled.
  assert (HnoR : noSchedulingTags rest = true).
  { apply (noSchedulingTags_skip (tabs ++ L "- [ ]")). now rewrite <- app_assoc. }
  assert (E1 : setMarker ">" (tabs ++ L "- [ ]" ++ rest)
               = tabs ++ L "- [>]" ++ rest)
    by exact (setMarker_checkbox ">" tabs 32%N rest (or_introl eq_refl) Ht
                eq_refl).
  assert (E2 : removeTimeBlock (tabs ++ L "- [>]" ++ rest)
               = tabs ++ L "- [>]" ++ rest).
  { unfold removeTimeBlock, search_start.
    assert (E : exec TIMEBLOCK_PREFIX (tabs ++ L "- [>]" ++ rest) = None)
      by exact (timeblock_marker tabs 32%N 62%N rest Ht eq_refl eq_refl Htb).
    rewrite E. reflexivity. }
  assert (E3 : removeSchedulingTags (tabs ++ L "- [>]" ++ rest)
               = tabs ++ L "- [>]" ++ rest).
  { transitivity (tabs ++ L "- [>]" ++ removeSchedulingTags rest).
    - exact (removeSchedulingTags_checkbox tabs 62%N rest Ht (or_intror eq_refl)).
    - now rewrite removeSchedulingTags_none. }
  assert (E4 : trimEnd (tabs ++ L "- [>]" ++ rest)
               = tabs ++ L "- [>]" ++ trimEnd rest)
    by exact (trimEnd_checkbox tabs 62%N rest).
  rewrite E1, E2, E3, E4. unfold tagTo. rewrite <- !app_assoc. reflexivity.
Qed.

Lemma resetScheduledTask_checkbox tabs R d :
  all_tabs tabs -> tight R -> date_shape d ->
  noSchedulingTags (tabs ++ L "- [ ]" ++ R) = true ->
  resetScheduledTask (tabs ++ L "- [>]" ++ R ++ tagTo d)
  = tabs ++ L "- [ ]" ++ R.
Proof.
  intros Ht HR Hd Hno. unfold resetScheduledTask.
  rewrite resetMarker_checkbox by exact Ht.
  transitivity (tabs ++ L "- [ ]" ++ removeSchedulingTags (R ++ tagTo d)).
  - exact (removeSchedulingTags_checkbox tabs 32%N (R ++ tagTo d) Ht
             (or_introl eq_refl)).
  - rewrite removeSchedulingTags_tagTo; [reflexivity|exact HR| |exact Hd].
    apply (noSchedulingTags_skip (tabs ++ L "- [ ]")). now rewrite <- app_assoc.
Qed.

(** No match of a pattern that starts with [[<] or [[>] starts in the
    checkbox. *)
Lemma clear_tabs_lit op tl tabs q s :
  all_tabs tabs -> starts_with [9%N] op = false -> op <> [] ->
  clear (Lit op :: tl) q s -> clear (Lit op :: tl) (tabs ++ q) s.
Proof.
  intros Ht Hop Hne Hq. induction Ht as [|c tabs Hc Ht IH]; [exact Hq|].
  split; [|exact IH]. now apply lit_rejects_tab.
Qed.

Lemma test_mono re re' s :
  (forall s', exec re s' <> None -> exec re' s' <> None) ->
  test re s = true -> test re' s = true.
Proof.
  intros Hm. rewrite <- !search_some.
  induction s as [|c s IH]; simpl; intros H.
  - destruct (exec re []) eqn:E; [|congruence].
    destruct (exec re' []) eqn:E'; [discriminate|].
    exfalso. apply (Hm []); congruence.
  - destruct (exec re (c :: s)) eqn:E.
    + destruct (exec re' (c :: s)) eqn:E'; [discriminate|].
      exfalso. apply (Hm (c :: s)); congruence.
    + destruct (exec re' (c :: s)); [discriminate|].
      destruct (search re s) as [[i ls]|] eqn:Es; [|congruence].
      destruct (search re' s) as [[i' ls']|]; [discriminate|].
      exfalso. apply IH; [discriminate|reflexivity].
Qed.

Lemma test_star re s :
  test re s = true -> test (Star is_ws :: re) s = true.
Proof. apply test_mono. intros s'. cbn [exec]. apply star_zero. Qed.

Lemma extractScheduledToDate_marked tabs R d :
  all_tabs tabs -> tight R -> date_shape d ->
  noSchedulingTags (tabs ++ L "- [ ]" ++ R) = true ->
  extractScheduledToDate (tabs ++ L "- [>]" ++ R ++ tagTo d) = Some d.
Proof.
  intros Ht HR Hd Hno.
  assert (HnoR : test (Star is_ws :: SCHEDULE_TO_PATTERN) R = false).
  { rewrite app_assoc in Hno. apply noSchedulingTags_skip in Hno.
    unfold noSchedulingTags in Hno. rewrite forallb_forall in Hno.
    apply negb_true_iff. apply Hno. simpl. auto. }
  assert (HtoR : test SCHEDULE_TO_PATTERN R = false).
  { destruct (test SCHEDULE_TO_PATTERN R) eqn:E; [|reflexivity].
    apply test_star in E. congruence. }
  unfold extractScheduledToDate, captureDate.
  replace (tabs ++ L "- [>]" ++ R ++ tagTo d)
    with ((tabs ++ L "- [>]") ++ R ++ tagTo d) by now rewrite <- app_assoc.
  rewrite search_clear.
  2:{ apply clear_tabs_lit; [exact Ht|reflexivity|discriminate|].
      simpl. repeat split; reflexivity. }
  rewrite search_clear.
  2:{ apply clear_tight; [|exact HR|exact HtoR].
      apply date_tag_straddle. simpl. auto. }
  rewrite <- (app_nil_r (tagTo d)) at 1. rewrite search_tagTo by exact Hd.
  unfold group. cbn [firstn skipn total fold_right Nat.add].
  match goal with
  | |- context [skipn ?n _] =>
      replace n with (length (tabs ++ L "- [>]") + (length R + 4)) by lia
  end.
  rewrite skipn_app_len, skipn_app_len. destruct Hd. reflexivity.
Qed.

End MarkAndReset.

(* ------------------------------------------------------------------ *)
(** ** The id tag of a line with text added after it *)
(* ------------------------------------------------------------------ *)

Section IdTag.
Import TaskUtils TaskScheduler.

(** [s] holds a closing bracket. *)
Definition has_rb (s : jsstring) : bool :=
  existsb (fun c => negb (not_rbracket c)) s.

Lemma close_at c s :
  exec [Lit (L "]")] (c :: s)
  = if not_rbracket c then None else Some [1].
Proof.
  unfold not_rbracket. simpl. rewrite (N.eqb_sym 93 c).
  destruct (N.eqb c 93); reflexivity.
Qed.

Lemma star_rb_closed u :
  star not_rbracket (exec [Lit (L "]")]) u <> None -> has_rb u = true.
Proof.
  induction u as [|c u IH]; intros H; [simpl in H; congruence|].
  cbn [star] in H. cbn [has_rb existsb]. rewrite close_at in H.
  destruct (not_rbracket c); [|reflexivity]. cbn [negb orb].
  apply IH. destruct (star _ _ u) as [[|n ls]|]; simpl in H; congruence.
Qed.

Lemma star_rb_app u x :
  has_rb u = true ->
  star not_rbracket (exec [Lit (L "]")]) (u ++ x)
  = star not_rbracket (exec [Lit (L "]")]) u.
Proof.
  induction u as [|c u IH]; intros H; [discriminate|].
  cbn [has_rb existsb] in H. cbn [app star]. rewrite !close_at.
  destruct (not_rbracket c); [|reflexivity].
  cbn [negb orb] in H. now rewrite (IH H).
Qed.

Lemma starts_with_long l s x :
  length l <= length s -> starts_with l (s ++ x) = starts_with l s.
Proof.
  revert s. induction l as [|a l IH]; intros s H; [reflexivity|].
  destruct s as [|c s]; simpl in *; [lia|]. rewrite IH by lia. reflexivity.
Qed.

Lemma has_rb_length n s : has_rb (skipn n s) = true -> n < length s.
Proof.
  intros H. destruct (Nat.lt_ge_cases n (length s)) as [Hl|Hl]; [exact Hl|].
  rewrite skipn_all2 in H by exact Hl. discriminate.
Qed.

Lemma has_rb_skipn n s :
  has_rb (skipn (S n) s) = true -> has_rb (skipn n s) = true.
Proof.
  revert s. induction n as [|n IH]; intros s H.
  - destruct s as [|c s]; [discriminate|]. simpl in *.
    rewrite H. apply orb_true_r.
  - destruct s as [|c s]; [discriminate|]. now apply IH.
Qed.

Lemma exec_ID_closed s :
  exec ID_PATTERN s <> None -> has_rb (skipn 5 s) = true.
Proof.
  unfold ID_PATTERN. cbn [exec]. intros H.
  destruct (starts_with (L "[id::") s); [|congruence].
  rewrite cons_len_none in H. change (length (L "[id::")) with 5 in H.
  destruct (skipn 5 s) as [|c u]; [congruence|].
  cbn [has_rb existsb]. destruct (not_rbracket c); [|reflexivity].
  rewrite cons_len_none in H. now apply star_rb_closed.
Qed.

Lemma exec_ID_app s x :
  has_rb (skipn 5 s) = true -> exec ID_PATTERN (s ++ x) = exec ID_PATTERN s.
Proof.
  intros H. pose proof (has_rb_length 5 s H) as Hl.
  unfold ID_PATTERN. cbn [exec].
  rewrite starts_with_long by (change (length (L "[id::")) with 5; lia).
  change (length (L "[id::")) with 5.
  rewrite skipn_app. replace (5 - length s) with 0 by lia. rewrite skipn_O.
  destruct (starts_with (L "[id::") s); [|reflexivity]. f_equal.
  destruct (skipn 5 s) as [|c u]; [discriminate|].
  cbn [has_rb existsb] in H. cbn [app].
  destruct (not_rbracket c); [|reflexivity]. cbn [negb orb] in H.
  f_equal. exact (star_rb_app u x H).
Qed.

Lemma search_ID_closed s i ls :
  search ID_PATTERN s = Some (i, ls) -> has_rb (skipn 5 s) = true.
Proof.
  revert i ls. induction s as [|c s IH]; intros i ls H; [discriminate|].
  cbn [search] in H. destruct (exec ID_PATTERN (c :: s)) eqn:E.
  - apply exec_ID_closed. congruence.
  - destruct (search ID_PATTERN s) as [[j l]|] eqn:Es; [|discriminate].
    apply (has_rb_skipn 4 s), (IH j l eq_refl).
Qed.

(** The first id tag of a line stays the first when text is added at the
    end of the line. *)
Lemma search_ID_app s x i ls :
  search ID_PATTERN s = Some (i, ls) ->
  search ID_PATTERN (s ++ x) = Some (i, ls).
Proof.
  revert i ls. induction s as [|c s IH]; intros i ls H; [discriminate|].
  assert (Hc := search_ID_closed _ _ _ H).
  cbn [search] in H. change ((c :: s) ++ x) with (c :: s ++ x). cbn [search].
  change (c :: s ++ x) with ((c :: s) ++ x). rewrite (exec_ID_app _ x Hc).
  destruct (exec ID_PATTERN (c :: s)); [exact H|].
  destruct (search ID_PATTERN s) as [[j l]|]; [|discriminate].
  now rewrite (IH j l eq_refl).
Qed.

Lemma total_app a b : total (a ++ b) = total a + total b.
Proof.
  unfold total. induction a as [|x a IH]; simpl; [reflexivity|]. lia.
Qed.

Lemma total_firstn n ls : total (firstn n ls) <= total ls.
Proof.
  rewrite <- (firstn_skipn n ls) at 2. rewrite total_app. lia.
Qed.

Lemma group_app off ls i n s x :
  off + total ls <= length s ->
  group off ls i n (s ++ x) = group off ls i n s.
Proof.
  intros H. unfold group.
  assert (H1 : total (firstn i ls) + total (firstn n (skipn i ls)) <= total ls).
  { rewrite <- (firstn_skipn i ls) at 3. rewrite total_app.
    pose proof (total_firstn n (skipn i ls)). lia. }
  rewrite skipn_app, firstn_app.
  rewrite length_skipn.
  replace (total (firstn n (skipn i ls))
           - (length s - (off + total (firstn i ls)))) with 0 by lia.
  rewrite firstn_O, app_nil_r. reflexivity.
Qed.

Lemma group_skip p off ls i n s :
  group (length p + off) ls i n (p ++ s) = group off ls i n s.
Proof.
  unfold group. rewrite <- Nat.add_assoc, skipn_app_len. reflexivity.
Qed.

(** No id tag starts in the checkbox. *)
Lemma checkbox_clear_id tabs m s :
  all_tabs tabs -> (m = 32 \/ m = 62)%N ->
  clear ID_PATTERN (tabs ++ [45; 32; 91; m; 93]%N) s.
Proof.
  intros Ht Hm. apply clear_tabs_lit; [exact Ht|reflexivity|discriminate|].
  destruct Hm as [-> | ->]; simpl; repeat split; reflexivity.
Qed.

Lemma extractId_marked tabs R x id :
  all_tabs tabs ->
  extractId (tabs ++ L "- [ ]" ++ R) = Some id ->
  extractId (tabs ++ L "- [>]" ++ R ++ x) = Some id.
Proof.
  intros Ht. unfold extractId, capture1.
  replace (tabs ++ L "- [ ]" ++ R) with ((tabs ++ L "- [ ]") ++ R)
    by now rewrite <- app_assoc.
  replace (tabs ++ L "- [>]" ++ R ++ x) with ((tabs ++ L "- [>]") ++ R ++ x)
    by now rewrite <- app_assoc.
  rewrite (search_clear ID_PATTERN (tabs ++ L "- [ ]") R)
    by exact (checkbox_clear_id tabs 32%N R Ht (or_introl eq_refl)).
  rewrite (search_clear ID_PATTERN (tabs ++ L "- [>]") (R ++ x))
    by exact (checkbox_clear_id tabs 62%N (R ++ x) Ht (or_intror eq_refl)).
  destruct (search ID_PATTERN R) as [[i ls]|] eqn:E; [|discriminate].
  rewrite (search_ID_app R x i ls E). cbn [option_map].
  rewrite !group_skip. rewrite group_app by exact (search_bound _ _ _ _ E).
  trivial.
Qed.

End IdTag.

(* ------------------------------------------------------------------ *)
(** ** The copy in the target document *)
(* ------------------------------------------------------------------ *)

Section TargetDocument.
Import TaskUtils TaskScheduler.

(** An id in which no character has a meaning in a pattern. *)
Definition plainId (id : jsstring) : bool :=
  forallb (fun c => negb (is_syntax_char c)) id.

Lemma parsePattern_cons c rest :
  is_syntax_char c = false ->
  match rest with q :: _ => is_syntax_char q = false | [] => True end ->
  parsePattern (c :: rest)
  = option_map (cons (One (N.eqb c))) (parsePattern rest).
Proof.
  intros Hc Hq.
  assert (Hdot : N.eqb c 46 = false).
  { unfold is_syntax_char in Hc. simpl in Hc.
    repeat (apply orb_false_iff in Hc; destruct Hc as [? Hc]). assumption. }
  destruct rest as [|q rest]; cbn [parsePattern]; rewrite Hdot, Hc.
  - reflexivity.
  - assert (Hquant : quantifier q = None).
    { unfold is_syntax_char in Hq. simpl in Hq.
      repeat (apply orb_false_iff in Hq; destruct Hq as [? Hq]).
      unfold quantifier.
      repeat match goal with H : N.eqb q _ = false |- _ => rewrite H; clear H end.
      reflexivity. }
    rewrite Hquant. reflexivity.
Qed.

Lemma parsePattern_plain id :
  plainId id = true ->
  parsePattern id = Some (map (fun c => One (N.eqb c)) id).
Proof.
  induction id as [|c id IH]; intros H; [reflexivity|].
  cbn [plainId forallb] in H. apply andb_true_iff in H. destruct H as [Hc H].
  apply negb_true_iff in Hc.
  rewrite parsePattern_cons; [rewrite (IH H); reflexivity|exact Hc|].
  destruct id as [|q id]; [exact I|].
  cbn [plainId forallb] in H. apply andb_true_iff in H. destruct H as [Hq _].
  now apply negb_true_iff in Hq.
Qed.

(** A literal matches where its characters match one by one. *)
Lemma lit_as_ones id k : forall s,
  exec (Lit id :: k) s <> None ->
  exec (map (fun c => One (N.eqb c)) id ++ k) s <> None.
Proof.
  induction id as [|a id IH]; intros s H.
  - cbn [exec starts_with length skipn] in H. rewrite cons_len_none in H.
    exact H.
  - cbn [exec] in H. destruct s as [|c s]; [simpl in H; congruence|].
    cbn [starts_with length skipn] in H.
    destruct (N.eqb a c) eqn:E; [|simpl in H; congruence]. cbn [andb] in H.
    cbn [map app exec]. rewrite E. rewrite cons_len_none. apply IH.
    cbn [exec]. destruct (starts_with id s); [|congruence].
    rewrite cons_len_none in *. exact H.
Qed.

Lemma no_eos_app a b : no_eos (a ++ b) = no_eos a && no_eos b.
Proof. unfold no_eos. apply forallb_app. Qed.

Lemma no_eos_ones id : no_eos (map (fun c => One (N.eqb c)) id) = true.
Proof. induction id as [|a id IH]; [reflexivity|exact IH]. Qed.

Lemma within_join l ls :
  In l ls -> exists pre post, join_lines ls = pre ++ l ++ post.
Proof.
  induction ls as [|p ps IH]; intros H; [destruct H|].
  destruct ps as [|q ps].
  - destruct H as [<- | []]. exists [], []. simpl. now rewrite app_nil_r.
  - rewrite join_lines_cons by discriminate. destruct H as [<- | H].
    + exists [], (NL ++ join_lines (q :: ps)). reflexivity.
    + destruct (IH H) as [pre [post E]]. rewrite E.
      exists (p ++ NL ++ pre), post. now rewrite <- !app_assoc.
Qed.

(** No line of a document that does not hold the id matches the pattern
    of [unscheduleTask]. *)
Lemma holdsId_lines id c :
  plainId id = true -> holdsId id c = false ->
  forall l, In l (split_lines (trimEnd c)) ->
    test (idPatternEscaped id) l = false.
Proof.
  intros Hid Hc l Hl. unfold holdsId, idPattern in Hc.
  rewrite (parsePattern_plain id Hid) in Hc. cbn [option_map] in Hc.
  cbv beta iota in Hc.
  destruct (test (idPatternEscaped id) l) eqn:E; [|reflexivity].
  destruct (within_join l _ Hl) as [pre [post Ej]].
  rewrite join_split_lines in Ej.
  destruct (trimEnd_prefix c) as [w [Ec _]].
  rewrite Ej in Ec.
  replace ((pre ++ l ++ post) ++ w) with (pre ++ l ++ (post ++ w)) in Ec
    by now rewrite <- !app_assoc.
  rewrite Ec in Hc. rewrite test_within in Hc; [discriminate| |].
  - cbn [app no_eos forallb]. fold (no_eos (map (fun c => One (N.eqb c)) id
                                             ++ [Lit (L "]")])).
    rewrite no_eos_app, no_eos_ones. reflexivity.
  - revert E. apply test_mono. intros s. unfold idPatternEscaped.
    cbn [app exec]. destruct (starts_with (L "[id::") s); [|congruence].
    rewrite !cons_len_none. apply star_mono. intros s'.
    apply (lit_as_ones id [Lit (L "]")]).
Qed.

Lemma split_lines_app_nl a b :
  split_lines (a ++ NL ++ b) = split_lines a ++ split_lines b.
Proof.
  induction a as [|c a IH]; [reflexivity|].
  change ((c :: a) ++ NL ++ b) with (c :: a ++ NL ++ b).
  cbn [split_lines]. rewrite IH. destruct (is_nl c); [reflexivity|].
  destruct (split_lines a) as [|x xs] eqn:E; [|reflexivity].
  exfalso. exact (split_lines_nonempty a E).
Qed.

Lemma split_lines_line l : no_nl l -> split_lines l = [l].
Proof.
  intros H. pose proof (split_lines_app_no_nl l [] H) as E.
  rewrite app_nil_r in E. cbn [split_lines] in E. now rewrite app_nil_r in E.
Qed.

Lemma removeTaskRun_last re ls l :
  Forall (fun x => test re x = false) ls -> test re l = true ->
  removeTaskRun re (ls ++ [l]) = Some ls.
Proof.
  intros Hls Hl. induction Hls as [|x ls Hx Hls IH]; simpl.
  - now rewrite Hl.
  - now rewrite Hx, IH.
Qed.

Lemma includes_inv sub s :
  includes sub s = true -> exists pre post, s = pre ++ sub ++ post.
Proof.
  induction s as [|c s IH]; cbn [includes]; intros H.
  - rewrite orb_false_r in H. apply starts_with_split in H.
    exists [], (skipn (length sub) []). exact H.
  - apply orb_true_iff in H. destruct H as [H|H].
    + apply starts_with_split in H. exists [], (skipn (length sub) (c :: s)).
      exact H.
    + destruct (IH H) as [pre [post ->]]. exists (c :: pre), post. reflexivity.
Qed.

Lemma exec_test re s : exec re s <> None -> test re s = true.
Proof.
  intros H. unfold test. destruct s; simpl; destruct (exec re _); congruence.
Qed.

(** A line that carries the tag [[id::ID]] matches the pattern. *)
Lemma tag_matches id pre post :
  test (idPatternEscaped id) (pre ++ (L "[id::" ++ id ++ L "]") ++ post) = true.
Proof.
  apply test_skip, exec_test. unfold idPatternEscaped.
  rewrite <- !app_assoc. cbn [exec]. rewrite starts_with_app.
  rewrite <- (Nat.add_0_r (length (L "[id::"))), skipn_app_len, skipn_O.
  rewrite cons_len_none. apply star_zero. cbn [exec].
  rewrite starts_with_app.
  rewrite <- (Nat.add_0_r (length id)), skipn_app_len, skipn_O.
  simpl. discriminate.
Qed.

(** A text that ends in a character that is not white space, and lies
    in [a] followed by white space, lies in [a]. *)
Lemma within_trim (sub : jsstring) z a w pre post :
  is_ws z = false ->
  Forall (fun c => is_ws c = true) w ->
  a ++ w = pre ++ (sub ++ [z]) ++ post ->
  exists post', a = pre ++ (sub ++ [z]) ++ post'.
Proof.
  intros Hz Hw E. rewrite app_assoc in E.
  apply app_eq_app in E. destruct E as [l [[E1 E2] | [E1 E2]]].
  - exists l. now rewrite app_assoc.
  - destruct l as [|x l].
    + exists []. rewrite app_nil_r in E1. now rewrite app_nil_r, E1.
    + exfalso. destruct (exists_last (l := x :: l)) as [l' [y El]];
        [discriminate|].
      rewrite El in *. rewrite !app_assoc in E1.
      apply app_inj_tail in E1. destruct E1 as [_ <-].
      rewrite E2 in Hw. apply Forall_app in Hw. destruct Hw as [Hw _].
      apply Forall_app in Hw. destruct Hw as [_ Hw].
      inversion Hw as [|? ? Hy _]. congruence.
Qed.

(** [/\s*\[parent::\s*[^\]]+\]/] of [createScheduledTaskCopy] *)
Definition PARENT_TAG : regex :=
  [Star is_ws; Lit (L "[parent::"); Star is_ws; One not_rbracket;
   Star not_rbracket; Lit (L "]")].

Lemma createScheduledTaskCopy_checkbox tabs rest d :
  all_tabs tabs ->
  noSchedulingTags (tabs ++ L "- [ ]" ++ rest) = true ->
  test PARENT_TAG (tabs ++ L "- [ ]" ++ rest) = false ->
  createScheduledTaskCopy (tabs ++ L "- [ ]" ++ rest) d
  = tabs ++ L "- [ ]" ++ trimEnd rest ++ tagFrom d.
Proof.
  intros Ht Hno Hpar. unfold createScheduledTaskCopy.
  assert (E1 : setMarker " " (tabs ++ L "- [ ]" ++ rest)
               = tabs ++ L "- [ ]" ++ rest)
    by exact (setMarker_checkbox " " tabs 32%N rest (or_intror eq_refl) Ht
                eq_refl).
  rewrite E1, (removeSchedulingTags_none _ Hno).
  fold PARENT_TAG. rewrite (replace_all_none _ [] _ Hpar).
  assert (E4 : trimEnd (tabs ++ L "- [ ]" ++ rest)
               = tabs ++ L "- [ ]" ++ trimEnd rest)
    by exact (trimEnd_checkbox tabs 32%N rest).
  rewrite E4. unfold tagFrom. rewrite <- !app_assoc. reflexivity.
Qed.

End TargetDocument.

(* ------------------------------------------------------------------ *)
(** ** C1: scheduling a task and unscheduling it *)
(* ------------------------------------------------------------------ *)

Section RoundTrip.
Import TaskUtils TaskScheduler.

Lemma has_rb_app a b : has_rb (a ++ b) = has_rb a || has_rb b.
Proof. unfold has_rb. apply existsb_app. Qed.

Lemma ws_no_rb w : Forall (fun c => is_ws c = true) w -> has_rb w = false.
Proof.
  induction 1 as [|c w Hc Hw IH]; [reflexivity|].
  cbn [has_rb existsb]. fold (has_rb w). rewrite IH, orb_false_r.
  unfold not_rbracket. destruct (N.eqb_spec c 93) as [->|_];
    [discriminate|reflexivity].
Qed.

Lemma ws_skipn_no_rb n w :
  Forall (fun c => is_ws c = true) w -> has_rb (skipn n w) = false.
Proof.
  intros H. apply ws_no_rb. rewrite <- (firstn_skipn n w) in H.
  apply Forall_app in H. tauto.
Qed.

(** The first id tag of a line does not depend on the white space at the
    end of the line. *)
Lemma search_ID_trim a w i ls :
  Forall (fun c => is_ws c = true) w ->
  search ID_PATTERN (a ++ w) = Some (i, ls) ->
  search ID_PATTERN a = Some (i, ls).
Proof.
  intros Hw. revert i ls. induction a as [|c t IH]; intros i ls H.
  - apply search_ID_closed in H. simpl app in H.
    rewrite ws_skipn_no_rb in H by exact Hw. discriminate.
  - assert (Hc : has_rb (skipn 5 (c :: t)) = true).
    { pose proof (search_ID_closed _ _ _ H) as Hc.
      rewrite skipn_app, has_rb_app, (ws_skipn_no_rb _ w Hw), orb_false_r in Hc.
      exact Hc. }
    change ((c :: t) ++ w) with (c :: t ++ w) in H. cbn [search] in H.
    change (c :: t ++ w) with ((c :: t) ++ w) in H.
    rewrite (exec_ID_app _ w Hc) in H. cbn [search].
    destruct (exec ID_PATTERN (c :: t)); [exact H|].
    destruct (search ID_PATTERN (t ++ w)) as [[j l]|] eqn:Es; [|discriminate].
    now rewrite (IH j l eq_refl).
Qed.

Lemma extractId_trimmed tabs rest id :
  all_tabs tabs ->
  extractId (tabs ++ L "- [ ]" ++ rest) = Some id ->
  extractId (tabs ++ L "- [ ]" ++ trimEnd rest) = Some id.
Proof.
  intros Ht. destruct (trimEnd_prefix rest) as [w [E Hw]].
  remember (trimEnd rest) as R eqn:HR. clear HR. subst rest.
  unfold extractId, capture1.
  replace (tabs ++ L "- [ ]" ++ R ++ w) with ((tabs ++ L "- [ ]") ++ R ++ w)
    by now rewrite <- app_assoc.
  replace (tabs ++ L "- [ ]" ++ R) with ((tabs ++ L "- [ ]") ++ R)
    by now rewrite <- app_assoc.
  rewrite (search_clear ID_PATTERN (tabs ++ L "- [ ]") (R ++ w))
    by exact (checkbox_clear_id tabs 32%N (R ++ w) Ht (or_introl eq_refl)).
  rewrite (search_clear ID_PATTERN (tabs ++ L "- [ ]") R)
    by exact (checkbox_clear_id tabs 32%N R Ht (or_introl eq_refl)).
  destruct (search ID_PATTERN (R ++ w)) as [[i ls]|] eqn:E; [|discriminate].
  pose proof (search_ID_trim R w i ls Hw E) as E'. rewrite E'.
  cbn [option_map]. rewrite !group_skip.
  rewrite group_app by exact (search_bound _ _ _ _ E'). trivial.
Qed.

(** *** The subtasks *)

(** The subtasks right below a task line are all incomplete. *)
Fixpoint subtasksIncomplete (lines : list jsstring) : bool :=
  match lines with
  | [] => true
  | l :: rest =>
      if isSubtask l
      then test_at INCOMPLETE_TASK_PATTERN l && subtasksIncomplete rest
      else true
  end.

Lemma exec_one p re c s :
  exec (One p :: re) (c :: s) = if p c then cons_len 1 (exec re s) else None.
Proof. reflexivity. Qed.

Lemma subtask_marker tabs m m' rest :
  all_tabs tabs -> is_dot m = true -> is_dot m' = true ->
  isSubtask (tabs ++ L "- [" ++ m :: L "]" ++ rest) = true ->
  isSubtask (tabs ++ L "- [" ++ m' :: L "]" ++ rest) = true.
Proof.
  intros Ht Hm Hm'. unfold isSubtask, test_at, SUBTASK_PATTERN.
  destruct Ht as [|t tabs Hc Ht]; [simpl; discriminate|].
  change ((t :: tabs) ++ L "- [" ++ m :: L "]" ++ rest)
    with (t :: tabs ++ L "- [" ++ m :: L "]" ++ rest).
  change ((t :: tabs) ++ L "- [" ++ m' :: L "]" ++ rest)
    with (t :: tabs ++ L "- [" ++ m' :: L "]" ++ rest).
  rewrite !exec_one, Hc.
  rewrite !exec_tabs; try exact Ht; try reflexivity;
    try (intros c s'; now apply lit_rejects_tab).
  simpl. rewrite Hm, Hm'. trivial.
Qed.

Lemma resetSubtasks_markSubtasks lines :
  subtasksIncomplete lines = true ->
  resetSubtasks (markSubtasks lines) = lines.
Proof.
  induction lines as [|l rest IH]; intros H; [reflexivity|].
  cbn [subtasksIncomplete] in H. cbn [markSubtasks].
  destruct (isSubtask l) eqn:Es.
  - apply andb_true_iff in H. destruct H as [Hinc Hrest].
    destruct (incomplete_inv l Hinc) as [tabs [r [-> Ht]]].
    assert (E1 : setMarker ">" (tabs ++ L "- [ ]" ++ r) = tabs ++ L "- [>]" ++ r)
      by exact (setMarker_checkbox ">" tabs 32%N r (or_introl eq_refl) Ht
                  eq_refl).
    assert (E2 : isSubtask (tabs ++ L "- [>]" ++ r) = true)
      by exact (subtask_marker tabs 32%N 62%N r Ht eq_refl eq_refl Es).
    rewrite E1. cbn [resetSubtasks]. rewrite E2.
    rewrite resetMarker_checkbox by exact Ht. now rewrite (IH Hrest).
  - cbn [resetSubtasks]. now rewrite Es.
Qed.

(** *** The step of [unscheduleTask] that finds the copy *)

Lemma unscheduleTask_removes settings w n line date id content lines :
  nth_error (editor w) n = Some line ->
  isTask line = true ->
  extractScheduledToDate line = Some date -> date <> [] ->
  extractId line = Some id -> id <> [] ->
  getAbstractFileByPath (vault w) (getDailyNotePath date settings)
    = Some (TFile content) ->
  removeTaskRun (idPatternEscaped id) (split_lines content) = Some lines ->
  exists w',
    unscheduleTask settings w n = Some (true, w') /\
    editor w' = firstn n (editor w)
                ++ resetScheduledTask line
                :: resetSubtasks (skipn (S n) (editor w)) /\
    (notePathOf settings line <> Some (getDailyNotePath date settings) ->
     getAbstractFileByPath (vault w') (getDailyNotePath date settings)
     = Some (TFile (collapseBlankLines (join_lines lines)))).
Proof.
  intros Hline Htask Hdate Hd Hid Hi Hget Hrun.
  set (tp := getDailyNotePath date settings) in *.
  set (e1 := firstn n (editor w)
             ++ resetScheduledTask line
             :: resetSubtasks (skipn (S n) (editor w))).
  set (v2 := modify tp (collapseBlankLines (join_lines lines)) (vault w)).
  exists (Notice (L "Task unscheduled")
            (set_vault (noteReturns settings w line v2)
               (set_editor e1 (set_vault v2 (set_editor e1 w))))).
  split; [|split].
  - unfold unscheduleTask. rewrite Hline, Htask, Hdate, Hid.
    destruct date as [|d0 date']; [congruence|].
    destruct id as [|i0 id']; [congruence|].
    cbn [negb andb truthy]. cbn [set_editor set_vault vault editor activeFile].
    fold tp. rewrite Hget, Hrun. fold e1. fold v2.
    unfold noteReturns, fromDateOf.
    destruct (TaskNoteManager.extractTaskTextFromLine line) as [[|t0 t]|];
      try reflexivity;
      destruct (activeFile w) as [f|]; try reflexivity;
      destruct (path f); reflexivity.
  - reflexivity.
  - intros Hnp. cbn [Notice set_vault set_editor vault].
    rewrite noteReturns_other by exact Hnp. unfold v2.
    erewrite get_modify_same by exact Hget. reflexivity.
Qed.

End RoundTrip.

(** *** The round trip *)

Section RoundTripTheorem.
Import TaskUtils TaskScheduler.

Lemma exec_schedule_to d s :
  date_shape d ->
  exec SCHEDULE_TO_PATTERN ((L "[> " ++ d ++ L "]") ++ s) <> None.
Proof.
  intros Hd. destruct Hd. digits. simpl.
  repeat match goal with
    | H : _ = _ |- _ => rewrite H; simpl
    end.
  discriminate.
Qed.

(** A line without scheduling tags is not yet scheduled to [d]. *)
Lemma not_yet_scheduled line d :
  isDate d = true -> noSchedulingTags line = true ->
  includes (L "[> " ++ d ++ L "]") line = false.
Proof.
  intros Hd Hno. destruct (includes _ line) eqn:E; [|reflexivity].
  apply includes_inv in E. destruct E as [pre [post ->]].
  unfold noSchedulingTags in Hno. rewrite forallb_forall in Hno.
  specialize (Hno (Star is_ws :: SCHEDULE_TO_PATTERN)).
  rewrite test_skip in Hno.
  - discriminate Hno. simpl. auto.
  - apply test_star, exec_test, exec_schedule_to. now apply isDate_inv.
Qed.

Lemma firstn_middle (A : Type) (a : list A) x b n :
  length a = n -> firstn n (a ++ x :: b) = a.
Proof.
  intros <-. rewrite firstn_app, Nat.sub_diag, firstn_all. simpl.
  apply app_nil_r.
Qed.

Lemma skipn_middle (A : Type) (a : list A) x b n :
  length a = n -> skipn (S n) (a ++ x :: b) = b.
Proof.
  intros <-. rewrite skipn_app, skipn_all2 by lia.
  replace (S (length a) - length a) with 1 by lia. reflexivity.
Qed.

(** A vault with the folder of the daily notes, and the document of
    2025-01-10 in the editor. *)
Definition world_c1 : World := {|
  vault := [(L "00 - Daily", TFolder)];
  editor := [L "# Friday"; L "- [ ] Call dentist [id::t-xy]  ";
             TAB ++ L "- [ ] find the number"; L "- [ ] other"];
  activeFile := Some {| path := L "00 - Daily/2025-01-10.md";
                        basename := L "2025-01-10" |};
  today := L "2025-01-10";
  notices := [] |}.

(** The time block of the line is removed when the line is marked, and
    unscheduling does not bring it back. *)
Lemma roundTrip_drops_time_block :
  option_map (fun r => editor (snd r))
    (roundTrip DEFAULT_SETTINGS
       (oneTaskWorld DEFAULT_SETTINGS (L "2025-01-10")
          (L "- [ ] 09:00 - 10:00 Call dentist [id::t-xy]"))
       0 (L "2025-01-12"))
  = Some [L "- [ ] Call dentist [id::t-xy]"] /\
  trimEnd (L "- [ ] Call dentist [id::t-xy]")
  <> trimEnd (L "- [ ] 09:00 - 10:00 Call dentist [id::t-xy]").
Proof. split; [vm_compute; reflexivity|vm_compute; discriminate]. Qed.

End RoundTripTheorem.

(* ------------------------------------------------------------------ *)
(** ** C2: a task that comes back to a date it left *)
(* ------------------------------------------------------------------ *)

(** C2.  An id that is not a plain word as a pattern: the id [a+b] makes
    the pattern [\[id::\s*a+b\]], which the tag [[id::a+b]] does not
    match.  When the task comes back to the first date its line there is
    not found: the stale line keeps the marker [>] and its old tag, and a
    second line with the id is appended. *)
Theorem scheduleTask_cycle_unescaped_id :
  cycle DEFAULT_SETTINGS (L "2025-01-10") (L "2025-01-11") (L "2025-01-12")
    (L "- [ ] Pay rent [id::a+b]")
  = Some
      [(L "00 - Daily", TFolder);
       (L "00 - Daily/2025-01-10.md",
        TFile (L "- [>] Pay rent [id::a+b] [> 2025-01-11]" ++ NL
               ++ L "- [ ] Pay rent [id::a+b] [< 2025-01-12]"));
       (L "00 - Daily/2025-01-11.md",
        TFile (NL ++ L "- [>] Pay rent [id::a+b] [> 2025-01-12]"));
       (L "00 - Daily/2025-01-12.md",
        TFile (NL ++ L "- [>] Pay rent [id::a+b] [> 2025-01-10]"))].
Proof. vm_compute. reflexivity. Qed.

(** The same cycle with an id of letters and digits: the line of the
    first date is found and reset, and it is the one live copy. *)
Example scheduleTask_cycle_plain_id :
  cycle DEFAULT_SETTINGS (L "2025-01-10") (L "2025-01-11") (L "2025-01-12")
    (L "- [ ] Pay rent [id::t-xy]")
  = Some
      [(L "00 - Daily", TFolder);
       (L "00 - Daily/2025-01-10.md",
        TFile (L "- [ ] Pay rent [id::t-xy] [< 2025-01-12]"));
       (L "00 - Daily/2025-01-11.md",
        TFile (NL ++ L "- [>] Pay rent [id::t-xy] [> 2025-01-12]"));
       (L "00 - Daily/2025-01-12.md",
        TFile (NL ++ L "- [>] Pay rent [id::t-xy] [> 2025-01-10]"))].
Proof. vm_compute. reflexivity. Qed.

(* ------------------------------------------------------------------ *)
(** ** Time blocks *)
(* ------------------------------------------------------------------ *)

Ltac crunch :=
  repeat first
    [ rewrite firstn_app_len | rewrite skipn_app_len | progress simpl
    | rewrite app_nil_r ].

Section TimeblockProps.
Import TaskUtils TimeblockUtils.

Definition two_digits_ok (n : nat) : bool :=
  match padStart0 2 (Number_toString n) with
  | [a; b] => is_digit a && is_digit b && (parseInt2 [a; b] =? n)
  | _ => false
  end.

(** A number below 100 is formatted as two digits that read back as the
    number. *)
Lemma two_digits n :
  n < 100 ->
  exists a b,
    padStart0 2 (Number_toString n) = [a; b] /\
    is_digit a = true /\ is_digit b = true /\ parseInt2 [a; b] = n.
Proof.
  intros H.
  assert (Hall : forallb two_digits_ok (seq 0 100) = true)
    by (vm_compute; reflexivity).
  rewrite forallb_forall in Hall.
  assert (Hn : two_digits_ok n = true) by (apply Hall, in_seq; lia).
  unfold two_digits_ok in Hn.
  destruct (padStart0 2 (Number_toString n)) as [|a [|b [|c l]]];
    try discriminate.
  apply andb_true_iff in Hn. destruct Hn as [Hn H3].
  apply andb_true_iff in Hn. destruct Hn as [H1 H2].
  apply Nat.eqb_eq in H3. exists a, b. auto.
Qed.

(** [\s*] over white space that is followed by something else. *)
Definition head_not (p : char -> bool) (s : jsstring) : Prop :=
  match s with
  | c :: _ => p c = false
  | [] => True
  end.

Lemma star_skip p (k : jsstring -> option (list nat)) w s ls :
  Forall (fun c => p c = true) w -> head_not p s -> k s = Some ls ->
  star p k (w ++ s) = Some (length w :: ls).
Proof.
  intros Hw Hs Hk. induction Hw as [|c w Hc Hw IH]; simpl.
  - destruct s as [|c s]; simpl in *; [now rewrite Hk|].
    now rewrite Hs, Hk.
  - now rewrite Hc, IH.
Qed.

Lemma run_head p s : run p s = 0 <-> head_not p s.
Proof.
  destruct s as [|c s]; simpl; [tauto|].
  destruct (p c); split; intros; congruence.
Qed.

Lemma run_skipn p s : run p (skipn (run p s) s) = 0.
Proof.
  induction s as [|c s IH]; simpl; [reflexivity|].
  destruct (p c) eqn:E; simpl; [exact IH|now rewrite E].
Qed.

Lemma star_all_gen p (k : jsstring -> option (list nat)) s :
  (forall s', k s' = Some []) -> star p k s = Some [run p s].
Proof.
  intros Hk. induction s as [|c s IH]; simpl; [now rewrite Hk|].
  destruct (p c); [now rewrite IH|now rewrite Hk].
Qed.

Lemma star_all p s : star p (exec []) s = Some [run p s].
Proof. apply star_all_gen. reflexivity. Qed.


Lemma exec_lit l re s :
  exec (Lit l :: re) (l ++ s) = cons_len (length l) (exec re s).
Proof.
  cbn [exec]. rewrite starts_with_app.
  rewrite <- (Nat.add_0_r (length l)), skipn_app_len. reflexivity.
Qed.

Lemma exec_lit1 x re s :
  exec (Lit [x] :: re) (x :: s) = cons_len 1 (exec re s).
Proof. exact (exec_lit [x] re s). Qed.

Lemma exec_star p re s : exec (Star p :: re) s = star p (exec re) s.
Proof. reflexivity. Qed.

Lemma inv_lit l re s :
  exec (Lit l :: re) s <> None ->
  exists s', s = l ++ s' /\ exec re s' <> None.
Proof.
  cbn [exec]. destruct (starts_with l s) eqn:E; [|congruence].
  rewrite cons_len_none. intros H. exists (skipn (length l) s).
  split; [now apply starts_with_split|exact H].
Qed.

Lemma inv_one p re s :
  exec (One p :: re) s <> None ->
  exists c s', s = c :: s' /\ p c = true /\ exec re s' <> None.
Proof.
  destruct s as [|c s]; cbn [exec]; [congruence|].
  destruct (p c) eqn:E; [|congruence]. rewrite cons_len_none.
  intros H. exists c, s. auto.
Qed.

Lemma inv_star p re s :
  (forall c s', p c = true -> exec re (c :: s') = None) ->
  exec (Star p :: re) s <> None ->
  exists w s',
    s = w ++ s' /\ Forall (fun c => p c = true) w /\ head_not p s' /\
    exec re s' <> None.
Proof.
  intros Hre H. rewrite exec_star, (star_possessive p (exec re) s Hre) in H.
  rewrite cons_len_none in H. destruct (run_split p s) as [E F].
  exists (firstn (run p s) s), (skipn (run p s) s).
  split; [exact E|]. split; [exact F|]. split; [|exact H].
  apply run_head, run_skipn.
Qed.

(** The checkbox of a task line with the white space after it. *)
Inductive prefix_shape : jsstring -> Prop :=
| Prefix_shape tabs m w :
    all_tabs tabs -> is_dot m = true ->
    Forall (fun c => is_ws c = true) w ->
    prefix_shape (tabs ++ L "- [" ++ m :: L "]" ++ w).

(** A time block as the pattern reads it, with the four numbers. *)
Inductive is_block : jsstring -> nat -> nat -> nat -> nat -> Prop :=
| Is_block d1 d2 d3 d4 d5 d6 d7 d8 w1 w2 w3 :
    is_digit d1 = true -> is_digit d2 = true -> is_digit d3 = true ->
    is_digit d4 = true -> is_digit d5 = true -> is_digit d6 = true ->
    is_digit d7 = true -> is_digit d8 = true ->
    Forall (fun c => is_ws c = true) w1 ->
    Forall (fun c => is_ws c = true) w2 ->
    Forall (fun c => is_ws c = true) w3 ->
    is_block
      ([d1; d2; 58; d3; d4]%N ++ w1 ++ [45%N] ++ w2
       ++ [d5; d6; 58; d7; d8]%N ++ w3)
      (parseInt2 [d1; d2]) (parseInt2 [d3; d4])
      (parseInt2 [d5; d6]) (parseInt2 [d7; d8]).

Lemma exec_timeblock tabs m w d1 d2 d3 d4 d5 d6 d7 d8 w1 w2 w3 rest :
  all_tabs tabs -> is_dot m = true ->
  Forall (fun c => is_ws c = true) w ->
  is_digit d1 = true -> is_digit d2 = true -> is_digit d3 = true ->
  is_digit d4 = true -> is_digit d5 = true -> is_digit d6 = true ->
  is_digit d7 = true -> is_digit d8 = true ->
  Forall (fun c => is_ws c = true) w1 ->
  Forall (fun c => is_ws c = true) w2 ->
  Forall (fun c => is_ws c = true) w3 ->
  head_not is_ws rest ->
  exec TIMEBLOCK
    (tabs ++ L "- [" ++ m :: L "]" ++ w ++ d1 :: d2 :: 58%N :: d3 :: d4 :: w1
     ++ 45%N :: w2 ++ d5 :: d6 :: 58%N :: d7 :: d8 :: w3 ++ rest)
  = Some [length tabs; 3; 1; 1; length w; 1; 1; 1; 1; 1; length w1; 1;
          length w2; 1; 1; 1; 1; 1; length w3].
Proof.
  intros Ht Hm Hw H1 H2 H3 H4 H5 H6 H7 H8 Hw1 Hw2 Hw3 Hr.
  unfold TIMEBLOCK.
  rewrite exec_tabs; [|exact Ht| |reflexivity].
  2:{ intros c s'. now apply lit_rejects_tab. }
  rewrite exec_lit, exec_one, Hm. change (L "]") with [93%N].
  cbn [app]. rewrite exec_lit1, exec_star.
  erewrite star_skip; [reflexivity|exact Hw|exact (digit_not_ws d1 H1)|].
  rewrite exec_one, H1, exec_one, H2. change (L ":") with [58%N].
  rewrite exec_lit1, exec_one, H3, exec_one, H4, exec_star.
  erewrite star_skip; [reflexivity|exact Hw1|reflexivity|].
  change (L "-") with [45%N]. rewrite exec_lit1, exec_star.
  erewrite star_skip; [reflexivity|exact Hw2|exact (digit_not_ws d5 H5)|].
  rewrite exec_one, H5, exec_one, H6, exec_lit1, exec_one, H7, exec_one, H8.
  rewrite exec_star.
  erewrite star_skip; [reflexivity|exact Hw3|exact Hr|reflexivity].
Qed.


(** *** Templates without a reference *)

Definition plain (t : jsstring) : Prop :=
  Forall (fun c => N.eqb c 36 = false) t.

Lemma get_substitution_app m b a caps p q :
  plain p ->
  get_substitution m b a caps (p ++ q) = p ++ get_substitution m b a caps q.
Proof.
  induction 1 as [|c p Hc Hp IH]; [reflexivity|].
  cbn [app get_substitution]. rewrite Hc. cbn [negb]. now rewrite IH.
Qed.

Lemma get_substitution_plain m b a caps t :
  plain t -> get_substitution m b a caps t = t.
Proof.
  intros H. rewrite <- (app_nil_r t) at 1.
  rewrite get_substitution_app by exact H. simpl. apply app_nil_r.
Qed.

Lemma ws_plain w : Forall (fun c => is_ws c = true) w -> plain w.
Proof.
  apply Forall_impl. intros c Hc.
  destruct (N.eqb_spec c 36) as [->|_]; [discriminate|reflexivity].
Qed.

Lemma tabs_plain tabs : all_tabs tabs -> plain tabs.
Proof.
  apply Forall_impl. intros c Hc. apply N.eqb_eq in Hc. now subst.
Qed.

Lemma digit_plain c : is_digit c = true -> N.eqb c 36 = false.
Proof.
  intros Hc. destruct (N.eqb_spec c 36) as [->|_]; [discriminate|reflexivity].
Qed.

(** The checkbox may hold a dollar sign; it is followed by the closing
    bracket, so it stands for itself in a template. *)
Lemma get_substitution_prefix m b a caps P t :
  prefix_shape P -> plain t ->
  get_substitution m b a caps (P ++ t) = P ++ t.
Proof.
  intros HP Ht. destruct HP as [tabs x w Htabs Hx Hw].
  rewrite <- !app_assoc.
  rewrite get_substitution_app by now apply tabs_plain.
  f_equal. change (L "- [" ++ x :: L "]" ++ w ++ t)
    with (45 :: 32 :: 91 :: x :: 93 :: w ++ t)%N.
  assert (E : get_substitution m b a caps (w ++ t) = w ++ t).
  { rewrite get_substitution_app by now apply ws_plain.
    now rewrite get_substitution_plain. }
  destruct (N.eqb x 36) eqn:Ex.
  - apply N.eqb_eq in Ex. subst x. simpl. now rewrite E.
  - simpl. rewrite Ex. simpl. now rewrite E.
Qed.

(** [$1] followed by a digit, with one capture group: the group, then
    the digit. *)
Lemma get_substitution_group1 m b a P d t :
  is_digit d = true -> plain t ->
  get_substitution m b a [P] (L "$1" ++ d :: t) = P ++ d :: t.
Proof.
  intros Hd Ht. change (L "$1" ++ d :: t) with (36 :: 49 :: d :: t)%N.
  cbn [get_substitution]. change (N.eqb 36 36)%N with true. cbn [negb].
  change (N.eqb 49 36)%N with false. change (N.eqb 49 38)%N with false.
  change (N.eqb 49 96)%N with false. change (N.eqb 49 39)%N with false.
  cbv beta iota.
  change (digit_of 49%N) with (Some 1). cbv beta iota.
  unfold digit_of at 1. rewrite Hd. cbv beta iota.
  replace (10 * 1 + N.to_nat (d - 48) <=? length [P]) with false
    by (symmetry; apply Nat.leb_gt; simpl; lia).
  unfold capture_ref. simpl length. simpl Nat.leb. cbn [andb nth Nat.sub].
  f_equal. rewrite (digit_plain d Hd). cbn [negb]. f_equal.
  now apply get_substitution_plain.
Qed.

Lemma indexOf_prefix p s : indexOf p (p ++ s) = Some 0.
Proof.
  pose proof (starts_with_app p s) as H.
  destruct (p ++ s); simpl; now rewrite H.
Qed.

(** The time block that [addTimeblock] writes. *)
Definition blockText (sh sm eh em : nat) : jsstring :=
  formatTime sh sm ++ L " - " ++ formatTime eh em ++ L " ".

Lemma blockText_block sh sm eh em :
  sh < 100 -> sm < 100 -> eh < 100 -> em < 100 ->
  is_block (blockText sh sm eh em) sh sm eh em /\
  plain (blockText sh sm eh em) /\
  exists d t, blockText sh sm eh em = d :: t /\ is_digit d = true.
Proof.
  intros H1 H2 H3 H4.
  destruct (two_digits sh H1) as [a1 [b1 [E1 [Ha1 [Hb1 P1]]]]].
  destruct (two_digits sm H2) as [a2 [b2 [E2 [Ha2 [Hb2 P2]]]]].
  destruct (two_digits eh H3) as [a3 [b3 [E3 [Ha3 [Hb3 P3]]]]].
  destruct (two_digits em H4) as [a4 [b4 [E4 [Ha4 [Hb4 P4]]]]].
  unfold blockText, formatTime. rewrite E1, E2, E3, E4.
  rewrite <- P1, <- P2, <- P3, <- P4 at 1.
  split; [|split].
  - exact (Is_block a1 b1 a2 b2 a3 b3 a4 b4 [32%N] [32%N] [32%N]
             Ha1 Hb1 Ha2 Hb2 Ha3 Hb3 Ha4 Hb4
             ltac:(repeat constructor) ltac:(repeat constructor)
             ltac:(repeat constructor)).
  - unfold plain. simpl. repeat constructor; now apply digit_plain.
  - eexists; eexists. split; [reflexivity|exact Ha1].
Qed.


(** *** A line with a time block *)

Lemma block_line P B rest sh sm eh em :
  prefix_shape P -> is_block B sh sm eh em -> head_not is_ws rest ->
  extractTimeblock (P ++ B ++ rest)
  = Some {| prefix := P; startHour := sh; startMinute := sm;
            endHour := eh; endMinute := em; fullMatch := P ++ B |} /\
  removeTimeblock (P ++ B ++ rest) = P ++ rest.
Proof.
  intros HP HB Hr.
  destruct HP as [tabs m w Ht Hm Hw].
  destruct HB as [d1 d2 d3 d4 d5 d6 d7 d8 w1 w2 w3 H1 H2 H3 H4 H5 H6 H7 H8
                   Hw1 Hw2 Hw3].
  set (ls := [length tabs; 3; 1; 1; length w; 1; 1; 1; 1; 1; length w1; 1;
              length w2; 1; 1; 1; 1; 1; length w3]).
  set (line := tabs ++ L "- [" ++ m :: L "]" ++ w ++ d1 :: d2 :: 58%N :: d3
               :: d4 :: w1 ++ 45%N :: w2 ++ d5 :: d6 :: 58%N :: d7 :: d8
               :: w3 ++ rest).
  assert (E : (tabs ++ L "- [" ++ m :: L "]" ++ w)
              ++ ([d1; d2; 58; d3; d4]%N ++ w1 ++ [45%N] ++ w2
                  ++ [d5; d6; 58; d7; d8]%N ++ w3) ++ rest = line).
  { unfold line. rewrite <- !app_assoc. reflexivity. }
  assert (Hex : exec TIMEBLOCK line = Some ls)
    by (now apply exec_timeblock).
  assert (G1 : group 0 ls 0 5 line = tabs ++ L "- [" ++ m :: L "]" ++ w).
  { unfold group, ls, line, total. crunch. reflexivity. }
  assert (Hfull : firstn (total ls) line
                  = (tabs ++ L "- [" ++ m :: L "]" ++ w)
                    ++ [d1; d2; 58; d3; d4]%N ++ w1 ++ [45%N] ++ w2
                    ++ [d5; d6; 58; d7; d8]%N ++ w3).
  { unfold ls, line, total. crunch. rewrite <- !app_assoc. reflexivity. }
  assert (Hrest : skipn (total ls) line = rest).
  { unfold ls, line, total. crunch. reflexivity. }
  rewrite E. split.
  - unfold extractTimeblock. rewrite Hex, G1, Hfull. f_equal. f_equal.
    + unfold group, ls, line, total. crunch. reflexivity.
    + unfold group, ls, line, total. crunch. reflexivity.
    + unfold group, ls, line, total. crunch. reflexivity.
    + unfold group, ls, line, total. crunch. reflexivity.
  - unfold removeTimeblock, search_start. rewrite Hex.
    unfold replace_found. cbn [map fst snd]. rewrite G1.
    cbn [Nat.add firstn app]. rewrite Hrest.
    change (L "$1") with [36; 49]%N. cbn [get_substitution].
    simpl. change (Pos.to_nat 1) with 1. unfold capture_ref. simpl.
    rewrite app_nil_r. rewrite <- !app_assoc. reflexivity.
Qed.

Lemma ws_not_digit c : is_ws c = true -> is_digit c = false.
Proof.
  intros H. destruct (is_digit c) eqn:E; [|reflexivity].
  apply digit_not_ws in E. congruence.
Qed.

Lemma lit_rejects (p : char -> bool) x l re c s' :
  p x = false -> p c = true -> exec (Lit (x :: l) :: re) (c :: s') = None.
Proof.
  intros Hx Hc. cbn [exec starts_with].
  destruct (N.eqb_spec x c) as [->|_]; [congruence|reflexivity].
Qed.

(** Where the pattern matches, the line is a checkbox, a block and a rest
    that does not start with white space. *)
Lemma timeblock_inv line :
  exec TIMEBLOCK line <> None ->
  exists P B rest sh sm eh em,
    line = P ++ B ++ rest /\ prefix_shape P /\ is_block B sh sm eh em /\
    head_not is_ws rest.
Proof.
  unfold TIMEBLOCK. intros H.
  apply exec_tabs_inv in H; [|intros c s'; now apply lit_rejects_tab].
  destruct H as [tabs [x [-> [Ht [_ H]]]]].
  apply inv_lit in H. destruct H as [x1 [-> H]].
  apply inv_one in H. destruct H as [m [x2 [-> [Hm H]]]].
  apply inv_lit in H. destruct H as [x3 [-> H]].
  apply inv_star in H.
  2:{ intros c s' Hc. cbn [exec]. now rewrite (ws_not_digit c Hc). }
  destruct H as [w [x4 [-> [Hw [_ H]]]]].
  apply inv_one in H. destruct H as [d1 [x5 [-> [H1 H]]]].
  apply inv_one in H. destruct H as [d2 [x6 [-> [H2 H]]]].
  apply inv_lit in H. destruct H as [x7 [-> H]].
  apply inv_one in H. destruct H as [d3 [x8 [-> [H3 H]]]].
  apply inv_one in H. destruct H as [d4 [x9 [-> [H4 H]]]].
  apply inv_star in H.
  2:{ intros c s' Hc. now apply (lit_rejects is_ws). }
  destruct H as [w1 [x10 [-> [Hw1 [_ H]]]]].
  apply inv_lit in H. destruct H as [x11 [-> H]].
  apply inv_star in H.
  2:{ intros c s' Hc. cbn [exec]. now rewrite (ws_not_digit c Hc). }
  destruct H as [w2 [x12 [-> [Hw2 [_ H]]]]].
  apply inv_one in H. destruct H as [d5 [x13 [-> [H5 H]]]].
  apply inv_one in H. destruct H as [d6 [x14 [-> [H6 H]]]].
  apply inv_lit in H. destruct H as [x15 [-> H]].
  apply inv_one in H. destruct H as [d7 [x16 [-> [H7 H]]]].
  apply inv_one in H. destruct H as [d8 [x17 [-> [H8 _]]]].
  destruct (run_split is_ws x17) as [E F].
  exists (tabs ++ L "- [" ++ m :: L "]" ++ w),
    ([d1; d2; 58; d3; d4]%N ++ firstn (run is_ws x17 - run is_ws x17) [] ++ w1
     ++ [45%N] ++ w2 ++ [d5; d6; 58; d7; d8]%N ++ firstn (run is_ws x17) x17),
    (skipn (run is_ws x17) x17),
    (parseInt2 [d1; d2]), (parseInt2 [d3; d4]),
    (parseInt2 [d5; d6]), (parseInt2 [d7; d8]).
  split; [|split; [|split]].
  - rewrite E at 1. rewrite firstn_nil. rewrite <- !app_assoc. reflexivity.
  - now constructor.
  - rewrite firstn_nil. now constructor.
  - apply run_head, run_skipn.
Qed.

(** *** A task line *)

Lemma task_prefix line :
  isTask line = true ->
  exists P rest,
    line = P ++ rest /\ prefix_shape P /\ head_not is_ws rest.
Proof.
  unfold isTask, test_at, TASK_PATTERN. intros H.
  assert (H' : exec [Star is_tab; Lit (L "- ["); One is_dot; Lit (L "]")] line
               <> None) by (destruct (exec _ line); congruence).
  clear H. rename H' into H.
  apply exec_tabs_inv in H; [|intros c s'; now apply lit_rejects_tab].
  destruct H as [tabs [x [-> [Ht [_ H]]]]].
  apply inv_lit in H. destruct H as [x1 [-> H]].
  apply inv_one in H. destruct H as [m [x2 [-> [Hm H]]]].
  apply inv_lit in H. destruct H as [x3 [-> _]].
  destruct (run_split is_ws x3) as [E F].
  exists (tabs ++ L "- [" ++ m :: L "]" ++ firstn (run is_ws x3) x3),
    (skipn (run is_ws x3) x3).
  split; [|split].
  - rewrite E at 1. rewrite <- !app_assoc. reflexivity.
  - now constructor.
  - apply run_head, run_skipn.
Qed.

Lemma prefix_is_task P rest : prefix_shape P -> isTask (P ++ rest) = true.
Proof.
  intros HP. destruct HP as [tabs m w Ht Hm Hw].
  rewrite <- !app_assoc.
  exact (checkbox_is_task tabs m (w ++ rest) Ht Hm).
Qed.

Lemma exec_prefix P rest :
  prefix_shape P -> head_not is_ws rest ->
  exists ls,
    exec PREFIX_PATTERN (P ++ rest) = Some ls /\
    group 0 ls 0 5 (P ++ rest) = P /\
    skipn (total ls) (P ++ rest) = rest.
Proof.
  intros HP Hr. destruct HP as [tabs m w Ht Hm Hw].
  exists [length tabs; 3; 1; 1; length w].
  assert (E : (tabs ++ L "- [" ++ m :: L "]" ++ w) ++ rest
              = tabs ++ L "- [" ++ m :: L "]" ++ w ++ rest)
    by (rewrite <- !app_assoc; reflexivity).
  rewrite E. split; [|split].
  - unfold PREFIX_PATTERN.
    rewrite exec_tabs; [|exact Ht| |reflexivity].
    2:{ intros c s'. now apply lit_rejects_tab. }
    rewrite exec_lit, exec_one, Hm. change (L "]") with [93%N].
    cbn [app]. rewrite exec_lit1, exec_star.
    erewrite star_skip; [reflexivity|exact Hw|exact Hr|reflexivity].
  - unfold group, total. crunch. reflexivity.
  - unfold total. crunch. reflexivity.
Qed.


(** *** addTimeblock *)

(** Numbers that [formatTime] writes with two digits. *)
Definition fits (sh sm eh em : nat) : Prop :=
  sh < 100 /\ sm < 100 /\ eh < 100 /\ em < 100.

Lemma addTimeblock_block P B rest sh sm eh em a b c d :
  prefix_shape P -> is_block B sh sm eh em -> head_not is_ws rest ->
  fits a b c d ->
  addTimeblock (P ++ B ++ rest) a b c d = P ++ blockText a b c d ++ rest.
Proof.
  intros HP HB Hr [Ha [Hb [Hc Hd]]].
  destruct (block_line P B rest sh sm eh em HP HB Hr) as [Hex _].
  destruct (blockText_block a b c d Ha Hb Hc Hd) as [_ [Hplain _]].
  unfold addTimeblock. rewrite Hex. cbn [fullMatch prefix].
  fold (blockText a b c d). unfold replace_string.
  rewrite (app_assoc P B rest), indexOf_prefix.
  cbn [firstn Nat.add app].
  rewrite <- (Nat.add_0_r (length (P ++ B))), skipn_app_len, skipn_O.
  rewrite get_substitution_prefix by assumption.
  now rewrite <- app_assoc.
Qed.

Lemma addTimeblock_plain P rest a b c d :
  prefix_shape P -> head_not is_ws rest ->
  exec TIMEBLOCK (P ++ rest) = None -> fits a b c d ->
  addTimeblock (P ++ rest) a b c d = P ++ blockText a b c d ++ rest.
Proof.
  intros HP Hr Hnone [Ha [Hb [Hc Hd]]].
  destruct (blockText_block a b c d Ha Hb Hc Hd)
    as [_ [Hplain [x [t [Et Hx]]]]].
  destruct (exec_prefix P rest HP Hr) as [ls [Hex [Hg Hs]]].
  unfold addTimeblock, extractTimeblock. rewrite Hnone.
  fold (blockText a b c d). unfold search_start. rewrite Hex.
  unfold replace_found. cbn [map fst snd firstn Nat.add app].
  rewrite Hg, Hs, Et. rewrite get_substitution_group1; [|exact Hx|].
  - now rewrite <- app_assoc.
  - rewrite Et in Hplain. now inversion Hplain.
Qed.

Lemma not_task_no_prefix line :
  isTask line = false ->
  exec PREFIX_PATTERN line = None /\ exec TIMEBLOCK line = None.
Proof.
  intros H. split.
  - destruct (exec PREFIX_PATTERN line) eqn:E; [|reflexivity]. exfalso.
    assert (H' : exec PREFIX_PATTERN line <> None) by congruence.
    unfold PREFIX_PATTERN in H'.
    apply exec_tabs_inv in H'; [|intros c s'; now apply lit_rejects_tab].
    destruct H' as [tabs [x [-> [Ht [_ H']]]]].
    apply inv_lit in H'. destruct H' as [x1 [-> H']].
    apply inv_one in H'. destruct H' as [m [x2 [-> [Hm H']]]].
    apply inv_lit in H'. destruct H' as [x3 [-> _]].
    rewrite (checkbox_is_task tabs m x3 Ht Hm) in H. discriminate.
  - destruct (exec TIMEBLOCK line) eqn:E; [|reflexivity]. exfalso.
    destruct (timeblock_inv line) as [P [B [rest [sh [sm [eh [em [-> [HP _]]]]]]]]];
      [congruence|].
    rewrite (prefix_is_task P _ HP) in H. discriminate.
Qed.

(** What [addTimeblock] and [removeTimeblock] do to a line: nothing when
    it is not a task; otherwise the block goes between the checkbox and
    the rest. *)
Lemma timeblock_cases line :
  (isTask line = false /\ removeTimeblock line = line /\
   forall a b c d, addTimeblock line a b c d = line) \/
  (exists P rest,
     prefix_shape P /\ head_not is_ws rest /\
     removeTimeblock line = P ++ rest /\
     (extractTimeblock line = None -> line = P ++ rest) /\
     forall a b c d, fits a b c d ->
       addTimeblock line a b c d = P ++ blockText a b c d ++ rest).
Proof.
  destruct (isTask line) eqn:Htask.
  - right. destruct (exec TIMEBLOCK line) as [ls|] eqn:E.
    + destruct (timeblock_inv line)
        as [P [B [rest [sh [sm [eh [em [-> [HP [HB Hr]]]]]]]]]]; [congruence|].
      exists P, rest.
      destruct (block_line P B rest sh sm eh em HP HB Hr) as [Hex Hrm].
      split; [exact HP|]. split; [exact Hr|]. split; [exact Hrm|].
      split; [rewrite Hex; discriminate|].
      intros a b c d Hf. now apply (addTimeblock_block P B rest sh sm eh em).
    + destruct (task_prefix line Htask) as [P [rest [-> [HP Hr]]]].
      exists P, rest. split; [exact HP|]. split; [exact Hr|]. split.
      * unfold removeTimeblock, search_start. now rewrite E.
      * split; [reflexivity|]. intros a b c d Hf.
        now apply addTimeblock_plain.
  - left. destruct (not_task_no_prefix line Htask) as [E1 E2].
    split; [reflexivity|]. split.
    + unfold removeTimeblock, search_start. now rewrite E2.
    + intros a b c d. unfold addTimeblock, extractTimeblock, search_start.
      now rewrite E2, E1.
Qed.

(** X1.  Writing a time block onto a line and then another one leaves
    the line as if only the second had been written: the first block is
    replaced, not added to.  The numbers are those [formatTime] writes with
    two digits. *)
Theorem addTimeblock_overwrites :
  forall line a b c d a' b' c' d',
    fits a b c d -> fits a' b' c' d' ->
    addTimeblock (addTimeblock line a b c d) a' b' c' d'
    = addTimeblock line a' b' c' d'.
Proof.
  intros line a b c d a' b' c' d' Hf Hf'.
  destruct (timeblock_cases line)
    as [[_ [_ Hadd]] | [P [rest [HP [Hr [_ [_ Hadd]]]]]]].
  - now rewrite !Hadd.
  - rewrite (Hadd a b c d Hf), (Hadd a' b' c' d' Hf').
    destruct Hf as [Ha [Hb [Hc Hd]]].
    destruct (blockText_block a b c d Ha Hb Hc Hd) as [HB _].
    now apply (addTimeblock_block P _ rest a b c d).
Qed.

Lemma addTimeblock_overwrites_witness :
  addTimeblock (addTimeblock (L "- [ ] Call dentist") 9 0 9 30) 14 15 15 0
  = addTimeblock (L "- [ ] Call dentist") 14 15 15 0.
Proof.
  apply addTimeblock_overwrites; unfold fits; repeat split; lia.
Defined.

(** X2.  On a task line, the block that [addTimeblock] wrote is the one
    [extractTimeblock] reads: the same four numbers. *)
Theorem extractTimeblock_addTimeblock :
  forall line a b c d,
    isTask line = true -> fits a b c d ->
    exists tb,
      extractTimeblock (addTimeblock line a b c d) = Some tb /\
      startHour tb = a /\ startMinute tb = b /\
      endHour tb = c /\ endMinute tb = d.
Proof.
  intros line a b c d Htask Hf.
  destruct (timeblock_cases line)
    as [[Hn _] | [P [rest [HP [Hr [_ [_ Hadd]]]]]]]; [congruence|].
  rewrite (Hadd a b c d Hf).
  destruct Hf as [Ha [Hb [Hc Hd]]].
  destruct (blockText_block a b c d Ha Hb Hc Hd) as [HB _].
  destruct (block_line P _ rest a b c d HP HB Hr) as [Hex _].
  eexists. split; [exact Hex|]. repeat split.
Qed.

Lemma extractTimeblock_addTimeblock_witness :
  exists tb,
    extractTimeblock (addTimeblock (L "- [ ] 08:00-08:15 Call dentist") 9 5 10 30)
    = Some tb /\
    startHour tb = 9 /\ startMinute tb = 5 /\
    endHour tb = 10 /\ endMinute tb = 30.
Proof.
  apply extractTimeblock_addTimeblock;
    [reflexivity|unfold fits; repeat split; lia].
Defined.

(** X3.  Removing the block that was just written gives what removing
    the block gives on the line before; on a line that had no block, the
    line itself. *)
Theorem removeTimeblock_addTimeblock :
  forall line a b c d,
    fits a b c d ->
    removeTimeblock (addTimeblock line a b c d) = removeTimeblock line /\
    (extractTimeblock line = None ->
     removeTimeblock (addTimeblock line a b c d) = line).
Proof.
  intros line a b c d Hf.
  destruct (timeblock_cases line)
    as [[_ [Hrm Hadd]] | [P [rest [HP [Hr [Hrm [Hnone Hadd]]]]]]].
  - rewrite Hadd, Hrm. split; [reflexivity|auto].
  - rewrite (Hadd a b c d Hf), Hrm.
    destruct Hf as [Ha [Hb [Hc Hd]]].
    destruct (blockText_block a b c d Ha Hb Hc Hd) as [HB _].
    destruct (block_line P _ rest a b c d HP HB Hr) as [_ Hrm'].
    rewrite Hrm'. split; [reflexivity|]. intros E. symmetry. now apply Hnone.
Qed.

Lemma removeTimeblock_addTimeblock_witness :
  removeTimeblock (addTimeblock (TAB ++ L "- [/]  Call dentist") 9 0 9 30)
  = removeTimeblock (TAB ++ L "- [/]  Call dentist") /\
  (extractTimeblock (TAB ++ L "- [/]  Call dentist") = None ->
   removeTimeblock (addTimeblock (TAB ++ L "- [/]  Call dentist") 9 0 9 30)
   = TAB ++ L "- [/]  Call dentist").
Proof.
  apply removeTimeblock_addTimeblock; unfold fits; repeat split; lia.
Defined.

(** X4.  The default end of a block is thirty minutes after its start,
    on the clock of one day: for a start within the day the end is a time
    of the day, and it is the start plus 30 minutes modulo 24 hours. *)
Theorem getDefaultEndTime_half_hour :
  forall startHour startMinute,
    startHour < 24 -> startMinute < 60 ->
    let (hour, minute) := getDefaultEndTime startHour startMinute in
    hour < 24 /\ minute < 60 /\
    60 * hour + minute = (60 * startHour + startMinute + 30) mod 1440.
Proof.
  intros h m Hh Hm. unfold getDefaultEndTime.
  destruct (Nat.leb_spec 60 (m + 30)) as [Hle|Hlt].
  - assert (Hmod : (h + 1) mod 24 < 24) by (apply Nat.mod_upper_bound; lia).
    split; [exact Hmod|]. split; [lia|].
    destruct (Nat.eq_dec h 23) as [->|Hne].
    + change ((23 + 1) mod 24) with 0.
      replace (60 * 23 + m + 30) with ((m - 30) + 1 * 1440) by lia.
      rewrite Nat.Div0.mod_add, Nat.mod_small; lia.
    + rewrite (Nat.mod_small (h + 1)) by lia.
      rewrite Nat.mod_small; lia.
  - split; [exact Hh|]. split; [lia|]. rewrite Nat.mod_small; lia.
Qed.

Lemma getDefaultEndTime_half_hour_witness :
  let (hour, minute) := getDefaultEndTime 23 45 in
  hour < 24 /\ minute < 60 /\
  60 * hour + minute = (60 * 23 + 45 + 30) mod 1440.
Proof. apply getDefaultEndTime_half_hour; lia. Defined.

End TimeblockProps.

(* ------------------------------------------------------------------ *)
(** ** Dates typed by the user *)
(* ------------------------------------------------------------------ *)

Section CustomDate.
Import TaskUtils ScheduleDateUtils.

Lemma D8_inv s :
  test_at D8 s = true ->
  exists c1 c2 c3 c4 c5 c6 c7 c8,
    s = [c1; c2; c3; c4; c5; c6; c7; c8] /\
    date_shape [c1; c2; c3; c4; 45; c5; c6; 45; c7; c8]%N.
Proof.
  unfold test_at, D8. intros H.
  destruct (exec _ s) as [ls|] eqn:E; [clear H|discriminate].
  destruct s as [|c1 [|c2 [|c3 [|c4 [|c5 [|c6 [|c7 [|c8 [|x s]]]]]]]]];
    simpl in E; try discriminate;
    repeat match type of E with
      | context [is_digit ?c] =>
          destruct (is_digit c) eqn:?; simpl in E; try discriminate
      end.
  exists c1, c2, c3, c4, c5, c6, c7, c8. split; [reflexivity|].
  now constructor.
Qed.

Lemma date_shape_isDate d : date_shape d -> isDate d = true.
Proof.
  intros H. destruct H. unfold isDate, test_at, DATE. simpl.
  repeat match goal with
    | H : is_digit _ = true |- _ => rewrite H; clear H; simpl
    end.
  reflexivity.
Qed.

Lemma date_shape_trim d : date_shape d -> trim d = d /\ d <> [].
Proof.
  intros H. destruct H. digits. split; [|discriminate].
  unfold trim. simpl.
  repeat match goal with
    | H : is_ws _ = false |- _ => rewrite H; clear H; simpl
    end.
  reflexivity.
Qed.

(** X5.  Whatever [parseCustomDate] returns is a date [YYYY-MM-DD], and
    it reads such a date as itself. *)
Theorem parseCustomDate_date :
  forall input d,
    parseCustomDate input = Some d ->
    isDate d = true /\ parseCustomDate (Some d) = Some d.
Proof.
  intros input d H.
  assert (Hd : date_shape d).
  { unfold parseCustomDate in H. destruct input as [[|c s]|]; try discriminate.
    destruct (test_at (DATE ++ [Eos]) (trim (c :: s))) eqn:E1.
    - injection H as <-. now apply isDate_inv.
    - destruct (test_at D8 (trim (c :: s))) eqn:E2; [|discriminate].
      destruct (D8_inv _ E2) as [c1 [c2 [c3 [c4 [c5 [c6 [c7 [c8 [E Hs]]]]]]]]].
      rewrite E in H. injection H as <-. exact Hs. }
  split; [now apply date_shape_isDate|].
  destruct (date_shape_trim d Hd) as [Ht Hne].
  unfold parseCustomDate. destruct d as [|c s]; [congruence|].
  rewrite Ht. fold (isDate (c :: s)). now rewrite (date_shape_isDate _ Hd).
Qed.

Lemma parseCustomDate_date_witness :
  isDate (L "2025-01-12") = true /\
  parseCustomDate (Some (L "2025-01-12")) = Some (L "2025-01-12").
Proof.
  apply (parseCustomDate_date (Some (L " 20250112 "))). reflexivity.
Defined.

End CustomDate.

(* ------------------------------------------------------------------ *)
(** ** The kinds of lines *)
(* ------------------------------------------------------------------ *)

Section LineKinds.
Import TaskUtils.

Lemma split_tabs line :
  exists tabs x, line = tabs ++ x /\ all_tabs tabs /\ run is_tab x = 0.
Proof.
  destruct (run_split is_tab line) as [E F].
  exists (firstn (run is_tab line) line), (skipn (run is_tab line) line).
  split; [exact E|]. split; [exact F|]. apply run_skipn.
Qed.

(** A test that starts with the tabs of the line: the test of what follows
    the tabs. *)
Lemma test_tabs l re tabs x :
  all_tabs tabs -> run is_tab x = 0 ->
  starts_with [9%N] l = false -> l <> [] ->
  test_at (Star is_tab :: Lit l :: re) (tabs ++ x) = test_at (Lit l :: re) x.
Proof.
  intros Ht Hx Hl Hne. unfold test_at.
  rewrite exec_tabs; [|exact Ht| |exact Hx].
  - destruct (exec (Lit l :: re) x); reflexivity.
  - intros c s'. now apply lit_rejects_tab.
Qed.

Lemma parent_tabs l re tabs x :
  all_tabs tabs -> starts_with [9%N] l = false -> l <> [] ->
  test_at (Lit l :: re) (tabs ++ x)
  = match tabs with [] => test_at (Lit l :: re) x | _ => false end.
Proof.
  intros Ht Hl Hne. destruct Ht as [|c tabs Hc Ht]; [reflexivity|].
  unfold test_at. change ((c :: tabs) ++ x) with (c :: tabs ++ x).
  now rewrite lit_rejects_tab.
Qed.

Lemma subtask_tabs tabs x :
  all_tabs tabs -> run is_tab x = 0 ->
  isSubtask (tabs ++ x)
  = match tabs with
    | [] => false
    | _ => test_at PARENT_TASK_PATTERN x
    end.
Proof.
  intros Ht Hx. unfold isSubtask, SUBTASK_PATTERN.
  destruct Ht as [|c tabs Hc Ht].
  - unfold test_at. destruct x as [|c x]; [reflexivity|].
    simpl in Hx. cbn [app exec]. destruct (is_tab c); [discriminate|reflexivity].
  - unfold test_at at 1. change ((c :: tabs) ++ x) with (c :: tabs ++ x).
    rewrite exec_one, Hc.
    assert (E := test_tabs (L "- [") [One is_dot; Lit (L "]")] tabs x Ht Hx
                   eq_refl ltac:(discriminate)).
    unfold test_at in E. unfold PARENT_TASK_PATTERN, test_at.
    destruct (exec [Star is_tab; Lit (L "- ["); One is_dot; Lit (L "]")]
                (tabs ++ x));
      destruct (exec [Lit (L "- ["); One is_dot; Lit (L "]")] x);
      simpl; congruence.
Qed.

(** The tests on what follows the tabs. *)
Lemma box_tests x :
  (test_at [Lit (L "- ["); One (one_of "xX->"); Lit (L "]")] x = true ->
   test_at PARENT_TASK_PATTERN x = true) /\
  (test_at [Lit (L "- [c]")] x = true ->
   test_at PARENT_TASK_PATTERN x = true /\
   test_at [Lit (L "- ["); One (one_of "xX->"); Lit (L "]")] x = false) /\
  (test_at [Lit (L "- [ ]")] x = true ->
   test_at PARENT_TASK_PATTERN x = true /\
   test_at [Lit (L "- ["); One (one_of "xX->"); Lit (L "]")] x = false /\
   test_at [Lit (L "- [c]")] x = false).
Proof.
  unfold test_at, PARENT_TASK_PATTERN, one_of, is_dot, is_line_terminator.
  destruct x as [|c1 [|c2 [|c3 [|c4 [|c5 x]]]]]; simpl;
    repeat match goal with
      | |- context [N.eqb ?a ?b] =>
          destruct (N.eqb_spec a b); try subst; simpl
      end;
    repeat split; intros; try discriminate; try reflexivity; try congruence.
Qed.

(** A task line is a top-level task or a subtask, and not both. *)
Lemma task_kinds line :
  isTask line = isParentTask line || isSubtask line /\
  isParentTask line && isSubtask line = false.
Proof.
  destruct (split_tabs line) as [tabs [x [-> [Ht Hx]]]].
  assert (Etask : isTask (tabs ++ x) = test_at PARENT_TASK_PATTERN x).
  { apply test_tabs; auto; discriminate. }
  assert (Epar : isParentTask (tabs ++ x)
                 = match tabs with
                   | [] => test_at PARENT_TASK_PATTERN x
                   | _ => false
                   end).
  { apply parent_tabs; auto; discriminate. }
  rewrite Etask, Epar, (subtask_tabs tabs x Ht Hx).
  destruct tabs; [now rewrite orb_false_r, andb_false_r|split; reflexivity].
Qed.

(** X6.  Every task line is either a top-level task or a subtask, never
    both; completed lines, calendar events and incomplete tasks are task
    lines; a calendar event is not completed, and an incomplete task is
    neither completed nor a calendar event. *)
Theorem line_kinds :
  forall line,
    isTask line = isParentTask line || isSubtask line /\
    isParentTask line && isSubtask line = false /\
    (isCompleted line = true -> isTask line = true) /\
    (isCalendarEvent line = true ->
     isTask line = true /\ isCompleted line = false) /\
    (BulkScheduler.isIncompleteTask line = true ->
     isTask line = true /\ isCompleted line = false /\
     isCalendarEvent line = false).
Proof.
  intros line. destruct (split_tabs line) as [tabs [x [-> [Ht Hx]]]].
  assert (Etask : isTask (tabs ++ x) = test_at PARENT_TASK_PATTERN x).
  { apply test_tabs; auto; discriminate. }
  assert (Ecomp : isCompleted (tabs ++ x)
                  = test_at [Lit (L "- ["); One (one_of "xX->"); Lit (L "]")] x).
  { apply test_tabs; auto; discriminate. }
  assert (Ecal : isCalendarEvent (tabs ++ x) = test_at [Lit (L "- [c]")] x).
  { apply test_tabs; auto; discriminate. }
  assert (Einc : BulkScheduler.isIncompleteTask (tabs ++ x)
                 = test_at [Lit (L "- [ ]")] x).
  { apply test_tabs; auto; discriminate. }
  assert (Epar : isParentTask (tabs ++ x)
                 = match tabs with
                   | [] => test_at PARENT_TASK_PATTERN x
                   | _ => false
                   end).
  { apply parent_tabs; auto; discriminate. }
  rewrite Etask, Ecomp, Ecal, Einc, Epar, (subtask_tabs tabs x Ht Hx).
  destruct (box_tests x) as [B1 [B2 B3]].
  split; [|split; [|split; [|split]]].
  - destruct tabs; [now rewrite orb_false_r|reflexivity].
  - destruct tabs; [now rewrite andb_false_r|reflexivity].
  - exact B1.
  - exact B2.
  - exact B3.
Qed.

End LineKinds.

(* ------------------------------------------------------------------ *)
(** ** What the scheduler leaves alone *)
(* ------------------------------------------------------------------ *)

Section SchedulerFrame.
Import TaskUtils TaskScheduler.

Lemma getOrCreate_editor tp d w :
  editor (fst (getOrCreate tp d w)) = editor w /\
  activeFile (fst (getOrCreate tp d w)) = activeFile w.
Proof.
  unfold getOrCreate.
  destruct (getAbstractFileByPath (vault w) tp); split; reflexivity.
Qed.

Lemma getOrCreate_folder tp d w w1 :
  getOrCreate tp d w = (w1, TFolder) -> w1 = w.
Proof.
  unfold getOrCreate.
  destruct (getAbstractFileByPath (vault w) tp); [|discriminate].
  now intros [= <- _].
Qed.

(** The editor after a call of [scheduleTask] that returns [true]. *)
Lemma scheduleTask_true settings w n d w' :
  scheduleTask settings w n d = Some (true, w') ->
  exists line,
    nth_error (editor w) n = Some line /\
    editor w' = firstn n (editor w)
                ++ markTaskAsScheduled line d
                :: markSubtasks (skipn (S n) (editor w)).
Proof.
  unfold scheduleTask. destruct (nth_error (editor w) n) as [line|] eqn:El;
    [|discriminate].
  destruct (negb (isTask line)); [discriminate|].
  destruct (includes _ line); [discriminate|].
  destruct (getOrCreate (getDailyNotePath d settings) d w) as [w1 tf] eqn:Eg.
  pose proof (getOrCreate_editor (getDailyNotePath d settings) d w) as [Ee _].
  rewrite Eg in Ee. cbn [fst] in Ee.
  destruct tf as [c|]; [|discriminate].
  match goal with
  | |- match ?e with Some _ => _ | None => _ end = _ -> _ =>
      destruct e as [found|]; [|discriminate]
  end.
  intros H. injection H as <-. exists line. split; [reflexivity|].
  cbn [set_vault set_editor editor vault Notice].
  destruct (TaskNoteManager.extractTaskTextFromLine line) as [[|t0 t]|];
    cbn [set_vault set_editor editor vault Notice]; now rewrite Ee.
Qed.

(** X7.  When [scheduleTask] returns [false] -- the line is not a task,
    it is already scheduled to the date, or the target path is a folder --
    no document has changed: the vault and the editor are as before. *)
Theorem scheduleTask_failure_keeps_documents :
  forall settings w n d w',
    scheduleTask settings w n d = Some (false, w') ->
    vault w' = vault w /\ editor w' = editor w.
Proof.
  intros settings w n d w'. unfold scheduleTask.
  destruct (nth_error (editor w) n) as [line|]; [|discriminate].
  destruct (negb (isTask line)); [now intros [= <-]|].
  destruct (includes _ line); [now intros [= <-]|].
  destruct (getOrCreate (getDailyNotePath d settings) d w) as [w1 tf] eqn:Eg.
  destruct tf as [c|].
  - match goal with
    | |- match ?e with Some _ => _ | None => _ end = _ -> _ =>
        destruct e as [found|]; discriminate
    end.
  - apply getOrCreate_folder in Eg. subst w1. now intros [= <-].
Qed.

Lemma scheduleTask_failure_keeps_documents_witness :
  vault (Notice (L "Not a task line") world_c5) = vault world_c5 /\
  editor (Notice (L "Not a task line") world_c5) = editor world_c5.
Proof.
  apply (scheduleTask_failure_keeps_documents DEFAULT_SETTINGS world_c5 0
           (L "2025-01-12")).
  reflexivity.
Defined.

(** X8.  When [unscheduleTask] returns [false] -- the line is not a task,
    or it has neither the marker [>] nor a [[> DATE]] tag -- no document
    has changed. *)
Theorem unscheduleTask_failure_keeps_documents :
  forall settings w n w',
    unscheduleTask settings w n = Some (false, w') ->
    vault w' = vault w /\ editor w' = editor w.
Proof.
  intros settings w n w'. unfold unscheduleTask.
  destruct (nth_error (editor w) n) as [line|]; [|discriminate].
  destruct (negb (isTask line)); [now intros [= <-]|].
  destruct (negb (truthy (extractScheduledToDate line))
            && negb (isScheduledAway line)); [now intros [= <-]|].
  discriminate.
Qed.

Lemma unscheduleTask_failure_keeps_documents_witness :
  vault (Notice (L "Task is not scheduled") world_c5) = vault world_c5 /\
  editor (Notice (L "Task is not scheduled") world_c5) = editor world_c5.
Proof.
  apply (unscheduleTask_failure_keeps_documents DEFAULT_SETTINGS world_c5 1).
  reflexivity.
Defined.

Lemma includes_within sub a b : includes sub (a ++ sub ++ b) = true.
Proof.
  induction a as [|c a IH].
  - pose proof (starts_with_app sub b) as H. simpl app.
    destruct (sub ++ b); simpl; now rewrite H.
  - simpl. rewrite IH. apply orb_true_r.
Qed.


(** *** The lines of the source that a call does not touch *)

(** A rewriting of the lines below the task that keeps their number and
    every line that is not a subtask. *)
Definition keeps_others (f : list jsstring -> list jsstring) : Prop :=
  forall lines,
    length (f lines) = length lines /\
    forall j x, nth_error lines j = Some x -> isSubtask x = false ->
      nth_error (f lines) j = Some x.

Lemma markSubtasks_keeps : keeps_others markSubtasks.
Proof.
  intros lines. induction lines as [|l rest [IH1 IH2]]; cbn [markSubtasks].
  - split; [reflexivity|]. intros j x H. now destruct j.
  - destruct (isSubtask l) eqn:E.
    + split; [simpl; now rewrite IH1|].
      intros [|j] x H Hx; simpl in *; [congruence|now apply IH2].
    + split; [reflexivity|auto].
Qed.

Lemma resetSubtasks_keeps : keeps_others resetSubtasks.
Proof.
  intros lines. induction lines as [|l rest [IH1 IH2]]; cbn [resetSubtasks].
  - split; [reflexivity|]. intros j x H. now destruct j.
  - destruct (isSubtask l) eqn:E.
    + split; [simpl; now rewrite IH1|].
      intros [|j] x H Hx; simpl in *; [congruence|now apply IH2].
    + split; [reflexivity|auto].
Qed.

Lemma middle_frame f (e : list jsstring) n line x :
  keeps_others f -> nth_error e n = Some line ->
  let e' := firstn n e ++ x :: f (skipn (S n) e) in
  length e' = length e /\
  forall i l, nth_error e i = Some l ->
    i < n \/ (n < i /\ isSubtask l = false) ->
    nth_error e' i = Some l.
Proof.
  intros Hf Hn e'. destruct (nth_error_split_at _ e n line Hn) as [E Hlen].
  destruct (Hf (skipn (S n) e)) as [F1 F2]. split.
  - unfold e'. rewrite length_app. cbn [length]. rewrite F1.
    assert (Hl : length e = length (firstn n e) + S (length (skipn (S n) e))).
    { rewrite E at 1. rewrite length_app. reflexivity. }
    lia.
  - intros i l Hi [Hlt | [Hgt Hl]]; unfold e'.
    + rewrite nth_error_app1 by lia.
      rewrite E in Hi. now rewrite nth_error_app1 in Hi by lia.
    + rewrite nth_error_app2 by lia. rewrite Hlen.
      rewrite E in Hi. rewrite nth_error_app2 in Hi by lia.
      rewrite Hlen in Hi. destruct (i - n) as [|k] eqn:Ek; [lia|].
      simpl in *. now apply F2.
Qed.

Lemma unscheduleTask_true settings w n w' :
  unscheduleTask settings w n = Some (true, w') ->
  exists line,
    nth_error (editor w) n = Some line /\
    editor w' = firstn n (editor w)
                ++ resetScheduledTask line
                :: resetSubtasks (skipn (S n) (editor w)).
Proof.
  unfold unscheduleTask.
  destruct (nth_error (editor w) n) as [line|] eqn:El; [|discriminate].
  destruct (negb (isTask line)); [discriminate|].
  destruct (negb (truthy (extractScheduledToDate line))
            && negb (isScheduledAway line)); [discriminate|].
  intros H. injection H as <-. exists line. split; [reflexivity|].
  cbn [Notice editor].
  repeat match goal with
    | |- context [match ?e with _ => _ end] =>
        destruct e; cbn [set_vault set_editor editor vault]
    end; reflexivity.
Qed.

(** X11.  The same for [unscheduleTask]: the number of lines of the
    source, the lines above the task, and the lines below it that are not
    subtasks stay as they are. *)
Theorem unscheduleTask_source_frame :
  forall settings w n r w',
    unscheduleTask settings w n = Some (r, w') ->
    length (editor w') = length (editor w) /\
    forall i l, nth_error (editor w) i = Some l ->
      i < n \/ (n < i /\ isSubtask l = false) ->
      nth_error (editor w') i = Some l.
Proof.
  intros settings w n [|] w' H.
  - destruct (unscheduleTask_true settings w n w' H) as [line [Hl ->]].
    exact (middle_frame resetSubtasks (editor w) n line _ resetSubtasks_keeps Hl).
  - assert (E : editor w' = editor w).
    { revert H. unfold unscheduleTask.
      destruct (nth_error (editor w) n) as [line|]; [|discriminate].
      destruct (negb (isTask line)); [now intros [= <-]|].
      destruct (negb (truthy (extractScheduledToDate line))
                && negb (isScheduledAway line)); [now intros [= <-]|].
      discriminate. }
    rewrite E. split; [reflexivity|auto].
Qed.

Lemma unscheduleTask_source_frame_witness :
  exists w',
    unscheduleTask DEFAULT_SETTINGS world_c10 0 = Some (true, w') /\
    length (editor w') = length (editor world_c10) /\
    forall i l, nth_error (editor world_c10) i = Some l ->
      i < 0 \/ (0 < i /\ isSubtask l = false) ->
      nth_error (editor w') i = Some l.
Proof.
  destruct (unscheduleTask DEFAULT_SETTINGS world_c10 0)
    as [[[|] w1]|] eqn:E; try (vm_compute in E; discriminate).
  exists w1. split; [reflexivity|].
  exact (unscheduleTask_source_frame DEFAULT_SETTINGS world_c10 0 true w1 E).
Defined.

End SchedulerFrame.

(* ------------------------------------------------------------------ *)
(** ** File names *)
(* ------------------------------------------------------------------ *)

Section FileNames.

Lemma replace_all_from_Forall (P : char -> Prop) re rep :
  (forall ls s, Forall P (rep ls s)) ->
  forall s skip, Forall P s -> Forall P (replace_all_from re rep skip s).
Proof.
  intros Hrep. induction s as [|c s IH]; intros skip Hs; [constructor|].
  inversion Hs as [|? ? Hc Hs']; subst. simpl.
  destruct skip as [|k]; [|now apply IH].
  destruct (exec re (c :: s)) as [ls|].
  - destruct (total ls) as [|k].
    + constructor; [exact Hc|now apply IH].
    + apply Forall_app. split; [apply Hrep|now apply IH].
  - constructor; [exact Hc|now apply IH].
Qed.

Lemma replace_all_Forall (P : char -> Prop) re rep s :
  Forall P rep -> Forall P s -> Forall P (replace_all re rep s).
Proof.
  intros Hrep Hs. unfold replace_all.
  now apply replace_all_from_Forall.
Qed.

(** Replacing every character of a class: none is left. *)
Lemma replace_class p rep s :
  Forall (fun c => p c = false) rep ->
  Forall (fun c => p c = false) (replace_all [One p] rep s).
Proof.
  intros Hrep. unfold replace_all. induction s as [|c s IH]; [constructor|].
  simpl. destruct (p c) eqn:E.
  - simpl. apply Forall_app. split; [exact Hrep|exact IH].
  - constructor; [exact E|exact IH].
Qed.

Lemma trimStart_Forall (P : char -> Prop) s :
  Forall P s -> Forall P (trimStart s).
Proof.
  induction 1 as [|c s Hc Hs IH]; simpl; [constructor|].
  destruct (is_ws c); [exact IH|now constructor].
Qed.

Lemma trim_Forall (P : char -> Prop) s : Forall P s -> Forall P (trim s).
Proof. intros H. now apply trimEnd_Forall, trimStart_Forall. Qed.

Lemma Forall_firstn_keeps (P : char -> Prop) n s :
  Forall P s -> Forall P (firstn n s).
Proof.
  intros H. rewrite <- (firstn_skipn n s) in H.
  apply Forall_app in H. tauto.
Qed.

Lemma Forall_skipn_keeps (P : char -> Prop) n s :
  Forall P s -> Forall P (skipn n s).
Proof.
  intros H. rewrite <- (firstn_skipn n s) in H.
  apply Forall_app in H. tauto.
Qed.

(** X12.  The file name of a task note has at most 100 code units and
    none of the characters backslash, slash, colon, star, question mark,
    double quote, angle brackets, bar, hash and square brackets: the note
    cannot land outside the notes folder. *)
Theorem sanitizeFilename_safe :
  forall text,
    length (TaskNoteManager.sanitizeFilename text) <= 100 /\
    Forall (fun c => TaskNoteManager.is_forbidden c = false)
      (TaskNoteManager.sanitizeFilename text).
Proof.
  intros text. unfold TaskNoteManager.sanitizeFilename. split.
  - apply firstn_le_length.
  - apply Forall_firstn_keeps, trim_Forall.
    apply replace_all_Forall; [repeat constructor|].
    apply replace_all_Forall; [repeat constructor|].
    apply replace_class. repeat constructor.
Qed.

(** X13.  The file name of an event note, when there is one, is not
    empty, has at most 100 code units, and none of the characters angle
    brackets, colon, double quote, slash, backslash, bar, question mark
    and star. *)
Theorem event_sanitizeFilename_safe :
  forall text name,
    EventNoteManager.sanitizeFilename text = Some name ->
    name <> [] /\ length name <= 100 /\
    Forall (fun c => EventNoteManager.is_special c = false) name.
Proof.
  intros text name. unfold EventNoteManager.sanitizeFilename.
  destruct text as [[|c text]|]; try discriminate.
  set (cleaned := replace_all [One EventNoteManager.is_special] [] _).
  assert (Hc : Forall (fun c => EventNoteManager.is_special c = false) cleaned)
    by (apply replace_class; constructor).
  destruct (firstn 100 (trim cleaned)) as [|x l] eqn:E; [discriminate|].
  intros [= <-]. split; [discriminate|]. rewrite <- E. split.
  - apply firstn_le_length.
  - now apply Forall_firstn_keeps, trim_Forall.
Qed.

Lemma event_sanitizeFilename_safe_witness :
  L "Standup  (daily)" <> [] /\ length (L "Standup  (daily)") <= 100 /\
  Forall (fun c => EventNoteManager.is_special c = false)
    (L "Standup  (daily)").
Proof.
  apply (event_sanitizeFilename_safe
           (Some (L "10:00 - 10:15 Standup https://meet.example/x?y (daily) "))).
  vm_compute. reflexivity.
Defined.

End FileNames.

(* ------------------------------------------------------------------ *)
(** ** Markers and status names *)
(* ------------------------------------------------------------------ *)

Section StatusProps.
Import TaskUtils TaskNoteStatus.

Lemma statusToCheckbox_key status m :
  In status (map snd m) -> In (statusToCheckbox status m) (map fst m).
Proof.
  induction m as [|[k v] m IH]; intros H; [destruct H|].
  cbn [statusToCheckbox map fst snd] in *.
  destruct (str_eqb v status) eqn:E; [now left|].
  right. apply IH. destruct H as [H|H]; [|exact H].
  apply str_eqb_neq in E. congruence.
Qed.

(** X14.  In a mapping with distinct markers, the marker that
    [statusToCheckbox] gives for a status name of the mapping has that
    status: [checkboxToStatus] gives the name back. *)
Theorem checkboxToStatus_statusToCheckbox :
  forall m status,
    NoDup (map fst m) -> status <> [] -> In status (map snd m) ->
    checkboxToStatus (statusToCheckbox status m) m = Some status.
Proof.
  intros m status Hnd Hne. induction m as [|[k v] m IH]; intros Hin;
    [destruct Hin|].
  cbn [map fst snd] in *. inversion Hnd as [|? ? Hk Hnd']; subst.
  cbn [statusToCheckbox]. destruct (str_eqb v status) eqn:E.
  - apply str_eqb_eq in E. subst v. unfold checkboxToStatus. cbn [own].
    rewrite str_eqb_refl. destruct status; [congruence|reflexivity].
  - assert (Hin' : In status (map snd m)).
    { destruct Hin as [H|H]; [|exact H]. apply str_eqb_neq in E. congruence. }
    specialize (IH Hnd' Hin').
    pose proof (statusToCheckbox_key status m Hin') as Hkey.
    unfold checkboxToStatus in *. cbn [own].
    replace (str_eqb k (statusToCheckbox status m)) with false; [exact IH|].
    symmetry. apply str_eqb_neq. intros ->. contradiction.
Qed.

Lemma checkboxToStatus_statusToCheckbox_witness :
  checkboxToStatus (statusToCheckbox (L "complete") DEFAULT_STATUS_MAPPINGS)
    DEFAULT_STATUS_MAPPINGS
  = Some (L "complete").
Proof.
  apply checkboxToStatus_statusToCheckbox.
  - repeat constructor; simpl; intuition discriminate.
  - discriminate.
  - simpl. auto.
Defined.


(** *** updateTaskCheckbox *)

Lemma exec_task tabs m rest :
  all_tabs tabs -> is_dot m = true ->
  exec TASK_PATTERN (tabs ++ L "- [" ++ m :: L "]" ++ rest)
  = Some [length tabs; 3; 1; 1].
Proof.
  intros Ht Hm. unfold TASK_PATTERN.
  rewrite exec_tabs; [|exact Ht| |reflexivity].
  - simpl. rewrite Hm. reflexivity.
  - intros c s'. now apply lit_rejects_tab.
Qed.

Lemma task_checkbox line :
  isTask line = true ->
  exists tabs m rest,
    line = tabs ++ L "- [" ++ m :: L "]" ++ rest /\
    all_tabs tabs /\ is_dot m = true.
Proof.
  intros H. destruct (task_prefix line H) as [P [rest [-> [HP _]]]].
  destruct HP as [tabs m w Ht Hm Hw].
  exists tabs, m, (w ++ rest). split; [|split; assumption].
  rewrite <- !app_assoc. reflexivity.
Qed.

(** The template [$1], a character that is not a dollar sign, [$2], with
    two capture groups. *)
Lemma get_substitution_marker mt b a g1 g2 x :
  N.eqb x 36 = false ->
  get_substitution mt b a [g1; g2] (L "$1" ++ [x] ++ L "$2") = g1 ++ x :: g2.
Proof.
  intros Hx. change (L "$1" ++ [x] ++ L "$2") with [36; 49; x; 36; 50]%N.
  assert (Htail : get_substitution mt b a [g1; g2] [x; 36; 50]%N = x :: g2).
  { cbn [get_substitution]. rewrite Hx. cbn [negb].
    change (N.eqb 36 36)%N with true. cbn [negb].
    change (N.eqb 50 36)%N with false. change (N.eqb 50 38)%N with false.
    change (N.eqb 50 96)%N with false. change (N.eqb 50 39)%N with false.
    cbv beta iota. change (digit_of 50%N) with (Some 2). cbv beta iota.
    unfold capture_ref. simpl. now rewrite app_nil_r. }
  transitivity (g1 ++ get_substitution mt b a [g1; g2] [x; 36; 50]%N);
    [|now rewrite Htail].
  clear Htail.
  destruct (digit_of x) as [n2|] eqn:Ed.
  - cbn [get_substitution]. change (N.eqb 36 36)%N with true. cbn [negb].
    change (N.eqb 49 36)%N with false. change (N.eqb 49 38)%N with false.
    change (N.eqb 49 96)%N with false. change (N.eqb 49 39)%N with false.
    cbv beta iota. change (digit_of 49%N) with (Some 1). cbv beta iota.
    rewrite Ed.
    replace (10 * 1 + n2 <=? length [g1; g2]) with false
      by (symmetry; apply Nat.leb_gt; simpl; lia).
    reflexivity.
  - cbn [get_substitution]. change (N.eqb 36 36)%N with true. cbn [negb].
    change (N.eqb 49 36)%N with false. change (N.eqb 49 38)%N with false.
    change (N.eqb 49 96)%N with false. change (N.eqb 49 39)%N with false.
    cbv beta iota. change (digit_of 49%N) with (Some 1). cbv beta iota.
    rewrite Ed. reflexivity.
Qed.

Lemma set_checkbox tabs m x rest :
  all_tabs tabs -> is_dot m = true -> N.eqb x 36 = false ->
  replace_found
    (search_start TASK_PATTERN (tabs ++ L "- [" ++ m :: L "]" ++ rest))
    TaskScheduler.MARKER_GROUPS (L "$1" ++ [x] ++ L "$2")
    (tabs ++ L "- [" ++ m :: L "]" ++ rest)
  = tabs ++ L "- [" ++ x :: L "]" ++ rest.
Proof.
  intros Ht Hm Hx. unfold search_start. rewrite exec_task by assumption.
  unfold replace_found, TaskScheduler.MARKER_GROUPS.
  cbn [map fst snd].
  rewrite get_substitution_marker by exact Hx.
  unfold group, total. crunch.
  rewrite <- !app_assoc. reflexivity.
Qed.

Lemma checkbox_marker tabs m rest :
  all_tabs tabs -> is_dot m = true ->
  TaskNoteManager.extractCheckboxMarker (tabs ++ L "- [" ++ m :: L "]" ++ rest)
  = Some [m].
Proof.
  intros Ht Hm. unfold TaskNoteManager.extractCheckboxMarker.
  rewrite exec_task by assumption. unfold group, total. crunch. reflexivity.
Qed.

Lemma updateCheckboxLine_spec re mk lines :
  (Forall (fun l => test re l = false) lines /\
   updateCheckboxLine re mk lines = lines) \/
  (exists pre l post,
     lines = pre ++ l :: post /\
     Forall (fun l => test re l = false) pre /\ test re l = true /\
     updateCheckboxLine re mk lines
     = pre ++ replace_found (search_start TASK_PATTERN l)
                TaskScheduler.MARKER_GROUPS (L "$1" ++ mk ++ L "$2") l
              :: post).
Proof.
  induction lines as [|l rest IH]; [left; split; [constructor|reflexivity]|].
  cbn [updateCheckboxLine]. destruct (test re l) eqn:E.
  - right. exists [], l, rest. split; [reflexivity|].
    split; [constructor|]. split; [exact E|reflexivity].
  - destruct IH as [[Hall Hu] | [pre [x [post [-> [Hpre [Hx Hu]]]]]]].
    + left. split; [now constructor|now rewrite Hu].
    + right. exists (l :: pre), x, post. split; [reflexivity|].
      split; [now constructor|]. split; [exact Hx|]. now rewrite Hu.
Qed.

End StatusProps.

(* ------------------------------------------------------------------ *)
(** ** A tag appended to a line *)
(* ------------------------------------------------------------------ *)

Section FreshTag.

(** The patterns [ID_PATTERN], [PARENT_ID_PATTERN] and [UID_PATTERN]: an
    opening [op], then one or more characters other than the closing
    bracket, then the closing bracket. *)
Definition tagRe (op : jsstring) : regex :=
  [Lit op; One not_rbracket; Star not_rbracket; Lit (L "]")].

Lemma star_token t x :
  Forall (fun c => not_rbracket c = true) t ->
  star not_rbracket (exec [Lit (L "]")]) (t ++ 93%N :: x)
  = Some [length t; 1].
Proof.
  induction 1 as [|c t Hc Ht IH]; cbn [app star length].
  - rewrite close_at. reflexivity.
  - rewrite Hc, IH. reflexivity.
Qed.

(** A token of characters other than the closing bracket is matched
    whole. *)
Lemma exec_tag_token op c t x :
  Forall (fun c => not_rbracket c = true) (c :: t) ->
  exec (tagRe op) (op ++ (c :: t) ++ 93%N :: x)
  = Some [length op; 1; length t; 1].
Proof.
  intros H. inversion H as [|? ? Hc Ht]; subst.
  unfold tagRe. rewrite exec_lit.
  change ((c :: t) ++ 93%N :: x) with (c :: t ++ 93%N :: x).
  rewrite exec_one, Hc, exec_star, (star_token t x Ht). reflexivity.
Qed.

Lemma search_here re s ls : exec re s = Some ls -> search re s = Some (0, ls).
Proof. intros H. destruct s; simpl; now rewrite H. Qed.

Lemma search_next re c s :
  exec re (c :: s) = None ->
  search re (c :: s)
  = match search re s with
    | Some (i, ls) => Some (S i, ls)
    | None => None
    end.
Proof. intros H. simpl. now rewrite H. Qed.

Lemma starts_with_short l u x :
  length u < length l -> ~ In 32%N l ->
  starts_with l (u ++ 32%N :: x) = false.
Proof.
  revert u. induction l as [|a l IH]; intros u Hl Hn; [simpl in Hl; lia|].
  destruct u as [|c u]; cbn [app starts_with].
  - destruct (N.eqb_spec a 32) as [->|_]; [|reflexivity].
    exfalso. apply Hn. now left.
  - rewrite IH; [apply andb_false_r|simpl in Hl; lia|].
    intros H. apply Hn. now right.
Qed.

Lemma includes_cons sub c s :
  includes sub (c :: s) = false ->
  starts_with sub (c :: s) = false /\ includes sub s = false.
Proof. cbn [includes]. intros H. now apply orb_false_iff in H. Qed.

Lemma includes_head sub s : includes sub s = false -> starts_with sub s = false.
Proof.
  destruct s; cbn [includes]; intros H; apply orb_false_iff in H; tauto.
Qed.

Lemma includes_suffix sub a v :
  includes sub (a ++ v) = false -> includes sub v = false.
Proof.
  induction a as [|c a IH]; intros H; [exact H|].
  apply IH. now apply (includes_cons sub c (a ++ v)).
Qed.

Lemma includes_prefix sub a w :
  includes sub (a ++ w) = false -> includes sub a = false.
Proof.
  intros H. destruct (includes sub a) eqn:E; [|reflexivity].
  destruct (includes_inv _ _ E) as [pre [post ->]].
  rewrite <- !app_assoc in H. now rewrite includes_within in H.
Qed.

Variable op : jsstring.
Hypothesis op_nonempty : op <> [].
Hypothesis op_visible : Forall (fun c => is_ws c = false) op.

Lemma op_no_space : ~ In 32%N op.
Proof.
  intros H. rewrite Forall_forall in op_visible.
  specialize (op_visible _ H). discriminate.
Qed.

(** What follows the line starts with a space: no opening straddles the
    end of the line. *)
Lemma fresh_start v Y :
  starts_with op v = false -> starts_with op (v ++ 32%N :: Y) = false.
Proof.
  intros H. destruct (Nat.lt_ge_cases (length v) (length op)) as [Hl|Hl].
  - apply starts_with_short; [exact Hl|exact op_no_space].
  - now rewrite starts_with_long.
Qed.

Lemma exec_fresh tl v Y :
  starts_with op v = false -> exec (Lit op :: tl) (v ++ 32%N :: Y) = None.
Proof. intros H. cbn [exec]. now rewrite fresh_start. Qed.

(** The first tag of a line that had no opening is the tag appended to
    it. *)
Lemma search_fresh_tag s c t x :
  includes op s = false ->
  Forall (fun c => not_rbracket c = true) (c :: t) ->
  search (tagRe op) (s ++ 32%N :: op ++ (c :: t) ++ 93%N :: x)
  = Some (S (length s), [length op; 1; length t; 1]).
Proof.
  intros Hs Ht. induction s as [|a s IH].
  - cbn [app length]. rewrite search_next.
    + erewrite search_here; [reflexivity|].
      exact (exec_tag_token op c t x Ht).
    + exact (exec_fresh _ [] _ (includes_head _ _ Hs)).
  - apply includes_cons in Hs. destruct Hs as [Ha Hs].
    change ((a :: s) ++ 32%N :: op ++ (c :: t) ++ 93%N :: x)
      with (a :: s ++ 32%N :: op ++ (c :: t) ++ 93%N :: x).
    rewrite search_next.
    + now rewrite (IH Hs).
    + exact (exec_fresh _ (a :: s) _ Ha).
Qed.

Lemma group_fresh_tag s c t x :
  group (S (length s)) [length op; 1; length t; 1] 1 2
    (s ++ 32%N :: op ++ (c :: t) ++ 93%N :: x)
  = c :: t.
Proof.
  unfold group, total. cbn [firstn skipn fold_right].
  replace (S (length s) + (length op + 0)) with (length (s ++ [32%N]) + length op)
    by (rewrite length_app; simpl; lia).
  replace (s ++ 32%N :: op ++ (c :: t) ++ 93%N :: x)
    with ((s ++ [32%N]) ++ op ++ (c :: t) ++ 93%N :: x)
    by (now rewrite <- app_assoc).
  rewrite skipn_app_len.
  rewrite <- (Nat.add_0_r (length op)), skipn_app_len. cbn [skipn].
  replace (1 + (length t + 0)) with (length (c :: t) + 0) by (simpl; lia).
  rewrite firstn_app_len. cbn [firstn]. apply app_nil_r.
Qed.

(** *** The tag and the white space before it *)

Lemma op_rejects_ws tl c s : is_ws c = true -> exec (Lit op :: tl) (c :: s) = None.
Proof.
  intros Hc. cbn [exec]. destruct op as [|o op']; [congruence|].
  inversion op_visible as [|? ? Ho _]; subst. cbn [starts_with].
  destruct (N.eqb_spec o c) as [->|_]; [congruence|reflexivity].
Qed.

Lemma run_tight u Z :
  tight u -> u <> [] ->
  run is_ws (u ++ Z) = run is_ws u /\ run is_ws u < length u.
Proof.
  induction u as [|c u IH]; intros Ht Hne; [congruence|].
  cbn [app run length]. destruct (is_ws c) eqn:Ec; [|split; [reflexivity|lia]].
  destruct (tight_cons c u Ht) as [[_ Hc] | [Hu Htt]]; [congruence|].
  destruct (IH Htt Hu) as [E Hl]. rewrite E. split; [reflexivity|lia].
Qed.

Lemma tight_tail c s : tight (c :: s) -> tight s.
Proof.
  intros H. destruct (tight_cons c s H) as [[-> _] | [_ Ht]];
    [reflexivity|exact Ht].
Qed.

Lemma exec_ws_fresh tl u Y :
  tight u -> u <> [] -> includes op u = false ->
  exec (Star is_ws :: Lit op :: tl) (u ++ 32%N :: Y) = None.
Proof.
  intros Ht Hne Hu. rewrite exec_star.
  rewrite star_possessive by (intros; now apply op_rejects_ws).
  destruct (run_tight u (32%N :: Y) Ht Hne) as [E Hl]. rewrite E.
  rewrite skipn_app. replace (run is_ws u - length u) with 0 by lia.
  rewrite skipn_O.
  rewrite exec_fresh; [reflexivity|].
  apply includes_head. apply (includes_suffix op (firstn (run is_ws u) u)).
  now rewrite firstn_skipn.
Qed.

Lemma search_ws_fresh_tag s c t x :
  tight s -> includes op s = false ->
  Forall (fun c => not_rbracket c = true) (c :: t) ->
  search (Star is_ws :: tagRe op) (s ++ 32%N :: op ++ (c :: t) ++ 93%N :: x)
  = Some (length s, [1; length op; 1; length t; 1]).
Proof.
  intros Hs Hi Ht. induction s as [|a s IH].
  - cbn [app length]. apply search_here. rewrite exec_star.
    refine (star_skip is_ws (exec (tagRe op)) [32%N]
              (op ++ (c :: t) ++ 93%N :: x) _ _ _ (exec_tag_token op c t x Ht)).
    + repeat constructor.
    + destruct op as [|o op']; [congruence|].
      inversion op_visible; subst. assumption.
  - change ((a :: s) ++ 32%N :: op ++ (c :: t) ++ 93%N :: x)
      with (a :: s ++ 32%N :: op ++ (c :: t) ++ 93%N :: x).
    rewrite search_next.
    + rewrite IH; [reflexivity|now apply tight_tail in Hs|].
      now apply includes_cons in Hi.
    + apply (exec_ws_fresh _ (a :: s)); [exact Hs|discriminate|exact Hi].
Qed.

End FreshTag.

(* ------------------------------------------------------------------ *)
(** ** Assigning ids twice *)
(* ------------------------------------------------------------------ *)

Section IdAssignerTwice.
Import TaskUtils TaskIdManager.

Lemma exec_ID_token c t x :
  Forall (fun c => not_rbracket c = true) (c :: t) ->
  exec ID_PATTERN (L "[id::" ++ (c :: t) ++ 93%N :: x)
  = Some [5; 1; length t; 1].
Proof. exact (exec_tag_token (L "[id::") c t x). Qed.

(** The tag that [addId] appends. *)
Definition idTag (id : jsstring) : jsstring := L " [id::" ++ id ++ L "]".

Lemma no_rb_has_rb v :
  has_rb v = false -> Forall (fun c => not_rbracket c = true) v.
Proof.
  induction v as [|c v IH]; intros H; [constructor|].
  cbn [has_rb existsb] in H. apply orb_false_iff in H. destruct H as [Hc Hv].
  constructor; [now destruct (not_rbracket c)|now apply IH].
Qed.

(** Where no id tag starts at the head of [u], one starts there after the
    tag is appended only when [u] opens a tag that it does not close. *)
Lemma exec_ID_appended u id :
  exec ID_PATTERN u = None ->
  exec ID_PATTERN (u ++ idTag id) = None \/
  exists v, u = L "[id::" ++ v /\ Forall (fun c => not_rbracket c = true) v.
Proof.
  intros H. destruct (has_rb (skipn 5 u)) eqn:Hrb.
  - left. now rewrite exec_ID_app.
  - destruct (starts_with (L "[id::") (u ++ idTag id)) eqn:Hs.
    + right. destruct (Nat.lt_ge_cases (length u) 5) as [Hl|Hl].
      * unfold idTag in Hs. change (L " [id::" ++ id ++ L "]")
          with (32%N :: L "[id::" ++ id ++ L "]") in Hs.
        rewrite starts_with_short in Hs; [discriminate|exact Hl|].
        simpl. intros Hin.
        repeat (destruct Hin as [Hin|Hin]; [discriminate|]). exact Hin.
      * rewrite starts_with_long in Hs by exact Hl.
        exists (skipn 5 u). split; [exact (starts_with_split _ _ Hs)|].
        now apply no_rb_has_rb.
    + left. unfold ID_PATTERN. cbn [exec]. now rewrite Hs.
Qed.

(** After [addId] the first id tag of the line ends with the new id. *)
Lemma search_ID_appended id :
  id <> [] -> Forall (fun c => not_rbracket c = true) id ->
  forall s, search ID_PATTERN s = None ->
  exists o ls Y,
    search ID_PATTERN (s ++ idTag id) = Some (o, ls) /\
    group o ls 1 2 (s ++ idTag id) = Y ++ id.
Proof.
  intros Hne Hid. destruct id as [|c0 t0]; [congruence|]. clear Hne.
  induction s as [|c s IH]; intros H.
  - exists 1, [5; 1; length t0; 1], [].
    unfold idTag. change (L " [id::" ++ (c0 :: t0) ++ L "]")
      with (32%N :: L "[id::" ++ (c0 :: t0) ++ 93%N :: []).
    cbn [app]. split.
    + change (32%N :: L "[id::" ++ c0 :: t0 ++ [93%N])
        with (32%N :: 91%N :: L "id::" ++ (c0 :: t0) ++ [93%N]).
      cbn [search].
      change (91%N :: L "id::" ++ (c0 :: t0) ++ [93%N])
        with (L "[id::" ++ (c0 :: t0) ++ 93%N :: []).
      rewrite (exec_ID_token c0 t0 [] Hid).
      replace (exec ID_PATTERN (32%N :: L "[id::" ++ (c0 :: t0) ++ [93%N]))
        with (@None (list nat)) by reflexivity.
      reflexivity.
    + unfold group, total. simpl. f_equal.
      rewrite firstn_app_len. simpl. apply app_nil_r.
  - cbn [search] in H. destruct (exec ID_PATTERN (c :: s)) eqn:Ex; [discriminate|].
    destruct (search ID_PATTERN s) as [[i l]|] eqn:Es; [discriminate|].
    change ((c :: s) ++ idTag (c0 :: t0)) with (c :: s ++ idTag (c0 :: t0)).
    cbn [search]. change (c :: s ++ idTag (c0 :: t0))
      with ((c :: s) ++ idTag (c0 :: t0)).
    destruct (exec_ID_appended (c :: s) (c0 :: t0) Ex) as [En | [v [Ev Hv]]].
    + rewrite En. destruct (IH eq_refl) as [o [ls [Y [Hs Hg]]]].
      rewrite Hs. exists (S o), ls, Y. split; [reflexivity|exact Hg].
    + assert (Hw : (c :: s) ++ idTag (c0 :: t0)
                   = L "[id::" ++ (v ++ L " [id::" ++ c0 :: t0) ++ 93%N :: []).
      { rewrite Ev. unfold idTag. rewrite <- !app_assoc. reflexivity. }
      assert (Htok : Forall (fun c => not_rbracket c = true)
                       (v ++ L " [id::" ++ c0 :: t0)).
      { apply Forall_app. split; [exact Hv|].
        apply Forall_app. split; [repeat constructor|exact Hid]. }
      destruct (v ++ L " [id::" ++ c0 :: t0) as [|d r] eqn:Et.
      { destruct v; discriminate. }
      rewrite Hw, (exec_ID_token d r [] Htok).
      exists 0, [5; 1; length r; 1], (v ++ L " [id::").
      split; [reflexivity|].
      transitivity (d :: r); [|now rewrite <- Et, <- app_assoc].
      unfold group, total. simpl. f_equal.
      rewrite firstn_app_len. simpl. apply app_nil_r.
Qed.

Lemma trimStart_keeps c s :
  In c s -> is_ws c = false -> In c (trimStart s).
Proof.
  intros Hin Hc. induction s as [|a s IH]; [contradiction|].
  cbn [trimStart]. destruct (is_ws a) eqn:Ea; [|exact Hin].
  destruct Hin as [->|Hin]; [congruence|now apply IH].
Qed.

Lemma trimEnd_keeps c s :
  In c s -> is_ws c = false -> In c (trimEnd s).
Proof.
  intros Hin Hc. destruct (trimEnd_prefix s) as [w [E Hw]].
  rewrite E in Hin. apply in_app_or in Hin. destruct Hin as [Hin|Hin]; [exact Hin|].
  rewrite Forall_forall in Hw. rewrite (Hw c Hin) in Hc. discriminate.
Qed.

Lemma truthy_trim c s :
  In c s -> is_ws c = false -> truthy (Some (trim s)) = true.
Proof.
  intros Hin Hc. unfold trim.
  pose proof (trimEnd_keeps c _ (trimStart_keeps c s Hin Hc) Hc) as H.
  destruct (trimEnd (trimStart s)); [contradiction|reflexivity].
Qed.

(** A line without an id tag has one after [addId], when the id has a
    visible character and no closing bracket. *)
Lemma addId_truthy line id c :
  search ID_PATTERN line = None ->
  In c id -> is_ws c = false ->
  Forall (fun c => not_rbracket c = true) id ->
  truthy (extractId (addId line id)) = true.
Proof.
  intros Hs Hin Hc Hid.
  assert (Hno : extractId line = None)
    by (unfold extractId, capture1; now rewrite Hs).
  unfold addId. rewrite Hno. cbn [truthy].
  change (L " [id::" ++ id ++ L "]") with (idTag id).
  assert (Ht : search ID_PATTERN (trimEnd line) = None).
  { destruct (trimEnd_prefix line) as [w [E _]].
    destruct (search ID_PATTERN (trimEnd line)) as [[i ls]|] eqn:Et;
      [|reflexivity].
    apply (search_ID_app _ w) in Et. rewrite <- E in Et. congruence. }
  assert (Hne : id <> []) by (intros ->; contradiction).
  destruct (search_ID_appended id Hne Hid (trimEnd line) Ht)
    as [o [ls [Y [Hf Hg]]]].
  unfold extractId, capture1. rewrite Hf, Hg. cbn [option_map].
  apply (truthy_trim c); [|exact Hc]. apply in_or_app. now right.
Qed.

Lemma chars_visible c :
  In c chars -> is_ws c = false /\ not_rbracket c = true.
Proof.
  intros H. vm_compute in H.
  repeat (destruct H as [H|H]; [subst c; split; reflexivity|]).
  contradiction.
Qed.

(** The lines [processContent] passes over. *)
Definition settled (line : jsstring) : Prop :=
  isCalendarEvent line = true \/ isTask line = false \/
  truthy (extractId line) = true.

Lemma processLine_settled settings rnd line k :
  settled line -> processLine settings rnd line k = (line, k).
Proof.
  unfold processLine. intros [H | [H | H]]; rewrite H; try reflexivity.
  - now destruct (isCalendarEvent line).
  - destruct (isCalendarEvent line); [reflexivity|].
    now destruct (isTask line).
Qed.

Lemma processLines_settled settings rnd lines :
  Forall settled lines ->
  forall k, processLines settings rnd lines k = lines.
Proof.
  induction 1 as [|l ls Hl Hls IH]; intros k; [reflexivity|].
  cbn [processLines]. rewrite (processLine_settled _ _ _ _ Hl).
  now rewrite IH.
Qed.

Lemma processLine_settles settings rnd line k :
  1 <= idLength settings ->
  Forall (fun c => not_rbracket c = true) (idPrefix settings) ->
  (isTask line = true -> extractId line <> Some []) ->
  settled (fst (processLine settings rnd line k)).
Proof.
  intros Hlen Hp Hb. unfold processLine.
  destruct (isCalendarEvent line) eqn:Ec; [now left|].
  destruct (isTask line) eqn:Et; [|right; now left].
  destruct (truthy (extractId line)) eqn:Ei; cbn [negb];
    [right; right; exact Ei|].
  unfold generateId.
  destruct (generateId_loop_spec rnd (idLength settings) k (idPrefix settings))
    as [tail [E [Hl Hf]]].
  rewrite E. cbn [fst]. right. right.
  assert (Hs : search ID_PATTERN line = None).
  { unfold extractId, capture1 in Ei, Hb.
    destruct (search ID_PATTERN line) as [[o ls]|]; [|reflexivity].
    cbn [option_map] in Ei, Hb. exfalso. apply (Hb eq_refl).
    destruct (trim (group o ls 1 2 line)); [reflexivity|discriminate]. }
  destruct tail as [|c tail]; [simpl in Hl; lia|].
  inversion Hf as [|? ? Hc Htail]; subst.
  destruct (chars_visible c Hc) as [Hw _].
  apply (addId_truthy line _ c Hs); [apply in_or_app; right; now left|exact Hw|].
  apply Forall_app. split; [exact Hp|].
  eapply Forall_impl; [|exact Hf]. intros a Ha. now apply chars_visible.
Qed.

Lemma processLines_settles settings rnd lines :
  1 <= idLength settings ->
  Forall (fun c => not_rbracket c = true) (idPrefix settings) ->
  (forall line, In line lines -> isTask line = true ->
                extractId line <> Some []) ->
  forall k, Forall settled (processLines settings rnd lines k).
Proof.
  intros Hlen Hp. induction lines as [|l ls IH]; intros Hb k;
    [constructor|].
  cbn [processLines].
  pose proof (processLine_settles settings rnd l k Hlen Hp
                (Hb l (or_introl eq_refl))) as Hl.
  destruct (processLine settings rnd l k) as [l' k']. constructor.
  - exact Hl.
  - apply IH. intros line Hin. apply Hb. now right.
Qed.

(** X16.  Assigning ids is idempotent where it can be: with an id length
    of at least 1 and a prefix without closing bracket and line break, on a
    text in which no task line carries an id tag with a blank token, a
    second run of [processContent] changes nothing, whatever the random
    numbers of the two runs. *)
Theorem processContent_twice :
  forall settings rnd rnd' content,
    1 <= idLength settings ->
    Forall (fun c => not_rbracket c = true) (idPrefix settings) ->
    no_nl (idPrefix settings) ->
    (forall line, In line (split_lines content) -> isTask line = true ->
                  extractId line <> Some []) ->
    processContent settings rnd' (processContent settings rnd content)
    = processContent settings rnd content.
Proof.
  intros settings rnd rnd' content Hlen Hp Hnl Hb.
  unfold processContent at 1.
  assert (Hsplit : split_lines (processContent settings rnd content)
                   = processLines settings rnd (split_lines content) 0).
  { unfold processContent. apply split_join_lines.
    - intros E. apply (f_equal (@length _)) in E.
      rewrite processLines_length in E.
      destruct (split_lines content) eqn:El;
        [now apply split_lines_nonempty in El|discriminate].
    - apply processLines_no_nl; [exact Hnl|apply split_lines_no_nl]. }
  rewrite Hsplit, processLines_settled; [reflexivity|].
  now apply processLines_settles.
Qed.

Lemma processContent_twice_witness :
  processContent DEFAULT_SETTINGS (fun _ => 0)
    (processContent DEFAULT_SETTINGS (fun n => n)
       (L "# Day" ++ NL ++ L "- [ ] Buy milk  " ++ NL ++ L "- [x] Done [id::t-1]"))
  = processContent DEFAULT_SETTINGS (fun n => n)
      (L "# Day" ++ NL ++ L "- [ ] Buy milk  " ++ NL ++ L "- [x] Done [id::t-1]").
Proof.
  apply processContent_twice.
  - vm_compute. lia.
  - vm_compute. repeat constructor.
  - vm_compute. repeat constructor.
  - intros line Hin _. vm_compute in Hin.
    destruct Hin as [<-|[<-|[<-|[]]]]; vm_compute; discriminate.
Defined.

End IdAssignerTwice.

(* ------------------------------------------------------------------ *)
(** ** Linking subtasks to their parent *)
(* ------------------------------------------------------------------ *)

Section Linker.
Import TaskUtils ParentChildLinker.

(** The tag that [addParentId] appends. *)
Definition parentTag (id : jsstring) : jsstring :=
  L " [parent::" ++ id ++ L "]".

Lemma addParentId_append line id :
  truthy (extractParentId line) = false ->
  addParentId line id = trimEnd line ++ parentTag id.
Proof.
  unfold addParentId. destruct (extractParentId line) as [[|c t]|];
    [reflexivity|discriminate|reflexivity].
Qed.



Lemma linkLines_app pre rest cur :
  exists cur',
    linkLines (pre ++ rest) cur = linkLines pre cur ++ linkLines rest cur'.
Proof.
  revert cur. induction pre as [|l pre IH]; intros cur.
  - exists cur. reflexivity.
  - cbn [app linkLines]. destruct (linkLine l cur) as [l' cur1].
    destruct (IH cur1) as [cur' E]. exists cur'. now rewrite E.
Qed.




(** *** addParentId, extractParentId, removeParentId *)

Lemma search_needs_op op tl s :
  includes op s = false -> search (Lit op :: tl) s = None.
Proof.
  induction s as [|c s IH]; intros H.
  - apply includes_head in H. simpl. now rewrite H.
  - apply includes_cons in H. destruct H as [Hc Hs].
    rewrite search_next by (cbn [exec]; now rewrite Hc).
    now rewrite (IH Hs).
Qed.

(** X18.  On a line without the text [[parent::], a parent id that is
    not empty, has no closing bracket and no white space at its ends is
    written by [addParentId] so that [extractParentId] reads it back, and
    [removeParentId] then gives the line as it was, trimmed at the end. *)
Theorem addParentId_round_trip :
  forall line id,
    includes (L "[parent::") line = false ->
    id <> [] -> Forall (fun c => not_rbracket c = true) id -> trim id = id ->
    extractParentId (addParentId line id) = Some id /\
    removeParentId (addParentId line id) = trimEnd line.
Proof.
  intros line id Hinc Hne Hid Htrim.
  assert (Hnone : extractParentId line = None).
  { unfold extractParentId, capture1, PARENT_ID_PATTERN.
    now rewrite search_needs_op. }
  rewrite addParentId_append by now rewrite Hnone.
  assert (Hs : includes (L "[parent::") (trimEnd line) = false).
  { destruct (trimEnd_prefix line) as [w [E _]]. rewrite E in Hinc.
    exact (includes_prefix _ _ _ Hinc). }
  destruct id as [|c t]; [congruence|].
  assert (Hop : Forall (fun c => is_ws c = false) (L "[parent::"))
    by (repeat constructor).
  assert (Hop0 : L "[parent::" <> []) by discriminate.
  change (trimEnd line ++ parentTag (c :: t))
    with (trimEnd line ++ 32%N :: L "[parent::" ++ (c :: t) ++ 93%N :: []).
  split.
  - unfold extractParentId, capture1.
    change PARENT_ID_PATTERN with (tagRe (L "[parent::")).
    rewrite (search_fresh_tag (L "[parent::") Hop (trimEnd line) c t [] Hs Hid).
    rewrite group_fresh_tag. cbn [option_map]. f_equal. exact Htrim.
  - unfold removeParentId, remove_first.
    change [Star is_ws; Lit (L "[parent::"); One not_rbracket;
            Star not_rbracket; Lit (L "]")]
      with (Star is_ws :: tagRe (L "[parent::")).
    rewrite (search_ws_fresh_tag (L "[parent::") Hop0 Hop (trimEnd line) c t []
               (trimEnd_tight line) Hs Hid).
    rewrite <- (Nat.add_0_r (length (trimEnd line))) at 1.
    rewrite firstn_app_len. cbn [firstn]. rewrite app_nil_r.
    rewrite skipn_all2; [apply app_nil_r|].
    rewrite length_app. unfold total. simpl. rewrite length_app. simpl. lia.
Qed.

Lemma addParentId_round_trip_witness :
  extractParentId (addParentId (TAB ++ L "- [ ] Pack  ") (L "t-1"))
  = Some (L "t-1") /\
  removeParentId (addParentId (TAB ++ L "- [ ] Pack  ") (L "t-1"))
  = trimEnd (TAB ++ L "- [ ] Pack  ").
Proof.
  apply addParentId_round_trip.
  - reflexivity.
  - discriminate.
  - repeat constructor.
  - reflexivity.
Defined.

(** *** Headings *)

Lemma heading_not_task line :
  test_at HEADING_LINE line = true ->
  isParentTask line = false /\ isSubtask line = false.
Proof.
  unfold test_at, HEADING_LINE, isParentTask, isSubtask, PARENT_TASK_PATTERN,
    SUBTASK_PATTERN.
  destruct line as [|c line]; [discriminate|]. simpl.
  destruct (N.eqb_spec 35 c) as [E|_]; [|discriminate].
  subst c. intros _. split; reflexivity.
Qed.

(** X21.  A heading ends the reach of the task above it: the lines below
    a heading are linked as if the text began there, so a subtask that
    follows the heading, with no task in between, is left as it is. *)
Theorem linkContent_heading_resets :
  forall content pre heading rest,
    split_lines content = pre ++ heading :: rest ->
    test_at HEADING_LINE heading = true ->
    linkContent content
    = join_lines (linkLines pre None ++ heading :: linkLines rest None) /\
    forall sub rest',
      rest = sub :: rest' -> isSubtask sub = true ->
      linkLines rest None = sub :: linkLines rest' None.
Proof.
  intros content pre heading rest E Hh. split.
  - unfold linkContent. rewrite E. f_equal.
    destruct (linkLines_app pre (heading :: rest) None) as [cur ->].
    f_equal. cbn [linkLines]. unfold linkLine.
    destruct (heading_not_task heading Hh) as [-> ->]. now rewrite Hh.
  - intros sub rest' -> Hs. cbn [linkLines]. unfold linkLine.
    destruct (task_kinds sub) as [_ Hx]. rewrite Hs, andb_true_r in Hx.
    rewrite Hx, Hs. now destruct (negb (truthy (extractParentId sub))).
Qed.

Lemma linkContent_heading_resets_witness :
  linkContent (L "- [ ] Trip [id::t-1]" ++ NL ++ L "# Later" ++ NL
               ++ TAB ++ L "- [ ] Pack")
  = join_lines (linkLines [L "- [ ] Trip [id::t-1]"] None
                ++ L "# Later" :: linkLines [TAB ++ L "- [ ] Pack"] None) /\
  forall sub rest',
    [TAB ++ L "- [ ] Pack"] = sub :: rest' -> isSubtask sub = true ->
    linkLines [TAB ++ L "- [ ] Pack"] None = sub :: linkLines rest' None.
Proof.
  apply linkContent_heading_resets.
  - reflexivity.
  - reflexivity.
Defined.

End Linker.

(* ------------------------------------------------------------------ *)
(** ** Sorting by time block *)
(* ------------------------------------------------------------------ *)

Section TimeBlockOrder.
Import TaskUtils TimeBlockSorter.

Lemma insert_sorted_perm (A : Type) (cmp : A -> A -> sign) x l :
  Permutation (insert_sorted cmp x l) (x :: l).
Proof.
  induction l as [|y l IH]; simpl; [reflexivity|].
  destruct (cmp x y); try reflexivity.
  rewrite IH. apply perm_swap.
Qed.

Lemma js_sort_perm (A : Type) (cmp : A -> A -> sign) l :
  Permutation (js_sort cmp l) l.
Proof.
  induction l as [|x l IH]; simpl; [reflexivity|].
  rewrite insert_sorted_perm. now constructor.
Qed.

(** The order of the comparator: by start, then by end. *)
Definition earlier (a b : Scheduled) : Prop :=
  startMinutes a < startMinutes b \/
  (startMinutes a = startMinutes b /\ endMinutes a <= endMinutes b).

Lemma compare_items_earlier a b :
  before_eq Scheduled compare_items a b <-> earlier a b.
Proof.
  unfold before_eq, compare_items, earlier, sub_sign.
  destruct (Nat.eqb_spec (startMinutes a) (startMinutes b)) as [E|E];
    cbn [negb];
    repeat match goal with
      | |- context [?x <? ?y] => destruct (Nat.ltb_spec x y)
      end; split; intros Hab; try congruence; try lia;
    try (exfalso; now apply Hab).
Qed.

Lemma sorted_earlier l :
  StronglySorted earlier (js_sort compare_items l).
Proof.
  assert (H : StronglySorted (before_eq Scheduled compare_items)
                (js_sort compare_items l)).
  { apply (js_sort_sorted Scheduled compare_items (fun _ => True)).
    - intros x y _ _ H. apply compare_items_earlier.
      assert (Hn : ~ earlier x y).
      { intros Hx. apply compare_items_earlier in Hx. now apply Hx. }
      unfold earlier in *. lia.
    - intros x y z _ _ _ Hxy Hyz. apply compare_items_earlier.
      apply compare_items_earlier in Hxy, Hyz. unfold earlier in *. lia.
    - rewrite Forall_forall. auto. }
  induction H as [|x s Hs IH Hx]; constructor; [exact IH|].
  eapply Forall_impl; [|exact Hx]. intros y. apply compare_items_earlier.
Qed.

(** The time block a line shows, in minutes of the day. *)
Definition timeOf (l : jsstring) : option (nat * nat) :=
  match exec TIME_PATTERN l with
  | Some ls =>
      Some (parseInt (group 0 ls 5 2 l) * 60 + parseInt (group 0 ls 8 2 l),
            parseInt (group 0 ls 13 2 l) * 60 + parseInt (group 0 ls 16 2 l))
  | None => None
  end.

(** The lines of the archived callout. *)
Definition archive_ok (l : jsstring) : Prop :=
  test_at TaskArchiver.ARCHIVE_CALLOUT_START l = true \/ test_at TaskArchiver.ARCHIVE_LINE l = true \/
  trim l = [].

Section Invariant.
Variable lines : list jsstring.

Definition item_ok (it : Item) : Prop :=
  In (line it) lines /\
  (isParentTask (line it) = true \/ isCalendarEvent (line it) = true) /\
  Forall (fun l => In l lines /\ isSubtask l = true) (subtasks it).

Definition scan_ok (s : Arrays) : Prop :=
  Forall (fun x => item_ok (item x) /\
                   timeOf (line (item x))
                   = Some (startMinutes x, endMinutes x))
    (scheduledItems s) /\
  Forall (fun it => item_ok it /\ timeOf (line it) = None)
    (unscheduledItems s) /\
  Forall (fun l => In l lines /\ archive_ok l) (archivedSection s).

Lemma collect_spec parentId ls :
  exists taken,
    ls = taken ++ snd (collect parentId ls) /\
    Forall (fun l => isSubtask l = true) taken /\
    incl (fst (collect parentId ls)) taken.
Proof.
  induction ls as [|l ls [taken [E [Ht Hi]]]].
  - exists []. repeat split; [constructor|intros x []].
  - cbn [collect]. destruct (isSubtask l) eqn:Hl.
    + destruct (collect parentId ls) as [subs rest'] eqn:Ec. cbn [fst snd] in *.
      exists (l :: taken).
      destruct (negb (truthy (extractParentId l))
                || TaskSorter.id_eqb (extractParentId l) parentId);
        cbn [fst snd]; (split; [now rewrite E at 1|]);
        (split; [now constructor|]).
      * intros x [<-|Hx]; [now left|right; now apply Hi].
      * intros x Hx. right. now apply Hi.
    + exists []. repeat split; [constructor|intros x []].
Qed.

Lemma push_archived_ok l s :
  In l lines -> archive_ok l -> scan_ok s -> scan_ok (push_archived l s).
Proof.
  intros Hl Ha [H1 [H2 H3]]. unfold push_archived. repeat split; cbn; auto.
  apply Forall_app. split; [exact H3|].
  constructor; [split; assumption|constructor].
Qed.

Lemma push_item_ok l subs s :
  In l lines -> isParentTask l = true \/ isCalendarEvent l = true ->
  Forall (fun x => In x lines /\ isSubtask x = true) subs ->
  scan_ok s -> scan_ok (push_item l subs s).
Proof.
  intros Hl Hk Hs [H1 [H2 H3]]. unfold push_item.
  assert (Hit : item_ok {| line := l; subtasks := subs;
                           isEvent := isCalendarEvent l |})
    by (repeat split; assumption).
  destruct (exec TIME_PATTERN l) as [ls|] eqn:E; repeat split; cbn; auto.
  - apply Forall_app. split; [exact H1|].
    constructor; [|constructor]. cbn. split; [exact Hit|].
    unfold timeOf. now rewrite E.
  - apply Forall_app. split; [exact H2|].
    constructor; [|constructor]. cbn. split; [exact Hit|].
    unfold timeOf. now rewrite E.
Qed.

Lemma scan_scan_ok fuel : forall ls b s,
  incl ls lines -> scan_ok s -> scan_ok (scan fuel ls b s).
Proof.
  induction fuel as [|fuel IH]; intros ls b s Hi Hs; [exact Hs|].
  destruct ls as [|l rest]; [exact Hs|]. cbn [scan].
  assert (Hl : In l lines) by (apply Hi; now left).
  assert (Hr : incl rest lines) by (intros x Hx; apply Hi; now right).
  destruct (test_at TaskArchiver.ARCHIVE_CALLOUT_START l) eqn:Ec.
  { apply IH; [exact Hr|]. apply push_archived_ok; [exact Hl| |exact Hs].
    now left. }
  destruct (b && (test_at TaskArchiver.ARCHIVE_LINE l || str_eqb (trim l) [])) eqn:Ea.
  { apply IH; [exact Hr|]. apply push_archived_ok; [exact Hl| |exact Hs].
    apply andb_true_iff in Ea. destruct Ea as [_ Ea].
    apply orb_true_iff in Ea. destruct Ea as [Ea|Ea].
    - right. now left.
    - right. right. now apply str_eqb_eq in Ea. }
  destruct (isParentTask l || isCalendarEvent l) eqn:Ek; [|now apply IH].
  apply orb_true_iff in Ek.
  destruct (isParentTask l) eqn:Ep.
  - destruct (collect_spec (extractId l) rest) as [taken [E [Ht Hsub]]].
    destruct (collect (extractId l) rest) as [subs rest'].
    cbn [fst snd] in *. apply IH.
    + intros x Hx. apply Hr. rewrite E. apply in_or_app. now right.
    + apply push_item_ok; [exact Hl|now left| |exact Hs].
      rewrite Forall_forall. intros x Hx.
      apply Hsub in Hx. split.
      * apply Hr. rewrite E. apply in_or_app. now left.
      * rewrite Forall_forall in Ht. now apply Ht.
  - apply IH; [exact Hr|].
    apply push_item_ok; [exact Hl| |constructor|exact Hs].
    destruct Ek as [Ek|Ek]; [discriminate|now right].
Qed.

End Invariant.

Lemma arrays0_ok lines : scan_ok lines arrays0.
Proof. repeat split; constructor. Qed.

(** *** The lines of the output *)

(** The lines of the items. *)
Definition item_lines (s : Arrays) : list jsstring :=
  map (fun x => line (item x)) (scheduledItems s)
  ++ map line (unscheduledItems s).

Lemma push_archived_lines l s :
  item_lines (push_archived l s) = item_lines s.
Proof. reflexivity. Qed.

Lemma push_item_lines l subs s x :
  In x (item_lines (push_item l subs s)) <-> In x (item_lines s) \/ x = l.
Proof.
  unfold push_item, item_lines.
  destruct (exec TIME_PATTERN l); cbn [scheduledItems unscheduledItems];
    rewrite ?map_app, !in_app_iff; cbn; intuition congruence.
Qed.

Lemma parent_not_archive l :
  isParentTask l = true ->
  test_at TaskArchiver.ARCHIVE_CALLOUT_START l = false /\
  test_at TaskArchiver.ARCHIVE_LINE l = false /\ str_eqb (trim l) [] = false.
Proof.
  intros H. destruct (isParentTask_inv l H) as [m [rest [-> Hm]]].
  destruct (parent_tests m rest Hm) as [H1 [H2 _]].
  split; [exact H1|]. split; [exact H2|].
  assert (Ht : truthy (Some (trim (L "- [" ++ m :: L "]" ++ rest))) = true).
  { apply (truthy_trim 45%N); [now left|reflexivity]. }
  destruct (trim (L "- [" ++ m :: L "]" ++ rest)); [discriminate|reflexivity].
Qed.

Lemma scan_keeps fuel : forall ls b s x,
  length ls <= fuel ->
  In x (item_lines s) \/ (In x ls /\ isParentTask x = true) ->
  In x (item_lines (scan fuel ls b s)).
Proof.
  induction fuel as [|fuel IH]; intros ls b s x Hf Hx.
  - destruct ls; [|simpl in Hf; lia].
    destruct Hx as [Hx|[[] _]]. exact Hx.
  - destruct ls as [|l rest]; [destruct Hx as [Hx|[[] _]]; exact Hx|].
    cbn [length] in Hf. cbn [scan].
    assert (Hcase : In x (item_lines s) \/ (x = l /\ isParentTask l = true) \/
                    (In x rest /\ isParentTask x = true)).
    { destruct Hx as [Hx|[[->|Hx] Hp]]; auto. }
    clear Hx.
    destruct (test_at TaskArchiver.ARCHIVE_CALLOUT_START l) eqn:Ec.
    { apply IH; [lia|]. rewrite push_archived_lines.
      destruct Hcase as [H|[[_ H]|H]]; auto.
      apply parent_not_archive in H. destruct H as [H _]. congruence. }
    destruct (b && (test_at TaskArchiver.ARCHIVE_LINE l || str_eqb (trim l) [])) eqn:Ea.
    { apply IH; [lia|]. rewrite push_archived_lines.
      destruct Hcase as [H|[[_ H]|H]]; auto.
      apply parent_not_archive in H. destruct H as [_ [H1 H2]].
      rewrite H1, H2, andb_false_r in Ea. discriminate. }
    destruct (isParentTask l) eqn:Ep; cbn [orb].
    + destruct (collect_spec (extractId l) rest) as [taken [E [Ht _]]].
      destruct (collect (extractId l) rest) as [subs rest'].
      cbn [fst snd] in *. apply IH.
      * rewrite E, length_app in Hf. lia.
      * destruct Hcase as [H|[[-> _]|[H Hp]]].
        -- left. apply push_item_lines. now left.
        -- left. apply push_item_lines. now right.
        -- right. split; [|exact Hp]. rewrite E in H.
           apply in_app_or in H. destruct H as [H|H]; [|exact H].
           rewrite Forall_forall in Ht. specialize (Ht x H).
           destruct (task_kinds x) as [_ Hk]. rewrite Hp, Ht in Hk.
           discriminate.
    + destruct Hcase as [H|[[_ H]|H]]; [| discriminate |].
      * destruct (isCalendarEvent l); apply IH; try lia; left;
          [apply push_item_lines; now left|exact H].
      * destruct (isCalendarEvent l); apply IH; try lia; now right.
Qed.

Lemma In_buildResult_items s x :
  In x (item_lines s) -> In x (buildResult s).
Proof.
  unfold item_lines, buildResult. intros H. apply in_app_or in H.
  destruct H as [H|H].
  - apply in_or_app. left. apply in_map_iff in H. destruct H as [y [<- Hy]].
    apply in_flat_map. exists y. split; [|now left].
    now apply (Permutation_in _ (Permutation_sym (js_sort_perm _ compare_items _))).
  - apply in_or_app. right. apply in_or_app. right. apply in_or_app. left.
    apply in_map_iff in H. destruct H as [y [<- Hy]].
    apply in_flat_map. exists y. split; [exact Hy|now left].
Qed.

(** What a line of the output can be. *)
Definition kept_kind (l : jsstring) : Prop :=
  isParentTask l = true \/ isCalendarEvent l = true \/ isSubtask l = true \/
  archive_ok l.

Lemma In_buildResult_ok lines s x :
  scan_ok lines s -> In x (buildResult s) -> x = [] \/ (In x lines /\ kept_kind x).
Proof.
  intros [H1 [H2 H3]] H. unfold buildResult in H.
  assert (Hitem : forall it, item_ok lines it -> In x (emitItem it) ->
                             In x lines /\ kept_kind x).
  { intros it [Hl [Hk Hs]] [<-|Hx].
    - split; [exact Hl|]. unfold kept_kind. tauto.
    - rewrite Forall_forall in Hs. destruct (Hs x Hx) as [Ha Hb].
      split; [exact Ha|]. unfold kept_kind. tauto. }
  apply in_app_or in H. destruct H as [H|H].
  { right. apply in_flat_map in H. destruct H as [y [Hy Hx]].
    pose proof (js_sort_Forall _ compare_items _ _ H1) as Hall.
    rewrite Forall_forall in Hall. destruct (Hall y Hy) as [Hok _].
    exact (Hitem _ Hok Hx). }
  apply in_app_or in H. destruct H as [H|H].
  { left. destruct (unscheduledItems s); [contradiction|].
    destruct (js_sort compare_items (scheduledItems s)); [contradiction|].
    destruct H as [<-|[]]. reflexivity. }
  apply in_app_or in H. destruct H as [H|H].
  { right. apply in_flat_map in H. destruct H as [y [Hy Hx]].
    rewrite Forall_forall in H2. destruct (H2 y Hy) as [Hok _].
    exact (Hitem _ Hok Hx). }
  destruct (archivedSection s) as [|a r] eqn:Ea; [contradiction|].
  destruct H as [<-|H]; [now left|]. right.
  rewrite Forall_forall in H3. destruct (H3 x H) as [Hl Hk].
  split; [exact Hl|]. unfold kept_kind. tauto.
Qed.

(** X20.  The output of [sortByTimeBlock] keeps every top-level task line
    of the text, and holds nothing but empty lines and lines of the text
    that are top-level tasks, calendar events, subtasks or lines of an
    archived callout: headings and other text are dropped. *)
Theorem sortByTimeBlock_lines :
  forall content l,
    let lines := split_lines content in
    let out := sortLines lines in
    sortByTimeBlock content = join_lines out /\
    (In l lines -> isParentTask l = true -> In l out) /\
    (In l out ->
     l = [] \/
     (In l lines /\
      (isParentTask l = true \/ isCalendarEvent l = true \/
       isSubtask l = true \/ test_at TaskArchiver.ARCHIVE_CALLOUT_START l = true \/
       test_at TaskArchiver.ARCHIVE_LINE l = true \/ trim l = []))).
Proof.
  intros content l lines out. split; [reflexivity|]. split.
  - intros Hl Hp. apply In_buildResult_items. apply scan_keeps; [lia|].
    right. now split.
  - intros H.
    destruct (In_buildResult_ok lines _ l
                (scan_scan_ok lines (length lines) lines false arrays0
                   (incl_refl _) (arrays0_ok lines)) H) as [E|[Hl Hk]];
      [now left|right].
    split; [exact Hl|]. unfold kept_kind, archive_ok in Hk. tauto.
Qed.

End TimeBlockOrder.

(* ------------------------------------------------------------------ *)
(** ** The line of a calendar event *)
(* ------------------------------------------------------------------ *)

Section EventLine.
Import TaskUtils IcsEventSync.

Lemma starts_with_sep l sep v Y :
  ~ In sep l -> starts_with l v = false ->
  starts_with l (v ++ sep :: Y) = false.
Proof.
  revert v. induction l as [|a l IH]; intros v Hn H; [discriminate|].
  destruct v as [|c v]; cbn [app starts_with] in *.
  - destruct (N.eqb_spec a sep) as [->|_]; [|reflexivity].
    exfalso. apply Hn. now left.
  - destruct (N.eqb a c); [|reflexivity]. cbn [andb] in *.
    apply IH; [|exact H]. intros Hin. apply Hn. now right.
Qed.

(** Two texts without [op], joined by a character that [op] does not
    have, make a text without [op]. *)
Lemma includes_sep op sep a b :
  ~ In sep op -> includes op a = false -> includes op b = false ->
  includes op (a ++ sep :: b) = false.
Proof.
  intros Hn Ha Hb. induction a as [|c a IH].
  - cbn [app includes]. rewrite Hb, orb_false_r.
    exact (starts_with_sep op sep [] b Hn (includes_head _ _ Ha)).
  - apply includes_cons in Ha. destruct Ha as [Hc Ha].
    change ((c :: a) ++ sep :: b) with (c :: a ++ sep :: b).
    cbn [includes]. rewrite (IH Ha), orb_false_r.
    exact (starts_with_sep op sep (c :: a) b Hn Hc).
Qed.

(** A field that does not hold the text [op]. *)
Definition free (op : jsstring) (field : option jsstring) : Prop :=
  match field with
  | Some s => includes op s = false
  | None => True
  end.

Lemma or_else_free op a b :
  free op a -> includes op b = false -> includes op (or_else a b) = false.
Proof. destruct a as [[|c s]|]; simpl; auto. Qed.

Lemma add_field_free op f text :
  ~ In 32%N op -> free op f -> includes op text = false ->
  includes op (add_field f text) = false.
Proof.
  intros Hn Hf Ht. destruct f as [[|c s]|]; cbn [add_field]; auto.
  now apply includes_sep.
Qed.

(** The line up to the tag of the uid. *)
Definition eventHead (event : IcsEvent) : jsstring :=
  L "- [c] " ++ or_else (time event) (L "00:00") ++ L " - "
  ++ or_else (endTime event) (or_else (time event) (L "00:00")) ++ L " "
  ++ add_field (callUrl event)
       (add_field (location event)
          (or_else (summary event) (L "Untitled Event"))).

Definition eventUid (event : IcsEvent) : jsstring :=
  or_else (uid event) (L "fallback-" ++ utime event).

Lemma buildEventLine_shape event :
  buildEventLine event
  = (eventHead event ++ L " [uid::" ++ eventUid event ++ L "]")
    ++ match or_else (icsName event) [] with
       | _ :: _ => L " [calendar::" ++ or_else (icsName event) [] ++ L "]"
       | [] => []
       end.
Proof.
  unfold buildEventLine, eventHead, eventUid.
  destruct (or_else (icsName event) []);
    rewrite <- ?app_assoc; cbn [app]; rewrite ?app_nil_r;
    repeat (rewrite <- ?app_assoc; cbn [app]); reflexivity.
Qed.

Definition fields_free (op : jsstring) (event : IcsEvent) : Prop :=
  free op (time event) /\ free op (endTime event) /\
  free op (summary event) /\ free op (location event) /\
  free op (callUrl event).

Lemma eventHead_free op event :
  ~ In 32%N op -> includes op (L "00:00") = false ->
  includes op (L "Untitled Event") = false ->
  includes op (L "- [c]") = false -> includes op (L "-") = false ->
  fields_free op event -> includes op (eventHead event) = false.
Proof.
  intros Hn H0 Hu Hc Hd [Ht [He [Hs [Hl Hcu]]]]. unfold eventHead.
  change (L "- [c] " ++ or_else (time event) (L "00:00") ++ L " - "
          ++ or_else (endTime event) (or_else (time event) (L "00:00"))
          ++ L " " ++ add_field (callUrl event)
               (add_field (location event)
                  (or_else (summary event) (L "Untitled Event"))))
    with (L "- [c]" ++ 32%N :: or_else (time event) (L "00:00")
          ++ 32%N :: L "-" ++ 32%N
          :: or_else (endTime event) (or_else (time event) (L "00:00"))
          ++ 32%N :: add_field (callUrl event)
               (add_field (location event)
                  (or_else (summary event) (L "Untitled Event")))).
  assert (Hst : includes op (or_else (time event) (L "00:00")) = false)
    by now apply or_else_free.
  repeat (apply includes_sep; [exact Hn| |]); try assumption.
  - now apply or_else_free.
  - apply add_field_free; [exact Hn|exact Hcu|].
    apply add_field_free; [exact Hn|exact Hl|]. now apply or_else_free.
Qed.

(** X22.  The line [buildEventLine] writes for an event is a calendar
    event line, and [extractUid] reads from it the uid that was written,
    trimmed: the uid of the event, or the fallback made of its time stamp.
    The fields shown before the uid must not hold the text [[uid::], and
    the uid no closing bracket. *)
Theorem extractUid_buildEventLine :
  forall event,
    fields_free (L "[uid::") event ->
    Forall (fun c => not_rbracket c = true) (eventUid event) ->
    isCalendarEvent (buildEventLine event) = true /\
    extractUid (buildEventLine event) = Some (trim (eventUid event)).
Proof.
  intros event Hf Hu. split.
  - rewrite buildEventLine_shape. unfold eventHead. reflexivity.
  - assert (Hne : eventUid event <> []).
    { unfold eventUid, or_else. destruct (uid event) as [[|c s]|]; discriminate. }
    destruct (eventUid event) as [|c t] eqn:Eu; [congruence|].
    assert (Hh : includes (L "[uid::") (eventHead event) = false).
    { apply eventHead_free; try reflexivity; [|exact Hf].
      simpl. intros H. repeat (destruct H as [H|H]; [discriminate|]).
      exact H. }
    rewrite buildEventLine_shape, Eu.
    set (x := match or_else (icsName event) [] with
              | _ :: _ => L " [calendar::" ++ or_else (icsName event) [] ++ L "]"
              | [] => []
              end).
    replace ((eventHead event ++ L " [uid::" ++ (c :: t) ++ L "]") ++ x)
      with (eventHead event ++ 32%N :: L "[uid::" ++ (c :: t) ++ 93%N :: x)
      by (rewrite <- !app_assoc; reflexivity).
    unfold extractUid, capture1.
    change UID_PATTERN with (tagRe (L "[uid::")).
    rewrite (search_fresh_tag (L "[uid::")); [|repeat constructor|exact Hh|exact Hu].
    rewrite group_fresh_tag. reflexivity.
Qed.

Lemma extractUid_buildEventLine_witness :
  isCalendarEvent
    (buildEventLine
       {| uid := Some (L "abc@x"); time := Some (L "10:00"); endTime := None;
          summary := Some (L "Standup"); location := Some (L "Room 1");
          callUrl := None; utime := L "1700000000";
          icsName := Some (L "Work") |}) = true /\
  extractUid
    (buildEventLine
       {| uid := Some (L "abc@x"); time := Some (L "10:00"); endTime := None;
          summary := Some (L "Standup"); location := Some (L "Room 1");
          callUrl := None; utime := L "1700000000";
          icsName := Some (L "Work") |})
  = Some (trim (eventUid
       {| uid := Some (L "abc@x"); time := Some (L "10:00"); endTime := None;
          summary := Some (L "Standup"); location := Some (L "Room 1");
          callUrl := None; utime := L "1700000000";
          icsName := Some (L "Work") |})).
Proof.
  apply extractUid_buildEventLine.
  - repeat split; reflexivity.
  - repeat constructor.
Defined.

Lemma uidTag_free u :
  includes (L "[calendar::") u = false ->
  includes (L "[calendar::") (L "[uid::" ++ u ++ L "]") = false.
Proof.
  intros Hu.
  assert (Hn : ~ In 93%N (L "[calendar::")).
  { simpl. intros H. repeat (destruct H as [H|H]; [discriminate|]). exact H. }
  pose proof (includes_sep (L "[calendar::") 93%N u [] Hn Hu eq_refl) as H.
  change (L "[uid::" ++ u ++ L "]")
    with (91 :: 117 :: 105 :: 100 :: 58 :: 58 :: u ++ [93])%N.
  assert (Hstep : forall c s,
            starts_with (L "[calendar::") (c :: s) = false ->
            includes (L "[calendar::") s = false ->
            includes (L "[calendar::") (c :: s) = false).
  { intros c s H1 H2. cbn [includes]. now rewrite H1, H2. }
  do 6 (apply Hstep; [reflexivity|]). exact H.
Qed.

(** X23.  [extractCalendar] reads from the line of an event the name of
    its calendar, trimmed, and nothing when the event has no calendar
    name.  The fields shown and the uid must not hold the text
    [[calendar::], and the name no closing bracket. *)
Theorem extractCalendar_buildEventLine :
  forall event,
    fields_free (L "[calendar::") event ->
    includes (L "[calendar::") (eventUid event) = false ->
    Forall (fun c => not_rbracket c = true) (or_else (icsName event) []) ->
    extractCalendar (buildEventLine event)
    = match or_else (icsName event) [] with
      | [] => None
      | name => Some (trim name)
      end.
Proof.
  intros event Hf Hu Hn.
  assert (Hsp : ~ In 32%N (L "[calendar::")).
  { simpl. intros H. repeat (destruct H as [H|H]; [discriminate|]). exact H. }
  assert (Hh : includes (L "[calendar::")
                 (eventHead event ++ L " [uid::" ++ eventUid event ++ L "]")
               = false).
  { change (eventHead event ++ L " [uid::" ++ eventUid event ++ L "]")
      with (eventHead event ++ 32%N :: L "[uid::" ++ eventUid event ++ L "]").
    apply includes_sep; [exact Hsp| |now apply uidTag_free].
    apply eventHead_free; try reflexivity; [exact Hsp|exact Hf]. }
  rewrite buildEventLine_shape.
  destruct (or_else (icsName event) []) as [|c t].
  - rewrite app_nil_r. unfold extractCalendar, capture1, CALENDAR_PATTERN.
    now rewrite search_needs_op.
  - change (L " [calendar::" ++ (c :: t) ++ L "]")
      with (32%N :: L "[calendar::" ++ (c :: t) ++ 93%N :: []).
    unfold extractCalendar, capture1.
    change CALENDAR_PATTERN with (tagRe (L "[calendar::")).
    rewrite (search_fresh_tag (L "[calendar::"));
      [|repeat constructor|exact Hh|exact Hn].
    rewrite group_fresh_tag. reflexivity.
Qed.

Lemma extractCalendar_buildEventLine_witness :
  extractCalendar
    (buildEventLine
       {| uid := Some (L "abc@x"); time := Some (L "10:00"); endTime := None;
          summary := Some (L "Standup"); location := Some (L "Room 1");
          callUrl := None; utime := L "1700000000";
          icsName := Some (L "Work") |})
  = match or_else (icsName
       {| uid := Some (L "abc@x"); time := Some (L "10:00"); endTime := None;
          summary := Some (L "Standup"); location := Some (L "Room 1");
          callUrl := None; utime := L "1700000000";
          icsName := Some (L "Work") |}) [] with
    | [] => None
    | name => Some (trim name)
    end.
Proof.
  apply extractCalendar_buildEventLine.
  - repeat split; reflexivity.
  - reflexivity.
  - repeat constructor.
Defined.

End EventLine.

(* ------------------------------------------------------------------ *)
(** ** Normalizing a line that holds only a tag *)
(* ------------------------------------------------------------------ *)

Section NormalizeTwice.
Import TaskUtils.

Lemma match_len_prefix P rest :
  prefix_shape P -> head_not is_ws rest ->
  match_len PREFIX_PATTERN (P ++ rest) = Some (length P).
Proof.
  intros HP Hr. destruct (exec_prefix P rest HP Hr) as [ls [E [_ Hs]]].
  unfold match_len. rewrite E. cbn [option_map]. f_equal.
  pose proof (exec_bound _ _ _ E) as Hb.
  apply (f_equal (@length _)) in Hs. rewrite length_skipn, length_app in Hs.
  rewrite length_app in Hb. lia.
Qed.

Lemma includes_no_open o op s :
  Forall (fun c => c <> o) s -> includes (o :: op) s = false.
Proof.
  induction 1 as [|c s Hc Hs IH]; [reflexivity|].
  cbn [includes starts_with]. rewrite IH, orb_false_r.
  destruct (N.eqb_spec o c) as [->|_]; [congruence|reflexivity].
Qed.

(** The tag of an id without an opening bracket holds no other tag. *)
Lemma idTag_only x op id :
  x <> 105%N ->
  Forall (fun c => c <> 91%N) id ->
  includes (91%N :: x :: op) (L "[id::" ++ id ++ L "]") = false.
Proof.
  intros Hx Hid.
  change (L "[id::" ++ id ++ L "]")
    with (91%N :: (105 :: 100 :: 58 :: 58 :: id ++ [93])%N).
  cbn [includes]. rewrite includes_no_open.
  - rewrite orb_false_r. cbn [starts_with].
    destruct (N.eqb_spec x 105) as [->|_]; [congruence|].
    now rewrite andb_false_r.
  - repeat (constructor; [discriminate|]).
    apply Forall_app. split; [exact Hid|]. repeat constructor. discriminate.
Qed.

(** X24.  On a task line whose text is nothing but an id tag,
    [normalizeMetadataOrder] puts one more space before the tag, and the
    result is such a line again: every further run adds another space.
    The id has no bracket. *)
Theorem normalizeMetadataOrder_adds_space :
  forall P id,
    prefix_shape P -> id <> [] ->
    Forall (fun c => not_rbracket c = true) id ->
    Forall (fun c => c <> 91%N) id ->
    normalizeMetadataOrder (P ++ L "[id::" ++ id ++ L "]")
    = (P ++ L " ") ++ L "[id::" ++ id ++ L "]" /\
    prefix_shape (P ++ L " ").
Proof.
  intros P id HP Hne Hrb Hop. split.
  - set (tag := L "[id::" ++ id ++ L "]").
    assert (Hh : head_not is_ws tag) by reflexivity.
    unfold normalizeMetadataOrder.
    rewrite (prefix_is_task P tag HP), (match_len_prefix P tag HP Hh).
    cbn [negb].
    rewrite <- (Nat.add_0_r (length P)), firstn_app_len, skipn_app_len.
    cbn [firstn skipn]. rewrite app_nil_r.
    destruct id as [|c t]; [congruence|].
    assert (Hex : exec ID_PATTERN tag = Some [5; 1; length t; 1])
      by exact (exec_tag_token (L "[id::") c t [] Hrb).
    assert (Hid : capture1 ID_PATTERN tag = Some (c :: t)).
    { unfold capture1. rewrite (search_here _ _ _ Hex).
      unfold group, total, tag. simpl. do 2 f_equal.
      rewrite firstn_app_len. simpl. apply app_nil_r. }
    assert (Hno : forall x op tl,
              x <> 105%N ->
              search (Lit (91%N :: x :: op) :: tl) tag = None).
    { intros x op tl H. apply search_needs_op. now apply idTag_only. }
    assert (Hstrip : stripMetadata tag = []).
    { unfold stripMetadata.
      rewrite (replace_all_whole (Star is_ws :: ID_PATTERN) [] tag
                 [0; 5; 1; length t; 1]); [reflexivity| | |discriminate].
      - rewrite exec_star.
        exact (star_skip is_ws (exec ID_PATTERN) [] tag _
                 (Forall_nil _) Hh Hex).
      - unfold total, tag. simpl. rewrite length_app. simpl. lia. }
    rewrite Hid, Hstrip.
    unfold capture1, captureDate.
    change PARENT_ID_PATTERN
      with [Lit (91%N :: 112%N :: L "arent::"); One not_rbracket;
            Star not_rbracket; Lit (L "]")].
    change UID_PATTERN
      with [Lit (91%N :: 117%N :: L "id::"); One not_rbracket;
            Star not_rbracket; Lit (L "]")].
    change SCHEDULE_TO_PATTERN
      with (Lit (91%N :: 62%N :: []) :: Star is_ws :: DATE ++ [Lit (L "]")]).
    change SCHEDULE_FROM_PATTERN
      with (Lit (91%N :: 60%N :: []) :: Star is_ws :: DATE ++ [Lit (L "]")]).
    rewrite !Hno by discriminate.
    cbn [push_tag]. rewrite app_nil_r. cbn [app join].
    unfold tag. rewrite <- !app_assoc. reflexivity.
  - destruct HP as [tabs m w Ht Hm Hw].
    replace ((tabs ++ L "- [" ++ m :: L "]" ++ w) ++ L " ")
      with (tabs ++ L "- [" ++ m :: L "]" ++ (w ++ L " "))
      by (rewrite <- !app_assoc; reflexivity).
    constructor; [exact Ht|exact Hm|].
    apply Forall_app. split; [exact Hw|repeat constructor].
Qed.

Lemma normalizeMetadataOrder_adds_space_witness :
  normalizeMetadataOrder (L "- [ ] " ++ L "[id::" ++ L "t-1" ++ L "]")
  = (L "- [ ] " ++ L " ") ++ L "[id::" ++ L "t-1" ++ L "]" /\
  prefix_shape (L "- [ ] " ++ L " ").
Proof.
  apply normalizeMetadataOrder_adds_space.
  - change (L "- [ ] ") with ([] ++ L "- [" ++ 32%N :: L "]" ++ [32%N]).
    constructor; [constructor|reflexivity|repeat constructor].
  - discriminate.
  - repeat constructor.
  - repeat (constructor; [discriminate|]). constructor.
Defined.

End NormalizeTwice.

(* ------------------------------------------------------------------ *)
(** ** The sort key of a line with a time block *)
(* ------------------------------------------------------------------ *)

Section SortKeyOfBlock.
Import TaskUtils TimeblockUtils.

(** Where [addTimeblock] puts the block: after the checkbox of the
    line. *)
Lemma addTimeblock_shape line a b c d :
  isTask line = true -> fits a b c d ->
  exists P tail rest,
    line = P ++ tail /\ prefix_shape P /\ head_not is_ws rest /\
    addTimeblock line a b c d = P ++ blockText a b c d ++ rest.
Proof.
  intros Ht Hf. destruct (exec TIMEBLOCK line) as [ls|] eqn:E.
  - destruct (timeblock_inv line)
      as [P [B [rest [sh [sm [eh [em [-> [HP [HB Hr]]]]]]]]]]; [congruence|].
    exists P, (B ++ rest), rest. split; [reflexivity|].
    split; [exact HP|]. split; [exact Hr|].
    now apply (addTimeblock_block P B rest sh sm eh em).
  - destruct (task_prefix line Ht) as [P [rest [-> [HP Hr]]]].
    exists P, rest, rest. split; [reflexivity|].
    split; [exact HP|]. split; [exact Hr|].
    now apply addTimeblock_plain.
Qed.

(** X25.  On a top-level task the sort key reads the block that
    [addTimeblock] wrote: start and end in minutes of the day.  An
    indented line has no sort key, whatever it holds. *)
Theorem getTaskSortKey_addTimeblock :
  forall line a b c d,
    isParentTask line = true -> fits a b c d ->
    getTaskSortKey (addTimeblock line a b c d)
    = {| hasTime := true; start := Some (a * 60 + b);
         end_ := Some (c * 60 + d) |} /\
    forall sub, isSubtask sub = true ->
      getTaskSortKey sub
      = {| hasTime := false; start := None; end_ := None |}.
Proof.
  intros line a b c d Hp Hf. split.
  - assert (Ht : isTask line = true).
    { destruct (task_kinds line) as [E _]. rewrite E, Hp. reflexivity. }
    destruct (addTimeblock_shape line a b c d Ht Hf)
      as [P [tail [rest [El [HP [Hr ->]]]]]].
    destruct HP as [tabs m w Htabs Hm Hw].
    assert (tabs = []).
    { subst line. rewrite <- !app_assoc in Hp.
      unfold isParentTask, PARENT_TASK_PATTERN in Hp.
      rewrite parent_tabs in Hp; [|exact Htabs|reflexivity|discriminate].
      destruct tabs; [reflexivity|discriminate]. }
    subst tabs. cbn [app]. clear El Hp Ht Htabs.
    destruct Hf as [H1 [H2 [H3 H4]]].
    destruct (two_digits a H1) as [a1 [b1 [E1 [Ha1 [Hb1 P1]]]]].
    destruct (two_digits b H2) as [a2 [b2 [E2 [Ha2 [Hb2 P2]]]]].
    destruct (two_digits c H3) as [a3 [b3 [E3 [Ha3 [Hb3 P3]]]]].
    destruct (two_digits d H4) as [a4 [b4 [E4 [Ha4 [Hb4 P4]]]]].
    unfold blockText, formatTime. rewrite E1, E2, E3, E4.
    set (X := [a1; b1; 58; a2; b2; 32; 45; 32; a3; b3; 58; a4; b4; 32]%N
              ++ rest).
    match goal with
    | |- getTaskSortKey ?t = _ =>
        replace t with (L "- [" ++ m :: L "]" ++ w ++ X)
          by (unfold X; simpl; rewrite <- ?app_assoc; reflexivity)
    end.
    assert (Hex : exec TIMEBLOCK_PATTERN (L "- [" ++ m :: L "]" ++ w ++ X)
                  = Some [3; 1; 1; length w; 1; 1; 1; 1; 1; 3; 1; 1; 1; 1; 1]).
    { unfold TIMEBLOCK_PATTERN. rewrite exec_lit, exec_one, Hm.
      rewrite exec_lit, exec_star.
      erewrite star_skip; [reflexivity|exact Hw| |].
      - unfold X. cbn [app head_not]. now apply digit_not_ws.
      - unfold X. cbn [app]. rewrite !exec_one, Ha1, Hb1.
        rewrite (exec_lit1 58%N), !exec_one, Ha2, Hb2.
        change (32 :: 45 :: 32 :: a3 :: b3 :: 58 :: a4 :: b4 :: 32 :: rest)%N
          with (L " - " ++ (a3 :: b3 :: 58 :: a4 :: b4 :: 32 :: rest)%N).
        rewrite exec_lit, !exec_one, Ha3, Hb3.
        rewrite (exec_lit1 58%N), !exec_one, Ha4, Hb4. reflexivity. }
    unfold getTaskSortKey. rewrite Hex. unfold group, total, X.
    unfold parseInt2 in P1, P2, P3, P4.
    repeat first
      [ rewrite firstn_app_len | rewrite skipn_app_len
      | progress cbn -[Nat.mul] | rewrite app_nil_r ].
    rewrite P1, P2, P3, P4. reflexivity.
  - intros sub Hs. unfold getTaskSortKey.
    replace (exec TIMEBLOCK_PATTERN sub) with (@None (list nat)); [reflexivity|].
    unfold isSubtask, test_at, SUBTASK_PATTERN in Hs.
    destruct sub as [|x sub]; [discriminate|]. rewrite exec_one in Hs.
    destruct (is_tab x) eqn:Ex; [|discriminate].
    apply N.eqb_eq in Ex. subst x. reflexivity.
Qed.

Lemma getTaskSortKey_addTimeblock_witness :
  getTaskSortKey (addTimeblock (L "- [ ] Write report") 9 30 10 0)
  = {| hasTime := true; start := Some (9 * 60 + 30);
       end_ := Some (10 * 60 + 0) |} /\
  forall sub, isSubtask sub = true ->
    getTaskSortKey sub = {| hasTime := false; start := None; end_ := None |}.
Proof.
  apply getTaskSortKey_addTimeblock.
  - reflexivity.
  - unfold fits. lia.
Defined.

End SortKeyOfBlock.

(* ------------------------------------------------------------------ *)
(** ** The files the scheduler writes *)
(* ------------------------------------------------------------------ *)

Section SchedulerVault.
Import TaskUtils TaskScheduler.

Lemma getOrCreate_keeps tp d w p f :
  getAbstractFileByPath (vault w) p = Some f ->
  getAbstractFileByPath (vault (fst (getOrCreate tp d w))) p = Some f.
Proof.
  intros H. unfold getOrCreate.
  destruct (getAbstractFileByPath (vault w) tp); [exact H|].
  cbn [fst Notice set_vault vault]. unfold create.
  apply get_app_some.
  match goal with
  | |- getAbstractFileByPath (match ?e with Some _ => _ | None => _ end) _ = _ =>
      destruct e; [exact H|]
  end.
  unfold createFolder. now apply get_app_some.
Qed.

(** X27.  [unscheduleTask] writes to two files at most, the daily note
    of the date the line is scheduled to and the note of the task: every
    other path of the vault holds afterwards what it held. *)
Theorem unscheduleTask_other_files :
  forall settings w n r w' line p,
    unscheduleTask settings w n = Some (r, w') ->
    nth_error (editor w) n = Some line ->
    (forall date, extractScheduledToDate line = Some date ->
                  p <> getDailyNotePath date settings) ->
    notePathOf settings line <> Some p ->
    getAbstractFileByPath (vault w') p = getAbstractFileByPath (vault w) p.
Proof.
  intros settings w n r w' line p H Hl Hp Hn.
  unfold unscheduleTask in H. rewrite Hl in H.
  destruct (negb (isTask line)); [injection H as <- <-; reflexivity|].
  destruct (negb (truthy (extractScheduledToDate line))
            && negb (isScheduledAway line));
    [injection H as <- <-; reflexivity|].
  injection H as <- <-. cbn [Notice vault].
  set (e1 := firstn n (editor w) ++ _).
  set (w2 := match extractScheduledToDate line, extractId line with
             | Some (_ :: _ as date), Some (_ :: _ as id) => _
             | _, _ => _
             end).
  assert (H2 : getAbstractFileByPath (vault w2) p
               = getAbstractFileByPath (vault w) p).
  { unfold w2. destruct (extractScheduledToDate line) as [[|d0 dt]|];
      try reflexivity.
    destruct (extractId line) as [[|i0 it]|]; try reflexivity.
    cbn [set_editor vault].
    destruct (getAbstractFileByPath (vault w) _) as [[c|]|]; try reflexivity.
    destruct (removeTaskRun _ _); [|reflexivity].
    cbn [set_vault vault]. apply get_modify_other.
    intros E. apply (Hp (d0 :: dt) eq_refl). now rewrite E. }
  unfold notePathOf in Hn.
  destruct (TaskNoteManager.extractTaskTextFromLine line) as [[|t0 t]|];
    try exact H2.
  destruct (activeFile w) as [af|]; [|exact H2].
  destruct (path af); [exact H2|].
  cbn [set_vault vault]. unfold updateTaskNoteForUnschedule.
  rewrite updateNote_other by exact Hn. exact H2.
Qed.

Lemma unscheduleTask_other_files_witness :
  exists w',
    unscheduleTask DEFAULT_SETTINGS
      {| vault := [(L "00 - Daily", TFolder);
                   (L "00 - Daily/2025-01-12.md",
                    TFile (L "- [ ] Call [id::t-1] [< 2025-01-10]"));
                   (L "Notes/a.md", TFile (L "text"))];
         editor := [L "- [>] Call [id::t-1] [> 2025-01-12]"];
         activeFile := Some {| path := L "00 - Daily/2025-01-10.md";
                               basename := L "2025-01-10" |};
         today := L "2025-01-10"; notices := [] |}
      0 = Some (true, w') /\
    getAbstractFileByPath (vault w') (L "Notes/a.md")
    = getAbstractFileByPath
        [(L "00 - Daily", TFolder);
         (L "00 - Daily/2025-01-12.md",
          TFile (L "- [ ] Call [id::t-1] [< 2025-01-10]"));
         (L "Notes/a.md", TFile (L "text"))]
        (L "Notes/a.md").
Proof.
  eexists. split; [vm_compute; reflexivity|].
  apply (unscheduleTask_other_files DEFAULT_SETTINGS
           {| vault := [(L "00 - Daily", TFolder);
                        (L "00 - Daily/2025-01-12.md",
                         TFile (L "- [ ] Call [id::t-1] [< 2025-01-10]"));
                        (L "Notes/a.md", TFile (L "text"))];
              editor := [L "- [>] Call [id::t-1] [> 2025-01-12]"];
              activeFile := Some {| path := L "00 - Daily/2025-01-10.md";
                                    basename := L "2025-01-10" |};
              today := L "2025-01-10"; notices := [] |}
           0 true _ (L "- [>] Call [id::t-1] [> 2025-01-12]")).
  - vm_compute. reflexivity.
  - reflexivity.
  - intros date H. vm_compute in H. injection H as <-.
    vm_compute. discriminate.
  - vm_compute. discriminate.
Defined.

End SchedulerVault.

(* ------------------------------------------------------------------ *)
(** ** Blank lines collapsed *)
(* ------------------------------------------------------------------ *)

Section BlankLines.
Import TaskScheduler.

(** The pattern of three or more line breaks, and its replacement. *)
Definition BREAKS : regex := [One is_nl; One is_nl; One is_nl; Star is_nl].
Definition collapse (s : jsstring) : jsstring :=
  replace_all BREAKS [10; 10]%N s.

(** Three line breaks in a row. *)
Definition NNN : jsstring := [10; 10; 10]%N.

Lemma replace_skip_app re rep a b :
  replace_all_from re rep (length a) (a ++ b) = replace_all_from re rep 0 b.
Proof.
  induction a as [|c a IH]; [reflexivity|]. exact IH.
Qed.

Lemma is_nl_eq c : is_nl c = true -> c = 10%N.
Proof. apply N.eqb_eq. Qed.

Lemma exec_breaks w rest :
  Forall (fun c => is_nl c = true) w -> head_not is_nl rest ->
  exec BREAKS (w ++ rest)
  = match w with
    | _ :: _ :: _ :: w' => Some [1; 1; 1; length w']
    | _ => None
    end.
Proof.
  intros Hw Hr. unfold BREAKS.
  assert (Hnone : forall re, exec (One is_nl :: re) rest = None).
  { intros re. destruct rest as [|c rest]; [reflexivity|].
    cbn [head_not] in Hr. now rewrite exec_one, Hr. }
  destruct Hw as [|a w Ha Hw]; [apply Hnone|].
  cbn [app]. rewrite exec_one, Ha.
  destruct Hw as [|b w Hb Hw]; [cbn [app]; now rewrite Hnone|].
  cbn [app]. rewrite exec_one, Hb.
  destruct Hw as [|c w Hc Hw]; [cbn [app]; now rewrite Hnone|].
  cbn [app]. rewrite exec_one, Hc, exec_star.
  rewrite (star_skip is_nl (exec []) w rest [] Hw Hr eq_refl). reflexivity.
Qed.

Lemma collapse_cons c s :
  is_nl c = false -> collapse (c :: s) = c :: collapse s.
Proof.
  intros Hc. unfold collapse, replace_all. cbn [replace_all_from].
  unfold BREAKS at 1. now rewrite exec_one, Hc.
Qed.

(** A run of line breaks is cut to two. *)
Lemma collapse_run w rest :
  Forall (fun c => is_nl c = true) w -> head_not is_nl rest ->
  collapse (w ++ rest) = firstn 2 w ++ collapse rest.
Proof.
  intros Hw Hr.
  assert (H1 : forall a, is_nl a = true ->
            collapse (a :: rest) = a :: collapse rest).
  { intros a Ha. unfold collapse, replace_all. cbn [replace_all_from].
    change (a :: rest) with ([a] ++ rest).
    rewrite (exec_breaks [a] rest); [reflexivity|now repeat constructor|exact Hr]. }
  destruct w as [|a [|b [|c w]]].
  - reflexivity.
  - inversion Hw; subst. now apply H1.
  - inversion Hw as [|? ? Ha Hw']; subst. inversion Hw' as [|? ? Hb _]; subst.
    cbn [app firstn]. unfold collapse, replace_all. cbn [replace_all_from].
    change (a :: b :: rest) with ([a; b] ++ rest).
    rewrite (exec_breaks [a; b] rest Hw Hr). f_equal. now apply H1.
  - unfold collapse, replace_all.
    change ((a :: b :: c :: w) ++ rest) with (a :: (b :: c :: w) ++ rest).
    cbn [replace_all_from].
    change (a :: (b :: c :: w) ++ rest) with ((a :: b :: c :: w) ++ rest).
    rewrite (exec_breaks (a :: b :: c :: w) rest Hw Hr).
    unfold total. cbn [fold_right Nat.add].
    change (S (S (length w + 0))) with (2 + (length w + 0)).
    rewrite Nat.add_0_r.
    change (2 + length w) with (length (b :: c :: w)).
    rewrite replace_skip_app.
    inversion Hw as [|? ? Ha Hw']; subst. inversion Hw' as [|? ? Hb _]; subst.
    apply is_nl_eq in Ha, Hb. subst. reflexivity.
Qed.

Lemma collapse_head rest :
  head_not is_nl rest -> head_not is_nl (collapse rest).
Proof.
  destruct rest as [|c rest]; [intros _; exact I|]. cbn [head_not].
  intros Hc. now rewrite collapse_cons.
Qed.

Lemma no_breaks_run w Y :
  Forall (fun c => is_nl c = true) w -> length w <= 2 ->
  head_not is_nl Y -> includes NNN Y = false ->
  includes NNN (w ++ Y) = false.
Proof.
  intros Hw Hl Hy Hi.
  assert (Hs : starts_with [10%N] Y = false).
  { destruct Y as [|y Y]; [reflexivity|]. cbn [head_not] in Hy.
    cbn [starts_with]. unfold is_nl in Hy. rewrite N.eqb_sym, Hy. reflexivity. }
  destruct w as [|a [|b [|c w]]]; [exact Hi| | |simpl in Hl; lia].
  - inversion Hw as [|? ? Ha _]; subst. apply is_nl_eq in Ha. subst a.
    cbn [app includes]. rewrite Hi, orb_false_r. unfold NNN.
    cbn [starts_with]. destruct Y as [|y [|z Y]]; try reflexivity;
      cbn [starts_with] in *; rewrite andb_true_r in Hs; rewrite Hs;
      reflexivity.
  - inversion Hw as [|? ? Ha Hw']; subst. inversion Hw' as [|? ? Hb _]; subst.
    apply is_nl_eq in Ha, Hb. subst a b.
    cbn [app includes]. rewrite Hi, orb_false_r. unfold NNN.
    cbn [starts_with]. change (N.eqb 10 10) with true. cbn [andb].
    destruct Y as [|y [|z Y]]; try reflexivity;
      cbn [starts_with] in *; rewrite andb_true_r in Hs; rewrite Hs;
      reflexivity.
Qed.

Lemma collapse_no_breaks n : forall s,
  length s <= n -> includes NNN (collapse s) = false.
Proof.
  induction n as [|n IH]; intros s Hl.
  - destruct s; [reflexivity|simpl in Hl; lia].
  - destruct (run_split is_nl s) as [E Hw].
    pose proof (run_skipn is_nl s) as Hr. apply run_head in Hr.
    set (w := firstn (run is_nl s) s) in *.
    set (rest := skipn (run is_nl s) s) in *.
    destruct w as [|a w'] eqn:Ew.
    + (* no line break at the head *)
      cbn [app] in E. destruct s as [|c s']; [reflexivity|].
      assert (Hc : is_nl c = false) by (rewrite <- E in Hr; exact Hr).
      rewrite collapse_cons by exact Hc. cbn [includes].
      rewrite IH by (simpl in Hl; lia). rewrite orb_false_r.
      unfold NNN. cbn [starts_with]. unfold is_nl in Hc.
      now rewrite N.eqb_sym, Hc.
    + rewrite E, collapse_run by assumption.
      apply no_breaks_run.
      * now apply Forall_firstn_keeps.
      * rewrite length_firstn. lia.
      * now apply collapse_head.
      * apply IH. apply (f_equal (@length _)) in E.
        rewrite length_app in E. simpl in E. lia.
Qed.

Lemma breaks_found s : test BREAKS s = true -> includes NNN s = true.
Proof.
  intros H. apply search_reaches in H. destruct H as [a [b [-> Hb]]].
  unfold BREAKS in Hb.
  apply inv_one in Hb. destruct Hb as [c1 [s1 [-> [H1 Hb]]]].
  apply inv_one in Hb. destruct Hb as [c2 [s2 [-> [H2 Hb]]]].
  apply inv_one in Hb. destruct Hb as [c3 [s3 [-> [H3 _]]]].
  apply is_nl_eq in H1, H2, H3. subst.
  exact (includes_within NNN a s3).
Qed.

(** X28.  After [collapseBlankLines] the text has no three line breaks in
    a row and no white space at its end; collapsing it again changes
    nothing, and a text without three line breaks in a row is only trimmed
    at its end. *)
Theorem collapseBlankLines_normal :
  forall content,
    includes [10; 10; 10]%N (collapseBlankLines content) = false /\
    trimEnd (collapseBlankLines content) = collapseBlankLines content /\
    collapseBlankLines (collapseBlankLines content)
    = collapseBlankLines content /\
    (includes [10; 10; 10]%N content = false ->
     collapseBlankLines content = trimEnd content).
Proof.
  intros content.
  assert (Hkeep : forall c, includes NNN c = false ->
            collapseBlankLines c = trimEnd c).
  { intros c Hc. unfold collapseBlankLines. f_equal.
    apply replace_all_none. destruct (test _ c) eqn:E; [|reflexivity].
    apply breaks_found in E. congruence. }
  assert (H1 : includes NNN (collapseBlankLines content) = false).
  { unfold collapseBlankLines.
    change (replace_all [One is_nl; One is_nl; One is_nl; Star is_nl]
              [10; 10]%N content) with (collapse content).
    destruct (trimEnd_prefix (collapse content)) as [w [E _]].
    apply (includes_prefix NNN _ w). rewrite <- E.
    exact (collapse_no_breaks _ content (le_n _)). }
  assert (H2 : trimEnd (collapseBlankLines content)
               = collapseBlankLines content)
    by (unfold collapseBlankLines; apply trimEnd_tight).
  split; [exact H1|]. split; [exact H2|]. split; [|exact (Hkeep content)].
  rewrite (Hkeep _ H1). exact H2.
Qed.

End BlankLines.

(* ------------------------------------------------------------------ *)
(** ** The title of a calendar event *)
(* ------------------------------------------------------------------ *)

Section EventTitle.
Import TaskUtils IcsEventSync EventNoteManager.

(** *** A tag, or a URL, removed from the end of a text *)

Lemma clear_fresh op tl s Y :
  op <> [] -> Forall (fun c => is_ws c = false) op ->
  tight s -> includes op s = false ->
  clear (Star is_ws :: Lit op :: tl) s (32%N :: Y).
Proof.
  intros Hne Hop. induction s as [|c s IH]; intros Ht Hi; [exact I|].
  split.
  - exact (exec_ws_fresh op Hne Hop tl (c :: s) Y Ht
             ltac:(discriminate) Hi).
  - apply IH; [now apply tight_tail in Ht|now apply includes_cons in Hi].
Qed.

Lemma test_fresh op tl s :
  includes op s = false -> test (Star is_ws :: Lit op :: tl) s = false.
Proof.
  intros Hi. destruct (test _ s) eqn:E; [|reflexivity]. exfalso.
  apply search_reaches in E. destruct E as [a [b [-> Hb]]].
  rewrite exec_star in Hb. apply star_reaches in Hb.
  destruct Hb as [a' [b' [-> Hb]]]. apply inv_lit in Hb.
  destruct Hb as [s' [-> _]].
  rewrite (app_assoc a a'), includes_within in Hi. discriminate.
Qed.

(** The last match of a global replacement by the empty string: a text
    in which no match starts, then the match, then a text without
    match. *)
Lemma replace_appended re s Z x ls :
  clear re s (Z ++ x) -> exec re (Z ++ x) = Some ls ->
  total ls = length Z -> Z <> [] -> test re x = false ->
  replace_all re [] (s ++ Z ++ x) = s ++ x.
Proof.
  intros Hc He Ht Hne Hx. rewrite replace_all_prefix by exact Hc. f_equal.
  destruct Z as [|z Z]; [congruence|].
  unfold replace_all. cbn [app replace_all_from].
  change (z :: Z ++ x) with ((z :: Z) ++ x). rewrite He, Ht.
  cbn [length app]. rewrite replace_skip_app.
  exact (replace_all_none re [] x Hx).
Qed.

Lemma tag_assoc op (id x : jsstring) :
  (32%N :: op ++ id ++ [93%N]) ++ x = 32%N :: op ++ id ++ 93%N :: x.
Proof. cbn [app]. f_equal. now rewrite <- !app_assoc. Qed.

Lemma replace_fresh_tag op s c t x :
  op <> [] -> Forall (fun c => is_ws c = false) op ->
  tight s -> includes op s = false ->
  Forall (fun c => not_rbracket c = true) (c :: t) ->
  test (Star is_ws :: tagRe op) x = false ->
  replace_all (Star is_ws :: tagRe op) []
    (s ++ 32%N :: op ++ (c :: t) ++ 93%N :: x)
  = s ++ x.
Proof.
  intros Hne Hop Hs Hi Ht Hx.
  rewrite <- (tag_assoc op (c :: t) x).
  apply (replace_appended _ s _ x [1; length op; 1; length t; 1]).
  - rewrite tag_assoc. now apply clear_fresh.
  - rewrite tag_assoc. rewrite exec_star.
    refine (star_skip is_ws (exec (tagRe op)) [32%N]
              (op ++ (c :: t) ++ 93%N :: x) _ _ _ (exec_tag_token op c t x Ht)).
    + repeat constructor.
    + destruct op as [|o op']; [congruence|].
      inversion Hop; subst. assumption.
  - unfold total. cbn [fold_right length]. rewrite !length_app. simpl. lia.
  - discriminate.
  - exact Hx.
Qed.

(** *** Trimmed texts *)

Lemma trimEnd_head s : head_not is_ws s -> head_not is_ws (trimEnd s).
Proof.
  destruct s as [|c s]; [intros _; exact I|]. cbn [head_not trimEnd].
  intros Hc. rewrite Hc. destruct (trimEnd s); exact Hc.
Qed.

Lemma trim_head s : head_not is_ws (trim s).
Proof.
  unfold trim. apply trimEnd_head.
  induction s as [|c s IH]; [exact I|]. cbn [trimStart].
  destruct (is_ws c) eqn:E; [exact IH|exact E].
Qed.

Lemma tight_visible s : Forall (fun c => is_ws c = false) s -> tight s.
Proof.
  unfold tight. induction 1 as [|c s Hc Hs IH]; [reflexivity|].
  cbn [trimEnd]. rewrite IH, Hc. destruct s; reflexivity.
Qed.

(** *** The line of an event *)

(** The summary of the event with its location. *)
Definition eventTitle (event : IcsEvent) : jsstring :=
  add_field (location event) (or_else (summary event) (L "Untitled Event")).

(** A time as the ICS plugin prints it: [HH:MM]. *)
Definition clockText (s : jsstring) : Prop :=
  exists d1 d2 d3 d4,
    s = [d1; d2; 58%N; d3; d4] /\ is_digit d1 = true /\ is_digit d2 = true /\
    is_digit d3 = true /\ is_digit d4 = true.

(** A field that is missing, or holds [http://] or [https://] and then
    visible characters other than an opening bracket. *)
Definition urlField (field : option jsstring) : Prop :=
  match field with
  | Some (c :: s) =>
      exists sch rest,
        c :: s = L "http" ++ sch ++ L "://" ++ rest /\
        (sch = [] \/ sch = L "s") /\ rest <> [] /\
        Forall (fun c => is_ws c = false) rest /\
        Forall (fun c => c <> 91%N) rest
  | _ => True
  end.

Lemma eventTitle_nonempty event : eventTitle event <> [].
Proof.
  unfold eventTitle, add_field, or_else.
  destruct (summary event) as [[|c s]|];
    destruct (location event) as [[|d l]|]; discriminate.
Qed.

Lemma star_one p (k : jsstring -> option (list nat)) c s ls :
  p c = true -> head_not p s -> k s = Some ls ->
  star p k (c :: s) = Some (1 :: ls).
Proof.
  intros Hc Hs Hk.
  exact (star_skip p k [c] s ls (Forall_cons _ Hc (Forall_nil _)) Hs Hk).
Qed.

Lemma exec_opt_skip p re c s :
  p c = false -> exec (Opt p :: re) (c :: s) = cons_len 0 (exec re (c :: s)).
Proof. intros H. cbn [exec]. now rewrite H. Qed.

Lemma exec_opt_take p re c s ls :
  p c = true -> exec re s = Some ls ->
  exec (Opt p :: re) (c :: s) = Some (1 :: ls).
Proof. intros H E. cbn [exec]. now rewrite H, E. Qed.

Lemma exec_url sch rest x :
  sch = [] \/ sch = L "s" -> rest <> [] ->
  Forall (fun c => is_ws c = false) rest -> head_not not_ws x ->
  exec (Star is_ws :: URL) (32%N :: L "http" ++ sch ++ L "://" ++ rest ++ x)
  = Some [1; 4; length sch; 3; 1; length rest - 1].
Proof.
  intros Hsch Hne Hrest Hx.
  destruct rest as [|r rest]; [congruence|].
  inversion Hrest as [|? ? Hr Hrest']; subst.
  assert (Hnw : Forall (fun c => not_ws c = true) rest).
  { eapply Forall_impl; [|exact Hrest']. intros a Ha. unfold not_ws.
    now rewrite Ha. }
  assert (Htail : exec [Lit (L "://"); One not_ws; Star not_ws]
                    (L "://" ++ (r :: rest) ++ x)
                  = Some [3; 1; length rest]).
  { rewrite exec_lit. change ((r :: rest) ++ x) with (r :: rest ++ x).
    rewrite exec_one. unfold not_ws at 1. rewrite Hr. cbn [negb].
    rewrite exec_star.
    rewrite (star_skip not_ws (exec []) rest x [] Hnw Hx eq_refl).
    reflexivity. }
  assert (Hurl : exec URL (L "http" ++ sch ++ L "://" ++ (r :: rest) ++ x)
                 = Some [4; length sch; 3; 1; length rest]).
  { unfold URL. rewrite exec_lit.
    destruct Hsch as [-> | ->].
    + change ([] ++ L "://" ++ (r :: rest) ++ x)
        with (58%N :: (47 :: 47 :: r :: rest ++ x)%N).
      rewrite exec_opt_skip by reflexivity.
      change (58%N :: (47 :: 47 :: r :: rest ++ x)%N)
        with (L "://" ++ (r :: rest) ++ x).
      now rewrite Htail.
    + change (L "s" ++ L "://" ++ (r :: rest) ++ x)
        with (115%N :: L "://" ++ (r :: rest) ++ x).
      erewrite exec_opt_take; [reflexivity|reflexivity|exact Htail]. }
  rewrite exec_star.
  change (length (r :: rest) - 1) with (length rest - 0).
  rewrite Nat.sub_0_r.
  exact (star_skip is_ws (exec URL) [32%N]
           (L "http" ++ sch ++ L "://" ++ (r :: rest) ++ x)
           [4; length sch; 3; 1; length rest]
           ltac:(repeat constructor) eq_refl Hurl).
Qed.

(** The text of the event with its URL, as [buildEventLine] writes it:
    tight, without bracket, and the title once the URL is removed. *)
Lemma event_text event :
  trim (eventTitle event) = eventTitle event ->
  Forall (fun c => c <> 91%N) (eventTitle event) ->
  includes (L "http") (eventTitle event) = false ->
  urlField (callUrl event) ->
  let text := add_field (callUrl event) (eventTitle event) in
  head_not is_ws text /\ tight text /\ Forall (fun c => c <> 91%N) text /\
  replace_all (Star is_ws :: URL) [] text = eventTitle event.
Proof.
  intros Htrim Hno Hhttp Hurl.
  pose proof (eventTitle_nonempty event) as Hnonempty.
  set (T0 := eventTitle event) in *.
  assert (Hhead : head_not is_ws T0) by (rewrite <- Htrim; apply trim_head).
  assert (Htight : tight T0).
  { unfold tight. rewrite <- Htrim. unfold trim. apply trimEnd_tight. }
  assert (Hplain : replace_all (Star is_ws :: URL) [] T0 = T0).
  { apply replace_all_none. unfold URL. now apply test_fresh. }
  unfold urlField in Hurl.
  destruct (callUrl event) as [[|c s]|]; cbn [add_field];
    try (split; [exact Hhead|split; [exact Htight|split; assumption]]).
  destruct Hurl as [sch [rest [E [Hsch [Hne [Hvis Hnob]]]]]].
  rewrite E. clear E c s.
  set (url := L "http" ++ sch ++ L "://" ++ rest).
  assert (Hturl : tight ((T0 ++ L " " ++ L "http" ++ sch ++ L "://") ++ rest)).
  { unfold tight. apply trimEnd_app_tight; [now apply tight_visible|exact Hne]. }
  assert (Etext : T0 ++ L " " ++ url
                  = (T0 ++ L " " ++ L "http" ++ sch ++ L "://") ++ rest).
  { unfold url. now rewrite <- !app_assoc. }
  split; [|split; [|split]].
  - destruct T0; [congruence|exact Hhead].
  - rewrite Etext. exact Hturl.
  - apply Forall_app. split; [exact Hno|]. unfold url.
    constructor; [discriminate|].
    apply Forall_app. split; [repeat (constructor; [discriminate|]); constructor|].
    apply Forall_app. split.
    { destruct Hsch as [-> | ->]; repeat (constructor; [discriminate|]);
        constructor. }
    apply Forall_app. split;
      [repeat (constructor; [discriminate|]); constructor|exact Hnob].
  - replace (T0 ++ L " " ++ url) with (T0 ++ (32%N :: url) ++ [])
      by (rewrite app_nil_r; reflexivity).
    rewrite <- (app_nil_r T0) at 2.
    assert (Hex : exec (Star is_ws :: URL) ((32%N :: url) ++ [])
                  = Some [1; 4; length sch; 3; 1; length rest - 1]).
    { rewrite app_nil_r. unfold url.
      rewrite <- (app_nil_r rest) at 1.
      exact (exec_url sch rest [] Hsch Hne Hvis I). }
    apply (replace_appended _ T0 (32%N :: url) []
             [1; 4; length sch; 3; 1; length rest - 1]).
    + rewrite app_nil_r. unfold URL.
      apply clear_fresh; [discriminate|repeat constructor|exact Htight|exact Hhttp].
    + exact Hex.
    + unfold total, url. cbn [fold_right length]. rewrite !length_app.
      destruct rest; [congruence|]. simpl. lia.
    + discriminate.
    + reflexivity.
Qed.

Lemma includes_step op c s :
  starts_with op (c :: s) = false -> includes op s = false ->
  includes op (c :: s) = false.
Proof. intros H1 H2. cbn [includes]. now rewrite H1, H2. Qed.

Lemma bracket_free op s :
  Forall (fun c => c <> 91%N) s -> includes (91%N :: op) s = false.
Proof. apply includes_no_open. Qed.

(** X29.  From the line that [buildEventLine] writes, [extractEventTitle]
    gets back the title of the event: its summary, or [Untitled Event]
    when it has none, then a space and the location when it has one.  The
    checkbox, the two times, the call URL, the uid and the calendar name
    are removed.  The times are of the form [HH:MM]; the title has no
    opening bracket, no [http] and no white space at its ends; the call
    URL is missing or empty, or it is [http://] or [https://] and then one
    character or more, none of them white space or an opening bracket;
    the uid has no closing bracket and the calendar name no bracket. *)
Theorem extractEventTitle_buildEventLine :
  forall event,
    clockText (or_else (time event) (L "00:00")) ->
    clockText (or_else (endTime event) (or_else (time event) (L "00:00"))) ->
    trim (eventTitle event) = eventTitle event ->
    Forall (fun c => c <> 91%N) (eventTitle event) ->
    includes (L "http") (eventTitle event) = false ->
    urlField (callUrl event) ->
    Forall (fun c => not_rbracket c = true) (eventUid event) ->
    Forall (fun c => not_rbracket c = true /\ c <> 91%N)
      (or_else (icsName event) []) ->
    extractEventTitle (buildEventLine event) = eventTitle event.
Proof.
  intros event Hst Het Htrim Hno Hhttp Hurl Huid Hname.
  destruct (event_text event Htrim Hno Hhttp Hurl)
    as [Hhead [Htight [Hnob Hstrip]]].
  set (TU := add_field (callUrl event) (eventTitle event)) in *.
  destruct Hst as [d1 [d2 [d3 [d4 [Est [H1 [H2 [H3 H4]]]]]]]].
  destruct Het as [e1 [e2 [e3 [e4 [Eet [H5 [H6 [H7 H8]]]]]]]].
  assert (Hune : eventUid event <> []).
  { unfold eventUid, or_else. destruct (uid event) as [[|c s]|]; discriminate. }
  destruct (eventUid event) as [|c t] eqn:Eu; [congruence|].
  set (cal := match or_else (icsName event) [] with
              | _ :: _ =>
                  L " [calendar::" ++ or_else (icsName event) [] ++ L "]"
              | [] => []
              end).
  assert (Eline : buildEventLine event
                  = L "- [c]"
                    ++ [32%N]
                    ++ ([d1; d2; 58; d3; d4; 32; 45; 32; e1; e2; 58; e3; e4;
                         32]%N
                        ++ TU ++ 32%N :: L "[uid::" ++ (c :: t) ++ 93%N :: cal)).
  { rewrite buildEventLine_shape. unfold eventHead. rewrite Eet, Est, Eu.
    fold (eventTitle event). fold TU. fold cal.
    rewrite <- !app_assoc. reflexivity. }
  (* the two tags *)
  assert (Hcal_uid : test (Star is_ws :: tagRe (L "[uid::")) cal = false).
  { apply test_fresh. unfold cal.
    destruct (or_else (icsName event) []) as [|n0 name]; [reflexivity|].
    change (L " [calendar::" ++ (n0 :: name) ++ L "]")
      with (32%N :: 91%N :: (L "calendar::" ++ (n0 :: name) ++ L "]")).
    do 2 (apply includes_step; [reflexivity|]).
    apply includes_no_open.
    repeat (constructor; [discriminate|]).
    apply Forall_app. split.
    - eapply Forall_impl; [|exact Hname]. intros a [_ Ha]. exact Ha.
    - repeat constructor. discriminate. }
  assert (Huidtag : replace_all (Star is_ws :: tagRe (L "[uid::")) []
                      (TU ++ 32%N :: L "[uid::" ++ (c :: t) ++ 93%N :: cal)
                    = TU ++ cal).
  { apply replace_fresh_tag; try assumption;
      [discriminate|repeat constructor|now apply bracket_free]. }
  assert (Hcaltag : replace_all (Star is_ws :: tagRe (L "[calendar::")) []
                      (TU ++ cal) = TU).
  { unfold cal. destruct (or_else (icsName event) []) as [|n0 name].
    - rewrite app_nil_r. apply replace_all_none, test_fresh.
      now apply bracket_free.
    - change (L " [calendar::" ++ (n0 :: name) ++ L "]")
        with (32%N :: L "[calendar::" ++ (n0 :: name) ++ 93%N :: []).
      rewrite replace_fresh_tag; [apply app_nil_r|discriminate|repeat constructor
                                 |exact Htight|now apply bracket_free| |reflexivity].
      eapply Forall_impl; [|exact Hname]. intros a [Ha _]. exact Ha. }
  (* the checkbox and the times *)
  assert (Hw1 : is_ws d1 = false) by now apply digit_not_ws.
  assert (Hw5 : is_ws e1 = false) by now apply digit_not_ws.
  set (R := TU ++ 32%N :: L "[uid::" ++ (c :: t) ++ 93%N :: cal) in *.
  assert (HTU : TU <> []).
  { pose proof (eventTitle_nonempty event) as Hn. unfold TU, add_field.
    destruct (callUrl event) as [[|? ?]|]; try exact Hn.
    destruct (eventTitle event); [congruence|discriminate]. }
  assert (HheadR : head_not is_ws R).
  { assert (Happ : forall X Y : jsstring,
              X <> [] -> head_not is_ws X -> head_not is_ws (X ++ Y)).
    { intros [|x X] Y Hx Hh; [congruence|exact Hh]. }
    unfold R. now apply Happ. }
  assert (Hpre : exec [Star is_tab; Lit (L "- [c]"); Star is_ws]
                   (L "- [c]" ++ [32%N]
                    ++ ([d1; d2; 58; d3; d4; 32; 45; 32; e1; e2; 58; e3; e4;
                         32]%N ++ R))
                 = Some [0; 5; 1]).
  { set (X := [d1; d2; 58; d3; d4; 32; 45; 32; e1; e2; 58; e3; e4; 32]%N
              ++ R).
    assert (Hk : exec [Lit (L "- [c]"); Star is_ws] (L "- [c]" ++ [32%N] ++ X)
                 = Some [5; 1]).
    { rewrite exec_lit, exec_star.
      exact (f_equal (cons_len 5)
               (star_skip is_ws (exec []) [32%N] X []
                  ltac:(repeat constructor) Hw1 eq_refl)). }
    rewrite exec_star.
    exact (star_skip is_tab (exec [Lit (L "- [c]"); Star is_ws]) []
             (L "- [c]" ++ [32%N] ++ X) [5; 1] (Forall_nil _) eq_refl Hk). }
  assert (Htime : exec TIME_RANGE_START
                    ([d1; d2; 58; d3; d4; 32; 45; 32; e1; e2; 58; e3; e4;
                      32]%N ++ R)
                  = Some [1; 1; 1; 1; 1; 1; 1; 1; 1; 1; 1; 1; 1; 1]).
  { unfold TIME_RANGE_START. cbn [app].
    rewrite !exec_one, H1, H2. rewrite (exec_lit1 58%N), !exec_one, H3, H4.
    rewrite exec_star.
    erewrite star_one; [reflexivity|reflexivity|reflexivity|].
    rewrite (exec_lit1 45%N), exec_star.
    erewrite star_one; [reflexivity|reflexivity|exact Hw5|].
    rewrite !exec_one, H5, H6. rewrite (exec_lit1 58%N), !exec_one, H7, H8.
    rewrite exec_star.
    erewrite star_one; [reflexivity|reflexivity|exact HheadR|reflexivity]. }
  assert (S1 : remove_start [Star is_tab; Lit (L "- [c]"); Star is_ws]
                 (buildEventLine event)
               = [d1; d2; 58; d3; d4; 32; 45; 32; e1; e2; 58; e3; e4; 32]%N
                 ++ R).
  { rewrite Eline. unfold remove_start. rewrite Hpre. reflexivity. }
  assert (S2 : remove_start TIME_RANGE_START
                 ([d1; d2; 58; d3; d4; 32; 45; 32; e1; e2; 58; e3; e4; 32]%N
                  ++ R) = R).
  { unfold remove_start. rewrite Htime. reflexivity. }
  unfold extractEventTitle. rewrite S1, S2.
  change [Star is_ws; Lit (L "[uid::"); One not_rbracket; Star not_rbracket;
          Lit (L "]")] with (Star is_ws :: tagRe (L "[uid::")).
  change [Star is_ws; Lit (L "[calendar::"); One not_rbracket;
          Star not_rbracket; Lit (L "]")]
    with (Star is_ws :: tagRe (L "[calendar::")).
  rewrite Huidtag, Hcaltag, Hstrip. exact Htrim.
Qed.

Lemma extractEventTitle_buildEventLine_witness :
  extractEventTitle
    (buildEventLine
       {| uid := Some (L "abc@x"); time := Some (L "10:00"); endTime := None;
          summary := Some (L "Standup"); location := Some (L "Room 1");
          callUrl := Some (L "https://meet.example/x");
          utime := L "1700000000"; icsName := Some (L "Work") |})
  = eventTitle
      {| uid := Some (L "abc@x"); time := Some (L "10:00"); endTime := None;
         summary := Some (L "Standup"); location := Some (L "Room 1");
         callUrl := Some (L "https://meet.example/x");
         utime := L "1700000000"; icsName := Some (L "Work") |}.
Proof.
  apply extractEventTitle_buildEventLine.
  - exists (ch "1"), (ch "0"), (ch "0"), (ch "0"). repeat split.
  - exists (ch "1"), (ch "0"), (ch "0"), (ch "0"). repeat split.
  - reflexivity.
  - repeat (constructor; [discriminate|]). constructor.
  - reflexivity.
  - exists (L "s"), (L "meet.example/x"). split; [reflexivity|].
    split; [now right|]. split; [discriminate|].
    split; repeat (constructor; [first [reflexivity|discriminate]|]);
      constructor.
  - repeat constructor.
  - repeat (constructor; [split; [reflexivity|discriminate]|]). constructor.
Defined.

(** X30.  [extractTimeRange] reads from the line of an event the two
    times [buildEventLine] wrote, when they are of the form [HH:MM]. *)
Theorem extractTimeRange_buildEventLine :
  forall event,
    clockText (or_else (time event) (L "00:00")) ->
    clockText (or_else (endTime event) (or_else (time event) (L "00:00"))) ->
    extractTimeRange (buildEventLine event)
    = Some (or_else (time event) (L "00:00"),
            or_else (endTime event) (or_else (time event) (L "00:00"))).
Proof.
  intros event Hst Het.
  destruct Hst as [d1 [d2 [d3 [d4 [Est [H1 [H2 [H3 H4]]]]]]]].
  destruct Het as [e1 [e2 [e3 [e4 [Eet [H5 [H6 [H7 H8]]]]]]]].
  rewrite Eet, Est.
  assert (Eline : exists R,
            buildEventLine event
            = L "- [c] "
              ++ ([d1; d2; 58; d3; d4; 32; 45; 32; e1; e2; 58; e3; e4]%N ++ R)).
  { rewrite buildEventLine_shape. unfold eventHead. rewrite Eet, Est.
    eexists. rewrite <- !app_assoc. reflexivity. }
  destruct Eline as [R Eline]. rewrite Eline.
  set (X := [d1; d2; 58; d3; d4; 32; 45; 32; e1; e2; 58; e3; e4]%N ++ R).
  assert (Hw5 : is_ws e1 = false) by now apply digit_not_ws.
  assert (Hex : exec TIME_RANGE X = Some [1; 1; 1; 1; 1; 1; 1; 1; 1; 1; 1; 1; 1]).
  { unfold TIME_RANGE, X. cbn [app].
    rewrite !exec_one, H1, H2. rewrite (exec_lit1 58%N), !exec_one, H3, H4.
    rewrite exec_star.
    erewrite star_one; [reflexivity|reflexivity|reflexivity|].
    rewrite (exec_lit1 45%N), exec_star.
    erewrite star_one; [reflexivity|reflexivity|exact Hw5|].
    rewrite !exec_one, H5, H6. rewrite (exec_lit1 58%N), !exec_one, H7, H8.
    reflexivity. }
  assert (Hs : search TIME_RANGE (L "- [c] " ++ X) = Some (6, [1; 1; 1; 1; 1; 1; 1; 1; 1; 1; 1; 1; 1])).
  { change (L "- [c] " ++ X)
      with (45 :: 32 :: 91 :: 99 :: 93 :: 32 :: X)%N.
    do 6 (rewrite search_next by reflexivity).
    now rewrite (search_here _ _ _ Hex). }
  unfold extractTimeRange. rewrite Hs. reflexivity.
Qed.

Lemma extractTimeRange_buildEventLine_witness :
  extractTimeRange
    (buildEventLine
       {| uid := Some (L "abc@x"); time := Some (L "10:00");
          endTime := Some (L "11:30");
          summary := Some (L "Standup"); location := None;
          callUrl := None; utime := L "1700000000"; icsName := None |})
  = Some (or_else (Some (L "10:00")) (L "00:00"),
          or_else (Some (L "11:30")) (or_else (Some (L "10:00")) (L "00:00"))).
Proof.
  apply (extractTimeRange_buildEventLine
           {| uid := Some (L "abc@x"); time := Some (L "10:00");
              endTime := Some (L "11:30");
              summary := Some (L "Standup"); location := None;
              callUrl := None; utime := L "1700000000"; icsName := None |}).
  - exists (ch "1"), (ch "0"), (ch "0"), (ch "0"). repeat split.
  - exists (ch "1"), (ch "1"), (ch "3"), (ch "0"). repeat split.
Defined.

End EventTitle.

(* ------------------------------------------------------------------ *)
(** ** Shared facts on prefixes and runs *)
(* ------------------------------------------------------------------ *)

Lemma starts_with_nth op : forall x z r,
  starts_with op (x ++ z :: r) = true -> length x < length op ->
  nth (length x) op 0%N = z.
Proof.
  induction op as [|o op IH]; intros x z r H Hl; [cbn in Hl; lia|].
  destruct x as [|c x]; cbn [app starts_with length nth] in *.
  - apply andb_true_iff in H. destruct H as [H _]. now apply N.eqb_eq in H.
  - apply andb_true_iff in H. destruct H as [_ H]. apply (IH x z r H). lia.
Qed.

Lemma run_le p s : run p s <= length s.
Proof.
  induction s as [|c s IH]; cbn [run length]; [lia|].
  destruct (p c); lia.
Qed.

(* ------------------------------------------------------------------ *)
(** ** The scheduler, on every line *)
(* ------------------------------------------------------------------ *)

Section SchedulerEveryLine.
Import TaskUtils TaskScheduler.

(** The id of the line, read as a pattern, is one [parsePattern] covers:
    ordinary characters and [.], each with at most one of [*], [+], [?]. *)
Definition idInFragment (line : jsstring) : Prop :=
  forall id, extractId line = Some id -> parsePattern id <> None.

Lemma scheduleTask_returns settings w n d line :
  nth_error (editor w) n = Some line -> idInFragment line ->
  exists r w', scheduleTask settings w n d = Some (r, w').
Proof.
  intros Hl Hid. unfold scheduleTask. rewrite Hl.
  destruct (negb (isTask line)); [eauto|].
  destruct (includes _ line); [eauto|].
  destruct (getOrCreate (getDailyNotePath d settings) d w) as [w1 tf].
  destruct tf as [c|]; [|eauto].
  destruct (extractId line) as [[|i0 id]|] eqn:Ei; [eauto| |eauto].
  revert Hid. unfold idInFragment. rewrite Ei. intros Hid.
  specialize (Hid _ eq_refl). unfold idPattern.
  destruct (parsePattern (i0 :: id)) as [re|]; [|congruence].
  cbn [option_map]. eauto.
Qed.

Lemma scheduleTask_failure_keeps settings w n d w' :
  scheduleTask settings w n d = Some (false, w') ->
  vault w' = vault w /\ editor w' = editor w.
Proof.
  unfold scheduleTask.
  destruct (nth_error (editor w) n) as [line|]; [|discriminate].
  destruct (negb (isTask line)); [now intros [= <-]|].
  destruct (includes _ line); [now intros [= <-]|].
  destruct (getOrCreate (getDailyNotePath d settings) d w) as [w1 tf] eqn:Eg.
  destruct tf as [c|].
  - match goal with
    | |- match ?e with Some _ => _ | None => _ end = _ -> _ =>
        destruct e as [found|]; discriminate
    end.
  - apply getOrCreate_folder in Eg. subst w1. now intros [= <-].
Qed.

(** X9.  Scheduling cannot be repeated.  A successful [scheduleTask]
    leaves at its line what [markTaskAsScheduled] makes of the line for
    the date; on an editor that holds such a line, whatever the line and
    its id were, [scheduleTask] for the same date returns [false] and
    changes no document. *)
Theorem scheduleTask_again_rejected :
  forall settings w n d line,
    nth_error (editor w) n = Some (markTaskAsScheduled line d) ->
    exists w',
      scheduleTask settings w n d = Some (false, w') /\
      vault w' = vault w /\ editor w' = editor w.
Proof.
  intros settings w n d line Hn.
  assert (Hinc : includes (L "[> " ++ d ++ L "]") (markTaskAsScheduled line d)
                 = true).
  { unfold markTaskAsScheduled.
    match goal with
    | |- includes ?tag (?x ++ _) = true =>
        replace (x ++ L " [> " ++ d ++ L "]") with ((x ++ [32%N]) ++ tag ++ [])
          by (rewrite app_nil_r, <- app_assoc; reflexivity)
    end.
    apply includes_within. }
  unfold scheduleTask. rewrite Hn.
  destruct (negb (isTask (markTaskAsScheduled line d))).
  - eexists. split; [reflexivity|]. split; reflexivity.
  - rewrite Hinc. eexists. split; [reflexivity|]. split; reflexivity.
Qed.

Lemma scheduleTask_again_rejected_witness :
  exists w',
    scheduleTask DEFAULT_SETTINGS
      {| vault := [(L "00 - Daily", TFolder)];
         editor := [markTaskAsScheduled (L "- [ ] Call [id::t(1)]")
                      (L "2025-01-12")];
         activeFile := None; today := L "2025-01-10"; notices := [] |}
      0 (L "2025-01-12") = Some (false, w') /\
    vault w' = [(L "00 - Daily", TFolder)] /\
    editor w' = [markTaskAsScheduled (L "- [ ] Call [id::t(1)]")
                   (L "2025-01-12")].
Proof.
  apply (scheduleTask_again_rejected DEFAULT_SETTINGS
           {| vault := [(L "00 - Daily", TFolder)];
              editor := [markTaskAsScheduled (L "- [ ] Call [id::t(1)]")
                           (L "2025-01-12")];
              activeFile := None; today := L "2025-01-10"; notices := [] |}
           0 (L "2025-01-12") (L "- [ ] Call [id::t(1)]")).
  reflexivity.
Defined.


Lemma scheduleTask_keeps_source settings w n d r w' :
  scheduleTask settings w n d = Some (r, w') ->
  length (editor w') = length (editor w) /\
  forall i l, nth_error (editor w) i = Some l ->
    i < n \/ (n < i /\ isSubtask l = false) ->
    nth_error (editor w') i = Some l.
Proof.
  destruct r; intros H.
  - destruct (scheduleTask_true settings w n d w' H) as [line [Hl ->]].
    exact (middle_frame markSubtasks (editor w) n line _ markSubtasks_keeps Hl).
  - destruct (scheduleTask_failure_keeps settings w n d w' H) as [_ E].
    rewrite E. split; [reflexivity|auto].
Qed.

(** X10.  In the source document [scheduleTask] touches the task line
    and the subtasks below it only.  For a line of the editor whose id is
    a pattern [parsePattern] covers, the call returns, and whatever it
    returns, the number of lines is the same, every line above the task
    is as before, and so is every line below it that is not a subtask. *)
Theorem scheduleTask_source_frame :
  forall settings w n d line,
    nth_error (editor w) n = Some line ->
    idInFragment line ->
    exists r w',
      scheduleTask settings w n d = Some (r, w') /\
      length (editor w') = length (editor w) /\
      forall i l, nth_error (editor w) i = Some l ->
        i < n \/ (n < i /\ isSubtask l = false) ->
        nth_error (editor w') i = Some l.
Proof.
  intros settings w n d line Hl Hid.
  destruct (scheduleTask_returns settings w n d line Hl Hid) as [r [w' H]].
  exists r, w'. split; [exact H|].
  exact (scheduleTask_keeps_source settings w n d r w' H).
Qed.

Lemma scheduleTask_source_frame_witness :
  exists r w',
    scheduleTask DEFAULT_SETTINGS world_c1 1 (L "2025-01-12") = Some (r, w') /\
    length (editor w') = length (editor world_c1) /\
    forall i l, nth_error (editor world_c1) i = Some l ->
      i < 1 \/ (1 < i /\ isSubtask l = false) ->
      nth_error (editor w') i = Some l.
Proof.
  apply (scheduleTask_source_frame DEFAULT_SETTINGS world_c1 1
           (L "2025-01-12") (L "- [ ] Call dentist [id::t-xy]  ")).
  - reflexivity.
  - intros id H. vm_compute in H. injection H as <-. vm_compute. discriminate.
Defined.

Lemma scheduleTask_keeps_files settings w n d r w' line p f :
  scheduleTask settings w n d = Some (r, w') ->
  nth_error (editor w) n = Some line ->
  p <> getDailyNotePath d settings ->
  notePathOf settings line <> Some p ->
  getAbstractFileByPath (vault w) p = Some f ->
  getAbstractFileByPath (vault w') p = Some f.
Proof.
  intros H Hl Hp Hn Hf.
  unfold scheduleTask in H. rewrite Hl in H.
  destruct (negb (isTask line)); [injection H as <- <-; exact Hf|].
  destruct (includes _ line); [injection H as <- <-; exact Hf|].
  pose proof (getOrCreate_keeps (getDailyNotePath d settings) d w p f Hf) as Hk.
  destruct (getOrCreate (getDailyNotePath d settings) d w) as [w1 tf].
  cbn [fst] in Hk.
  destruct tf as [c|]; [|injection H as <- <-; exact Hk].
  match type of H with
  | match ?e with Some _ => _ | None => _ end = _ =>
      destruct e as [found|]; [|discriminate]
  end.
  injection H as <- <-. cbn [Notice vault].
  assert (Hm : forall c',
            getAbstractFileByPath
              (modify (getDailyNotePath d settings) c' (vault w1)) p = Some f).
  { intros c'. rewrite get_modify_other; [exact Hk|congruence]. }
  unfold notePathOf in Hn.
  destruct (TaskNoteManager.extractTaskTextFromLine line) as [[|t0 t]|];
    cbn [set_vault set_editor vault]; try apply Hm.
  unfold TaskNoteManager.updateTaskNoteSourceFile.
  rewrite updateNote_other by exact Hn. apply Hm.
Qed.

(** X26.  [scheduleTask] writes to two files at most, the daily note of
    the target date and the note of the task.  For a line of the editor
    whose id is a pattern [parsePattern] covers, the call returns, and
    whatever it returns, every other file or folder of the vault is
    afterwards what it was. *)
Theorem scheduleTask_other_files :
  forall settings w n d line p f,
    nth_error (editor w) n = Some line ->
    idInFragment line ->
    p <> getDailyNotePath d settings ->
    notePathOf settings line <> Some p ->
    getAbstractFileByPath (vault w) p = Some f ->
    exists r w',
      scheduleTask settings w n d = Some (r, w') /\
      getAbstractFileByPath (vault w') p = Some f.
Proof.
  intros settings w n d line p f Hl Hid Hp Hn Hf.
  destruct (scheduleTask_returns settings w n d line Hl Hid) as [r [w' H]].
  exists r, w'. split; [exact H|].
  exact (scheduleTask_keeps_files settings w n d r w' line p f H Hl Hp Hn Hf).
Qed.

Lemma scheduleTask_other_files_witness :
  exists r w',
    scheduleTask DEFAULT_SETTINGS
      {| vault := [(L "00 - Daily", TFolder);
                   (L "Notes/a.md", TFile (L "text"))];
         editor := [L "- [ ] Call [id::t-1]"];
         activeFile := Some {| path := L "00 - Daily/2025-01-10.md";
                               basename := L "2025-01-10" |};
         today := L "2025-01-10"; notices := [] |}
      0 (L "2025-01-12") = Some (r, w') /\
    getAbstractFileByPath (vault w') (L "Notes/a.md")
    = Some (TFile (L "text")).
Proof.
  apply (scheduleTask_other_files DEFAULT_SETTINGS
           {| vault := [(L "00 - Daily", TFolder);
                        (L "Notes/a.md", TFile (L "text"))];
              editor := [L "- [ ] Call [id::t-1]"];
              activeFile := Some {| path := L "00 - Daily/2025-01-10.md";
                                    basename := L "2025-01-10" |};
              today := L "2025-01-10"; notices := [] |}
           0 (L "2025-01-12") (L "- [ ] Call [id::t-1]")).
  - reflexivity.
  - intros id H. vm_compute in H. injection H as <-. vm_compute. discriminate.
  - vm_compute. discriminate.
  - vm_compute. discriminate.
  - reflexivity.
Defined.

End SchedulerEveryLine.

(* ------------------------------------------------------------------ *)
(** ** The checkbox of the first line with the id *)
(* ------------------------------------------------------------------ *)

Section CheckboxFirstLine.
Import TaskUtils TaskNoteStatus.

Lemma updateTaskCheckbox_result :
  forall content taskId (m : char) c',
    is_dot m = true -> m <> 36%N ->
    updateTaskCheckbox content taskId [m] = Some c' ->
    exists re,
      TaskScheduler.idPattern taskId = Some re /\
      ((Forall (fun l => test re l = false) (split_lines content) /\
        c' = content) \/
       (exists pre l post l',
          split_lines content = pre ++ l :: post /\
          Forall (fun x => test re x = false) pre /\ test re l = true /\
          split_lines c' = pre ++ l' :: post /\
          (isTask l = false -> l' = l) /\
          (isTask l = true ->
           TaskNoteManager.extractCheckboxMarker l' = Some [m] /\
           exists tabs m0 rest,
             l = tabs ++ L "- [" ++ m0 :: L "]" ++ rest /\
             l' = tabs ++ L "- [" ++ m :: L "]" ++ rest))).
Proof.
  intros content taskId m c' Hm Hd. unfold updateTaskCheckbox.
  destruct (TaskScheduler.idPattern taskId) as [re|]; [|discriminate].
  intros [= <-]. exists re. split; [reflexivity|].
  assert (Hx : N.eqb m 36 = false) by now apply N.eqb_neq.
  destruct (updateCheckboxLine_spec re [m] (split_lines content))
    as [[Hall Hu] | [pre [l [post [E [Hpre [Hl Hu]]]]]]].
  - left. split; [exact Hall|]. rewrite Hu. apply join_split_lines.
  - right. rewrite Hu.
    set (l' := replace_found (search_start TASK_PATTERN l)
                 TaskScheduler.MARKER_GROUPS (L "$1" ++ [m] ++ L "$2") l).
    assert (Hcases :
      (isTask l = false -> l' = l) /\
      (isTask l = true ->
       TaskNoteManager.extractCheckboxMarker l' = Some [m] /\
       exists tabs m0 rest,
         l = tabs ++ L "- [" ++ m0 :: L "]" ++ rest /\
         l' = tabs ++ L "- [" ++ m :: L "]" ++ rest)).
    { split.
      - intros Hn. unfold l', search_start. unfold isTask, test_at in Hn.
        destruct (exec TASK_PATTERN l); [discriminate|reflexivity].
      - intros Ht. destruct (task_checkbox l Ht) as [tabs [m0 [rest [-> [Hta Hm0]]]]].
        assert (El : l' = tabs ++ L "- [" ++ m :: L "]" ++ rest)
          by (unfold l'; now apply set_checkbox).
        split.
        + rewrite El. now apply checkbox_marker.
        + exists tabs, m0, rest. split; [reflexivity|exact El]. }
    exists pre, l, post, l'. split; [exact E|]. split; [exact Hpre|].
    split; [exact Hl|]. split; [|exact Hcases].
    apply split_join_lines; [now destruct pre|].
    pose proof (split_lines_no_nl content) as Hnl. rewrite E in Hnl.
    apply Forall_app in Hnl. destruct Hnl as [Hn1 Hn2].
    inversion Hn2 as [|? ? Hnl Hn3]; subst.
    apply Forall_app. split; [exact Hn1|]. constructor; [|exact Hn3].
    destruct Hcases as [Hc1 Hc2]. destruct (isTask l) eqn:Ht.
    + destruct (Hc2 eq_refl) as [_ [tabs [m0 [rest [-> ->]]]]].
      unfold no_nl in *. apply Forall_app in Hnl. destruct Hnl as [Ha Hb].
      apply Forall_app. split; [exact Ha|].
      change (L "- [" ++ m0 :: L "]" ++ rest)
        with (45 :: 32 :: 91 :: m0 :: 93 :: rest)%N in Hb.
      change (L "- [" ++ m :: L "]" ++ rest)
        with (45 :: 32 :: 91 :: m :: 93 :: rest)%N.
      repeat match goal with
        | H : Forall _ (_ :: _) |- _ => inversion H; clear H; subst
        end.
      repeat constructor; try assumption.
      unfold is_dot, is_line_terminator in Hm. unfold is_nl.
      destruct (N.eqb m 10); [discriminate|reflexivity].
    + now rewrite (Hc1 eq_refl).
Qed.


(** X15.  [updateTaskCheckbox] with a marker of one character (not a
    dollar sign, not a line terminator), for a task id that is a pattern
    [parsePattern] covers, returns a text that differs in at most one
    line: the first line that matches the pattern of the id.  When that
    line is a task line, its checkbox gets the marker and the rest of
    the line stays, so [extractCheckboxMarker] reads the marker back;
    when it is not, the text is unchanged, and so it is when no line
    matches. *)
Theorem updateTaskCheckbox_first_line :
  forall content taskId (m : char),
    is_dot m = true -> m <> 36%N ->
    TaskScheduler.parsePattern taskId <> None ->
    exists re c',
      TaskScheduler.idPattern taskId = Some re /\
      updateTaskCheckbox content taskId [m] = Some c' /\
      ((Forall (fun l => test re l = false) (split_lines content) /\
        c' = content) \/
       (exists pre l post l',
          split_lines content = pre ++ l :: post /\
          Forall (fun x => test re x = false) pre /\ test re l = true /\
          split_lines c' = pre ++ l' :: post /\
          (isTask l = false -> l' = l) /\
          (isTask l = true ->
           TaskNoteManager.extractCheckboxMarker l' = Some [m] /\
           exists tabs m0 rest,
             l = tabs ++ L "- [" ++ m0 :: L "]" ++ rest /\
             l' = tabs ++ L "- [" ++ m :: L "]" ++ rest))).
Proof.
  intros content taskId m Hm Hd Hid.
  assert (Hc : exists c', updateTaskCheckbox content taskId [m] = Some c').
  { unfold updateTaskCheckbox, TaskScheduler.idPattern.
    destruct (TaskScheduler.parsePattern taskId); [|congruence].
    cbn [option_map]. eauto. }
  destruct Hc as [c' Hc].
  destruct (updateTaskCheckbox_result content taskId m c' Hm Hd Hc)
    as [re [Hre H]].
  exists re, c'. split; [exact Hre|]. split; [exact Hc|exact H].
Qed.

Lemma updateTaskCheckbox_first_line_witness :
  exists re c',
    TaskScheduler.idPattern (L "t2") = Some re /\
    updateTaskCheckbox (L "- [ ] a [id::t1]" ++ NL ++ L "- [ ] b [id::t2] x")
      (L "t2") [ch "x"] = Some c' /\
    ((Forall (fun l => test re l = false)
        (split_lines (L "- [ ] a [id::t1]" ++ NL ++ L "- [ ] b [id::t2] x")) /\
      c' = L "- [ ] a [id::t1]" ++ NL ++ L "- [ ] b [id::t2] x") \/
     (exists pre l post l',
        split_lines (L "- [ ] a [id::t1]" ++ NL ++ L "- [ ] b [id::t2] x")
        = pre ++ l :: post /\
        Forall (fun x => test re x = false) pre /\ test re l = true /\
        split_lines c' = pre ++ l' :: post /\
        (isTask l = false -> l' = l) /\
        (isTask l = true ->
         TaskNoteManager.extractCheckboxMarker l' = Some [ch "x"] /\
         exists tabs m0 rest,
           l = tabs ++ L "- [" ++ m0 :: L "]" ++ rest /\
           l' = tabs ++ L "- [" ++ ch "x" :: L "]" ++ rest))).
Proof.
  apply (updateTaskCheckbox_first_line
           (L "- [ ] a [id::t1]" ++ NL ++ L "- [ ] b [id::t2] x") (L "t2")
           (ch "x")).
  - reflexivity.
  - discriminate.
  - vm_compute. discriminate.
Defined.

End CheckboxFirstLine.

(* ------------------------------------------------------------------ *)
(** ** The order of the time blocks *)
(* ------------------------------------------------------------------ *)

Section TimeBlockOutput.
Import TaskUtils TimeBlockSorter.

(** X19.  The output of [sortByTimeBlock] lists first the items whose
    line shows a time block, ordered by the start and then by the end of
    the block the line shows, then the items whose line shows none, then
    the archived callout.  Every top-level task line of the text is the
    line of an item of the part its time block selects. *)
Theorem sortByTimeBlock_chronological :
  forall content,
    exists (timed untimed : list Item) (sep archive : list jsstring),
      sortByTimeBlock content
      = join_lines (flat_map emitItem timed ++ sep
                    ++ flat_map emitItem untimed ++ archive) /\
      (sep = [] \/ sep = [[]]) /\
      (forall i j a b,
         i < j -> nth_error timed i = Some a -> nth_error timed j = Some b ->
         exists sa ea sb eb,
           timeOf (line a) = Some (sa, ea) /\ timeOf (line b) = Some (sb, eb) /\
           (sa < sb \/ (sa = sb /\ ea <= eb))) /\
      Forall (fun it => timeOf (line it) <> None) timed /\
      Forall (fun it => timeOf (line it) = None) untimed /\
      (forall l, In l (split_lines content) -> isParentTask l = true ->
         (timeOf l <> None -> In l (map line timed)) /\
         (timeOf l = None -> In l (map line untimed))) /\
      Forall (fun it => Forall (fun l => isSubtask l = true) (subtasks it))
        (timed ++ untimed) /\
      Forall (fun l => test_at TaskArchiver.ARCHIVE_CALLOUT_START l = true \/
                       test_at TaskArchiver.ARCHIVE_LINE l = true \/
                       trim l = []) archive.
Proof.
  intros content.
  set (lines := split_lines content).
  set (s := scan (length lines) lines false arrays0).
  set (sorted := js_sort compare_items (scheduledItems s)).
  destruct (scan_scan_ok lines (length lines) lines false arrays0
              (incl_refl _) (arrays0_ok lines)) as [H1 [H2 H3]].
  fold s in H1, H2, H3.
  assert (Hsorted : Forall (fun x => item_ok lines (item x) /\
                                     timeOf (line (item x))
                                     = Some (startMinutes x, endMinutes x))
                      sorted)
    by (apply js_sort_Forall; exact H1).
  exists (map item sorted), (unscheduledItems s),
    (match unscheduledItems s, sorted with
     | _ :: _, _ :: _ => [[]]
     | _, _ => []
     end),
    (match archivedSection s with
     | [] => []
     | _ :: _ => [] :: archivedSection s
     end).
  split; [|split; [|split; [|split; [|split; [|split; [|split]]]]]].
  - unfold sortByTimeBlock, sortLines, buildResult. fold lines s sorted.
    assert (E : flat_map emitItem (map item sorted)
                = flat_map (fun x => emitItem (item x)) sorted).
    { clear. induction sorted as [|x l IH]; [reflexivity|].
      cbn [map flat_map]. now rewrite IH. }
    rewrite E. reflexivity.
  - destruct (unscheduledItems s); [now left|].
    destruct sorted; [now left|now right].
  - intros i j a b Hij Ha Hb. rewrite nth_error_map in Ha, Hb.
    destruct (nth_error sorted i) as [x|] eqn:Ex; [|discriminate].
    destruct (nth_error sorted j) as [y|] eqn:Ey; [|discriminate].
    cbn in Ha, Hb. injection Ha as <-. injection Hb as <-.
    rewrite Forall_forall in Hsorted.
    destruct (Hsorted x (nth_error_In _ _ Ex)) as [_ Tx].
    destruct (Hsorted y (nth_error_In _ _ Ey)) as [_ Ty].
    exists (startMinutes x), (endMinutes x), (startMinutes y), (endMinutes y).
    split; [exact Tx|]. split; [exact Ty|].
    exact (StronglySorted_nth _ earlier sorted (sorted_earlier _)
             i j x y Hij Ex Ey).
  - rewrite Forall_map. eapply Forall_impl; [|exact Hsorted].
    intros x [_ Hx]. cbn. rewrite Hx. discriminate.
  - eapply Forall_impl; [|exact H2]. intros x [_ Hx]. exact Hx.
  - intros l Hl Hp.
    assert (Hin : In l (item_lines s)).
    { apply scan_keeps; [lia|]. right. now split. }
    unfold item_lines in Hin. apply in_app_or in Hin. split; intros Ht.
    + destruct Hin as [Hin|Hin].
      * rewrite map_map. apply in_map_iff in Hin. destruct Hin as [x [<- Hx]].
        apply in_map_iff. exists x. split; [reflexivity|].
        now apply (Permutation_in _ (Permutation_sym (js_sort_perm _ compare_items _))).
      * exfalso. apply in_map_iff in Hin. destruct Hin as [x [<- Hx]].
        rewrite Forall_forall in H2. destruct (H2 x Hx) as [_ Hn]. congruence.
    + destruct Hin as [Hin|Hin]; [|exact Hin].
      exfalso. apply in_map_iff in Hin. destruct Hin as [x [<- Hx]].
      rewrite Forall_forall in H1. destruct (H1 x Hx) as [_ Hn]. congruence.
  - apply Forall_app. split.
    + rewrite Forall_map. eapply Forall_impl; [|exact Hsorted].
      intros x [[_ [_ Hs]] _]. cbn. eapply Forall_impl; [|exact Hs].
      intros y [_ Hy]. exact Hy.
    + eapply Forall_impl; [|exact H2].
      intros x [[_ [_ Hs]] _]. eapply Forall_impl; [|exact Hs].
      intros y [_ Hy]. exact Hy.
  - destruct (archivedSection s) as [|a0 ar] eqn:Ea; [constructor|].
    constructor; [right; right; reflexivity|].
    eapply Forall_impl; [|exact H3]. intros x [_ Hx]. exact Hx.
Qed.

End TimeBlockOutput.

(* ------------------------------------------------------------------ *)
(** ** C7: the order of the sorted lines *)
(* ------------------------------------------------------------------ *)

Section SorterOutput.
Import TaskUtils TaskSorter.

Lemma parent_not_subtask l : isParentTask l = true -> isSubtask l = false.
Proof.
  intros H. destruct (isParentTask_inv l H) as [m [rest [-> Hm]]].
  destruct (parent_tests m rest Hm) as [_ [_ [F _]]]. exact F.
Qed.

Lemma parent_not_heading l :
  isParentTask l = true -> test_at COMPLETED_HEADING l = false.
Proof.
  intros H. destruct (isParentTask_inv l H) as [m [rest [-> Hm]]]. reflexivity.
Qed.

Lemma parent_not_blank l : isParentTask l = true -> trim l <> [].
Proof.
  intros H. destruct (isParentTask_inv l H) as [m [rest [-> Hm]]].
  change (L "- [" ++ m :: L "]" ++ rest)
    with (45 :: 32 :: 91 :: m :: 93 :: rest)%N.
  unfold trim. cbn [trimStart]. change (is_ws 45%N) with false. cbv iota.
  cbn [trimEnd]. destruct (trimEnd _); discriminate.
Qed.

Lemma filter_parent_subtasks ls :
  Forall (fun l => isSubtask l = true) ls -> filter isParentTask ls = [].
Proof.
  induction 1 as [|l ls Hl Hls IH]; [reflexivity|]. cbn [filter].
  destruct (isParentTask l) eqn:E; [|exact IH].
  apply parent_not_subtask in E. congruence.
Qed.

Lemma filter_parent_others ls :
  Forall (fun l => isParentTask l = false) ls -> filter isParentTask ls = [].
Proof.
  induction 1 as [|l ls Hl Hls IH]; [reflexivity|]. cbn [filter].
  now rewrite Hl.
Qed.

(** The lines that [pop_blank_trimmed] removes are blank. *)
Lemma pop_blank_trimmed_parents r :
  filter isParentTask (pop_blank_trimmed r) = filter isParentTask r.
Proof.
  assert (Hc : forall a l,
            filter isParentTask (a :: l)
            = if isParentTask a then a :: filter isParentTask l
              else filter isParentTask l) by reflexivity.
  induction r as [|x r IH]; [reflexivity|]. cbn [pop_blank_trimmed].
  destruct (pop_blank_trimmed r) as [|y r'] eqn:E.
  - rewrite (Hc x r), <- IH.
    destruct (trim x) eqn:Et; [|reflexivity].
    destruct (isParentTask x) eqn:Ep; [|reflexivity].
    apply parent_not_blank in Ep. congruence.
  - rewrite (Hc x (y :: r')), (Hc x r), IH. reflexivity.
Qed.

(** An entry of the output: a top-level task line and subtask lines. *)
Definition entry_ok (e : Entry) : Prop :=
  isParentTask (fst e) = true /\ Forall (fun l => isSubtask l = true) (snd e).

Lemma filter_parent_entries es :
  Forall entry_ok es -> filter isParentTask (flat_map emit es) = map fst es.
Proof.
  induction 1 as [|e es [Hp Hs] Hes IH]; [reflexivity|].
  cbn [flat_map map]. unfold emit at 1. cbn [app filter].
  rewrite Hp, filter_app, (filter_parent_subtasks _ Hs), IH. reflexivity.
Qed.

(** What the first loop has collected from the lines [seen]. *)
Definition scan_inv (seen : list jsstring) (s : Scan) : Prop :=
  Forall (fun p => isParentTask (pt_line p) = true) (allParentTasks s) /\
  Forall (fun st => isSubtask (st_line st) = true) (allSubtasks s) /\
  Forall (fun t => entry_ok (of_completed t)) (completedTasks s) /\
  Forall (fun o => isParentTask (ol_line o) = false) (otherLines s) /\
  (forall l, In l seen -> isParentTask l = true ->
     In l (map pt_line (allParentTasks s)) \/
     In l (map ct_parent (completedTasks s))).

Lemma push_subtask_ok line t :
  isSubtask line = true -> entry_ok (of_completed t) ->
  entry_ok (of_completed (push_subtask line t)).
Proof.
  intros Hl [Hp Hs]. split; [exact Hp|]. cbn.
  apply Forall_app. split; [exact Hs|]. now constructor.
Qed.

Lemma push_to_last_ok line ts :
  isSubtask line = true ->
  Forall (fun t => entry_ok (of_completed t)) ts ->
  Forall (fun t => entry_ok (of_completed t)) (push_to_last line ts) /\
  map ct_parent (push_to_last line ts) = map ct_parent ts.
Proof.
  intros Hl. induction 1 as [|t ts Ht Hts [IH1 IH2]];
    [split; [constructor|reflexivity]|].
  cbn [push_to_last]. destruct ts as [|t' ts'].
  - split; [constructor; [now apply push_subtask_ok|constructor]|reflexivity].
  - split; [constructor; assumption|]. cbn [map] in *. now rewrite IH2.
Qed.

Lemma push_to_found_ok pid line ts ts' :
  isSubtask line = true ->
  Forall (fun t => entry_ok (of_completed t)) ts ->
  push_to_found pid line ts = Some ts' ->
  Forall (fun t => entry_ok (of_completed t)) ts' /\
  map ct_parent ts' = map ct_parent ts.
Proof.
  intros Hl H. revert ts'. induction H as [|t ts Ht Hts IH]; intros ts' E;
    [discriminate|].
  cbn [push_to_found] in E. destruct (id_eqb (ct_id t) pid).
  - injection E as <-.
    split; [constructor; [now apply push_subtask_ok|exact Hts]|reflexivity].
  - destruct (push_to_found pid line ts) as [r|]; [|discriminate].
    injection E as <-. destruct (IH r eq_refl) as [I1 I2].
    split; [now constructor|]. cbn [map]. now rewrite I2.
Qed.

Lemma scan_line_inv seen i line s :
  scan_inv seen s -> scan_inv (seen ++ [line]) (scan_line i line s).
Proof.
  intros [P1 [P2 [P3 [P4 P5]]]].
  assert (Hstep : forall s',
            Forall (fun p => isParentTask (pt_line p) = true) (allParentTasks s') ->
            Forall (fun st => isSubtask (st_line st) = true) (allSubtasks s') ->
            Forall (fun t => entry_ok (of_completed t)) (completedTasks s') ->
            Forall (fun o => isParentTask (ol_line o) = false) (otherLines s') ->
            incl (map pt_line (allParentTasks s)) (map pt_line (allParentTasks s')) ->
            incl (map ct_parent (completedTasks s)) (map ct_parent (completedTasks s')) ->
            (isParentTask line = true ->
             In line (map pt_line (allParentTasks s')) \/
             In line (map ct_parent (completedTasks s'))) ->
            scan_inv (seen ++ [line]) s').
  { intros s' Q1 Q2 Q3 Q4 I1 I2 Hline. repeat split; try assumption.
    intros l Hl Hp. apply in_app_or in Hl. destruct Hl as [Hl|[<-|[]]].
    - destruct (P5 l Hl Hp) as [H|H]; [left; now apply I1|right; now apply I2].
    - now apply Hline. }
  unfold scan_line.
  destruct (test_at COMPLETED_HEADING line) eqn:Eh.
  { apply Hstep; cbn; try assumption; try apply incl_refl.
    intros Hp. apply parent_not_heading in Hp. congruence. }
  destruct (inCompletedSection s).
  - destruct (isParentTask line) eqn:Ep.
    { apply Hstep; cbn; try assumption; try apply incl_refl.
      - apply Forall_app. split; [exact P3|].
        constructor; [|constructor]. split; [exact Ep|constructor].
      - rewrite map_app. apply incl_appl, incl_refl.
      - intros _. right. rewrite map_app. apply in_or_app. right. now left. }
    destruct (isSubtask line && negb (length (completedTasks s) =? 0)) eqn:Es.
    { apply andb_true_iff in Es. destruct Es as [Es _].
      assert (Hc : forall ts,
                Forall (fun t => entry_ok (of_completed t)) ts ->
                map ct_parent ts = map ct_parent (completedTasks s) ->
                scan_inv (seen ++ [line])
                  {| completedTasks := ts; inCompletedSection := true;
                     allParentTasks := allParentTasks s;
                     allSubtasks := allSubtasks s;
                     otherLines := otherLines s; inTaskArea := inTaskArea s |}).
      { intros ts Hts Hm. apply Hstep; cbn; try assumption; try apply incl_refl.
        - rewrite Hm. apply incl_refl.
        - discriminate. }
      pose proof (push_to_last_ok line (completedTasks s) Es P3) as [L1 L2].
      destruct (truthy (extractParentId line)); [|now apply Hc].
      destruct (push_to_found (extractParentId line) line (completedTasks s))
        as [ts|] eqn:Ef; [|now apply Hc].
      destruct (push_to_found_ok _ _ _ _ Es P3 Ef) as [F1 F2].
      now apply Hc. }
    destruct (test_at HEADING line).
    + apply Hstep; cbn; try assumption; try apply incl_refl; [|discriminate].
      apply Forall_app. split; [exact P4|]. now repeat constructor.
    + apply Hstep; try assumption; try apply incl_refl. discriminate.
  - destruct (isParentTask line) eqn:Ep.
    { apply Hstep; cbn; try assumption; try apply incl_refl.
      - apply Forall_app. split; [exact P1|]. now repeat constructor.
      - rewrite map_app. apply incl_appl, incl_refl.
      - intros _. left. rewrite map_app. apply in_or_app. right. now left. }
    destruct (isSubtask line) eqn:Es.
    + apply Hstep; cbn; try assumption; try apply incl_refl; [|discriminate].
      apply Forall_app. split; [exact P2|]. now repeat constructor.
    + apply Hstep; cbn; try assumption; try apply incl_refl; [|discriminate].
      apply Forall_app. split; [exact P4|]. now repeat constructor.
Qed.

Lemma scan_lines_inv lines : forall seen i s,
  scan_inv seen s -> scan_inv (seen ++ lines) (scan_lines i lines s).
Proof.
  induction lines as [|line rest IH]; intros seen i s H.
  - now rewrite app_nil_r.
  - cbn [scan_lines].
    replace (seen ++ line :: rest) with ((seen ++ [line]) ++ rest)
      by now rewrite <- app_assoc.
    apply IH. now apply scan_line_inv.
Qed.

Lemma scan0_inv : scan_inv [] scan0.
Proof.
  unfold scan_inv, scan0. cbn.
  split; [constructor|]. split; [constructor|]. split; [constructor|].
  split; [constructor|]. intros x Hx. destruct Hx.
Qed.


Lemma legacy_subtasks_Forall (P : jsstring -> Prop) parents p subs :
  Forall (fun st => P (st_line st)) subs ->
  forall acc, Forall P acc -> Forall P (legacy_subtasks parents p subs acc).
Proof.
  induction 1 as [|st subs Hst Hsubs IH]; intros acc Hacc; [exact Hacc|].
  cbn [legacy_subtasks]. apply IH.
  destruct (negb (truthy (st_parentId st))); [|exact Hacc].
  destruct (closestParent parents st); [|exact Hacc].
  destruct ((pt_index p0 =? pt_index p) && _); [|exact Hacc].
  destruct (negb (mem_line (st_line st) acc)); [|exact Hacc].
  apply Forall_app. split; [exact Hacc|]. now constructor.
Qed.

Lemma linked_subtasks_Forall (P : jsstring -> Prop) p subs :
  Forall (fun st => P (st_line st)) subs -> Forall P (linked_subtasks p subs).
Proof.
  intros H. unfold linked_subtasks. destruct (truthy (pt_id p)); [|constructor].
  rewrite Forall_map. rewrite Forall_forall in *. intros st Hst.
  apply filter_In in Hst. now apply H.
Qed.

(** A group as [build_group] makes it: a top-level task line, subtask
    lines, and the key of the line. *)
Definition group_ok (g : TaskGroup) : Prop :=
  entry_ok (of_group g) /\ sortKey g = getTaskSortKey (parent g).

Lemma build_group_ok parents subs p :
  isParentTask (pt_line p) = true ->
  Forall (fun st => isSubtask (st_line st) = true) subs ->
  group_ok (build_group parents subs p).
Proof.
  intros Hp Hs. split; [|reflexivity]. split; [exact Hp|]. cbn.
  apply legacy_subtasks_Forall; [exact Hs|].
  now apply linked_subtasks_Forall.
Qed.

Lemma flat_map_map (A B C : Type) (f : B -> list C) (g : A -> B) l :
  flat_map f (map g l) = flat_map (fun x => f (g x)) l.
Proof. induction l as [|x l IH]; [reflexivity|]. cbn. now rewrite IH. Qed.

Lemma sorted_groups_keys gs :
  Forall group_ok gs ->
  map getTaskSortKey (map parent gs) = map sortKey gs.
Proof.
  induction 1 as [|g gs [_ Hk] Hgs IH]; [reflexivity|].
  cbn [map]. now rewrite IH, Hk.
Qed.

(** C7, amended.  The output of the sorter is a first block, then, when
    there is a completed task, an empty line and the heading
    [## Completed], and a second block.  In each block the top-level task
    lines, read by [getTaskSortKey] in the order of the output, are in
    chronological order: those with a time block by (start, end), those
    without one after them.  The top-level tasks of the first block are
    incomplete, and every top-level task line of the text is in one of
    the two blocks. *)
Theorem sortContent_blocks_chronological :
  forall content,
    exists block1 heading block2,
      sortContent content = join_lines (block1 ++ heading ++ block2) /\
      ((heading = [] /\ block2 = []) \/ heading = [[]; L "## Completed"]) /\
      Forall (fun l => isParentTask l = true -> isCompleted l = false) block1 /\
      chronological (map getTaskSortKey (filter isParentTask block1)) /\
      chronological (map getTaskSortKey (filter isParentTask block2)) /\
      (forall l, In l (split_lines content) -> isParentTask l = true ->
                 In l (block1 ++ block2)).
Proof.
  intros content.
  set (lines := split_lines content).
  set (s := scan_lines 0 lines scan0).
  pose proof (scan_lines_inv lines [] 0 scan0 scan0_inv) as Hinv.
  cbn [app] in Hinv. fold s in Hinv.
  destruct Hinv as [P1 [P2 [P3 [P4 P5]]]].
  set (groups := map (build_group (allParentTasks s) (allSubtasks s))
                   (allParentTasks s)).
  assert (Hgroups : Forall group_ok groups).
  { unfold groups. rewrite Forall_map. eapply Forall_impl; [|exact P1].
    intros p Hp. now apply build_group_ok. }
  set (incomplete := js_sort compare_groups
                       (filter (fun g => negb (isCompleted (parent g))) groups)).
  set (completed := js_sort compare_groups
                      (filter (fun g => isCompleted (parent g)) groups)).
  set (entries := js_sort compare_entries
                    (map of_group completed
                     ++ map of_completed (completedTasks s))).
  set (p := sortParts lines).
  assert (Ei : incompleteGroups p = incomplete) by reflexivity.
  assert (Ec : allCompleted p = entries) by reflexivity.
  assert (Hinc : Forall (fun g => group_ok g /\ isCompleted (parent g) = false)
                   incomplete).
  { apply js_sort_Forall. rewrite Forall_forall in *. intros g Hg.
    apply filter_In in Hg. destruct Hg as [Hg Hc].
    split; [now apply Hgroups|]. now apply negb_true_iff in Hc. }
  assert (Hcomp : Forall group_ok completed).
  { apply js_sort_Forall. rewrite Forall_forall in *. intros g Hg.
    apply filter_In in Hg. destruct Hg as [Hg _]. now apply Hgroups. }
  assert (Hent : Forall entry_ok entries).
  { apply js_sort_Forall. apply Forall_app. split.
    - rewrite Forall_map. eapply Forall_impl; [|exact Hcomp].
      intros g [Hg _]. exact Hg.
    - rewrite Forall_map. exact P3. }
  assert (Hbefore : Forall (fun l => isParentTask l = false) (before p)).
  { unfold p, sortParts. cbn [before]. fold lines s. rewrite Forall_map.
    rewrite Forall_forall in *. intros o Ho. apply filter_In in Ho.
    now apply P4. }
  assert (Hafter : Forall (fun l => isParentTask l = false) (after p)).
  { unfold p, sortParts. cbn [after]. fold lines s. rewrite Forall_map.
    rewrite Forall_forall in *. intros o Ho. apply filter_In in Ho.
    now apply P4. }
  set (result := before p
                 ++ flat_map (fun g => emit (of_group g)) (incompleteGroups p)
                 ++ after p).
  assert (Hres : filter isParentTask result = map parent incomplete).
  { unfold result. rewrite !filter_app, Ei.
    rewrite (filter_parent_others _ Hbefore), (filter_parent_others _ Hafter).
    rewrite app_nil_r. cbn [app]. rewrite <- flat_map_map.
    rewrite filter_parent_entries.
    - rewrite map_map. reflexivity.
    - rewrite Forall_map. eapply Forall_impl; [|exact Hinc].
      intros g [[Hg _] _]. exact Hg. }
  set (block1 := match allCompleted p with
                 | [] => result
                 | _ :: _ => pop_blank_trimmed result
                 end).
  assert (Hb1 : filter isParentTask block1 = map parent incomplete).
  { unfold block1. destruct (allCompleted p); [exact Hres|].
    now rewrite pop_blank_trimmed_parents. }
  assert (Hb2 : filter isParentTask (flat_map emit entries) = map fst entries)
    by now apply filter_parent_entries.
  exists block1,
    (match allCompleted p with [] => [] | _ :: _ => [[]; L "## Completed"] end),
    (flat_map emit entries).
  split; [|split; [|split; [|split; [|split]]]].
  - unfold sortContent. fold lines p. f_equal. unfold rebuild, block1.
    fold result. rewrite Ec. destruct entries; [|reflexivity].
    cbn [flat_map app]. now rewrite app_nil_r.
  - rewrite Ec. destruct entries; [left; now split|now right].
  - rewrite Forall_forall. intros l Hl Hp.
    assert (Hin : In l (filter isParentTask block1))
      by (apply filter_In; now split).
    rewrite Hb1 in Hin. apply in_map_iff in Hin. destruct Hin as [g [<- Hg]].
    rewrite Forall_forall in Hinc. now apply Hinc.
  - rewrite Hb1, sorted_groups_keys.
    + unfold incomplete, compare_groups. apply sorted_keys_chronological.
      rewrite Forall_forall in *. intros g Hg. apply filter_In in Hg.
      destruct Hg as [Hg _]. destruct (Hgroups g Hg) as [_ ->].
      apply getTaskSortKey_wf.
    + eapply Forall_impl; [|exact Hinc]. intros g [Hg _]. exact Hg.
  - rewrite Hb2, map_map. unfold entries, compare_entries.
    apply (sorted_keys_chronological _ (fun e => getTaskSortKey (fst e))).
    rewrite Forall_forall. intros; apply getTaskSortKey_wf.
  - intros l Hl Hp.
    assert (Hperm : forall (A : Type) (cmp : A -> A -> sign) x xs,
              In x xs -> In x (js_sort cmp xs)).
    { intros A cmp x xs Hx. clear -Hx.
      induction xs as [|y xs IH]; [destruct Hx|]. cbn [js_sort].
      assert (Hins : forall z zs, In x (z :: zs) -> In x (insert_sorted cmp z zs)).
      { intros z zs. induction zs as [|u zs IHz]; intros Hz; [exact Hz|].
        cbn [insert_sorted]. destruct (cmp z u); try exact Hz.
        destruct Hz as [<-|[<-|Hz]].
        - right. apply IHz. now left.
        - now left.
        - right. apply IHz. now right. }
      apply Hins. destruct Hx as [<-|Hx]; [now left|right; now apply IH]. }
    assert (Hblock2 : forall e, In e (map of_group completed
                                      ++ map of_completed (completedTasks s)) ->
                                In (fst e) (flat_map emit entries)).
    { intros e He. apply in_flat_map. exists e.
      split; [now apply Hperm|now left]. }
    apply in_or_app.
    destruct (P5 l Hl Hp) as [Hin|Hin].
    + apply in_map_iff in Hin. destruct Hin as [p0 [<- Hp0]].
      set (g := build_group (allParentTasks s) (allSubtasks s) p0).
      assert (Hg : In g groups) by (unfold groups; now apply in_map).
      destruct (isCompleted (pt_line p0)) eqn:Ecomp.
      * right. apply (Hblock2 (of_group g)). apply in_or_app. left.
        apply in_map. apply Hperm. apply filter_In. now split.
      * left.
        assert (Hin : In (pt_line p0) (filter isParentTask block1)).
        { rewrite Hb1. apply in_map_iff. exists g. split; [reflexivity|].
          apply Hperm. apply filter_In. split; [exact Hg|].
          cbn. now rewrite Ecomp. }
        apply filter_In in Hin. tauto.
    + right. apply in_map_iff in Hin. destruct Hin as [t [<- Ht]].
      apply (Hblock2 (of_completed t)). apply in_or_app. right.
      now apply in_map.
Qed.

End SorterOutput.

(* ------------------------------------------------------------------ *)
(** ** C10: unscheduling without the link *)
(* ------------------------------------------------------------------ *)

Section DegradedReset.
Import TaskUtils TaskScheduler.






End DegradedReset.


(* ------------------------------------------------------------------ *)
(** ** C4: the partition made by the archiver, line by line *)
(* ------------------------------------------------------------------ *)

Section ArchiverLines.
Import TaskUtils TaskArchiver.

(** How many of the lines [ls] are the line [l]. *)
Definition occurrences (l : jsstring) (ls : list jsstring) : nat :=
  length (filter (str_eqb l) ls).

Lemma occurrences_app l a b :
  occurrences l (a ++ b) = occurrences l a + occurrences l b.
Proof. unfold occurrences. now rewrite filter_app, length_app. Qed.

Lemma occurrences_cons l x ls :
  occurrences l (x :: ls)
  = (if str_eqb l x then 1 else 0) + occurrences l ls.
Proof. unfold occurrences. cbn [filter]. now destruct (str_eqb l x). Qed.

Lemma occurrences_nil l : occurrences l [] = 0.
Proof. reflexivity. Qed.

Lemma occurrences_other l x ls :
  l <> x -> occurrences l (x :: ls) = occurrences l ls.
Proof.
  intros H. rewrite occurrences_cons.
  destruct (str_eqb l x) eqn:E; [|reflexivity].
  apply str_eqb_eq in E. congruence.
Qed.

Lemma occurrences_In l ls : In l ls -> 0 < occurrences l ls.
Proof.
  induction ls as [|x ls IH]; [intros []|]. rewrite occurrences_cons.
  intros [->|H]; [rewrite str_eqb_refl; lia|]. specialize (IH H). lia.
Qed.

Lemma occurrences_not_In l ls : ~ In l ls -> occurrences l ls = 0.
Proof.
  induction ls as [|x ls IH]; [reflexivity|]. intros H.
  rewrite occurrences_other; [apply IH|]; intros E; apply H;
    [now right|now left].
Qed.

Lemma str_eqb_app p a b : str_eqb (p ++ a) (p ++ b) = str_eqb a b.
Proof.
  induction p as [|c p IH]; [reflexivity|]. cbn [app str_eqb].
  now rewrite N.eqb_refl, IH.
Qed.

Lemma occurrences_prefixed p l ls :
  occurrences (p ++ l) (map (fun x => p ++ x) ls) = occurrences l ls.
Proof.
  induction ls as [|x ls IH]; [reflexivity|]. cbn [map].
  rewrite !occurrences_cons, IH, str_eqb_app. reflexivity.
Qed.

Lemma occurrences_pop_empty l ls :
  l <> [] -> occurrences l (pop_empty ls) = occurrences l ls.
Proof.
  intros Hl. induction ls as [|x ls IH]; [reflexivity|].
  cbn [pop_empty]. destruct (pop_empty ls) as [|y r] eqn:E.
  - rewrite occurrences_cons, <- IH. destruct x as [|c x].
    + destruct (str_eqb l []) eqn:Ee; [|reflexivity].
      apply str_eqb_eq in Ee. congruence.
    + now rewrite occurrences_cons.
  - rewrite (occurrences_cons l x (y :: r)), (occurrences_cons l x ls), IH.
    reflexivity.
Qed.

Lemma occurrences_repeat l n : l <> [] -> occurrences l (repeat [] n) = 0.
Proof.
  intros Hl. induction n as [|n IH]; [reflexivity|]. cbn [repeat].
  rewrite occurrences_other; [exact IH|exact Hl].
Qed.

(** A task line is tabs, then a dash. *)
Lemma task_inv l :
  isTask l = true -> exists tabs y, l = tabs ++ 45%N :: y /\ all_tabs tabs.
Proof.
  unfold isTask, test_at, TASK_PATTERN. intros H.
  destruct (exec_tabs_inv [Lit (L "- ["); One is_dot; Lit (L "]")] l)
    as [tabs [x [E [Ht [_ Hex]]]]].
  - intros c s'. now apply lit_rejects_tab.
  - intros Hn. rewrite Hn in H. discriminate H.
  - cbn [exec] in Hex. destruct (starts_with (L "- [") x) eqn:Es; [|congruence].
    apply starts_with_split in Es.
    exists tabs, (32%N :: 91%N :: skipn (length (L "- [")) x).
    split; [|exact Ht]. rewrite E. f_equal. exact Es.
Qed.

Lemma task_first_char l :
  isTask l = true -> exists c r, l = c :: r /\ (c = 9 \/ c = 45)%N.
Proof.
  intros H. destruct (task_inv l H) as [tabs [y [-> Ht]]].
  destruct Ht as [|t tabs Hc Ht].
  - exists 45%N, y. split; [reflexivity|now right].
  - exists t, (tabs ++ 45%N :: y). split; [reflexivity|left].
    now apply N.eqb_eq in Hc.
Qed.

Lemma task_not_header l x :
  isTask l = true -> test_at ARCHIVE_CALLOUT_START x = true -> l <> x.
Proof.
  intros Hl Hx ->. destruct (task_first_char x Hl) as [c [r [-> [-> | ->]]]];
    discriminate.
Qed.

Lemma task_not_quoted l x :
  isTask l = true -> test_at ARCHIVE_LINE x = true -> l <> x.
Proof.
  intros Hl Hx ->. destruct (task_first_char x Hl) as [c [r [-> [-> | ->]]]];
    discriminate.
Qed.

Lemma task_not_blank l x : isTask l = true -> trim x = [] -> l <> x.
Proof.
  intros Hl Hx ->. destruct (task_inv x Hl) as [tabs [y [-> Ht]]].
  assert (Hts : trimStart (tabs ++ 45%N :: y) = 45%N :: y).
  { clear Hl Hx. induction Ht as [|a t Ha Hall IH]; [reflexivity|].
    cbn [app trimStart]. now rewrite (is_tab_ws a Ha). }
  unfold trim in Hx. rewrite Hts in Hx. cbn [trimEnd] in Hx.
  destruct (trimEnd y); discriminate.
Qed.

Lemma quoted_inv x : test_at ARCHIVE_LINE x = true -> x = L "> " ++ skipn 2 x.
Proof.
  unfold test_at, ARCHIVE_LINE. cbn [exec]. intros H.
  destruct (starts_with (L "> ") x) eqn:E; [|discriminate].
  now apply starts_with_split in E.
Qed.

(** The lines of the four bins that are [l]. *)
Definition held (l : jsstring) (b : Bins) : nat :=
  occurrences l (calendarEvents b ++ activeTasks b)
  + occurrences l (archivedTasks b ++ existingArchiveContent b).

(** The first pass loses and copies no task line: a task line [l] is as
    many times in the bins as it was among the lines, and once more for
    every line of the old callout that held it. *)
Lemma categorize_count l :
  isTask l = true ->
  forall fuel lines inArch b,
    length lines <= fuel ->
    held l b + occurrences l lines <= held l (categorize fuel lines inArch b) /\
    held l (categorize fuel lines inArch b)
    <= held l b + occurrences l lines + occurrences (L "> " ++ l) lines.
Proof.
  intros Hl. induction fuel as [|fuel IH]; intros lines inArch b Hlen.
  { destruct lines; [|simpl in Hlen; lia]. cbn [categorize].
    rewrite !occurrences_nil. lia. }
  destruct lines as [|line tl]; [cbn [categorize]; rewrite !occurrences_nil; lia|].
  cbn [length] in Hlen. cbn [categorize].
  pose proof (occurrences_cons l line tl) as Hc.
  pose proof (occurrences_cons (L "> " ++ l) line tl) as Hq.
  destruct (test_at ARCHIVE_CALLOUT_START line) eqn:Ecall.
  { destruct (IH tl true b ltac:(lia)) as [I1 I2].
    rewrite (occurrences_other l line tl) by now apply task_not_header. lia. }
  destruct (inArch && test_at ARCHIVE_LINE line) eqn:Earch.
  { apply andb_true_iff in Earch. destruct Earch as [_ Earch].
    match goal with
    | |- context [categorize fuel tl true ?b1] =>
        destruct (IH tl true b1 ltac:(lia)) as [I1 I2];
        assert (Hh : held l b1
                     = held l b + (if str_eqb l (skipn 2 line) then 1 else 0))
    end.
    { unfold held. cbn [calendarEvents activeTasks archivedTasks
                        existingArchiveContent].
      unfold substring_from.
      rewrite !occurrences_app, !occurrences_cons, !occurrences_nil. lia. }
    rewrite Hh in I1, I2.
    rewrite (occurrences_other l line tl) by now apply task_not_quoted.
    assert (Hle : (if str_eqb l (skipn 2 line) then 1 else 0)
                  <= (if str_eqb (L "> " ++ l) line then 1 else 0)).
    { destruct (str_eqb l (skipn 2 line)) eqn:E1; [|lia].
      apply str_eqb_eq in E1. rewrite (quoted_inv line Earch), <- E1.
      now rewrite str_eqb_refl. }
    lia. }
  destruct (test_at CALENDAR_EVENT_PATTERN line) eqn:Ecal.
  { match goal with
    | |- context [categorize fuel tl false ?b1] =>
        destruct (IH tl false b1 ltac:(lia)) as [I1 I2];
        assert (Hh : held l b1 = held l b + (if str_eqb l line then 1 else 0))
    end.
    { unfold held. cbn [calendarEvents activeTasks archivedTasks
                        existingArchiveContent].
      rewrite !occurrences_app, !occurrences_cons, !occurrences_nil. lia. }
    lia. }
  assert (Hgroup : forall subs tl',
            collect_subtasks tl = (subs, tl') ->
            occurrences l tl = occurrences l subs + occurrences l tl' /\
            occurrences (L "> " ++ l) tl' <= occurrences (L "> " ++ l) tl /\
            length tl' <= length tl).
  { intros subs tl' Ecol. pose proof (collect_subtasks_spec tl) as [Es _].
    rewrite Ecol in Es. cbn [fst snd] in Es. rewrite Es at 1 2 3.
    rewrite !occurrences_app, length_app. lia. }
  destruct (test_at ARCHIVE_STATES line) eqn:Est.
  { destruct (collect_subtasks tl) as [subs tl'] eqn:Ecol.
    destruct (Hgroup subs tl' eq_refl) as [G1 [G2 G3]].
    match goal with
    | |- context [categorize fuel tl' false ?b1] =>
        destruct (IH tl' false b1 ltac:(lia)) as [I1 I2];
        assert (Hh : held l b1
                     = held l b + (if str_eqb l line then 1 else 0)
                       + occurrences l subs)
    end.
    { unfold held. cbn [calendarEvents activeTasks archivedTasks
                        existingArchiveContent].
      rewrite !occurrences_app, !occurrences_cons. lia. }
    lia. }
  destruct (test_at ACTIVE_STATES line) eqn:Eact.
  { destruct (collect_subtasks tl) as [subs tl'] eqn:Ecol.
    destruct (Hgroup subs tl' eq_refl) as [G1 [G2 G3]].
    match goal with
    | |- context [categorize fuel tl' false ?b1] =>
        destruct (IH tl' false b1 ltac:(lia)) as [I1 I2];
        assert (Hh : held l b1
                     = held l b + (if str_eqb l line then 1 else 0)
                       + occurrences l subs)
    end.
    { unfold held. cbn [calendarEvents activeTasks archivedTasks
                        existingArchiveContent].
      rewrite !occurrences_app, !occurrences_cons. lia. }
    lia. }
  set (pushed := {| calendarEvents := calendarEvents b;
                    activeTasks := activeTasks b ++ [line];
                    archivedTasks := archivedTasks b;
                    existingArchiveContent := existingArchiveContent b |}).
  assert (Hp : held l pushed = held l b + (if str_eqb l line then 1 else 0)).
  { unfold held, pushed. cbn [calendarEvents activeTasks archivedTasks
                              existingArchiveContent].
    rewrite !occurrences_app, !occurrences_cons, !occurrences_nil. lia. }
  assert (Hpushed : held l b + occurrences l (line :: tl)
                    <= held l (categorize fuel tl false pushed) /\
                    held l (categorize fuel tl false pushed)
                    <= held l b + occurrences l (line :: tl)
                       + occurrences (L "> " ++ l) (line :: tl)).
  { destruct (IH tl false pushed ltac:(lia)) as [I1 I2]. lia. }
  destruct (trim line) as [|t0 t] eqn:Et; [|exact Hpushed].
  destruct (activeTasks b) as [|a0 act] eqn:Ea; [|exact Hpushed].
  destruct (IH tl false b ltac:(lia)) as [I1 I2].
  rewrite (occurrences_other l line tl) by now apply task_not_blank. lia.
Qed.

(** What the first pass leaves before the callout: calendar events,
    lines that are not tasks to archive, and subtasks. *)
Definition stays (x : jsstring) : Prop :=
  test_at CALENDAR_EVENT_PATTERN x = true \/
  test_at ARCHIVE_STATES x = false \/ is_subtask_line x.

Lemma categorize_stays : forall fuel lines inArch b,
  Forall stays (calendarEvents b ++ activeTasks b) ->
  Forall stays (calendarEvents (categorize fuel lines inArch b)
                ++ activeTasks (categorize fuel lines inArch b)).
Proof.
  induction fuel as [|fuel IH]; intros lines inArch b Hb; [exact Hb|].
  destruct lines as [|line tl]; [exact Hb|]. cbn [categorize].
  apply Forall_app in Hb. destruct Hb as [Hcal Hact].
  destruct (test_at ARCHIVE_CALLOUT_START line);
    [apply IH; apply Forall_app; now split|].
  destruct (inArch && test_at ARCHIVE_LINE line);
    [apply IH; apply Forall_app; now split|].
  destruct (test_at CALENDAR_EVENT_PATTERN line) eqn:Ecal.
  { apply IH. cbn [calendarEvents activeTasks]. apply Forall_app. split.
    - apply Forall_app. split; [exact Hcal|]. constructor; [now left|constructor].
    - exact Hact. }
  destruct (test_at ARCHIVE_STATES line) eqn:Est.
  { destruct (collect_subtasks tl) as [subs tl'].
    apply IH. apply Forall_app. now split. }
  pose proof (collect_subtasks_spec tl) as [_ Hsub].
  destruct (test_at ACTIVE_STATES line).
  { destruct (collect_subtasks tl) as [subs tl']. cbn [fst] in Hsub.
    apply IH. cbn [calendarEvents activeTasks]. apply Forall_app.
    split; [exact Hcal|]. apply Forall_app. split; [exact Hact|].
    constructor; [right; now left|].
    eapply Forall_impl; [|exact Hsub]. intros x Hx. right. now right. }
  apply IH.
  destruct (trim line), (activeTasks b) eqn:Ea;
    cbn [calendarEvents activeTasks]; rewrite ?Ea;
    apply Forall_app; split; try assumption;
    try (apply Forall_app; split; [assumption|]);
    try (constructor; [right; now left|constructor]).
Qed.

(** The output of [build], read back: the lines before the callout are
    the calendar events and the active lines, up to empty lines, and the
    lines of the callout are the archived ones under their prefix. *)
Lemma build_read b :
  clean b ->
  exists R,
    callout_split (build b)
    = (R, map (fun l => L "> " ++ l)
            (archivedTasks b ++ existingArchiveContent b)) /\
    (forall l, l <> [] ->
       occurrences l R = occurrences l (calendarEvents b ++ activeTasks b)) /\
    (forall x, In x R -> x = [] \/ In x (calendarEvents b ++ activeTasks b)).
Proof.
  intros Hc. unfold build.
  destruct (archivedTasks b ++ existingArchiveContent b) as [|a0 al] eqn:Ea.
  - exists (calendarEvents b ++ activeTasks b).
    split; [now apply callout_split_none|]. split; [reflexivity|auto].
  - set (result := calendarEvents b ++ activeTasks b) in *.
    exists (match result with
            | [] => []
            | _ :: _ => pop_empty result ++ repeat [] 7
            end).
    split; [|split].
    + apply callout_split_at; [|reflexivity].
      destruct result eqn:Er; [constructor|]. rewrite <- Er.
      apply Forall_app. split.
      * apply pop_empty_Forall. exact Hc.
      * apply repeat_Forall. reflexivity.
    + intros l Hl. destruct result eqn:Er; [reflexivity|]. rewrite <- Er.
      rewrite occurrences_app, occurrences_pop_empty, occurrences_repeat
        by exact Hl. lia.
    + intros x Hx. destruct result eqn:Er; [destruct Hx|]. rewrite <- Er in *.
      apply in_app_or in Hx. destruct Hx as [Hx|Hx].
      * right. clear -Hx. induction result as [|y r IH]; [destruct Hx|].
        cbn [pop_empty] in Hx. destruct (pop_empty r) as [|z r'].
        -- destruct y; [destruct Hx|]. destruct Hx as [<-|[]]. now left.
        -- destruct Hx as [<-|Hx]; [now left|right; now apply IH].
      * left. now apply repeat_spec in Hx.
Qed.

Lemma task_not_empty l : isTask l = true -> l <> [].
Proof. intros H ->. discriminate. Qed.

(** The lines of the output text, when [archiveLines] builds none. *)
Lemma archiveContent_no_lines content :
  archiveLines (split_lines content) = [] ->
  split_lines (archiveContent content) = [[]].
Proof. intros H. unfold archiveContent. now rewrite H. Qed.

(** C4, amended.  After [archiveContent] every top-level task line whose
    marker is one of x, X, -, > is inside the trailing callout, with the
    subtask lines right below it, whatever their own marker, and is not
    before the callout; every top-level task line whose marker is the
    space or / is before the callout, with the subtask lines right below
    it.  No task line is lost or copied: it is in the output, before the
    callout or inside it, as many times as it was in the text, the lines
    the text held under the prefix of the callout counted in. *)
Theorem archiveContent_partition :
  forall content pre line subs post m,
    split_lines content = pre ++ line :: subs ++ post ->
    isParentTask line = true ->
    Forall is_subtask_line subs ->
    TaskNoteManager.extractCheckboxMarker line = Some [m] ->
    let out := split_lines (archiveContent content) in
    (is_archive_marker m = true ->
     (forall l, In l (line :: subs) -> inside_callout out l) /\
     ~ outside_callout out line) /\
    (is_active_marker m = true ->
     forall l, In l (line :: subs) -> outside_callout out l) /\
    (forall l, isTask l = true ->
       occurrences l (split_lines content)
       <= occurrences l (fst (callout_split out))
          + occurrences (L "> " ++ l) (snd (callout_split out)) /\
       occurrences l (fst (callout_split out))
       + occurrences (L "> " ++ l) (snd (callout_split out))
       <= occurrences l (split_lines content)
          + occurrences (L "> " ++ l) (split_lines content)).
Proof.
  intros content pre line subs post m E Hp Hs Hmark out.
  destruct (isParentTask_inv line Hp) as [m' [rest [-> Hm']]].
  destruct (parent_tests m' rest Hm') as [_ [_ [T3 [T4 [T5 [_ Hx]]]]]].
  rewrite Hx in Hmark. inversion Hmark; subst m'.
  destruct (archiveLines_partition (split_lines content) pre m rest subs post
              Hm' E Hs) as [H1 H2].
  set (lines := split_lines content) in *.
  set (b := categorize (length lines) lines false bins0).
  assert (Hc0 : clean bins0) by constructor.
  destruct (categorize_run (length lines) lines false bins0 (le_n _) Hc0)
    as [Hc _]. fold b in Hc.
  destruct (build_read b Hc) as [R [HR [Hocc Hin]]].
  assert (Hstay : Forall stays (calendarEvents b ++ activeTasks b))
    by (apply categorize_stays; constructor).
  assert (Hout : archiveLines lines <> [] -> out = archiveLines lines)
    by (intros Hne; now apply archiveContent_lines).
  assert (Hlines : In (PL m rest) lines).
  { rewrite E. apply in_or_app. right. now left. }
  split; [|split].
  - intros Hk.
    assert (Hne : archiveLines lines <> []).
    { intros En. specialize (H1 Hk _ (or_introl eq_refl)).
      rewrite En in H1. exact H1. }
    split.
    + intros l Hl. rewrite (Hout Hne). now apply H1.
    + unfold outside_callout. rewrite (Hout Hne). unfold archiveLines.
      fold b. rewrite HR. cbn [fst]. intros Hi.
      destruct (Hin _ Hi) as [Hi'|Hi']; [discriminate|].
      rewrite Forall_forall in Hstay.
      destruct (Hstay _ Hi') as [Hcal|[Hst|Hsub]].
      * unfold PL in Hcal.
        change (L "- [" ++ m :: L "]" ++ rest)
          with (L "- [" ++ m :: L "]" ++ rest) in T4.
        rewrite T4 in Hcal. apply archive_marker_not_calendar in Hk. congruence.
      * unfold PL in Hst. rewrite T5 in Hst. congruence.
      * unfold is_subtask_line, PL in Hsub. congruence.
  - intros Hk l Hl.
    assert (Hne : archiveLines lines <> []).
    { intros En. specialize (H2 Hk _ (or_introl eq_refl)).
      rewrite En in H2. exact H2. }
    rewrite (Hout Hne). now apply H2.
  - intros l Hl.
    pose proof (task_not_empty l Hl) as Hle.
    destruct (categorize_count l Hl (length lines) lines false bins0 (le_n _))
      as [C1 C2]. fold b in C1, C2.
    assert (Hh0 : held l bins0 = 0) by reflexivity. rewrite Hh0 in C1, C2.
    assert (Hheld : occurrences l (fst (callout_split out))
                    + occurrences (L "> " ++ l) (snd (callout_split out))
                    = held l b).
    { destruct (archiveLines lines) as [|o0 os] eqn:Eo.
      - unfold out. rewrite (archiveContent_no_lines content Eo).
        cbn [callout_split test_at fst snd]. 
        change (test_at ARCHIVE_CALLOUT_START []) with false. cbv iota.
        cbn [callout_split fst snd].
        rewrite occurrences_other by exact Hle. rewrite !occurrences_nil.
        unfold archiveLines in Eo. fold b in Eo.
        rewrite Eo in HR. cbn [callout_split] in HR. injection HR as <- HR2.
        unfold held. rewrite <- (Hocc l Hle), occurrences_nil.
        destruct (archivedTasks b ++ existingArchiveContent b); [reflexivity|].
        discriminate.
      - rewrite Hout by discriminate. rewrite <- Eo.
        unfold archiveLines. fold b. rewrite HR. cbn [fst snd].
        rewrite (Hocc l Hle), occurrences_prefixed. reflexivity. }
    rewrite Hheld. lia.
Qed.

End ArchiverLines.

Lemma archiveContent_partition_witness :
  let out :=
    split_lines
      (TaskArchiver.archiveContent
         (L "# Day" ++ NL ++ L "- [x] done" ++ NL ++ TAB ++ L "- [ ] child"
          ++ NL ++ L "- [ ] open")) in
  (is_archive_marker (ch "x") = true ->
   (forall l, In l [L "- [x] done"; TAB ++ L "- [ ] child"] ->
      inside_callout out l) /\
   ~ outside_callout out (L "- [x] done")) /\
  (is_active_marker (ch "x") = true ->
   forall l, In l [L "- [x] done"; TAB ++ L "- [ ] child"] ->
     outside_callout out l) /\
  (forall l, TaskUtils.isTask l = true ->
     occurrences l
       (split_lines
          (L "# Day" ++ NL ++ L "- [x] done" ++ NL ++ TAB ++ L "- [ ] child"
           ++ NL ++ L "- [ ] open"))
     <= occurrences l (fst (callout_split out))
        + occurrences (L "> " ++ l) (snd (callout_split out)) /\
     occurrences l (fst (callout_split out))
     + occurrences (L "> " ++ l) (snd (callout_split out))
     <= occurrences l
          (split_lines
             (L "# Day" ++ NL ++ L "- [x] done" ++ NL ++ TAB
              ++ L "- [ ] child" ++ NL ++ L "- [ ] open"))
        + occurrences (L "> " ++ l)
            (split_lines
               (L "# Day" ++ NL ++ L "- [x] done" ++ NL ++ TAB
                ++ L "- [ ] child" ++ NL ++ L "- [ ] open"))).
Proof.
  apply (archiveContent_partition
           (L "# Day" ++ NL ++ L "- [x] done" ++ NL ++ TAB ++ L "- [ ] child"
            ++ NL ++ L "- [ ] open")
           [L "# Day"] (L "- [x] done") [TAB ++ L "- [ ] child"]
           [L "- [ ] open"] (ch "x")).
  - vm_compute. reflexivity.
  - vm_compute. reflexivity.
  - repeat constructor.
  - vm_compute. reflexivity.
Defined.

(* ------------------------------------------------------------------ *)
(** ** C1: the round trip of a linked task *)
(* ------------------------------------------------------------------ *)

Section LinkedRoundTrip.
Import TaskUtils TaskScheduler.

(** *** Cutting a text where no match goes through *)

(** When every match that starts in [a] ends in [a], the replacement in
    [a ++ r] ends with the replacement in [r]. *)
Lemma replace_all_from_cut re rep r : forall a k,
  k <= length a ->
  (forall a0 a' ls, a = a0 ++ a' -> exec re (a' ++ r) = Some ls ->
                    total ls <= length a') ->
  exists y,
    replace_all_from re rep k (a ++ r) = y ++ replace_all_from re rep 0 r.
Proof.
  induction a as [|c a IH]; intros k Hk Hin.
  - exists []. cbn [length] in Hk. replace k with 0 by lia. reflexivity.
  - assert (Hin' : forall a0 a' ls, a = a0 ++ a' ->
                     exec re (a' ++ r) = Some ls -> total ls <= length a').
    { intros a0 a' ls E. apply (Hin (c :: a0)). now rewrite E. }
    change ((c :: a) ++ r) with (c :: a ++ r). cbn [replace_all_from].
    destruct k as [|k].
    + destruct (exec re (c :: a ++ r)) as [ls|] eqn:Ex.
      * pose proof (Hin [] (c :: a) ls eq_refl Ex) as Hb. cbn [length] in Hb.
        destruct (total ls) as [|j].
        -- destruct (IH 0 ltac:(lia) Hin') as [y Hy]. exists (c :: y).
           now rewrite Hy.
        -- destruct (IH j ltac:(lia) Hin') as [y Hy].
           exists (rep ls (c :: a ++ r) ++ y). now rewrite Hy, app_assoc.
      * destruct (IH 0 ltac:(lia) Hin') as [y Hy]. exists (c :: y).
        now rewrite Hy.
    + cbn [length] in Hk. destruct (IH k ltac:(lia) Hin') as [y Hy].
      exists y. exact Hy.
Qed.

Lemma clear_app re p q s :
  clear re p (q ++ s) -> clear re q s -> clear re (p ++ q) s.
Proof.
  induction p as [|c p IH]; intros Hp Hq; [exact Hq|].
  destruct Hp as [H1 H2]. split.
  - now rewrite <- app_assoc.
  - now apply IH.
Qed.

(** *** The id tag and the pattern of [createScheduledTaskCopy] *)

(** The tag of the id: [[id::], white space, the id, and []]. *)
Definition idTagOf (gap id : jsstring) : jsstring :=
  L "[id::" ++ gap ++ id ++ L "]".

Lemma star_through p (k : jsstring -> option (list nat)) gap s :
  Forall (fun c => p c = true) gap -> k s <> None ->
  star p k (gap ++ s) <> None.
Proof.
  intros Hg Hk. induction Hg as [|c gap Hc Hg IH]; [now apply star_zero|].
  cbn [app star]. rewrite Hc.
  pose proof (star_not_nil p k (gap ++ s)) as Hn.
  destruct (star p k (gap ++ s)) as [[|n ls]|]; congruence.
Qed.

(** A line that carries the tag matches the pattern of [unscheduleTask]. *)
Lemma idTag_matches gap id pre post :
  Forall (fun c => is_ws c = true) gap ->
  test (idPatternEscaped id) (pre ++ idTagOf gap id ++ post) = true.
Proof.
  intros Hg. apply test_skip, exec_test. unfold idPatternEscaped, idTagOf.
  rewrite <- !app_assoc, exec_lit, cons_len_none, exec_star.
  apply star_through; [exact Hg|].
  rewrite exec_lit, cons_len_none, exec_lit. discriminate.
Qed.

(** Every [[parent::] of [a] is followed in [a] by a closing bracket: no
    parent tag of [a] is left open at its end. *)
Definition parentTagsClosed (a : jsstring) : Prop :=
  forall x y, a = x ++ L "[parent::" ++ y -> has_rb y = true.

Definition VALUE : regex :=
  [Star is_ws; One not_rbracket; Star not_rbracket; Lit (L "]")].

Lemma value_rb_app u z :
  has_rb u = true -> exec VALUE (u ++ z) = exec VALUE u.
Proof.
  unfold VALUE. rewrite !exec_star.
  assert (Hk : forall v, has_rb v = true ->
            exec [One not_rbracket; Star not_rbracket; Lit (L "]")] (v ++ z)
            = exec [One not_rbracket; Star not_rbracket; Lit (L "]")] v).
  { intros [|c v] Hv; [discriminate|].
    change ((c :: v) ++ z) with (c :: v ++ z). rewrite !exec_one.
    cbn [has_rb existsb] in Hv. destruct (not_rbracket c); [|reflexivity].
    cbn [negb orb] in Hv. rewrite !exec_star. f_equal.
    exact (star_rb_app v z Hv). }
  induction u as [|c u IH]; intros H; [discriminate|].
  change ((c :: u) ++ z) with (c :: u ++ z). cbn [star].
  change (c :: u ++ z) with ((c :: u) ++ z). rewrite (Hk (c :: u) H).
  destruct (is_ws c) eqn:Ec; [|reflexivity].
  assert (Hu : has_rb u = true).
  { cbn [has_rb existsb] in H. unfold not_rbracket in H.
    destruct (N.eqb_spec c 93) as [->|_]; [discriminate|exact H]. }
  now rewrite (IH Hu).
Qed.

Lemma ws_not_bracket w :
  Forall (fun c => is_ws c = true) w -> Forall (fun c => c <> 91%N) w.
Proof.
  intros H. eapply Forall_impl; [|exact H]. intros c Hc ->. discriminate.
Qed.

(** Where a literal starts in a text cut in two, when the second part
    starts with a character the literal holds only at its start. *)
Lemma parent_open_place x r :
  starts_with (L "[parent::") (x ++ 91%N :: 105%N :: r) = true ->
  length (L "[parent::") <= length x.
Proof.
  intros H. destruct (Nat.le_gt_cases (length (L "[parent::")) (length x))
    as [Hl|Hl]; [exact Hl|exfalso].
  pose proof (starts_with_nth _ x _ _ H Hl) as Hn.
  destruct x as [|c0 x]; [cbn in H; discriminate|].
  change (length (L "[parent::")) with 9 in Hl.
  do 8 (destruct x as [|? x]; [cbn in Hn; discriminate|]).
  cbn [length] in Hl. lia.
Qed.

(** A match of the pattern of the parent tags that starts in [a'] ends
    in [a'], when [a'] leaves no parent tag open and an id tag follows. *)
Lemma parent_tag_bound a' r ls :
  (forall x y, a' = x ++ L "[parent::" ++ y -> has_rb y = true) ->
  exec PARENT_TAG (a' ++ 91%N :: 105%N :: r) = Some ls ->
  total ls <= length a'.
Proof.
  intros Hclosed H. unfold PARENT_TAG in H.
  set (tl := [Star is_ws; One not_rbracket; Star not_rbracket; Lit (L "]")])
    in *.
  assert (Hre : forall c s', is_ws c = true ->
                  exec (Lit (L "[parent::") :: tl) (c :: s') = None).
  { intros c s' Hc. cbn [exec]. 
    destruct (starts_with (L "[parent::") (c :: s')) eqn:E; [|reflexivity].
    cbn in E. destruct (N.eqb_spec 91 c) as [<-|_]; discriminate. }
  rewrite exec_star, (star_possessive _ _ _ Hre) in H.
  set (s := a' ++ 91%N :: 105%N :: r) in *.
  destruct (run_split is_ws s) as [Es Hw].
  set (w := firstn (run is_ws s) s) in *.
  set (t := skipn (run is_ws s) s) in *.
  destruct (exec (Lit (L "[parent::") :: tl) t) as [ls0|] eqn:Et;
    [|discriminate].
  injection H as <-.
  assert (Hlw : length w = run is_ws s).
  { unfold w. rewrite length_firstn. pose proof (run_le is_ws s). lia. }
  cbn [exec] in Et.
  destruct (starts_with (L "[parent::") t) eqn:Eo; [|discriminate].
  destruct (exec tl (skipn (length (L "[parent::")) t)) as [ls1|] eqn:E1;
    [|discriminate].
  injection Et as <-.
  pose proof (starts_with_split _ _ Eo) as Et.
  set (y := skipn (length (L "[parent::")) t) in *.
  (* where the run of white space ends *)
  assert (Hcut : exists l, a' = w ++ l /\ t = l ++ 91%N :: 105%N :: r).
  { unfold s in Es. apply app_eq_app in Es.
    destruct Es as [l [[E1' E2']|[E1' E2']]].
    - exists l. split; [exact E1'|exact E2'].
    - destruct l as [|c l].
      + exists []. rewrite app_nil_r in E1'. cbn [app] in E2'.
        split; [now rewrite app_nil_r|now rewrite <- E2'].
      + exfalso. cbn [app] in E2'. injection E2' as <- _.
        rewrite E1' in Hw. apply Forall_app in Hw. destruct Hw as [_ Hw].
        inversion Hw as [|? ? Hc _]. discriminate Hc. }
  destruct Hcut as [l [Ea Etl]].
  rewrite Etl in Eo. apply parent_open_place in Eo.
  (* the opening is in [a'] *)
  rewrite Et in Etl.
  apply app_eq_app in Etl. destruct Etl as [l2 [[E3 E4]|[E3 E4]]].
  - (* the opening ends where the id tag starts: the tag is left open *)
    exfalso. destruct l2 as [|c l2].
    + rewrite app_nil_r in E3. rewrite <- E3 in Ea.
      pose proof (Hclosed w [] ltac:(now rewrite app_nil_r)) as Hrb.
      discriminate Hrb.
    + rewrite E3, length_app in Eo. cbn [length] in Eo. clear -Eo.
      unfold char in *. lia.
  - (* the opening is in [a'] *)
    rewrite E3 in Ea. pose proof (Hclosed w l2 Ea) as Hrb.
    unfold tl in E1. fold VALUE in E1. rewrite E4, value_rb_app in E1
      by exact Hrb.
    apply exec_bound in E1.
    rewrite Ea, !length_app. unfold total in *. cbn [fold_right].
    rewrite Hlw. change (length (L "[parent::")) with 9.
    unfold char, jsstring in *. lia.
Qed.

Lemma plain_no_bracket id :
  plainId id = true -> Forall (fun c => c <> 91%N) id.
Proof.
  unfold plainId. rewrite forallb_forall, Forall_forall. intros H c Hc ->.
  specialize (H _ Hc). discriminate H.
Qed.

(** No match of a pattern that opens with white space and a bracket
    starts in a text without a bracket that a closing bracket follows. *)
Lemma clear_no_open op tl body b :
  Forall (fun c => c <> 91%N) body ->
  clear (Star is_ws :: Lit (91%N :: op) :: tl) body (93%N :: b).
Proof.
  set (k := exec (Lit (91%N :: op) :: tl)).
  assert (Hre : forall c s', is_ws c = true -> k (c :: s') = None).
  { intros c s' Hc. unfold k. cbn [exec starts_with].
    destruct (N.eqb_spec 91 c) as [<-|_]; [discriminate|reflexivity]. }
  assert (Hk : forall c s', c <> 91%N -> k (c :: s') = None).
  { intros c s' Hc. unfold k. cbn [exec starts_with].
    destruct (N.eqb_spec 91 c) as [<-|_]; [congruence|reflexivity]. }
  assert (Hrun : forall body, Forall (fun c => c <> 91%N) body ->
            k (skipn (run is_ws (body ++ 93%N :: b)) (body ++ 93%N :: b))
            = None).
  { induction 1 as [|c body' Hc Hb IH].
    - cbn [app run]. change (is_ws 93%N) with false. cbv iota.
      apply Hk. discriminate.
    - cbn [app run]. destruct (is_ws c); [exact IH|]. cbn [skipn].
      now apply Hk. }
  induction 1 as [|c body' Hc Hb IH]; [exact I|]. split; [|exact IH].
  rewrite exec_star. fold k. rewrite (star_possessive _ _ _ Hre).
  change (c :: body' ++ 93%N :: b) with ((c :: body') ++ 93%N :: b).
  rewrite Hrun; [reflexivity|now constructor].
Qed.

(** No parent tag starts in the tag of an id. *)
Lemma idTag_clear gap id b :
  Forall (fun c => is_ws c = true) gap -> plainId id = true ->
  clear PARENT_TAG (idTagOf gap id) b.
Proof.
  intros Hg Hid. unfold idTagOf.
  change (L "[id::" ++ gap ++ id ++ L "]")
    with (91%N :: L "id::" ++ gap ++ id ++ [93%N]).
  assert (Hbody : Forall (fun c => c <> 91%N) (L "id::" ++ gap ++ id)).
  { apply Forall_app. split.
    - repeat constructor; discriminate.
    - apply Forall_app. split; [now apply ws_not_bracket|].
      now apply plain_no_bracket. }
  split.
  - reflexivity.
  - replace (L "id::" ++ gap ++ id ++ [93%N])
      with ((L "id::" ++ gap ++ id) ++ [93%N])
      by now rewrite <- !app_assoc.
    apply clear_app.
    + exact (clear_no_open _ _ _ b Hbody).
    + split; [reflexivity|exact I].
Qed.

(** The copy of a line without scheduling tags keeps the tag of the id,
    when no parent tag before it is left open. *)
Lemma createScheduledTaskCopy_id line from a gap id b :
  test_at INCOMPLETE_TASK_PATTERN line = true ->
  noSchedulingTags line = true ->
  line = a ++ idTagOf gap id ++ b ->
  Forall (fun c => is_ws c = true) gap ->
  parentTagsClosed a -> plainId id = true ->
  test (idPatternEscaped id) (createScheduledTaskCopy line from) = true.
Proof.
  intros Hinc Hno E Hg Hclosed Hid.
  destruct (incomplete_inv line Hinc) as [tabs [rest [E0 Ht]]].
  unfold createScheduledTaskCopy.
  assert (E1 : setMarker " " line = line).
  { rewrite E0.
    exact (setMarker_checkbox " " tabs 32%N rest (or_intror eq_refl) Ht
             eq_refl). }
  rewrite E1, (removeSchedulingTags_none _ Hno). fold PARENT_TAG.
  destruct (replace_all_from_cut PARENT_TAG (fun _ _ => [])
              (idTagOf gap id ++ b) a 0 ltac:(lia)) as [y Hy].
  { intros a0 a' ls Ea. apply parent_tag_bound.
    intros x z Ex. apply (Hclosed (a0 ++ x) z).
    rewrite Ea, Ex. now rewrite <- !app_assoc. }
  unfold replace_all. rewrite E, Hy.
  rewrite (replace_all_from_prefix PARENT_TAG _ (idTagOf gap id) b)
    by now apply idTag_clear.
  set (b' := replace_all_from PARENT_TAG (fun _ _ => []) 0 b).
  assert (Etrim : trimEnd (y ++ idTagOf gap id ++ b')
                  = y ++ idTagOf gap id ++ trimEnd b').
  { unfold idTagOf.
    replace (y ++ (L "[id::" ++ gap ++ id ++ L "]") ++ b')
      with ((y ++ L "[id::" ++ gap ++ id) ++ 93%N :: b')
      by (rewrite <- !app_assoc; reflexivity).
    rewrite trimEnd_app_nows by reflexivity.
    rewrite <- !app_assoc. reflexivity. }
  rewrite Etrim.
  replace ((y ++ idTagOf gap id ++ trimEnd b') ++ L " [< " ++ from ++ L "]")
    with (y ++ idTagOf gap id ++ (trimEnd b' ++ L " [< " ++ from ++ L "]"))
    by (rewrite <- !app_assoc; reflexivity).
  now apply idTag_matches.
Qed.

Lemma createScheduledTaskCopy_no_nl line from :
  test_at INCOMPLETE_TASK_PATTERN line = true ->
  noSchedulingTags line = true ->
  no_nl line -> no_nl from -> no_nl (createScheduledTaskCopy line from).
Proof.
  intros Hinc Hno Hl Hf.
  destruct (incomplete_inv line Hinc) as [tabs [rest [E0 Ht]]].
  unfold createScheduledTaskCopy.
  assert (E1 : setMarker " " line = line).
  { rewrite E0.
    exact (setMarker_checkbox " " tabs 32%N rest (or_intror eq_refl) Ht
             eq_refl). }
  rewrite E1, (removeSchedulingTags_none _ Hno).
  unfold no_nl in *. apply Forall_app. split.
  - apply trimEnd_Forall. apply replace_all_Forall; [constructor|exact Hl].
  - apply Forall_app. split; [repeat constructor|].
    apply Forall_app. split; [exact Hf|repeat constructor].
Qed.

(** C1, amended.  An incomplete task line without time block and
    without scheduling tag, that carries the tag of its id -- [[id::],
    white space or none, the id, []], the id of ordinary characters, no
    parent tag left open before the tag -- and whose subtasks right below
    are incomplete, is scheduled to a date whose document does not hold
    the id, and then unscheduled.  Both calls succeed; the document of
    the source is the one before, the line without the white space at its
    end; the document of the target is its text before, trimmed, without
    the copy.  (The note of the task is not the target document.) *)
Theorem scheduleTask_unscheduleTask_round_trip :
  forall settings w n d line id c a gap b,
    nth_error (editor w) n = Some line ->
    test_at INCOMPLETE_TASK_PATTERN line = true ->
    test_at TIMEBLOCK_PREFIX line = false ->
    noSchedulingTags line = true ->
    line = a ++ L "[id::" ++ gap ++ id ++ L "]" ++ b ->
    Forall (fun x => is_ws x = true) gap ->
    parentTagsClosed a ->
    plainId id = true ->
    extractId line = Some id -> id <> [] ->
    subtasksIncomplete (skipn (S n) (editor w)) = true ->
    isDate d = true ->
    targetText (vault w) (getDailyNotePath d settings) = Some c ->
    holdsId id c = false ->
    no_nl line -> no_nl (fromDateOf w) ->
    notePathOf settings line <> Some (getDailyNotePath d settings) ->
    notePathOf settings (markTaskAsScheduled line d)
      <> Some (getDailyNotePath d settings) ->
    exists w1 w2,
      scheduleTask settings w n d = Some (true, w1) /\
      unscheduleTask settings w1 n = Some (true, w2) /\
      editor w2
        = firstn n (editor w) ++ trimEnd line :: skipn (S n) (editor w) /\
      getAbstractFileByPath (vault w2) (getDailyNotePath d settings)
        = Some (TFile (collapseBlankLines (trimEnd c))).
Proof.
  intros settings w n d line id c a gap b Hline Hinc Htb Hno Etag Hgap
    Hclosed Hpid Hid Hne Hsub Hdate Htarget Hholds Hnl Hnlf Hnote Hnote'.
  assert (Htb' : exec TIMEBLOCK_PREFIX line = None).
  { unfold test_at in Htb. destruct (exec _ line); [discriminate|reflexivity]. }
  clear Htb.
  set (from := fromDateOf w) in *.
  assert (Etag' : line = a ++ idTagOf gap id ++ b).
  { rewrite Etag. unfold idTagOf. rewrite <- !app_assoc. reflexivity. }
  assert (Hcopy : test (idPatternEscaped id)
                    (createScheduledTaskCopy line from) = true)
    by (now apply (createScheduledTaskCopy_id line from a gap id b)).
  assert (Hcnl : no_nl (createScheduledTaskCopy line from))
    by (now apply createScheduledTaskCopy_no_nl).
  clear Etag Etag' Hgap Hclosed a gap b.
  destruct (incomplete_inv line Hinc) as [tabs [rest [-> Ht]]].
  set (tp := getDailyNotePath d settings) in *.
  pose proof (isDate_inv d Hdate) as Hd.
  set (R := trimEnd rest).
  assert (HM : markTaskAsScheduled (tabs ++ L "- [ ]" ++ rest) d
               = tabs ++ L "- [>]" ++ R ++ tagTo d)
    by (now apply markTaskAsScheduled_checkbox).
  assert (HnoR : noSchedulingTags (tabs ++ L "- [ ]" ++ R) = true).
  { rewrite app_assoc. apply noSchedulingTags_trim. now rewrite <- app_assoc. }
  assert (HR : tight R) by apply trimEnd_tight.
  (* scheduling *)
  destruct (scheduleTask_appends settings w n d (tabs ++ L "- [ ]" ++ rest) c
              ([Lit (L "[id::"); Star is_ws]
               ++ map (fun x => One (N.eqb x)) id ++ [Lit (L "]")]) id)
    as [w1 [Hs [He1 [_ [_ [_ Hv1]]]]]].
  { exact Hline. }
  { exact (checkbox_is_task tabs 32%N rest Ht eq_refl). }
  { now apply not_yet_scheduled. }
  { exact Htarget. }
  { exact Hid. }
  { exact Hne. }
  { unfold idPattern. now rewrite parsePattern_plain. }
  { unfold holdsId, idPattern in Hholds.
    rewrite parsePattern_plain in Hholds by exact Hpid. exact Hholds. }
  specialize (Hv1 Hnote). fold tp from in Hv1.
  rewrite HM in He1, Hnote'.
  set (M := tabs ++ L "- [>]" ++ R ++ tagTo d) in *.
  set (copy := createScheduledTaskCopy (tabs ++ L "- [ ]" ++ rest) from) in *.
  assert (Hlen : length (firstn n (editor w)) = n).
  { apply nth_error_split_at in Hline. tauto. }
  assert (HlineM : nth_error (editor w1) n = Some M).
  { rewrite He1. now apply nth_error_middle. }
  (* unscheduling *)
  destruct (unscheduleTask_removes settings w1 n M d id
              (trimEnd c ++ NL ++ copy) (split_lines (trimEnd c)))
    as [w2 [Hu [He2 Hv2]]].
  { exact HlineM. }
  { exact (checkbox_is_task tabs 62%N (R ++ tagTo d) Ht eq_refl). }
  { now apply extractScheduledToDate_marked. }
  { destruct Hd. discriminate. }
  { apply extractId_marked; [exact Ht|]. now apply extractId_trimmed. }
  { exact Hne. }
  { exact Hv1. }
  { rewrite split_lines_app_nl, (split_lines_line copy Hcnl).
    apply removeTaskRun_last; [|exact Hcopy].
    apply Forall_forall. intros l Hl. now apply (holdsId_lines id c). }
  specialize (Hv2 Hnote').
  exists w1, w2. split; [exact Hs|]. split; [exact Hu|]. split.
  - rewrite He2, He1.
    rewrite (firstn_middle _ _ _ _ n Hlen), (skipn_middle _ _ _ _ n Hlen).
    unfold M. rewrite resetScheduledTask_checkbox by assumption.
    rewrite (resetSubtasks_markSubtasks _ Hsub).
    f_equal. f_equal. symmetry. exact (trimEnd_checkbox tabs 32%N rest).
  - rewrite join_split_lines in Hv2. exact Hv2.
Qed.


(** The check of [parentTagsClosed] on a given text. *)
Fixpoint closedb (a : jsstring) : bool :=
  match a with
  | [] => true
  | _ :: a' =>
      (if starts_with (L "[parent::") a
       then has_rb (skipn (length (L "[parent::")) a) else true)
      && closedb a'
  end.

Lemma closedb_ok a : closedb a = true -> parentTagsClosed a.
Proof.
  induction a as [|c a IH]; intros H x y E.
  - destruct x; discriminate.
  - cbn [closedb] in H. apply andb_true_iff in H. destruct H as [H1 H2].
    destruct x as [|c' x].
    + cbn [app] in E. rewrite E in H1.
      rewrite (starts_with_app (L "[parent::") y) in H1.
      exact H1.
    + injection E as _ E. exact (IH H2 x y E).
Qed.

(** A vault with the folder of the daily notes, and in the editor the
    document of 2025-01-10 with a task that is linked to another and
    whose id tag holds a space. *)
Definition world_linked : World := {|
  vault := [(L "00 - Daily", TFolder)];
  editor := [L "# Friday"; L "- [ ] Pack [parent::t-0] [id:: t-1] [parent::t-9]  ";
             TAB ++ L "- [ ] the charger"; L "- [ ] other"];
  activeFile := Some {| path := L "00 - Daily/2025-01-10.md";
                        basename := L "2025-01-10" |};
  today := L "2025-01-10";
  notices := [] |}.

Lemma scheduleTask_unscheduleTask_round_trip_witness :
  exists w1 w2,
    scheduleTask DEFAULT_SETTINGS world_linked 1 (L "2025-01-12")
      = Some (true, w1) /\
    unscheduleTask DEFAULT_SETTINGS w1 1 = Some (true, w2) /\
    editor w2
      = firstn 1 (editor world_linked)
        ++ trimEnd (L "- [ ] Pack [parent::t-0] [id:: t-1] [parent::t-9]  ")
        :: skipn 2 (editor world_linked) /\
    getAbstractFileByPath (vault w2)
      (getDailyNotePath (L "2025-01-12") DEFAULT_SETTINGS)
      = Some (TFile (collapseBlankLines (trimEnd []))).
Proof.
  apply (scheduleTask_unscheduleTask_round_trip DEFAULT_SETTINGS world_linked 1
           (L "2025-01-12")
           (L "- [ ] Pack [parent::t-0] [id:: t-1] [parent::t-9]  ")
           (L "t-1") [] (L "- [ ] Pack [parent::t-0] ") (L " ")
           (L " [parent::t-9]  ")).
  - reflexivity.
  - vm_compute. reflexivity.
  - vm_compute. reflexivity.
  - vm_compute. reflexivity.
  - reflexivity.
  - repeat constructor.
  - apply closedb_ok. vm_compute. reflexivity.
  - vm_compute. reflexivity.
  - vm_compute. reflexivity.
  - discriminate.
  - vm_compute. reflexivity.
  - vm_compute. reflexivity.
  - vm_compute. reflexivity.
  - vm_compute. reflexivity.
  - repeat constructor.
  - repeat constructor.
  - vm_compute. discriminate.
  - vm_compute. discriminate.
Defined.

End LinkedRoundTrip.

(* ------------------------------------------------------------------ *)
(** ** C6: the canonical order of the metadata tags *)
(* ------------------------------------------------------------------ *)

Section Canonical.
Import TaskUtils.

(** *** Texts that hold no opening of a tag *)

(** What follows a text does not go on an opening begun in it: it is
    empty or its first character is none of the opening's after the
    first. *)
Definition foreign (op : jsstring) (y : jsstring) : Prop :=
  match y with
  | [] => True
  | c :: _ => ~ In c (tl op)
  end.

Lemma starts_with_foreign op x y :
  starts_with op x = false -> x <> [] -> foreign op y ->
  starts_with op (x ++ y) = false.
Proof.
  intros Hx Hne Hy.
  destruct (Nat.le_gt_cases (length op) (length x)) as [Hl|Hl].
  - now rewrite starts_with_long.
  - destruct y as [|c y]; [now rewrite app_nil_r|].
    destruct (starts_with op (x ++ c :: y)) eqn:E; [|reflexivity].
    exfalso. apply Hy. pose proof (starts_with_nth op x c y E Hl) as Hn.
    destruct op as [|o op]; [cbn in Hl; lia|].
    destruct x as [|a x]; [congruence|]. cbn [length nth tl] in *.
    rewrite <- Hn. apply nth_In. lia.
Qed.

Lemma includes_foreign op x y :
  includes op x = false -> includes op y = false -> foreign op y ->
  includes op (x ++ y) = false.
Proof.
  intros Hx Hy Hf. induction x as [|c x IH]; [exact Hy|].
  apply includes_cons in Hx. destruct Hx as [Hc Hx].
  change ((c :: x) ++ y) with (c :: x ++ y). cbn [includes].
  rewrite (IH Hx), orb_false_r.
  exact (starts_with_foreign op (c :: x) y Hc ltac:(discriminate) Hf).
Qed.

(** No match of a pattern that begins with white space and an opening
    starts in a text that holds no such opening and ends in no white
    space. *)
Lemma clear_text o op tl A Y :
  is_ws o = false -> tight A -> includes (o :: op) A = false ->
  foreign (o :: op) Y ->
  clear (Star is_ws :: Lit (o :: op) :: tl) A Y.
Proof.
  intros Ho Ht Hi Hf. induction A as [|a A IH]; [exact I|].
  assert (HtA : tight A) by exact (tight_tail a A Ht).
  split.
  - change (a :: A ++ Y) with ((a :: A) ++ Y).
    rewrite exec_star, star_possessive.
    2:{ intros c s' Hc. cbn [exec starts_with].
        destruct (N.eqb_spec o c) as [->|_]; [congruence|reflexivity]. }
    destruct (run_tight (a :: A) Y Ht ltac:(discriminate)) as [E Hl].
    rewrite E, skipn_app.
    replace (run is_ws (a :: A) - length (a :: A)) with 0 by lia.
    rewrite skipn_O.
    set (v := skipn (run is_ws (a :: A)) (a :: A)).
    assert (Hv : starts_with (o :: op) (v ++ Y) = false).
    { apply starts_with_foreign; [| |exact Hf].
      - apply includes_head.
        apply (includes_suffix _ (firstn (run is_ws (a :: A)) (a :: A))).
        unfold v. now rewrite firstn_skipn.
      - intros Hv. apply (f_equal (@length _)) in Hv. unfold v in Hv.
        rewrite length_skipn in Hv. cbn [length] in *. lia. }
    cbn [exec]. now rewrite Hv.
  - apply IH; [exact HtA|].
    now apply includes_cons in Hi.
Qed.


Lemma clear_lit op tl P Y :
  includes op P = false -> foreign op Y -> clear (Lit op :: tl) P Y.
Proof.
  intros Hi Hf. induction P as [|c P IH]; [exact I|].
  apply includes_cons in Hi. destruct Hi as [Hc Hi]. split; [|now apply IH].
  change (c :: P ++ Y) with ((c :: P) ++ Y). cbn [exec].
  now rewrite (starts_with_foreign op (c :: P) Y Hc ltac:(discriminate) Hf).
Qed.

(** *** The tags *)

Inductive TagKind := KId | KParent | KUid | KScheduleFrom | KScheduleTo.

(** The order the spec fixes. *)
Definition canonicalOrder : list TagKind :=
  [KId; KParent; KUid; KScheduleFrom; KScheduleTo].

Definition kind_eqb (a b : TagKind) : bool :=
  match a, b with
  | KId, KId | KParent, KParent | KUid, KUid
  | KScheduleFrom, KScheduleFrom | KScheduleTo, KScheduleTo => true
  | _, _ => false
  end.

Lemma kind_eqb_spec a b : reflect (a = b) (kind_eqb a b).
Proof. destruct a, b; constructor; congruence. Qed.

(** The scheduling tags hold a date. *)
Definition dated (k : TagKind) : bool :=
  match k with
  | KScheduleFrom | KScheduleTo => true
  | _ => false
  end.

Definition opener (k : TagKind) : jsstring :=
  match k with
  | KId => L "[id::"
  | KParent => L "[parent::"
  | KUid => L "[uid::"
  | KScheduleFrom => L "[<"
  | KScheduleTo => L "[>"
  end.

(** The tag as [normalizeMetadataOrder] writes it. *)
Definition renderTag (k : TagKind) (v : jsstring) : jsstring :=
  match k with
  | KId => L "[id::" ++ v ++ L "]"
  | KParent => L "[parent::" ++ v ++ L "]"
  | KUid => L "[uid::" ++ v ++ L "]"
  | KScheduleFrom => L "[< " ++ v ++ L "]"
  | KScheduleTo => L "[> " ++ v ++ L "]"
  end.

(** The pattern [normalizeMetadataOrder] reads a tag with; it removes
    the tags with the same pattern after [\s*]. *)
Definition pattern (k : TagKind) : regex :=
  match k with
  | KId => ID_PATTERN
  | KParent => PARENT_ID_PATTERN
  | KUid => UID_PATTERN
  | KScheduleFrom => SCHEDULE_FROM_PATTERN
  | KScheduleTo => SCHEDULE_TO_PATTERN
  end.

Definition capture (k : TagKind) (content : jsstring) : option jsstring :=
  if dated k then captureDate (pattern k) content
  else capture1 (pattern k) content.

(** A tag in the text of a line: the white space before it, its kind,
    the white space between the opening of a scheduling tag and its date,
    and its value. *)
Record Tag := {
  gap : jsstring;
  kind : TagKind;
  inner : jsstring;
  value : jsstring
}.

Definition source (g : Tag) : jsstring :=
  gap g ++ opener (kind g) ++ inner g ++ value g ++ L "]".

Definition blank (s : jsstring) : Prop := Forall (fun c => is_ws c = true) s.

(** A well-formed tag: a scheduling tag holds a date; another tag holds,
    right after its opening, a value of one character or more, none of
    them a closing bracket, in which no tag of another kind opens. *)
Definition tag_ok (g : Tag) : Prop :=
  blank (gap g) /\
  if dated (kind g) then blank (inner g) /\ date_shape (value g)
  else inner g = [] /\ value g <> [] /\
       Forall (fun c => c <> 93%N) (value g) /\
       forall k, k <> kind g -> includes (opener k) (value g) = false.

(** The text of a line after its checkbox: texts, each followed by a
    tag, and a last text. *)
Fixpoint flat (items : list (jsstring * Tag)) (last : jsstring) : jsstring :=
  match items with
  | [] => last
  | (t, g) :: rest => t ++ source g ++ flat rest last
  end.

(** The same without its tags. *)
Fixpoint text (items : list (jsstring * Tag)) (last : jsstring) : jsstring :=
  match items with
  | [] => last
  | (t, _) :: rest => t ++ text rest last
  end.

Definition kinds (items : list (jsstring * Tag)) : list TagKind :=
  map (fun it => kind (snd it)) items.

(** The first tag of a kind. *)
Fixpoint tagOf (k : TagKind) (items : list (jsstring * Tag)) : option Tag :=
  match items with
  | [] => None
  | (_, g) :: rest => if kind_eqb (kind g) k then Some g else tagOf k rest
  end.

(** The text before a tag ends in no white space (the white space is the
    tag's), and the tags are well formed. *)
Definition items_ok (items : list (jsstring * Tag)) : Prop :=
  Forall (fun it => tight (fst it) /\ tag_ok (snd it)) items.

(** *** The patterns on one tag *)

Definition dateRe (op : jsstring) : regex :=
  [Lit op; Star is_ws] ++ DATE ++ [Lit (L "]")].

Lemma pattern_cases k :
  (dated k = false /\ pattern k = tagRe (opener k)) \/
  (dated k = true /\ pattern k = dateRe (opener k)).
Proof. destruct k; [left|left|left|right|right]; split; reflexivity. Qed.

Lemma pattern_lit k : exists tl, pattern k = Lit (opener k) :: tl.
Proof. destruct k; eexists; reflexivity. Qed.

Lemma opener_shape k :
  exists op, opener k = 91%N :: op /\ ~ In 91%N op /\ ~ In 93%N (opener k) /\
             Forall (fun c => is_ws c = false) op.
Proof.
  destruct k; eexists; (split; [reflexivity|]); cbn;
    (split; [|split]);
    try (intros H; repeat (destruct H as [H|H]; [discriminate|]); exact H);
    repeat constructor.
Qed.

Lemma exec_date_token op w d x :
  blank w -> date_shape d ->
  exec (dateRe op) (op ++ w ++ d ++ 93%N :: x)
  = Some [length op; length w; 1; 1; 1; 1; 1; 1; 1; 1; 1; 1; 1].
Proof.
  intros Hw Hd. unfold dateRe, DATE. cbn [app].
  rewrite exec_lit, exec_star.
  destruct Hd as [d1 d2 d3 d4 d5 d6 d7 d8 H1 H2 H3 H4 H5 H6 H7 H8].
  erewrite star_skip; [reflexivity|exact Hw| |].
  - cbn. now apply digit_not_ws.
  - simpl.
    repeat match goal with
      | H : is_digit _ = true |- _ => rewrite H; clear H; simpl
      end.
    reflexivity.
Qed.


Lemma value_token v :
  Forall (fun c => c <> 93%N) v ->
  Forall (fun c => not_rbracket c = true) v.
Proof.
  apply Forall_impl. intros c Hc. unfold not_rbracket, is_char.
  destruct (N.eqb_spec c 93); [contradiction|reflexivity].
Qed.

(** What a tag holds after its opening bracket. *)
Definition body (g : Tag) : jsstring :=
  opener (kind g) ++ inner g ++ value g.

Lemma source_body g B :
  source g ++ B = gap g ++ body g ++ 93%N :: B.
Proof. unfold source, body. now rewrite <- !app_assoc. Qed.

Lemma body_app g B :
  body g ++ 93%N :: B = opener (kind g) ++ inner g ++ value g ++ 93%N :: B.
Proof. unfold body. now rewrite <- !app_assoc. Qed.

(** The pattern of its kind matches a well formed tag whole, and captures
    its value. *)
Lemma exec_pattern g B :
  tag_ok g ->
  exists ls,
    exec (pattern (kind g)) (body g ++ 93%N :: B) = Some ls /\
    total ls = length (body g) + 1 /\
    forall P,
      (if dated (kind g) then group (length P) ls 2 10
       else group (length P) ls 1 2) (P ++ body g ++ 93%N :: B) = value g.
Proof.
  intros [_ Hg]. rewrite body_app.
  destruct (pattern_cases (kind g)) as [[Hd ->]|[Hd ->]]; rewrite Hd in *.
  - destruct Hg as [Hi [Hne [Hv _]]]. rewrite Hi. cbn [app].
    destruct (value g) as [|c t] eqn:Ev; [congruence|].
    exists [length (opener (kind g)); 1; length t; 1].
    split; [|split].
    + apply (exec_tag_token (opener (kind g)) c t B). now apply value_token.
    + unfold body. rewrite Hi, Ev, !length_app. cbn. lia.
    + intros P. unfold group, total. crunch. reflexivity.
  - destruct Hg as [Hi Hv].
    exists [length (opener (kind g)); length (inner g);
            1; 1; 1; 1; 1; 1; 1; 1; 1; 1; 1].
    split; [|split].
    + now apply exec_date_token.
    + unfold body. rewrite !length_app. destruct Hv. cbn. lia.
    + intros P. unfold group, total. destruct Hv. crunch. reflexivity.
Qed.


Lemma blank_no_open w : blank w -> Forall (fun c => c <> 91%N) w.
Proof. apply Forall_impl. intros c Hc ->. discriminate. Qed.

(** A tag begins with white space or with its opening bracket, which go
    on no opening. *)
Lemma source_foreign k g B : blank (gap g) -> foreign (opener k) (source g ++ B).
Proof.
  intros Hg. rewrite source_body.
  destruct (opener_shape k) as [op [E [Hn [_ Hw]]]]. rewrite E.
  destruct (gap g) as [|c w]; cbn [app foreign tl].
  - destruct (opener_shape (kind g)) as [op' [E' _]].
    unfold body. rewrite E'. exact Hn.
  - inversion Hg as [|? ? Hc _]; subst. intros Hin.
    rewrite Forall_forall in Hw. apply Hw in Hin. congruence.
Qed.

Lemma body_foreign k g B : foreign (opener k) (body g ++ B).
Proof.
  destruct (opener_shape k) as [op [E [Hn _]]]. rewrite E.
  destruct (opener_shape (kind g)) as [op' [E' _]].
  unfold body. rewrite E'. exact Hn.
Qed.

Lemma blank_fresh k w : blank w -> includes (opener k) w = false.
Proof.
  intros Hw. destruct (opener_shape k) as [op [E _]]. rewrite E.
  apply includes_no_open. now apply blank_no_open.
Qed.

(** The pattern of a kind finds the tag of that kind that follows a text
    without its opening, and captures its value. *)
Lemma capture_tag A g B :
  includes (opener (kind g)) A = false -> tag_ok g ->
  capture (kind g) (A ++ source g ++ B) = Some (value g).
Proof.
  intros HA Hg. pose proof Hg as [Hw _].
  destruct (exec_pattern g B Hg) as [ls [He [_ Hv]]].
  rewrite source_body, app_assoc.
  assert (Hs : search (pattern (kind g)) ((A ++ gap g) ++ body g ++ 93%N :: B)
               = Some (length (A ++ gap g) + 0, ls)).
  { rewrite search_clear.
    - now rewrite (search_here _ _ _ He).
    - destruct (pattern_lit (kind g)) as [re' ->]. apply clear_lit.
      + apply includes_foreign; [exact HA|now apply blank_fresh|].
        destruct (opener_shape (kind g)) as [op [E [_ [_ Hn]]]]. rewrite E.
        destruct (gap g) as [|c w]; [exact I|]. cbn [foreign tl].
        inversion Hw as [|? ? Hc _]; subst. intros Hin.
        rewrite Forall_forall in Hn. apply Hn in Hin. congruence.
      + rewrite <- (app_nil_r (body g)), <- app_assoc. apply body_foreign. }
  rewrite Nat.add_0_r in Hs. unfold capture, captureDate, capture1.
  rewrite Hs. specialize (Hv (A ++ gap g)).
  destruct (dated (kind g)); now rewrite Hv.
Qed.

(** Where the text holds no opening of a kind, nothing is captured. *)
Lemma capture_none k s : includes (opener k) s = false -> capture k s = None.
Proof.
  intros H. destruct (pattern_lit k) as [tl E].
  unfold capture, captureDate, capture1. rewrite E.
  rewrite (search_needs_op _ tl s H). now destruct (dated k).
Qed.

(** The removal of the tags of a kind takes a well formed tag of that
    kind, with the white space before it, out of texts without its
    opening. *)
Lemma strip_tag A g B :
  tight A -> includes (opener (kind g)) A = false ->
  includes (opener (kind g)) B = false -> tag_ok g ->
  replace_all (Star is_ws :: pattern (kind g)) [] (A ++ source g ++ B) = A ++ B.
Proof.
  intros Ht HA HB Hg. pose proof Hg as [Hw _].
  destruct (exec_pattern g B Hg) as [ls [He [Hl _]]].
  destruct (pattern_lit (kind g)) as [tl Ep].
  destruct (opener_shape (kind g)) as [op [Eo [_ [_ Hn]]]].
  apply (replace_appended _ A (source g) B (length (gap g) :: ls)).
  - rewrite Ep, Eo. apply clear_text; [reflexivity|exact Ht| |].
    + rewrite Eo in HA. exact HA.
    + pose proof (source_foreign (kind g) g B Hw) as Hf.
      rewrite Eo in Hf. exact Hf.
  - rewrite source_body, exec_star.
    apply star_skip; [exact Hw| |exact He].
    unfold body. rewrite Eo. reflexivity.
  - change (total (length (gap g) :: ls)) with (length (gap g) + total ls).
    rewrite Hl. unfold source, body. rewrite !length_app. cbn. lia.
  - unfold source. rewrite Eo. destruct (gap g); discriminate.
  - rewrite Ep. now apply test_fresh.
Qed.

Lemma strip_none k s :
  includes (opener k) s = false ->
  replace_all (Star is_ws :: pattern k) [] s = s.
Proof.
  intros H. destruct (pattern_lit k) as [tl ->].
  apply replace_all_none. now apply test_fresh.
Qed.


(** *** A text with some of its tags *)

(** The text with the tags of the kinds [p] keeps. *)
Fixpoint keep (p : TagKind -> bool) (items : list (jsstring * Tag))
  (last : jsstring) : jsstring :=
  match items with
  | [] => last
  | (t, g) :: rest =>
      t ++ (if p (kind g) then source g else []) ++ keep p rest last
  end.

Lemma keep_all items last : keep (fun _ => true) items last = flat items last.
Proof. induction items as [|[t g] rest IH]; cbn; [|rewrite IH]; reflexivity. Qed.

Lemma keep_none items last : keep (fun _ => false) items last = text items last.
Proof. induction items as [|[t g] rest IH]; cbn; [|rewrite IH]; reflexivity. Qed.

Lemma keep_ext p q items last :
  (forall j, In j (kinds items) -> p j = q j) ->
  keep p items last = keep q items last.
Proof.
  induction items as [|[t g] rest IH]; intros H; [reflexivity|].
  cbn [keep]. rewrite (H (kind g)) by now left.
  rewrite IH; [reflexivity|]. intros j Hj. apply H. now right.
Qed.

Lemma keep_app p b i l : keep p (b ++ i) l = keep p b (keep p i l).
Proof.
  induction b as [|[t g] b IH]; [reflexivity|].
  cbn [app keep]. now rewrite IH.
Qed.

Lemma keep_last p b l x : keep p b (l ++ x) = keep p b l ++ x.
Proof.
  induction b as [|[t g] b IH]; [reflexivity|].
  cbn [keep]. now rewrite IH, <- !app_assoc.
Qed.

Lemma source_tight g : tight (source g) /\ source g <> [].
Proof.
  unfold source. rewrite !app_assoc. split.
  - apply trimEnd_app_tight; [reflexivity|discriminate].
  - intros H. apply (f_equal (@length _)) in H.
    rewrite length_app in H. cbn in H. lia.
Qed.

Lemma tight_app a b :
  tight a -> tight b -> tight (a ++ b).
Proof.
  intros Ha Hb. destruct b as [|c b]; [now rewrite app_nil_r|].
  apply trimEnd_app_tight; [exact Hb|discriminate].
Qed.

Lemma keep_tight p items t :
  items_ok items -> tight t -> tight (keep p items t).
Proof.
  intros Hok Ht. induction Hok as [|[t1 g] rest [H1 _] _ IH]; [exact Ht|].
  cbn [keep fst] in *. apply tight_app; [exact H1|].
  apply tight_app; [|exact IH].
  destruct (p (kind g)); [apply source_tight|reflexivity].
Qed.

Lemma digit_no_open c : is_digit c = true -> c <> 91%N.
Proof. intros H ->. discriminate. Qed.

Lemma date_no_open d : date_shape d -> Forall (fun c => c <> 91%N) d.
Proof.
  intros H. destruct H.
  repeat (constructor; [first [now apply digit_no_open | discriminate]|]).
  constructor.
Qed.

(** Characters other than the first of an opening are passed over. *)
Lemma includes_skip o op x y :
  Forall (fun c => c <> o) x ->
  includes (o :: op) (x ++ y) = includes (o :: op) y.
Proof.
  induction 1 as [|c x Hc Hx IH]; [reflexivity|].
  cbn [app includes starts_with]. rewrite IH.
  destruct (N.eqb_spec o c) as [->|_]; [congruence|reflexivity].
Qed.

(** A well formed tag holds no opening of another kind. *)
Lemma tag_foreign k g :
  kind g <> k -> tag_ok g -> includes (opener k) (gap g ++ body g) = false.
Proof.
  intros Hk [Hw Hg]. apply includes_foreign.
  - now apply blank_fresh.
  - destruct (opener_shape (kind g)) as [op' [E' [Hn' _]]].
    destruct (opener_shape k) as [op [E _]].
    assert (Hop : Forall (fun c => c <> 91%N) op')
      by (rewrite Forall_forall; intros c Hc ->; contradiction).
    assert (Hin : includes (opener k) (op' ++ inner g ++ value g) = false).
    { transitivity (includes (opener k) (inner g ++ value g)).
      - rewrite E. apply includes_skip. exact Hop.
      - destruct (dated (kind g)).
        + destruct Hg as [Hi Hv]. rewrite E. apply includes_no_open.
          apply Forall_app. split.
          * now apply blank_no_open.
          * now apply date_no_open.
        + destruct Hg as [-> [_ [_ Hv]]]. cbn [app]. apply Hv. congruence. }
    assert (Hs : starts_with (opener k) (body g) = false).
    { unfold body. destruct g as [w j i v]. cbn [kind inner value] in *.
      destruct k, j; try congruence; reflexivity. }
    unfold body in *. rewrite E' in *. cbn [app] in *.
    cbn [includes]. apply orb_false_iff. split; [exact Hs|exact Hin].
  - rewrite <- (app_nil_r (body g)). apply body_foreign.
Qed.

(** The tags that are kept being of other kinds, the text with them holds
    no opening of a kind when the text without tags holds none. *)
Lemma keep_fresh k p items last :
  items_ok items ->
  (forall j, In j (kinds items) -> p j = true -> j <> k) ->
  forall u,
    includes (opener k) (u ++ text items last) = false ->
    includes (opener k) (u ++ keep p items last) = false.
Proof.
  intros Hok. induction Hok as [|[t g] rest [_ Hg] Hok IH]; intros Hp u Hu;
    [exact Hu|].
  cbn [keep text snd] in *.
  assert (Hrest : forall j, In j (kinds rest) -> p j = true -> j <> k)
    by (intros j Hj; apply Hp; now right).
  destruct (p (kind g)) eqn:Epg.
  - rewrite app_assoc. rewrite app_assoc in Hu. apply includes_foreign.
    + exact (includes_prefix _ _ _ Hu).
    + rewrite source_body, app_assoc.
      destruct (opener_shape k) as [op [E [_ [Hn _]]]].
      apply includes_sep; [exact Hn| |].
      * apply tag_foreign; [|exact Hg]. apply Hp; [now left|exact Epg].
      * apply (IH Hrest []). exact (includes_suffix _ _ _ Hu).
    + apply source_foreign. apply Hg.
  - cbn [app]. rewrite app_assoc. apply (IH Hrest). now rewrite <- app_assoc.
Qed.


Lemma tagOf_split k items g :
  tagOf k items = Some g ->
  exists before t after,
    items = before ++ (t, g) :: after /\ kind g = k /\ ~ In k (kinds before).
Proof.
  induction items as [|[t g'] rest IH]; [discriminate|]. cbn [tagOf].
  destruct (kind_eqb_spec (kind g') k) as [Ek|Ek].
  - intros [= ->]. exists [], t, rest. repeat split; [exact Ek|intros []].
  - intros H. destruct (IH H) as [before [t' [after [-> [Hk Hn]]]]].
    exists ((t, g') :: before), t', after. repeat split; [exact Hk|].
    intros [Hin|Hin]; [now apply Ek|now apply Hn].
Qed.

Lemma tagOf_none k items : tagOf k items = None -> ~ In k (kinds items).
Proof.
  induction items as [|[t g] rest IH]; [intros _ []|]. cbn [tagOf].
  destruct (kind_eqb_spec (kind g) k) as [Ek|Ek]; [discriminate|].
  intros H [Hin|Hin]; [now apply Ek|now apply IH].
Qed.

Lemma kinds_app a b : kinds (a ++ b) = kinds a ++ kinds b.
Proof. apply map_app. Qed.

Lemma items_ok_app a b : items_ok (a ++ b) <-> items_ok a /\ items_ok b.
Proof. apply Forall_app. Qed.

Lemma text_split before t g after last :
  text (before ++ (t, g) :: after) last = text before t ++ text after last.
Proof.
  rewrite <- !keep_none, keep_app. cbn [keep app]. now rewrite keep_last.
Qed.

(** What [normalizeMetadataOrder] captures for a kind is the value of the
    first tag of that kind. *)
Lemma capture_flat k items last :
  items_ok items -> includes (opener k) (text items last) = false ->
  capture k (flat items last) = option_map value (tagOf k items).
Proof.
  intros Hok Hi. destruct (tagOf k items) as [g|] eqn:E; cbn [option_map].
  - destruct (tagOf_split _ _ _ E) as [before [t [after [-> [<- Hn]]]]].
    apply items_ok_app in Hok. destruct Hok as [Hb Ha].
    inversion Ha as [|? ? [_ Hg] Ha']; subst.
    rewrite text_split in Hi.
    rewrite <- keep_all, keep_app. cbn [keep]. rewrite keep_last.
    apply capture_tag; [|exact Hg].
    apply (keep_fresh _ _ before t Hb) with (u := []).
    + intros j Hj _ ->. contradiction.
    + exact (includes_prefix _ _ _ Hi).
  - apply capture_none. rewrite <- keep_all.
    apply (keep_fresh _ _ items last Hok) with (u := []); [|exact Hi].
    intros j Hj _ ->. exact (tagOf_none _ _ E Hj).
Qed.

(** The removal of the tags of a kind, on a text that holds each kind at
    most once. *)
Lemma strip_kind p k items last :
  items_ok items -> NoDup (kinds items) ->
  includes (opener k) (text items last) = false -> p k = true ->
  replace_all (Star is_ws :: pattern k) [] (keep p items last)
  = keep (fun j => p j && negb (kind_eqb j k)) items last.
Proof.
  intros Hok Hnd Hi Hp. destruct (tagOf k items) as [g|] eqn:E.
  - destruct (tagOf_split _ _ _ E) as [before [t [after [-> [<- Hn]]]]].
    apply items_ok_app in Hok. destruct Hok as [Hb Ha].
    inversion Ha as [|? ? [Ht Hg] Ha']; subst. cbn [fst snd] in *.
    rewrite kinds_app in Hnd. cbn [kinds map snd] in Hnd.
    apply NoDup_remove_2 in Hnd.
    assert (Hna : ~ In (kind g) (kinds after))
      by (intros H; apply Hnd, in_or_app; now right).
    rewrite text_split in Hi.
    rewrite !keep_app. cbn [keep]. rewrite Hp.
    destruct (kind_eqb_spec (kind g) (kind g)) as [_|Hne]; [|congruence].
    rewrite andb_false_r. cbn [app]. rewrite !keep_last.
    rewrite strip_tag; [|now apply keep_tight| | |exact Hg].
    + f_equal; apply keep_ext; intros j Hj;
        (destruct (kind_eqb_spec j (kind g)) as [->|_];
         [contradiction|now rewrite andb_true_r]).
    + apply (keep_fresh _ _ before t Hb) with (u := []).
      * intros j Hj _ ->. contradiction.
      * exact (includes_prefix _ _ _ Hi).
    + apply (keep_fresh _ _ after last Ha') with (u := []).
      * intros j Hj _ ->. contradiction.
      * exact (includes_suffix _ _ _ Hi).
  - pose proof (tagOf_none _ _ E) as Hn. rewrite strip_none.
    + apply keep_ext. intros j Hj.
      destruct (kind_eqb_spec j k) as [->|_];
        [contradiction|now rewrite andb_true_r].
    + apply (keep_fresh _ _ items last Hok) with (u := []); [|exact Hi].
      intros j Hj _ ->. contradiction.
Qed.

(** The chain of removals leaves the text without its tags. *)
Lemma stripMetadata_flat items last :
  items_ok items -> NoDup (kinds items) ->
  (forall k, includes (opener k) (text items last) = false) ->
  stripMetadata (flat items last) = trimEnd (text items last).
Proof.
  intros Hok Hnd Hi. unfold stripMetadata. rewrite <- keep_all.
  change ID_PATTERN with (pattern KId).
  change PARENT_ID_PATTERN with (pattern KParent).
  change UID_PATTERN with (pattern KUid).
  change SCHEDULE_TO_PATTERN with (pattern KScheduleTo).
  change SCHEDULE_FROM_PATTERN with (pattern KScheduleFrom).
  cbv zeta.
  rewrite (strip_kind _ KId) by (auto; reflexivity).
  rewrite (strip_kind _ KParent) by (auto; reflexivity).
  rewrite (strip_kind _ KUid) by (auto; reflexivity).
  rewrite (strip_kind _ KScheduleTo) by (auto; reflexivity).
  rewrite (strip_kind _ KScheduleFrom) by (auto; reflexivity).
  rewrite <- keep_none. f_equal. apply keep_ext.
  intros j _. now destruct j.
Qed.

Lemma firstn_length_app (a b : jsstring) : firstn (length a) (a ++ b) = a.
Proof. induction a; cbn; [reflexivity|now f_equal]. Qed.

Lemma skipn_length_app (a b : jsstring) : skipn (length a) (a ++ b) = b.
Proof. induction a; cbn; [reflexivity|assumption]. Qed.

(** C6, amended.  Take a task line made of its checkbox prefix and a
    text in which each of the tags [[id::..]], [[parent::..]],
    [[uid::..]], [[< DATE]], [[> DATE]] stands at most once, well formed
    and with no tag of another kind opening in its value, and which apart
    from these tags holds none of the openings [[id::], [[parent::],
    [[uid::], [[<], [[>], also not once the tags are taken out.  Then
    [normalizeMetadataOrder] returns the prefix, the text without the tags
    and the white space before them, trimmed at the end, and the tags that
    were present, each after one space, in the order id, parent, uid,
    scheduleFrom, scheduleTo. *)
Theorem normalizeMetadataOrder_canonical :
  forall P items last,
    prefix_shape P ->
    head_not is_ws (flat items last) ->
    items_ok items ->
    NoDup (kinds items) ->
    (forall k, includes (opener k) (text items last) = false) ->
    normalizeMetadataOrder (P ++ flat items last)
    = P ++ trimEnd (text items last)
      ++ flat_map (fun k => match tagOf k items with
                            | Some g => L " " ++ renderTag k (value g)
                            | None => []
                            end) canonicalOrder.
Proof.
  intros P items last HP Hh Hok Hnd Hi. unfold normalizeMetadataOrder.
  rewrite (prefix_is_task P _ HP), (match_len_prefix P _ HP Hh).
  cbn [negb]. rewrite firstn_length_app, skipn_length_app.
  rewrite (stripMetadata_flat items last Hok Hnd Hi).
  change (capture1 ID_PATTERN) with (capture KId).
  change (capture1 PARENT_ID_PATTERN) with (capture KParent).
  change (capture1 UID_PATTERN) with (capture KUid).
  change (captureDate SCHEDULE_FROM_PATTERN) with (capture KScheduleFrom).
  change (captureDate SCHEDULE_TO_PATTERN) with (capture KScheduleTo).
  rewrite !capture_flat by auto.
  unfold canonicalOrder, push_tag. cbn [flat_map].
  destruct (tagOf KId items); destruct (tagOf KParent items);
    destruct (tagOf KUid items); destruct (tagOf KScheduleFrom items);
    destruct (tagOf KScheduleTo items);
    cbn [app option_map renderTag]; rewrite join_cons, <- app_assoc;
    reflexivity.
Qed.

End Canonical.

Lemma normalizeMetadataOrder_canonical_witness :
  TaskUtils.normalizeMetadataOrder
    (L "- [ ] Call [>  2025-01-12] dentist   [parent::p1] [id::t-xy]")
  = L "- [ ] Call dentist [id::t-xy] [parent::p1] [> 2025-01-12]".
Proof.
  apply (normalizeMetadataOrder_canonical
           (L "- [ ] ")
           [(L "Call",
             {| gap := L " "; kind := KScheduleTo; inner := L "  ";
                value := L "2025-01-12" |});
            (L " dentist",
             {| gap := L "   "; kind := KParent; inner := [];
                value := L "p1" |});
            ([],
             {| gap := L " "; kind := KId; inner := [];
                value := L "t-xy" |})]
           []).
  - apply (Prefix_shape [] 32%N (L " ")); [constructor|reflexivity|].
    repeat constructor.
  - reflexivity.
  - repeat constructor; try discriminate;
      intros k _; destruct k; reflexivity.
  - repeat constructor; cbn; intros H;
      repeat (destruct H as [H|H]; [discriminate|]); exact H.
  - intros k. destruct k; reflexivity.
Defined.

(** Not every task line is brought to the canonical form.  Of two
    [[id::..]] tags both are removed and only the first is written back:
    the second is lost.  And where a tag stands inside another text in
    brackets, its removal leaves a tag behind that stays in the middle of
    the text; normalizing once more moves it. *)
Lemma normalizeMetadataOrder_nested_or_repeated :
  (TaskUtils.isTask (L "- [ ] a [id::one] b [id::two]") = true /\
   TaskUtils.normalizeMetadataOrder (L "- [ ] a [id::one] b [id::two]")
   = L "- [ ] a b [id::one]" /\
   includes (L "[id::two]")
     (TaskUtils.normalizeMetadataOrder (L "- [ ] a [id::one] b [id::two]"))
   = false) /\
  (TaskUtils.isTask (L "- [ ] [i[parent::p]d::x] text") = true /\
   TaskUtils.normalizeMetadataOrder (L "- [ ] [i[parent::p]d::x] text")
   = L "- [ ] [id::x] text [parent::p]" /\
   TaskUtils.normalizeMetadataOrder (L "- [ ] [id::x] text [parent::p]")
   = L "- [ ]  text [id::x] [parent::p]").
Proof. vm_compute. repeat split; reflexivity. Qed.
